(* ===== verification/_CoqProject ===== *)
-Q . S2P
Prelude.v
Format.v
Structs.v
ProcFs.v
Kernel.v
Access.v
Names.v
Tables.v
Threads.v
Info.v
ExeFile.v
Links.v
Mounts.v
MemFiles.v
MemWrite.v
Controls.v
Inodes.v
Dirs.v
Flush.v
NoProcFs.v
Procs.v
Tasks.v
CharDev.v
UserPath.v
CallTable.v
Spies.v
NodeMarks.v
Modules.v
Demos.v
Ifconf.v
Agree.v
Ops.v
Leaks.v
Returns.v
Handles.v
