(* ===== verification/Prelude.v ===== *)
(** * Verification of the kernel-study repository

    The repository holds a copy of [fs/proc/base.c] (the part of the Linux proc
    file system that shows processes, 2.6.27) extended with a replaceable
    hook, the header [include/linux/proc_fs.h] that goes with it, and a dozen
    small kernel modules that experiment with character devices, with replacing
    system calls and the hook, and with marking processes as belonging to a
    honeypot node. This library models that code and proves what makes it
    correct, or shows where it is not. Line numbers are in PROJECT.json.

    ** The program, and the file that models each part

    fs/proc/base.c is one program with these parts:

    - the checks and helpers that reach a task's memory, root, directory and
      thread count: [Access] ([get_fs_path], [mm_for_maps],
      [check_mem_permission], [proc_fd_access_allowed], [proc_setattr],
      [task_dumpable]);
    - the entry tables of /proc, /proc/<tgid>, /proc/<tgid>/task/<tid> and attr,
      for every kernel configuration (class [Config]): [Tables];
    - the functions that write the text of a file: [Info];
    - the executable of an address space ([mm->exe_file] and its counter, also
      in proc_fs.h) with the life cycle of address spaces: [ExeFile];
    - the links cwd, root, exe, fd/<n> and self, and fdinfo: [Links];
    - mounts, mountinfo and mountstats: [Mounts];
    - the reads that go through a page or a seq file, mem and environ:
      [MemFiles]; [mem_write], which the source leaves out: [MemWrite];
    - the files that can be written (oom_adj, loginuid, make-it-fail, sched,
      attr/*, coredump_filter): [Controls];
    - the inodes and dentries of tasks, with the [instantiate] functions:
      [Inodes];
    - lookup and readdir of the table directories and of fd and fdinfo: [Dirs];
    - [proc_flush_task]: [Flush];
    - the processes of /proc, [next_tgid] and the hook: [Procs];
    - the threads of /proc/<tgid>/task: [Tasks];
    - the tables of function pointers and the calls made through them: [Ops];
    - what all of these calls leave behind: [Leaks]; that they return:
      [Returns]; and what files own while they are open: [Handles].

    proc_fs.h has besides the entries that other subsystems make and the layout
    of [struct proc_inode], with [PROC_I]: [ProcFs]; and the stubs of a kernel
    that is built without proc: [NoProcFs].

    [Names] and [Format] model the numbers in names and texts, [Threads] the
    ring that [next_thread] walks, and [Agree] runs listing and lookup one after
    the other.

    The modules: [CharDev] is chardev/chardev.c; [UserPath] the rewriting of path
    names by home_hack/home_hack.c and the spying [open] of syscall/syscall.c and
    kmap/kmap.c; [CallTable] the replacing of functions by home_hack, proc_hack
    and kmap; [Spies] the whole of syscall/syscall.c, and syscall and home_hack
    on one call table; [NodeMarks] the marking of tasks by home_hack and proc_hack, the walks
    of module_param and process, and the function that proc_hack installs;
    [Modules] the whole of home_hack and proc_hack, list/list.c, secfs/secfs.c
    and mmap/kill_syscalltable.c; [Demos] the modules that print (hello-1,
    hello-5, multifile, security_ops_hack, and the removal of process and
    module_param); [Ifconf] the programs siocgifconf and miniifconf of
    home_hack.

    ** How the code is modelled

    Data. Integers are [Z], with the wrap-around of every C type written out
    ([u32], [s32], [u64], [s64], and [ulong]/[slong] at the width of the class
    [Arch], 32 or 64 bit); strings and buffers are lists of byte values.
    [Structs] has a record per struct with the fields that the code touches, and
    [kmem], the shared store in which pointers are keys: an inode, dentry, file
    or task that two functions reach is one object.

    Programs. Kernel code is a [prog] ([Kernel]): it reads and writes the store
    and calls the functions of the rest of the kernel, of which only the prototype
    is known here. Each of these is an operation [op]; an environment decides
    what it answers and what it does to the store. [run] executes a program in an
    environment; a world also records the calls made ([log]), the locks and
    references held ([held]) and the rules of the interface broken ([bad]: a
    reference given back that is not held, a function called without the lock
    it asks for). Accesses outside an object and reads of the wrong member of
    [union proc_op] halt the program.

    Statements. [ends E p w Q] says that [p] ends normally in environment [E], in
    a result and a world that satisfy [Q]. Termination is therefore part of every
    theorem about a program. [E] is arbitrary where the theorem is about what the
    code does whatever the kernel answers; [fixed A], one arbitrary answer for
    every operation, where it is about the function the code computes; and an
    environment that keeps a contract ([keeps E R]) where the code relies on
    something. The contracts are: [dcache] ([d_add] attaches the inode),
    [dir_stable] (open files and dentries move only under the code's own hands),
    [live_kernel] with a [live_view] (processes come and go while /proc is read),
    [live_files] and [fd_kernel] with a [live_table] (files are opened and closed
    while fd is read), [growing_kernel] with a [growing_group] (threads join
    while task is read), [fd_table], [pid_kernel] with [pid_space],
    [group_kernel] with [thread_group] (the file table, the pids and the threads
    do not change during the reading), [vm_contract] ([access_process_vm] transfers at most
    what it was asked for) and [marks_kept] (the rest of the kernel does not
    change the union), [target] and [taker] (what the memory of a process and of
    the user holds), and [orderly], which puts [dir_stable], [marks_kept] and [vm_contract] together with the
    end of the auxiliary vector, the depth of pids and a bound on open files
    ([Returns]). Every contract is met by a concrete environment in a
    witness. [wp] is the weakest precondition with which the theorems are proved,
    and [wlp], [wsafe], [framed], [shows], [calm], [unmoved], [typing], [settles],
    [turns], [tame], [returns] and [abides] are judgements proved by going through the syntax of a program.

    Fuel. A loop that is not structural takes a [fuel], and running out of it is
    a fault, which the theorems exclude: the number of pids bounds [next_tgid]
    and the loop over processes, the number of threads those over threads, the
    size of the file table the one over descriptors, [count] those of mem and
    environ, the length of the task list the marking, and the number of
    entries the loop of the list module.

    ** What the theorems show

    Listing: a reading of /proc terminates and offers every process that lives
    all the time exactly once, in ascending order, whatever other processes
    come and go (and exactly the processes, if none does), a directory with a table lists every entry once however
    the reading is cut into calls, /proc/<tgid>/task every thread once in the order
    of joining, whatever threads join, a call that stops early resuming at the entry
    that was refused - but a thread that exits can hide others -, fd and fdinfo every descriptor that stays open ([Procs], [Dirs], [Tasks]); the hook runs
    before every entry of a process, and only there, and can hide none ([Procs],
    [NodeMarks]).

    Lookup: names are parsed exactly ([Names]), the directories made from
    tables find exactly what they list, /proc finds what it lists and beyond that the threads it hides, a
    task directory finds exactly what it lists, and fd and fdinfo find every
    descriptor that stays open ([Agree]); every lookup and
    [instantiate] function gives back all it took ([Tasks], [Inodes]).

    Access: memory is read only under the permission check, which is repeated
    for every page ([MemFiles], [Access]); a writing of mem would store what the
    user gave, but ask once ([MemWrite]); links are followed only with
    permission and report the path of the right object ([Links]); inodes are
    re-owned as the task's credentials ask ([Inodes]).

    Resources: whatever sequence of accesses is made and wherever each of them
    fails, exactly the references, locks, pages and buffers are held afterwards
    that were held before, and one function only breaks a locking rule ([Leaks]).
    Called as the VFS calls it, every access but three returns, without a
    fault of any kind ([Returns]); the three walks over other tasks, of /proc, of a
    task directory and of a group's io, have theorems of their own ([Procs],
    [Tasks], [Info]). An open file and a walk through a link keep references
    beyond the call: over all interleavings of opening, using, releasing and
    following, what is held is exactly what they own, and it can be released
    ([Handles]).

    State: the executable's references balance over the life of any family of
    address spaces ([ExeFile]); the union in an inode always holds the member that
    is read, an invariant of everything the VFS can call ([Ops]); opening a mount
    file is all or nothing, and a change is reported once ([Mounts]); a value
    written to a control file is read back ([Controls]); every dentry of an
    exiting task is dropped in each of its namespaces ([Flush]). [PROC_I] of an inode is the [proc_inode] it is in, for any
    layout ([ProcFs]), which is why the model has one record for both.

    Modules: the device implements an abstract device, in both directions
    ([CharDev]); loading home_hack is all or nothing and removing it restores the
    call table ([Modules], [CallTable]), but not if syscall is removed before it
    ([Spies]); the path it writes is undone byte for
    byte, for every node and whatever can be read or written there
    ([UserPath]); every task is marked with its node ([NodeMarks]); the list
    module frees each object once ([Modules]).

    Where the code does not do what it means to, a theorem says so: the length of
    the environment is cut to an [int], number files store 0 before they report
    an error, [proc_loginuid_write] calls [pid_task] without a lock,
    [proc_fill_cache] keeps the reference of a negative dentry, the threads'
    fdinfo directory lists with the operations of fd, the comment of
    [proc_flush_task_mnt] promises more than it does, kmap's first load
    overwrites a word that is not the table's and it does not look whether [vmap]
    failed, two opens of the device that overlap both succeed, a path is rewritten
    in part where memory cannot be written, the hook's result is ignored, node directories collide, a
    process given to proc_hack without a node gets node 0, an entry made by
    [create_proc_read_entry] can be read before it is complete,
    kill_syscalltable reads outside its mapping, siocgifconf and miniifconf
    print their stack when the ioctl fails, and hello-5 prints an array that is
    no parameter.

    ** What is not modelled, and why

    The rest of the kernel (scheduler, VFS, dcache, seq files, user memory, the
    show functions of other files) is not in the repository: its functions are
    operations. A concurrent change of the store between two calls is an answer of
    the environment, which may change everything its contract allows; a change
    between two statements without a call is not modelled. Calls of the small
    modules do not overlap, except two opens of the device ([CharDev]). The bodies of the wrappers
    [sys_*_wrapper] that home_hack installs are not in the repository. What
    [printk] prints is modelled where it is the purpose of the code or its only
    warning (list, process, syscall, hello-1, hello-5, multifile). *)
From Stdlib Require Export ZArith Lia String Ascii Sorted.
From stdpp Require Export prelude gmap list strings.

#[global] Open Scope Z_scope.

(** ** Automation databases of the development *)

Create HintDb kstudy.
Create HintDb kbytes.

(** ** Bytes and strings

    A C string or buffer is the list of the values of its [char]s, each in
    [0..255]; the terminating NUL is written only where the code can see it. *)

Notation bytes := (list Z).

Definition byte_of_ascii (c : ascii) : Z := Z.of_N (N_of_ascii c).

(** The bytes of a C string literal. *)
Fixpoint str (s : string) : bytes :=
  match s with
  | EmptyString => []
  | String c s => byte_of_ascii c :: str s
  end.

Notation "'NL'" := 10 (only parsing).

(** Number of bytes, as a C [int]-like quantity. *)
Definition len {A} (l : list A) : Z := Z.of_nat (length l).

Lemma len_nil {A} : len (@nil A) = 0.
Proof. reflexivity. Qed.

Lemma len_cons {A} (x : A) l : len (x :: l) = 1 + len l.
Proof. unfold len. cbn [length]. lia. Qed.

Lemma len_app {A} (l k : list A) : len (l ++ k) = len l + len k.
Proof. unfold len. rewrite length_app. lia. Qed.

Lemma len_nonneg {A} (l : list A) : 0 <= len l.
Proof. unfold len. lia. Qed.

Lemma len_fmap {A B} (f : A -> B) l : len (f <$> l) = len l.
Proof. unfold len. by rewrite length_fmap. Qed.

#[export] Hint Rewrite @len_nil @len_cons @len_app @len_fmap : kbytes.
#[export] Hint Resolve len_nonneg : kstudy.

(** [take]/[drop] with C integers; a negative count takes nothing. *)
Definition ztake {A} (n : Z) (l : list A) : list A := take (Z.to_nat n) l.
Definition zdrop {A} (n : Z) (l : list A) : list A := drop (Z.to_nat n) l.

Lemma len_ztake {A} n (l : list A) : 0 <= n -> len (ztake n l) = Z.min n (len l).
Proof. intros Hn. unfold len, ztake. rewrite length_take. lia. Qed.

Lemma ztake_zdrop {A} n (l : list A) : ztake n l ++ zdrop n l = l.
Proof. apply take_drop. Qed.

Lemma len_zdrop {A} n (l : list A) : 0 <= n -> len (zdrop n l) = Z.max 0 (len l - n).
Proof. intros Hn. unfold len, zdrop. rewrite length_drop. lia. Qed.

(** *** What is met on a way upward

    [spans must may from upto S]: of the numbers in [from .. upto), [S] has, in
    ascending order, only such as may be met and all that must be. *)
Definition spans (must may : Z -> Prop) (from upto : Z) (S : list Z) : Prop :=
  StronglySorted Z.lt S /\ (forall n, n ∈ S -> from <= n < upto /\ may n) /\
  (forall n, must n -> from <= n < upto -> n ∈ S).

Section Spans.
Context {must may : Z -> Prop}.

Lemma spans_nil from upto : (forall n, from <= n < upto -> ~ must n) -> spans must may from upto [].
Proof.
  intros Hno. split; [constructor|]. split; [intros n Hn; by apply elem_of_nil in Hn|]. intros n Hs Hn. by destruct (Hno n Hn).
Qed.

Lemma spans_skip from t upto S : from <= t -> (forall n, from <= n < t -> ~ must n) ->
  spans must may t upto S -> spans must may from upto S.
Proof.
  intros Ht Hno (Hs & Hin & Hall). split_and!; [done| |].
  - intros n Hn. apply Hin in Hn as [Hn Hm]. split; [lia|done].
  - intros n Hn Hr. destruct (Z.lt_ge_cases n t); [destruct (Hno n); [lia|done]|apply Hall; [done|lia]].
Qed.

Lemma spans_app a b c S1 S2 : a <= b <= c -> spans must may a b S1 -> spans must may b c S2 -> spans must may a c (S1 ++ S2).
Proof.
  intros Hab (Hs1 & H1 & Ha1) (Hs2 & H2 & Ha2). split_and!.
  - assert (Hlt : Forall (fun x => Forall (Z.lt x) S2) S1).
    { apply Forall_forall. intros x Hx. apply Forall_forall. intros y Hy. apply H1 in Hx. apply H2 in Hy. lia. }
    clear -Hs1 Hs2 Hlt. induction Hs1 as [|x S1 Hs1 IH Hx]; [done|]. apply Forall_cons in Hlt as [Hxl Hlt]. cbn.
    constructor; [by apply IH|]. by apply Forall_app.
  - intros n [Hn|Hn]%elem_of_app; [apply H1 in Hn as [? ?]|apply H2 in Hn as [? ?]]; (split; [lia|done]).
  - intros n Hn Hr. rewrite elem_of_app. destruct (Z.lt_ge_cases n b); [left; apply Ha1|right; apply Ha2]; (done || lia).
Qed.

Lemma spans_cons from t upto S : from <= t < upto -> may t -> (forall n, from <= n < t -> ~ must n) ->
  spans must may (t + 1) upto S -> spans must may from upto (t :: S).
Proof.
  intros Ht Hl Hno HS. apply (spans_skip from t); [lia|done|]. apply (spans_app t (t + 1) upto [t]); [lia| |done].
  split_and!.
  - repeat constructor.
  - intros n ->%list_elem_of_singleton. split; [lia|done].
  - intros n _ Hn. apply list_elem_of_singleton. lia.
Qed.
End Spans.

(** When nothing may be met but what must be, that determines the list. *)
Lemma spans_elem P from upto S : spans P P from upto S -> forall n, n ∈ S <-> from <= n < upto /\ P n.
Proof. intros (_ & Hin & Hall) n. split; [apply Hin|]. intros [Hr Hn]. by apply Hall. Qed.

Lemma sorted_elem_unique S1 S2 : StronglySorted Z.lt S1 -> StronglySorted Z.lt S2 -> (forall n, n ∈ S1 <-> n ∈ S2) -> S1 = S2.
Proof.
  intros H1. revert S2. induction H1 as [|x S1 H1 IH Hx]; intros [|y S2] H2 Heq.
  - done.
  - exfalso. apply (elem_of_nil y), Heq. left.
  - exfalso. apply (elem_of_nil x), Heq. left.
  - inversion_clear H2 as [|? ? H2' Hy]. rewrite Forall_forall in Hx, Hy.
    assert (x = y) as ->.
    { destruct (proj1 (elem_of_cons _ _ _) (proj1 (Heq x) ltac:(left))) as [|Hxin]; [done|].
      destruct (proj1 (elem_of_cons _ _ _) (proj2 (Heq y) ltac:(left))) as [|Hyin]; [done|].
      apply Hy in Hxin. apply Hx in Hyin. lia. }
    f_equal. apply IH; [done|]. intros n. split; intros Hn.
    + destruct (proj1 (elem_of_cons _ _ _) (proj1 (Heq n) ltac:(by right))) as [->|]; [|done]. apply Hx in Hn. lia.
    + destruct (proj1 (elem_of_cons _ _ _) (proj2 (Heq n) ltac:(by right))) as [->|]; [|done]. apply Hy in Hn. lia.
Qed.

(** The byte at an index; what lies beyond the modelled bytes reads as NUL. *)
Definition zbyte (l : bytes) (i : Z) : Z :=
  if i <? 0 then 0 else default 0 (l !! Z.to_nat i).

(** [strnlen(s, n)]: the length of the string in a buffer of [n] bytes. *)
Fixpoint strlen (l : bytes) : Z :=
  match l with
  | [] => 0
  | c :: l => if c =? 0 then 0 else 1 + strlen l
  end.

Definition strnlen (l : bytes) (n : Z) : Z := strlen (ztake n l).

Lemma strlen_bounds l : 0 <= strlen l <= len l.
Proof.
  induction l as [|c l IH]; [done|]. rewrite len_cons. cbn [strlen].
  case_match; pose proof (len_nonneg l); lia.
Qed.

Lemma strnlen_bounds l n : 0 <= n -> 0 <= strnlen l n <= n.
Proof.
  intros Hn. unfold strnlen. pose proof (strlen_bounds (ztake n l)).
  rewrite (len_ztake n l Hn) in H. lia.
Qed.

Lemma strnlen_len l n : 0 <= n -> strnlen l n <= len l.
Proof.
  intros Hn. unfold strnlen. pose proof (strlen_bounds (ztake n l)).
  rewrite (len_ztake n l Hn) in H. lia.
Qed.

(** [if (x > limit) x = limit;] *)
Definition cap (limit x : Z) : Z := if limit <? x then limit else x.

Lemma cap_min limit x : cap limit x = Z.min limit x.
Proof. unfold cap. destruct (Z.ltb_spec limit x); lia. Qed.

(** A NUL-free string is as long as its bytes. *)
Lemma strlen_nonul l : Forall (fun c => c <> 0) l -> strlen l = len l.
Proof.
  induction 1 as [|c l Hc _ IH]; [done|]. cbn [strlen]. rewrite len_cons, IH.
  destruct (Z.eqb_spec c 0); lia.
Qed.

(** ** Machine integers *)

Definition u32 (z : Z) : Z := z mod 2 ^ 32.
Definition s32 (z : Z) : Z := (z + 2 ^ 31) mod 2 ^ 32 - 2 ^ 31.
Definition u64 (z : Z) : Z := z mod 2 ^ 64.
Definition s64 (z : Z) : Z := (z + 2 ^ 63) mod 2 ^ 64 - 2 ^ 63.

(** The width of [long], [size_t] and pointers: the same source is built for
    32-bit and 64-bit kernels. *)
Class Arch := {
  BITS_PER_LONG : Z;
  bits_per_long_ok : BITS_PER_LONG = 32 \/ BITS_PER_LONG = 64;
}.

Definition ulong `{Arch} (z : Z) : Z := z mod 2 ^ BITS_PER_LONG.
Definition slong `{Arch} (z : Z) : Z :=
  (z + 2 ^ (BITS_PER_LONG - 1)) mod 2 ^ BITS_PER_LONG - 2 ^ (BITS_PER_LONG - 1).

Definition arch32 : Arch := {| BITS_PER_LONG := 32; bits_per_long_ok := or_introl eq_refl |}.
Definition arch64 : Arch := {| BITS_PER_LONG := 64; bits_per_long_ok := or_intror eq_refl |}.

Lemma u32_range z : 0 <= u32 z < 2 ^ 32.
Proof. apply Z.mod_pos_bound. lia. Qed.

Lemma u32_small z : 0 <= z < 2 ^ 32 -> u32 z = z.
Proof. apply Z.mod_small. Qed.

Lemma s32_range z : - 2 ^ 31 <= s32 z < 2 ^ 31.
Proof. unfold s32. pose proof (Z.mod_pos_bound (z + 2 ^ 31) (2 ^ 32)). lia. Qed.

Lemma s32_small z : - 2 ^ 31 <= z < 2 ^ 31 -> s32 z = z.
Proof. intros H. unfold s32. rewrite Z.mod_small; lia. Qed.

Lemma u64_range z : 0 <= u64 z < 2 ^ 64.
Proof. apply Z.mod_pos_bound. lia. Qed.

Lemma u64_small z : 0 <= z < 2 ^ 64 -> u64 z = z.
Proof. apply Z.mod_small. Qed.

Lemma ulong_pow `{Arch} : 2 ^ 32 <= 2 ^ BITS_PER_LONG <= 2 ^ 64.
Proof. destruct bits_per_long_ok as [-> | ->]; lia. Qed.

Lemma ulong_range `{Arch} z : 0 <= ulong z < 2 ^ BITS_PER_LONG.
Proof. apply Z.mod_pos_bound. pose proof ulong_pow. lia. Qed.

Lemma ulong_small `{Arch} z : 0 <= z < 2 ^ BITS_PER_LONG -> ulong z = z.
Proof. apply Z.mod_small. Qed.

Lemma ulong_idemp `{Arch} z : ulong (ulong z) = ulong z.
Proof. unfold ulong. apply Z.mod_mod. pose proof ulong_pow. lia. Qed.

Lemma ulong_add_l `{Arch} a b : ulong (ulong a + b) = ulong (a + b).
Proof. unfold ulong. apply Z.add_mod_idemp_l. pose proof ulong_pow. lia. Qed.

Lemma s32_ulong `{Arch} z : s32 (ulong z) = s32 z.
Proof.
  assert (Hd : (2 ^ 32 | 2 ^ BITS_PER_LONG)).
  { destruct bits_per_long_ok as [-> | ->]; [exists 1|exists (2 ^ 32)]; lia. }
  unfold s32, ulong. rewrite <- Z.add_mod_idemp_l by lia. rewrite Z.mod_mod_divide by done.
  by rewrite Z.add_mod_idemp_l by lia.
Qed.

#[export] Hint Resolve u32_range s32_range u64_range ulong_range : kstudy.

(** ** The constants of the kernel's interface used by the code *)

Definition EPERM := 1.
Definition ENOENT := 2.
Definition ESRCH := 3.
Definition EIO := 5.
Definition ENOMEM := 12.
Definition EACCES := 13.
Definition EFAULT := 14.
Definition EBUSY := 16.
Definition ENODEV := 19.
Definition EINVAL := 22.

Definition PAGE_SIZE := 4096.
