(* ===== verification/Format.v ===== *)
(** * Number and text formatting

    The part of the [printf] family the modelled code uses: [%d], [%u], [%lu],
    [%llu], [%x], [%o], zero padding ([%05ld], [%08lx]) and left-justified
    fields ([%-25s]); with the length bounds that the callers' buffers rely
    on, and the value of a digit string, which the parsers of names invert. *)
From S2P Require Import Prelude.

(** The character of a digit: '0'..'9', then 'a'..'f'. *)
Definition digit (d : Z) : Z := if d <? 10 then 48 + d else 87 + d.

(** The digits of [n >= 0] in [base], most significant first, no leading
    zero; [fuel] bounds the number of digits. *)
Fixpoint digits_go (fuel : nat) (base n : Z) : bytes :=
  match fuel with
  | O => []
  | S fuel =>
      if n <? base then [digit n]
      else digits_go fuel base (n / base) ++ [digit (n mod base)]
  end.

Definition digits (base n : Z) : bytes := digits_go (S (Z.to_nat (Z.log2 n))) base n.

(** [%d] / [%i] / [%li] of a signed value, [%u] / [%lu] / [%llu] of an
    unsigned one, [%x], [%o]. *)
Definition fmt_u (n : Z) : bytes := digits 10 n.
Definition fmt_d (n : Z) : bytes := if n <? 0 then 45 :: digits 10 (- n) else digits 10 n.
Definition fmt_x (n : Z) : bytes := digits 16 n.
Definition fmt_o (n : Z) : bytes := digits 8 n.

(** [%0wX] of a non-negative number, and of a signed one (the sign first). *)
Definition zero_pad (w : Z) (s : bytes) : bytes :=
  replicate (Z.to_nat (w - len s)) 48 ++ s.
Definition fmt_0d (w n : Z) : bytes :=
  if n <? 0 then 45 :: zero_pad (w - 1) (digits 10 (- n)) else zero_pad w (digits 10 n).

(** [%-ws]. *)
Definition left_field (w : Z) (s : bytes) : bytes :=
  s ++ replicate (Z.to_nat (w - len s)) 32.

(** [snprintf(buf, size, ...)]: what the buffer holds before its NUL, and the
    returned length (that of the whole text, even when it was cut). *)
Definition snprintf (size : Z) (text : bytes) : bytes * Z :=
  (ztake (size - 1) text, len text).

(** [scnprintf] returns the length actually stored. *)
Definition scnprintf (size : Z) (text : bytes) : bytes * Z :=
  let stored := ztake (size - 1) text in (stored, len stored).

Lemma digits_go_fuel base n f g :
  2 <= base -> 0 <= n < 2 ^ Z.of_nat f -> 0 <= n < 2 ^ Z.of_nat g -> (0 < f)%nat -> (0 < g)%nat ->
  digits_go f base n = digits_go g base n.
Proof.
  intros Hb. revert g n. induction f as [|f IH]; intros g n Hf Hg Hf0 Hg0; [lia|].
  destruct g as [|g]; [lia|]. cbn [digits_go]. destruct (Z.ltb_spec n base); [done|].
  rewrite !Nat2Z.inj_succ, !Z.pow_succ_r in * by lia. f_equal.
  assert (0 <= n / base < n) by (split; [apply Z.div_pos|apply Z.div_lt]; lia).
  assert (n / base <= n / 2) by (apply Z.div_le_compat_l; lia).
  assert (n / 2 < 2 ^ Z.of_nat f) by (apply Z.div_lt_upper_bound; lia).
  assert (n / 2 < 2 ^ Z.of_nat g) by (apply Z.div_lt_upper_bound; lia).
  assert (1 <= n / base) by (apply Z.div_le_lower_bound; lia).
  destruct f as [|f]; [cbn in *; lia|]. destruct g as [|g]; [cbn in *; lia|].
  apply IH; lia.
Qed.

Lemma log2_fuel n : 0 <= n -> 0 <= n < 2 ^ Z.of_nat (S (Z.to_nat (Z.log2 n))).
Proof.
  intros Hn. split; [lia|]. rewrite Nat2Z.inj_succ, Z2Nat.id by apply Z.log2_nonneg.
  destruct (Z.eq_dec n 0) as [->|]; [cbn; lia|]. apply Z.log2_spec. lia.
Qed.

(** The fuel of [digits] is enough: it satisfies the recursion of the
    decimal system without any. *)
Lemma digits_unfold base n : 2 <= base -> 0 <= n ->
  digits base n =
    if n <? base then [digit n] else digits base (n / base) ++ [digit (n mod base)].
Proof.
  intros Hb Hn. unfold digits at 1. cbn [digits_go]. destruct (Z.ltb_spec n base); [done|].
  f_equal. unfold digits.
  assert (1 <= n / base) by (apply Z.div_le_lower_bound; lia).
  assert (n / base <= n / 2) by (apply Z.div_le_compat_l; lia).
  assert (Hl : 1 <= Z.log2 n) by (apply Z.log2_le_pow2; lia).
  pose proof (log2_fuel n Hn) as Hf. rewrite Nat2Z.inj_succ, Z.pow_succ_r in Hf by lia.
  assert (n / 2 < 2 ^ Z.of_nat (Z.to_nat (Z.log2 n))) by (apply Z.div_lt_upper_bound; lia).
  apply digits_go_fuel; try lia. apply log2_fuel. lia.
Qed.

(** Induction along the digits of a number. *)
Lemma digits_ind (P : Z -> Prop) (base : Z) : 2 <= base ->
  (forall n, 0 <= n < base -> P n) ->
  (forall n, base <= n -> P (n / base) -> P n) ->
  forall n, 0 <= n -> P n.
Proof.
  intros Hb H0 HS n. induction (Z.lt_wf 0 n) as [n _ IH]. intros Hn.
  destruct (Z.lt_ge_cases n base); [apply H0; lia|]. apply HS; [lia|].
  assert (0 <= n / base < n) by (split; [apply Z.div_pos|apply Z.div_lt]; lia).
  apply IH; lia.
Qed.

(** ** Lengths *)

Lemma len_digits_bound base n k : 2 <= base -> 0 < k -> 0 <= n < base ^ k ->
  1 <= len (digits base n) <= k.
Proof.
  intros Hb Hk [Hn Hlt]. revert k Hk Hlt. pattern n.
  apply (digits_ind _ base Hb); [| |done]; clear n Hn; intros n Hn.
  - intros k Hk _. rewrite digits_unfold by lia. destruct (Z.ltb_spec n base); [rewrite len_cons, len_nil; lia|lia].
  - intros IH k Hk Hlt. rewrite digits_unfold by lia. destruct (Z.ltb_spec n base); [lia|].
    autorewrite with kbytes. destruct (Z.eq_dec k 1) as [->|]; [lia|].
    specialize (IH (k - 1) ltac:(lia)).
    assert (n / base < base ^ (k - 1)).
    { apply Z.div_lt_upper_bound; [lia|]. rewrite <- Z.pow_succ_r by lia.
      by replace (Z.succ (k - 1)) with k by lia. }
    lia.
Qed.

Lemma len_zero_pad w s : len (zero_pad w s) = Z.max w (len s).
Proof. unfold zero_pad, len. rewrite length_app, length_replicate. lia. Qed.

Lemma len_left_field w s : len (left_field w s) = Z.max w (len s).
Proof. unfold left_field, len. rewrite length_app, length_replicate. lia. Qed.

#[export] Hint Rewrite len_zero_pad len_left_field : kbytes.

(** A 32-bit [%d] takes at most 11 characters, a 64-bit [%llu] at most 20. *)
Lemma len_fmt_d32 n : - 2 ^ 31 <= n < 2 ^ 31 -> 1 <= len (fmt_d n) <= 11.
Proof.
  intros Hn. unfold fmt_d. destruct (Z.ltb_spec n 0); [rewrite len_cons|].
  - pose proof (len_digits_bound 10 (- n) 10). lia.
  - pose proof (len_digits_bound 10 n 10). lia.
Qed.

Lemma len_fmt_d64 n : - 2 ^ 63 <= n < 2 ^ 63 -> 1 <= len (fmt_d n) <= 20.
Proof.
  intros Hn. unfold fmt_d. destruct (Z.ltb_spec n 0).
  - rewrite len_cons. pose proof (len_digits_bound 10 (- n) 19). lia.
  - pose proof (len_digits_bound 10 n 19). lia.
Qed.

Lemma len_fmt_u64 n : 0 <= n < 2 ^ 64 -> 1 <= len (fmt_u n) <= 20.
Proof. intros Hn. pose proof (len_digits_bound 10 n 20). unfold fmt_u. lia. Qed.

Lemma len_fmt_u32 n : 0 <= n < 2 ^ 32 -> 1 <= len (fmt_u n) <= 10.
Proof. intros Hn. pose proof (len_digits_bound 10 n 10). unfold fmt_u. lia. Qed.

(** ** Characters: every digit is a printable, NUL-free character *)

Lemma digits_chars base n : 2 <= base <= 16 -> 0 <= n -> Forall (fun c => 48 <= c <= 102) (digits base n).
Proof.
  intros Hb Hn. pattern n. apply (digits_ind _ base); [lia| | |done]; clear n Hn; intros n Hn.
  - rewrite digits_unfold by lia. destruct (Z.ltb_spec n base); [|lia].
    repeat constructor; unfold digit; case_match; lia.
  - intros IH. rewrite digits_unfold by lia. destruct (Z.ltb_spec n base); [lia|].
    apply Forall_app; split; [done|]. pose proof (Z.mod_pos_bound n base).
    repeat constructor; unfold digit; case_match; lia.
Qed.

Lemma digits10_chars n : 0 <= n -> Forall (fun c => 48 <= c <= 57) (digits 10 n).
Proof.
  intros Hn. pattern n. apply (digits_ind _ 10); [lia| | |done]; clear n Hn; intros n Hn.
  - rewrite digits_unfold by lia. destruct (Z.ltb_spec n 10); [|lia].
    repeat constructor; unfold digit; case_match; lia.
  - intros IH. rewrite digits_unfold by lia. destruct (Z.ltb_spec n 10); [lia|].
    apply Forall_app; split; [done|]. pose proof (Z.mod_pos_bound n 10).
    repeat constructor; unfold digit; case_match; lia.
Qed.

(** ** The value of a decimal string *)

Definition digit_value (c : Z) : Z := c - 48.

Definition dec_value (s : bytes) : Z := fold_left (fun n c => n * 10 + digit_value c) s 0.

Lemma dec_value_snoc s c : dec_value (s ++ [c]) = dec_value s * 10 + digit_value c.
Proof. unfold dec_value. by rewrite fold_left_app. Qed.

Lemma dec_value_digits n : 0 <= n -> dec_value (digits 10 n) = n.
Proof.
  intros Hn. pattern n. apply (digits_ind _ 10); [lia| | |done]; clear n Hn; intros n Hn.
  - rewrite digits_unfold by lia. destruct (Z.ltb_spec n 10); [|lia].
    unfold dec_value, digit_value, digit. cbn. case_match; lia.
  - intros IH. rewrite digits_unfold by lia. destruct (Z.ltb_spec n 10); [lia|].
    rewrite dec_value_snoc, IH. unfold digit_value, digit.
    pose proof (Z.mod_pos_bound n 10). case_match; [|lia].
    pose proof (Z.div_mod n 10). lia.
Qed.

(** Canonical decimal strings: digits only, not empty, no superfluous zero. *)
Definition is_digit (c : Z) : bool := (48 <=? c) && (c <=? 57).

Definition canonical (s : bytes) : bool :=
  forallb is_digit s && match s with [] => false | [_] => true | c :: _ => negb (c =? 48) end.

(** The digits of a number are the canonical string with its value. *)
Lemma digits_head n : 0 < n -> exists c s, digits 10 n = c :: s /\ c <> 48.
Proof.
  intros Hn. assert (0 <= n) as H by lia. revert Hn. pattern n.
  apply (digits_ind _ 10); [lia| | |done]; clear n H; intros n Hn.
  - intros H0. rewrite digits_unfold by lia. destruct (Z.ltb_spec n 10); [|lia].
    exists (digit n), []. split; [done|]. unfold digit. case_match; lia.
  - intros IH _. rewrite digits_unfold by lia. destruct (Z.ltb_spec n 10); [lia|].
    destruct IH as (c & s & -> & Hc). { apply Z.div_str_pos. lia. }
    by exists c, (s ++ [digit (n mod 10)]).
Qed.

Lemma digits_canonical n : 0 <= n -> canonical (digits 10 n) = true.
Proof.
  intros Hn. destruct (Z.eq_dec n 0) as [->|]; [done|]. unfold canonical.
  destruct (digits_head n) as (c & s & Hs & Hc); [lia|].
  pose proof (digits10_chars n Hn) as Hall. rewrite Hs in *.
  assert (forallb is_digit (c :: s) = true) as ->.
  { apply forallb_forall. intros x Hx%list_elem_of_In. rewrite Forall_forall in Hall.
    specialize (Hall x Hx). unfold is_digit. lia. }
  destruct s; [done|]. by destruct (Z.eqb_spec c 48).
Qed.

Lemma dec_value_nonneg s : forallb is_digit s = true -> 0 <= dec_value s.
Proof.
  induction s as [|c s IH] using rev_ind; [done|].
  rewrite forallb_app, dec_value_snoc. cbn. unfold is_digit at 2, digit_value.
  intros [H1 H2]%andb_true_iff. specialize (IH H1). lia.
Qed.

Lemma canonical_digits s : canonical s = true -> forallb is_digit s = true.
Proof. by intros [H _]%andb_true_iff. Qed.

Lemma canonical_init s c : canonical (s ++ [c]) = true -> s <> [] -> canonical s = true /\ s <> [48].
Proof.
  unfold canonical. intros [Hd H]%andb_true_iff Hne. rewrite forallb_app in Hd.
  apply andb_true_iff in Hd as [-> _]. destruct s as [|c0 [|c1 s]]; [done| |by cbn in *; rewrite H].
  cbn in *. destruct (Z.eqb_spec c0 48); [done|]. split; [done|congruence].
Qed.

Lemma canonical_dec_value_pos s : canonical s = true -> s <> [48] -> 0 < dec_value s.
Proof.
  induction s as [|c s IH] using rev_ind; [done|]. intros Hc Hne.
  pose proof (canonical_digits _ Hc) as Hd. rewrite forallb_app in Hd.
  apply andb_true_iff in Hd as [Hd1 Hd2]. cbn in Hd2. rewrite andb_true_r in Hd2.
  rewrite dec_value_snoc. unfold digit_value, is_digit in *.
  destruct s as [|c0 s]. { cbn in *. assert (c <> 48) by congruence. unfold dec_value; cbn. lia. }
  destruct (canonical_init (c0 :: s) c Hc) as [Hc0 Hz]; [done|].
  assert (0 < dec_value (c0 :: s)) by (by apply IH). lia.
Qed.

Lemma digits_dec_value s : canonical s = true -> digits 10 (dec_value s) = s.
Proof.
  induction s as [|c s IH] using rev_ind; [done|]. intros Hc.
  pose proof (canonical_digits _ Hc) as Hd. rewrite forallb_app in Hd.
  apply andb_true_iff in Hd as [Hd1 Hd2]. cbn in Hd2. rewrite andb_true_r in Hd2.
  unfold is_digit in Hd2. rewrite dec_value_snoc. unfold digit_value.
  destruct (decide (s = [])) as [->|Hs].
  { change (dec_value []) with 0. rewrite digits_unfold, Z.mul_0_l, Z.add_0_l by lia.
    destruct (Z.ltb_spec (c - 48) 10); [|lia]. unfold digit. case_match; [|lia].
    cbn [app]. f_equal. lia. }
  destruct (canonical_init _ _ Hc Hs) as [Hcs Hne].
  pose proof (canonical_dec_value_pos s Hcs Hne) as Hpos.
  rewrite digits_unfold by lia. destruct (Z.ltb_spec (dec_value s * 10 + (c - 48)) 10); [lia|].
  rewrite (Z.add_comm (_ * 10)), Z.div_add, Z.div_small, Z.add_0_l, IH by (done || lia).
  rewrite Z.mod_add, Z.mod_small by lia. f_equal. unfold digit. case_match; [|lia]. f_equal. lia.
Qed.
