(* ===== verification/Structs.v ===== *)
(** * The kernel objects the code reads and writes

    One record per [struct] of which the modelled code touches fields, with
    those fields only, and [kmem], the shared store that holds them. Pointers
    are numbers, each kind in an address space of its own; a pointer that can
    be NULL is an [option]. *)
From S2P Require Import Prelude.

Notation task_id := nat (only parsing).
Notation signal_id := nat (only parsing).
Notation mm_id := nat (only parsing).
Notation fs_id := nat (only parsing).
Notation files_id := nat (only parsing).
Notation file_id := nat (only parsing).
Notation inode_id := nat (only parsing).
Notation dentry_id := nat (only parsing).
Notation pid_id := nat (only parsing).
Notation ns_id := nat (only parsing).
Notation mnt_id := nat (only parsing).
Notation mntns_id := nat (only parsing).
Notation nsproxy_id := nat (only parsing).
Notation ptr := nat (only parsing).

(** ** File modes (the values of <linux/stat.h>) *)

Definition S_IFMT := 61440.
Definition S_IFLNK := 40960.
Definition S_IFREG := 32768.
Definition S_IFDIR := 16384.
Definition S_ISUID := 2048.
Definition S_ISGID := 1024.
Definition S_IRUSR := 256.
Definition S_IWUSR := 128.
Definition S_IXUSR := 64.
Definition S_IRUGO := 292.
Definition S_IWUGO := 146.
Definition S_IXUGO := 73.
Definition S_IRWXUGO := 511.

Definition S_ISDIR (m : Z) : bool := Z.land m S_IFMT =? S_IFDIR.
Definition S_ISLNK (m : Z) : bool := Z.land m S_IFMT =? S_IFLNK.

(** ** Tables of functions

    A pointer to one of the file's operation tables is the table's name, and
    so is a pointer to a function stored in [union proc_op]. The tables and
    functions of other files that the entries mention are names too. *)

Inductive inode_operations :=
  | proc_def_inode_operations | proc_pid_link_inode_operations
  | proc_fd_inode_operations | proc_fdinfo_inode_operations
  | proc_attr_dir_inode_operations | proc_self_inode_operations
  | proc_tgid_base_inode_operations | proc_tid_base_inode_operations
  | proc_task_inode_operations | proc_net_inode_operations.

Inductive file_operations :=
  | proc_lstats_operations | proc_mounts_operations | proc_mountinfo_operations
  | proc_mountstats_operations | proc_info_file_operations | proc_single_file_operations
  | proc_mem_operations | proc_environ_operations | proc_oom_adjust_operations
  | proc_loginuid_operations | proc_sessionid_operations | proc_fault_inject_operations
  | proc_pid_sched_operations | proc_fdinfo_file_operations | proc_fd_operations
  | proc_fdinfo_operations | proc_pid_attr_operations | proc_attr_dir_operations
  | proc_coredump_filter_operations | proc_tgid_base_operations
  | proc_tid_base_operations | proc_task_operations
  | proc_net_operations | proc_maps_operations | proc_numa_maps_operations
  | proc_clear_refs_operations | proc_smaps_operations | proc_pagemap_operations
  | proc_cpuset_operations | proc_cgroup_operations.

Inductive dentry_operations :=
  | pid_dentry_operations | tid_fd_dentry_operations | proc_base_dentry_operations.

(** The functions an entry can store in its [op]. *)
Inductive link_fn := F_proc_cwd_link | F_proc_root_link | F_proc_exe_link | F_proc_fd_link.

Inductive read_fn :=
  | F_proc_pid_auxv | F_proc_pid_limits | F_proc_pid_syscall | F_proc_pid_cmdline
  | F_proc_pid_wchan | F_proc_pid_schedstat | F_proc_oom_score
  | F_proc_tgid_io_accounting | F_proc_tid_io_accounting.

Inductive show_fn :=
  | F_proc_pid_status | F_proc_pid_personality | F_proc_tgid_stat | F_proc_tid_stat
  | F_proc_pid_statm | F_proc_pid_stack.

(** [union proc_op], with the member last written; [OpZero] is the [{}]
    initialiser. *)
Inductive proc_op :=
  | OpZero
  | proc_get_link (f : link_fn)
  | proc_read (f : read_fn)
  | proc_show (f : show_fn).

#[export] Instance inode_operations_eq_dec : EqDecision inode_operations.
Proof. solve_decision. Defined.
#[export] Instance file_operations_eq_dec : EqDecision file_operations.
Proof. solve_decision. Defined.
#[export] Instance dentry_operations_eq_dec : EqDecision dentry_operations.
Proof. solve_decision. Defined.
#[export] Instance link_fn_eq_dec : EqDecision link_fn.
Proof. solve_decision. Defined.
#[export] Instance read_fn_eq_dec : EqDecision read_fn.
Proof. solve_decision. Defined.
#[export] Instance show_fn_eq_dec : EqDecision show_fn.
Proof. solve_decision. Defined.
#[export] Instance proc_op_eq_dec : EqDecision proc_op.
Proof. solve_decision. Defined.

(** ** Objects *)

Record path := Path { path_mnt : mnt_id; path_dentry : dentry_id }.

Record cred := Cred { uid : Z; euid : Z; egid : Z }.

Record io_accounting := IoAcct {
  rchar : Z; wchar : Z; syscr : Z; syscw : Z;
  read_bytes : Z; write_bytes : Z; cancelled_write_bytes : Z;
}.

(** One record of [task->latency_record]. *)
Record latency_record := Latency {
  lat_count : Z; lat_time : Z; lat_max : Z; lat_backtrace : list Z;
}.

Record task_struct := Task {
  t_pid : Z;                    (* pid, in the initial namespace *)
  t_comm : bytes;
  t_parent : task_id;
  t_fs : option fs_id;
  t_mm : option mm_id;
  t_signal : signal_id;
  t_group_leader : task_id;
  t_oomkilladj : Z;
  t_make_it_fail : Z;
  t_personality : Z;
  t_exiting : bool;             (* flags & PF_EXITING *)
  t_self_exec_id : Z;
  t_ioac : io_accounting;
  t_sum_exec_runtime : Z; t_run_delay : Z; t_pcount : Z;
  t_latency_record : list latency_record;
  t_hp_node : Z;                (* the honeypot fields the modules add *)
  t_hp_buf : bytes;
}.

Record signal_struct := Signal {
  sig_count : Z;
  sig_rlim : list (Z * Z);      (* (rlim_cur, rlim_max) *)
  sig_ioac : io_accounting;
}.

Record mm_struct := Mm {
  arg_start : Z; arg_end : Z; env_start : Z; env_end : Z;
  saved_auxv : list Z;
  mm_flags : Z;
  num_exe_file_vmas : Z;
  exe_file : option file_id;
}.

Record fs_struct := Fs { fs_root : path; fs_pwd : path }.

(** [file->private_data], by what the code stores there. *)
Inductive private_data :=
  | PrivNone
  | PrivExecId (id : Z)         (* mem_open *)
  | PrivMounts (p : ptr)        (* &p->m, mounts_open_common *)
  | PrivSeq (m : ptr).          (* the seq_file of single_open *)

Record file := File {
  f_pos : Z;
  f_mode : Z;
  f_flags : Z;
  f_path : path;
  f_version : Z;
  f_private : private_data;
}.

(** [f_dentry] is [f_path.dentry]. *)
Definition f_dentry (f : file) : dentry_id := path_dentry (f_path f).

(** [struct inode] together with the [struct proc_inode] around it. *)
Record inode := Inode {
  i_ino : Z;
  i_sb : nat;
  i_mode : Z;
  i_uid : Z; i_gid : Z;
  i_nlink : Z; i_size : Z; i_flags : Z;
  i_mtime : Z; i_atime : Z; i_ctime : Z;
  i_op : option inode_operations;
  i_fop : option file_operations;
  ei_pid : option pid_id;
  ei_fd : Z;
  ei_op : proc_op;
}.

Record dentry := Dentry {
  d_name : bytes;
  d_inode : option inode_id;
  d_op : option dentry_operations;
  d_ns : ns_id;                 (* d_sb->s_fs_info *)
}.

Record pid := Pid {
  pid_first : bool;             (* tasks[PIDTYPE_PID].first is not NULL *)
  pid_numbers : list (Z * ns_id);   (* numbers[0 .. level] *)
}.

Record pid_namespace := PidNs { ns_proc_mnt : mnt_id }.

Record proc_mounts := ProcMounts {
  pm_private_set : bool;        (* p->m.private = p was executed *)
  pm_ns : mntns_id; pm_root : path; pm_event : Z;
}.

Record kstat := Kstat { st_uid : Z; st_gid : Z; st_nlink : Z; st_mode : Z }.

#[export] Instance path_eq_dec : EqDecision path.
Proof. solve_decision. Defined.
#[export] Instance private_data_eq_dec : EqDecision private_data.
Proof. solve_decision. Defined.

(** ** The shared store *)

#[export] Instance path_inhabited : Inhabited path := populate (Path 0 0).
#[export] Instance cred_inhabited : Inhabited cred := populate (Cred 0 0 0).
#[export] Instance io_accounting_inhabited : Inhabited io_accounting :=
  populate (IoAcct 0 0 0 0 0 0 0).
#[export] Instance task_inhabited : Inhabited task_struct :=
  populate (Task 0 [] 0 None None 0 0 0 0 0 false 0 inhabitant 0 0 0 [] 0 []).
#[export] Instance signal_inhabited : Inhabited signal_struct :=
  populate (Signal 0 [] inhabitant).
#[export] Instance mm_inhabited : Inhabited mm_struct := populate (Mm 0 0 0 0 [] 0 0 None).
#[export] Instance fs_inhabited : Inhabited fs_struct := populate (Fs inhabitant inhabitant).
#[export] Instance file_inhabited : Inhabited file :=
  populate (File 0 0 0 inhabitant 0 PrivNone).
#[export] Instance inode_inhabited : Inhabited inode :=
  populate (Inode 0 0 0 0 0 0 0 0 0 0 0 None None None 0 OpZero).
#[export] Instance dentry_inhabited : Inhabited dentry := populate (Dentry [] None None 0).
#[export] Instance pid_inhabited : Inhabited pid := populate (Pid false []).
#[export] Instance ns_inhabited : Inhabited pid_namespace := populate (PidNs 0).
#[export] Instance mounts_inhabited : Inhabited proc_mounts :=
  populate (ProcMounts false 0 inhabitant 0).

(** [honeypot_hooks.in_proc_pid_readdir]: the file's own dummy, or a function
    a module stored there. *)
Inductive hook := HookDummy | HookModule (f : nat).

(** The store. A dereference reads the object with [!!!]; that the pointers
    dereferenced are live is the business of the reference accounting of
    [Kernel]. *)
Record kmem := Kmem {
  k_current : task_id;
  k_task : gmap nat task_struct;
  k_signal : gmap nat signal_struct;
  k_mm : gmap nat mm_struct;
  k_fs : gmap nat fs_struct;
  k_file : gmap nat file;
  k_inode : gmap nat inode;
  k_dentry : gmap nat dentry;
  k_pid : gmap nat pid;
  k_ns : gmap nat pid_namespace;
  k_mnt_root : gmap nat dentry_id;
  k_nsproxy : gmap nat (option mntns_id);
  k_mntns_event : gmap nat Z;
  k_mounts : gmap nat proc_mounts;
  k_seq_private : gmap nat (option inode_id);
  k_hook : hook;
}.

Definition kmem0 : kmem := Kmem 0 ∅ ∅ ∅ ∅ ∅ ∅ ∅ ∅ ∅ ∅ ∅ ∅ ∅ ∅ HookDummy.

(** Updates of one object. *)
Definition upd_task (t : task_id) (f : task_struct -> task_struct) (m : kmem) : kmem :=
  let '(Kmem c ts sg mm fs fl i d p ns mr np me mo sq hk) := m in
  Kmem c (<[t := f (ts !!! t)]> ts) sg mm fs fl i d p ns mr np me mo sq hk.
Definition upd_mm (x : mm_id) (f : mm_struct -> mm_struct) (m : kmem) : kmem :=
  let '(Kmem c ts sg mm fs fl i d p ns mr np me mo sq hk) := m in
  Kmem c ts sg (<[x := f (mm !!! x)]> mm) fs fl i d p ns mr np me mo sq hk.
Definition upd_file (x : file_id) (f : file -> file) (m : kmem) : kmem :=
  let '(Kmem c ts sg mm fs fl i d p ns mr np me mo sq hk) := m in
  Kmem c ts sg mm fs (<[x := f (fl !!! x)]> fl) i d p ns mr np me mo sq hk.
Definition upd_inode (x : inode_id) (f : inode -> inode) (m : kmem) : kmem :=
  let '(Kmem c ts sg mm fs fl i d p ns mr np me mo sq hk) := m in
  Kmem c ts sg mm fs fl (<[x := f (i !!! x)]> i) d p ns mr np me mo sq hk.
Definition upd_dentry (x : dentry_id) (f : dentry -> dentry) (m : kmem) : kmem :=
  let '(Kmem c ts sg mm fs fl i d p ns mr np me mo sq hk) := m in
  Kmem c ts sg mm fs fl i (<[x := f (d !!! x)]> d) p ns mr np me mo sq hk.
Definition upd_mounts (x : ptr) (f : proc_mounts -> proc_mounts) (m : kmem) : kmem :=
  let '(Kmem c ts sg mm fs fl i d p ns mr np me mo sq hk) := m in
  Kmem c ts sg mm fs fl i d p ns mr np me (<[x := f (mo !!! x)]> mo) sq hk.
Definition upd_seq (x : ptr) (v : option inode_id) (m : kmem) : kmem :=
  let '(Kmem c ts sg mm fs fl i d p ns mr np me mo sq hk) := m in
  Kmem c ts sg mm fs fl i d p ns mr np me mo (<[x := v]> sq) hk.

(** ** Field assignments *)

Definition set_oomkilladj (v : Z) (t : task_struct) : task_struct :=
  let '(Task p c pa fs mm sg gl _ fa pe ex se io r1 r2 r3 la hn hb) := t in
  Task p c pa fs mm sg gl v fa pe ex se io r1 r2 r3 la hn hb.
Definition set_make_it_fail (v : Z) (t : task_struct) : task_struct :=
  let '(Task p c pa fs mm sg gl oo _ pe ex se io r1 r2 r3 la hn hb) := t in
  Task p c pa fs mm sg gl oo v pe ex se io r1 r2 r3 la hn hb.
Definition set_hp_node (v : Z) (t : task_struct) : task_struct :=
  let '(Task p c pa fs mm sg gl oo fa pe ex se io r1 r2 r3 la _ hb) := t in
  Task p c pa fs mm sg gl oo fa pe ex se io r1 r2 r3 la v hb.
Definition set_hp_buf (v : bytes) (t : task_struct) : task_struct :=
  let '(Task p c pa fs mm sg gl oo fa pe ex se io r1 r2 r3 la hn _) := t in
  Task p c pa fs mm sg gl oo fa pe ex se io r1 r2 r3 la hn v.

Definition set_mm_flags (v : Z) (m : mm_struct) : mm_struct :=
  let '(Mm a b c d au _ n e) := m in Mm a b c d au v n e.
Definition set_num_exe_file_vmas (v : Z) (m : mm_struct) : mm_struct :=
  let '(Mm a b c d au fl _ e) := m in Mm a b c d au fl v e.
Definition set_exe_file (v : option file_id) (m : mm_struct) : mm_struct :=
  let '(Mm a b c d au fl n _) := m in Mm a b c d au fl n v.

Definition set_f_pos (v : Z) (f : file) : file :=
  let '(File _ m fl pa ve pr) := f in File v m fl pa ve pr.
Definition set_f_version (v : Z) (f : file) : file :=
  let '(File po m fl pa _ pr) := f in File po m fl pa v pr.
Definition set_f_private (v : private_data) (f : file) : file :=
  let '(File po m fl pa ve _) := f in File po m fl pa ve v.

Definition set_i_mode (v : Z) (i : inode) : inode :=
  let '(Inode no sb _ u g nl sz fl t1 t2 t3 op fo pi fd eo) := i in
  Inode no sb v u g nl sz fl t1 t2 t3 op fo pi fd eo.
Definition set_i_ids (u g : Z) (i : inode) : inode :=
  let '(Inode no sb mo _ _ nl sz fl t1 t2 t3 op fo pi fd eo) := i in
  Inode no sb mo u g nl sz fl t1 t2 t3 op fo pi fd eo.
Definition set_i_nlink (v : Z) (i : inode) : inode :=
  let '(Inode no sb mo u g _ sz fl t1 t2 t3 op fo pi fd eo) := i in
  Inode no sb mo u g v sz fl t1 t2 t3 op fo pi fd eo.
Definition set_i_size (v : Z) (i : inode) : inode :=
  let '(Inode no sb mo u g nl _ fl t1 t2 t3 op fo pi fd eo) := i in
  Inode no sb mo u g nl v fl t1 t2 t3 op fo pi fd eo.
Definition set_i_flags (v : Z) (i : inode) : inode :=
  let '(Inode no sb mo u g nl sz _ t1 t2 t3 op fo pi fd eo) := i in
  Inode no sb mo u g nl sz v t1 t2 t3 op fo pi fd eo.
Definition set_i_times (v : Z) (i : inode) : inode :=
  let '(Inode no sb mo u g nl sz fl _ _ _ op fo pi fd eo) := i in
  Inode no sb mo u g nl sz fl v v v op fo pi fd eo.
Definition set_i_op (v : option inode_operations) (i : inode) : inode :=
  let '(Inode no sb mo u g nl sz fl t1 t2 t3 _ fo pi fd eo) := i in
  Inode no sb mo u g nl sz fl t1 t2 t3 v fo pi fd eo.
Definition set_i_fop (v : option file_operations) (i : inode) : inode :=
  let '(Inode no sb mo u g nl sz fl t1 t2 t3 op _ pi fd eo) := i in
  Inode no sb mo u g nl sz fl t1 t2 t3 op v pi fd eo.
Definition set_ei_pid (v : option pid_id) (i : inode) : inode :=
  let '(Inode no sb mo u g nl sz fl t1 t2 t3 op fo _ fd eo) := i in
  Inode no sb mo u g nl sz fl t1 t2 t3 op fo v fd eo.
Definition set_ei_fd (v : Z) (i : inode) : inode :=
  let '(Inode no sb mo u g nl sz fl t1 t2 t3 op fo pi _ eo) := i in
  Inode no sb mo u g nl sz fl t1 t2 t3 op fo pi v eo.
Definition set_ei_op (v : proc_op) (i : inode) : inode :=
  let '(Inode no sb mo u g nl sz fl t1 t2 t3 op fo pi fd _) := i in
  Inode no sb mo u g nl sz fl t1 t2 t3 op fo pi fd v.

Definition set_d_op (v : option dentry_operations) (d : dentry) : dentry :=
  let '(Dentry na i _ ns) := d in Dentry na i v ns.
Definition set_d_inode (v : option inode_id) (d : dentry) : dentry :=
  let '(Dentry na _ o ns) := d in Dentry na v o ns.

(** What an update leaves of the rest of the store. *)
Lemma k_task_upd_task t f m : k_task (upd_task t f m) = <[t := f (k_task m !!! t)]> (k_task m).
Proof. by destruct m. Qed.
Lemma k_mm_upd_mm x f m : k_mm (upd_mm x f m) = <[x := f (k_mm m !!! x)]> (k_mm m).
Proof. by destruct m. Qed.
Lemma k_file_upd_file x f m : k_file (upd_file x f m) = <[x := f (k_file m !!! x)]> (k_file m).
Proof. by destruct m. Qed.
Lemma k_inode_upd_inode x f m : k_inode (upd_inode x f m) = <[x := f (k_inode m !!! x)]> (k_inode m).
Proof. by destruct m. Qed.
Lemma k_dentry_upd_dentry x f m :
  k_dentry (upd_dentry x f m) = <[x := f (k_dentry m !!! x)]> (k_dentry m).
Proof. by destruct m. Qed.
Lemma k_dentry_upd_inode x f m : k_dentry (upd_inode x f m) = k_dentry m.
Proof. by destruct m. Qed.
Lemma k_inode_upd_dentry x f m : k_inode (upd_dentry x f m) = k_inode m.
Proof. by destruct m. Qed.
Lemma k_inode_upd_file x f m : k_inode (upd_file x f m) = k_inode m.
Proof. by destruct m. Qed.
Lemma k_dentry_upd_file x f m : k_dentry (upd_file x f m) = k_dentry m.
Proof. by destruct m. Qed.
Lemma k_task_upd_file x f m : k_task (upd_file x f m) = k_task m.
Proof. by destruct m. Qed.
Lemma k_mounts_upd_mounts x f m :
  k_mounts (upd_mounts x f m) = <[x := f (k_mounts m !!! x)]> (k_mounts m).
Proof. by destruct m. Qed.

#[export] Hint Rewrite k_task_upd_task k_mm_upd_mm k_file_upd_file k_inode_upd_inode
  k_dentry_upd_dentry k_dentry_upd_inode k_inode_upd_dentry k_inode_upd_file
  k_dentry_upd_file k_task_upd_file k_mounts_upd_mounts : kmem.
