(* ===== verification/ProcFs.v ===== *)
(** * The entries of other subsystems (include/linux/proc_fs.h)

    [struct proc_dir_entry] and the inline functions that make entries; the
    stubs that replace the interface when the kernel has no proc file system;
    and the places of the fields of [struct proc_inode], which [PROC_I] and
    [PDE] find from the inode inside it. *)
From S2P Require Import Prelude.

Definition PROC_ROOT_INO := 1.

(** ** struct proc_inode *)

(** Its fields, in order. *)
Inductive pi_field := F_pid | F_fd | F_op | F_pde | F_sysctl | F_sysctl_entry | F_vfs_inode.

#[export] Instance pi_field_eq_dec : EqDecision pi_field.
Proof. solve_decision. Defined.

Definition pi_fields : list pi_field := [F_pid; F_fd; F_op; F_pde; F_sysctl; F_sysctl_entry; F_vfs_inode].

(** [n] rounded up to a multiple of [a]. *)
Definition round_up (a n : Z) : Z := (n + a - 1) / a * a.

Section Layout.
Context `{Arch}.
(** Of [struct inode], in linux/fs.h. *)
Context (sizeof_inode alignof_inode : Z).

Definition sizeof_ptr : Z := BITS_PER_LONG / 8.

Definition sizeof (f : pi_field) : Z :=
  match f with F_fd => 4 | F_vfs_inode => sizeof_inode | _ => sizeof_ptr end.
Definition alignof (f : pi_field) : Z :=
  match f with F_fd => 4 | F_vfs_inode => alignof_inode | _ => sizeof_ptr end.

(** The rule of the C compilers of Linux: a field starts at the first multiple
    of its alignment behind the field before it. *)
Fixpoint offset_in (start : Z) (fs : list pi_field) (f : pi_field) : Z :=
  match fs with
  | [] => start
  | g :: fs =>
      let o := round_up (alignof g) start in
      if decide (f = g) then o else offset_in (o + sizeof g) fs f
  end.

Definition offsetof (f : pi_field) : Z := offset_in 0 pi_fields f.

(** The last field ends there; what may follow is padding. *)
Definition sizeof_proc_inode : Z := offsetof F_vfs_inode + sizeof_inode.

(** [container_of(inode, struct proc_inode, vfs_inode)], on addresses. *)
Definition PROC_I (inode : Z) : Z := ulong (inode - offsetof F_vfs_inode).

(** The address of [PROC_I(inode)->f]. *)
Definition field_addr (inode : Z) (f : pi_field) : Z := ulong (PROC_I inode + offsetof f).

(** [PDE(inode)], in a memory of pointers. *)
Definition PDE (mem : gmap Z Z) (inode : Z) : Z := mem !!! field_addr inode F_pde.
End Layout.

(** ** struct proc_dir_entry *)

(** Functions and objects of other files are known by their addresses; 0 is
    NULL. *)
Record proc_dir_entry := Pde {
  low_ino : Z; namelen : Z; name : bytes; mode : Z; nlink : Z; uid : Z; gid : Z; size : Z;
  proc_iops : Z; proc_fops : Z;
  next : Z; parent : Z; subdir : Z;
  data : Z; read_proc : Z; write_proc : Z;
  count : Z; pde_users : Z;
}.

Definition set_read_proc (v : Z) (e : proc_dir_entry) : proc_dir_entry :=
  let '(Pde a b c d e f g h i j k l m n _ w p q) := e in Pde a b c d e f g h i j k l m n v w p q.
Definition set_data (v : Z) (e : proc_dir_entry) : proc_dir_entry :=
  let '(Pde a b c d e f g h i j k l m _ r w p q) := e in Pde a b c d e f g h i j k l m v r w p q.

Abbreviation pdes := (gmap Z proc_dir_entry).

(** [PDE_NET]; [None] is an access through a pointer to no entry. *)
Definition PDE_NET (h : pdes) (pde : Z) : option Z :=
  e ← h !! pde; p ← h !! parent e; Some (data p).

Section Create.
(** [create_proc_entry] and [proc_create_data] of generic.c: the new entry, or
    0, and the entries afterwards. *)
Context (create_proc_entry : bytes -> Z -> Z -> pdes -> Z * pdes).
Context (proc_create_data : bytes -> Z -> Z -> Z -> Z -> pdes -> Z * pdes).

Definition proc_create (name : bytes) (mode parent proc_fops : Z) (h : pdes) : Z * pdes :=
  proc_create_data name mode parent proc_fops 0 h.

(** The answer, and what the entries are after each statement, the last one
    first: /proc can be read in between. *)
Definition create_proc_read_entry (name : bytes) (mode base read_proc data : Z) (h : pdes) : option (Z * list pdes) :=
  let '(res, h0) := create_proc_entry name mode base h in
  if res =? 0 then Some (res, [h0])
  else
    e ← h0 !! res;
    let h1 := <[res := set_read_proc read_proc e]> h0 in
    e ← h1 !! res;
    let h2 := <[res := set_data data e]> h1 in
    Some (res, [h2; h1; h0]).
End Create.

(** What a read of the file finds: the function that is called, and the [data]
    it is given. *)
Definition reads (h : pdes) (pde : Z) : option (Z * Z) :=
  e ← h !! pde;
  if read_proc e =? 0 then None else Some (read_proc e, data e).

(** ** Lemmas: the layout *)

Lemma round_up_spec a n : 0 < a -> n <= round_up a n /\ (a | round_up a n).
Proof.
  intros Ha. unfold round_up. split; [|apply Z.divide_factor_r].
  pose proof (Z.div_mod (n + a - 1) a ltac:(lia)). pose proof (Z.mod_pos_bound (n + a - 1) a Ha). lia.
Qed.

Section LayoutLemmas.
Context `{Arch} (sizeof_inode alignof_inode : Z) (Hsize : 0 <= sizeof_inode) (Halign : 0 < alignof_inode).

Abbreviation sizeof := (sizeof sizeof_inode).
Abbreviation alignof := (alignof alignof_inode).
Abbreviation offset_in := (offset_in sizeof_inode alignof_inode).
Abbreviation offsetof := (offsetof sizeof_inode alignof_inode).

Lemma sizeof_ptr_pos : 0 < sizeof_ptr.
Proof. unfold sizeof_ptr. by destruct bits_per_long_ok as [-> | ->]. Qed.

Lemma sizeof_nonneg f : 0 <= sizeof f.
Proof. pose proof sizeof_ptr_pos. destruct f; cbn; lia. Qed.

Lemma alignof_pos f : 0 < alignof f.
Proof. pose proof sizeof_ptr_pos. destruct f; cbn; lia. Qed.

Lemma offset_in_bounds f fs : forall start, f ∈ fs -> start <= offset_in start fs f /\ (alignof f | offset_in start fs f).
Proof.
  induction fs as [|g fs IH]; intros start; [by intros ?%elem_of_nil|]. cbn [ProcFs.offset_in].
  destruct (round_up_spec (alignof g) start (alignof_pos g)) as [H1 H2]. pose proof (sizeof_nonneg g).
  destruct (decide (f = g)) as [->|Hne]; [done|]. intros [?|Hf]%elem_of_cons; [done|].
  destruct (IH (round_up (alignof g) start + sizeof g) Hf). split; [lia|done].
Qed.

Lemma pi_fields_all f : f ∈ pi_fields.
Proof. apply (bool_decide_unpack _). by destruct f; vm_compute. Qed.

Lemma offset_in_last l f fs : l ∉ fs -> f ∈ fs -> forall start,
  offset_in start (fs ++ [l]) f + sizeof f <= offset_in start (fs ++ [l]) l.
Proof.
  induction fs as [|g fs IH]; [by intros _ ?%elem_of_nil|]. intros [Hg Hl]%not_elem_of_cons Hf start. cbn [app ProcFs.offset_in].
  rewrite (decide_False (P := l = g)) by done. destruct (decide (f = g)) as [->|Hne].
  - apply offset_in_bounds. rewrite elem_of_app, list_elem_of_singleton. by right.
  - apply elem_of_cons in Hf as [?|Hf]; [done|]. by apply IH.
Qed.

(** No field reaches beyond the object. *)
Lemma field_inside f : 0 <= offsetof f /\ offsetof f + sizeof f <= sizeof_proc_inode sizeof_inode alignof_inode.
Proof.
  split; [apply offset_in_bounds, pi_fields_all|]. unfold sizeof_proc_inode.
  destruct (decide (f = F_vfs_inode)) as [->|Hne]; [done|].
  assert (Hf : f ∈ [F_pid; F_fd; F_op; F_pde; F_sysctl; F_sysctl_entry]).
  { destruct f; try done; apply (bool_decide_unpack _); vm_compute; exact I. }
  assert (Hl : pi_fields = [F_pid; F_fd; F_op; F_pde; F_sysctl; F_sysctl_entry] ++ [F_vfs_inode]) by reflexivity.
  unfold ProcFs.offsetof. rewrite Hl. assert (Hlast : F_vfs_inode ∉ [F_pid; F_fd; F_op; F_pde; F_sysctl; F_sysctl_entry]).
  { apply (bool_decide_unpack _). vm_compute. exact I. }
  pose proof (offset_in_last F_vfs_inode f _ Hlast Hf 0) as H1. revert H1.
  generalize (offset_in 0 ([F_pid; F_fd; F_op; F_pde; F_sysctl; F_sysctl_entry] ++ [F_vfs_inode]) F_vfs_inode).
  intros o Ho. apply (Z.le_trans _ o); [exact Ho|]. lia.
Qed.
End LayoutLemmas.

(** ** Properties *)

(** Inside an allocated [struct proc_inode] at [p], nothing wraps. *)
Lemma field_addr_inside `{Arch} sizeof_inode alignof_inode p f : 0 < sizeof_inode -> 0 < alignof_inode ->
  0 <= p -> p + sizeof_proc_inode sizeof_inode alignof_inode <= 2 ^ BITS_PER_LONG ->
  let inode := p + offsetof sizeof_inode alignof_inode F_vfs_inode in
  PROC_I sizeof_inode alignof_inode inode = p /\
  field_addr sizeof_inode alignof_inode inode f = p + offsetof sizeof_inode alignof_inode f.
Proof.
  intros Hs Ha Hp HpS inode.
  destruct (field_inside sizeof_inode alignof_inode ltac:(lia) Ha f) as [H0 H1].
  destruct (field_inside sizeof_inode alignof_inode ltac:(lia) Ha F_vfs_inode) as [H2 H3].
  assert (HP : PROC_I sizeof_inode alignof_inode inode = p).
  { unfold PROC_I, inode, ulong. rewrite Z.add_simpl_r, Z.mod_small; [done|]. cbn [sizeof] in *. lia. }
  split; [done|]. unfold field_addr, ulong. rewrite HP, Z.mod_small; [done|].
  assert (0 < sizeof sizeof_inode f) by (pose proof sizeof_ptr_pos; destruct f; cbn; lia). lia.
Qed.

(** So [PDE] reads the [pde] of the [proc_inode] that the inode is in. *)
Lemma PDE_inside `{Arch} sizeof_inode alignof_inode p mem : 0 < sizeof_inode -> 0 < alignof_inode ->
  0 <= p -> p + sizeof_proc_inode sizeof_inode alignof_inode <= 2 ^ BITS_PER_LONG ->
  PDE sizeof_inode alignof_inode mem (p + offsetof sizeof_inode alignof_inode F_vfs_inode) =
    mem !!! (p + offsetof sizeof_inode alignof_inode F_pde).
Proof. intros Hs Ha Hp HpS. unfold PDE. by rewrite (proj2 (field_addr_inside _ _ _ F_pde Hs Ha Hp HpS)). Qed.

(** What [create_proc_entry] promises: NULL and no change, or a new entry with
    all pointers cleared, the entries there were being read as before. *)
Definition creates (create : bytes -> Z -> Z -> pdes -> Z * pdes) : Prop := forall name mode parent h,
  let '(res, h') := create name mode parent h in
  res = 0 /\ h' = h \/
  res <> 0 /\ h !! res = None /\ (exists e, h' !! res = Some e /\ read_proc e = 0 /\ data e = 0) /\
    forall q, q <> res -> reads h' q = reads h q.

Lemma reads_insert h p e q : reads (<[p := e]> h) q =
  if decide (q = p) then if read_proc e =? 0 then None else Some (read_proc e, data e) else reads h q.
Proof. unfold reads. destruct (decide (q = p)) as [->|]; [by rewrite lookup_insert_eq|by rewrite lookup_insert_ne]. Qed.


(** A [create_proc_entry] that finds room for entries 1, 2, ... *)
Definition next_entry (name : bytes) (mode parent : Z) (h : pdes) : Z * pdes :=
  let p := Z.of_nat (base.size h) + 1 in
  match h !! p with
  | Some _ => (0, h)
  | None => (p, <[p := Pde 0 (len name) name mode 1 0 0 0 0 0 0 parent 0 0 0 0 1 0]> h)
  end.

Lemma next_entry_creates : creates next_entry.
Proof.
  intros name mode parent h. unfold next_entry. destruct (h !! _) eqn:E; [by left|right]. split; [lia|]. split; [done|].
  split; [eexists; by rewrite lookup_insert_eq|]. intros q Hq. by rewrite reads_insert, decide_False.
Qed.

