(* ===== verification/Kernel.v ===== *)
(** * Programs over the kernel's interface

    Kernel code is a program [prog A] that reads and writes the shared store of
    [Structs] and calls functions of the rest of the kernel. Those functions
    are not part of the repository: each is an operation [op] with the type of
    its answer, and what it answers, and what it does to the store, is decided
    by an environment. The theorems quantify over environments: over every
    one of them ([env]) where the property is about what the code itself does
    (the references and locks it holds, the guards it checks), over every
    time-invariant one ([fixed A], an arbitrary answer for every operation)
    where the property is the function a handler computes. *)
From S2P Require Import Prelude Structs.

(** ** Locks and references *)

Inductive lock :=
  | TaskLock (t : task_id)          (* task_lock *)
  | FsLock (f : fs_id)              (* read_lock(&fs->lock) *)
  | Rcu                             (* rcu_read_lock *)
  | TasklistLock                    (* read_lock(&tasklist_lock) *)
  | MmapSem (m : mm_id)             (* down_read(&mm->mmap_sem) *)
  | FileLock (f : files_id)         (* spin_lock(&files->file_lock) *)
  | VfsmountLock                    (* spin_lock(&vfsmount_lock) *)
  | Sighand (t : task_id).          (* lock_task_sighand *)

(** What a piece of code holds and has to give back. *)
Inductive res :=
  | RLock (l : lock)
  | RTask (t : task_id)
  | RMm (m : mm_id)
  | RPath (p : path)
  | RFile (f : file_id)
  | RFiles (f : files_id)
  | RMntNs (n : mntns_id)
  | RMem (p : ptr)
  | RPage (p : ptr)
  | RInode (i : inode_id)
  | RDentry (d : dentry_id)
  | RSeq (f : file_id).

#[export] Instance lock_eq_dec : EqDecision lock.
Proof. solve_decision. Defined.
#[export] Instance res_eq_dec : EqDecision res.
Proof. solve_decision. Defined.

(** The callbacks the file hands to [single_open]. *)
Inductive show_cb := Cb_lstats_show_proc | Cb_proc_single_show | Cb_sched_show.

(** The sequences handed to [seq_open]. *)
Inductive seq_operations := mounts_op | mountinfo_op | mountstats_op.

(** ** The operations: the functions outside the repository that it calls *)

Inductive op :=
  (* locks *)
  | Lock (l : lock) | Unlock (l : lock) | LockTaskSighand (t : task_id)
  (* tasks and pids *)
  | GetProcTask (i : inode_id) | GetTaskStruct (t : task_id) | PutTaskStruct (t : task_id)
  | GetPidTask (p : pid_id) | PidTask (p : pid_id) | GetTaskPid (t : task_id)
  | ProcPid (i : inode_id) | ProcFd (i : inode_id)
  | FindTaskByPidNs (nr : Z) (ns : ns_id) | FindGePid (nr : Z) (ns : ns_id)
  | PidNrNs (p : pid_id) (ns : ns_id) | TaskPidNrNs (t : task_id) (ns : ns_id)
  | TaskTgidNrNs (t : task_id) (ns : ns_id)
  | TaskPid (t : task_id) | TaskTgid (t : task_id)
  | HasGroupLeaderPid (t : task_id) | ThreadGroupLeader (t : task_id)
  | SameThreadGroup (a b : task_id) | PidAlive (t : task_id) | NextThread (t : task_id)
  | TaskCred (t : task_id) | TaskIsStoppedOrTraced (t : task_id)
  | TracehookTracerTask (t : task_id) | PtraceMayAccess (t : task_id) (mode : Z)
  | PtraceMayAccessLocked (t : task_id) (mode : Z)      (* __ptrace_may_access *)
  | Capable (cap : Z) | TaskNsproxy (t : task_id)
  | PidNsReleaseProc (ns : ns_id)
  (* memory of processes *)
  | GetTaskMm (t : task_id) | Mmput (m : mm_id) | GetDumpable (m : mm_id)
  | AccessProcessVm (t : task_id) (addr n : Z)
  | PokeProcessVm (t : task_id) (addr : Z) (data : bytes)   (* access_process_vm with write *)
  (* files, paths, namespaces *)
  | PathGet (p : path) | PathPut (p : path) | GetFile (f : file_id) | Fput (f : file_id)
  | GetFilesStruct (t : task_id) | PutFilesStruct (f : files_id)
  | FcheckFiles (f : files_id) (fd : Z) | MaxFds (f : files_id)
  | GetMntNs (n : mntns_id) | PutMntNs (n : mntns_id)
  | SeqOpen (f : file_id) (ops : seq_operations) | SeqRelease (i : inode_id) (f : file_id) (m : private_data)
  | SingleOpen (f : file_id) (show : show_cb) (data : option inode_id) | PollWait (f : file_id) (n : mntns_id)
  | SeqPrint (m : ptr) (text : bytes) | DPath (p : path)
  | VfsReadlink (d : dentry_id) (buf n : Z) (link : bytes) | VfsFollowLink (link : bytes)
  (* allocation *)
  | Kmalloc (size : Z) | Kfree (p : option ptr) | GetFreePage | FreePage (p : ptr)
  (* user memory *)
  | CopyToUser (dst : Z) (data : bytes) | CopyFromUser (src n : Z)
  | SimpleReadFromBuffer (dst n pos : Z) (from : bytes)
  (* inodes and dentries *)
  | NewInode (sb : nat) | Iput (i : inode_id) | CurrentTime
  | DAdd (d : dentry_id) (i : inode_id) | DDrop (d : dentry_id)
  | DLookup (dir : dentry_id) (name : bytes) | DAlloc (dir : dentry_id) (name : bytes)
  | DHashAndLookup (dir : dentry_id) (name : bytes)
  | Dput (d : dentry_id) | ShrinkDcacheParent (d : dentry_id)
  | ParentIno (d : dentry_id) | FindInodeNumber (dir : dentry_id) (name : bytes)
  | SecurityTaskToInode (t : task_id) (i : inode_id)
  | InodeChangeOk (i : inode_id) (valid : Z) | InodeSetattr (i : inode_id) (valid : Z)
  | GenericFillattr (i : inode_id) | GenericPermission (i : inode_id) (mask : Z)
  | Filldir (name : bytes) (nlen pos ino type : Z)
  (* parsers and printers of other subsystems *)
  | SimpleStrtol (s : bytes) (base : Z) | SimpleStrtoul (s : bytes) (base : Z)
  | Badness (t : task_id) (uptime : Z) | MonotonicSeconds
  | TaskIoAccountingAdd (dst src : io_accounting) | SprintPointer (addr : Z)
  | GetWchan (t : task_id) | LookupSymbolName (addr : Z) | SprintSymbol (addr : Z)
  | SaveStackTraceTsk (t : task_id) (max : Z) | TaskCurrentSyscall (t : task_id)
  | SecurityGetprocattr (t : task_id) (name : bytes)
  | SecuritySetprocattr (t : task_id) (name value : bytes)
  | AuditGetLoginuid (t : task_id) | AuditGetSessionid (t : task_id)
  | AuditSetLoginuid (t : task_id) (uid : Z)
  | ProcSchedShowTask (t : task_id) (m : ptr) | ProcSchedSetTask (t : task_id)
  | ClearAllLatencyTracing (t : task_id)
  | ExternalShow (f : show_fn) (m : ptr) (ns : ns_id) (p : pid_id) (t : task_id)
  | ForceSuccessfulSyscallReturn
  | CallHook (f : nat).

(** Answers. A user-memory or process-memory access answers its C return
    value and the bytes it delivered. *)
Definition ans (o : op) : Type :=
  match o with
  | LockTaskSighand _ | HasGroupLeaderPid _ | ThreadGroupLeader _ | SameThreadGroup _ _
  | PidAlive _ | TaskIsStoppedOrTraced _ | PtraceMayAccess _ _ | Capable _ => bool
  | GetProcTask _ | GetPidTask _ | PidTask _ | FindTaskByPidNs _ _ | TracehookTracerTask _ =>
      option task_id
  | GetTaskPid _ | FindGePid _ _ => option pid_id
  | ProcPid _ | TaskPid _ | TaskTgid _ => pid_id
  | ProcFd _ | PidNrNs _ _ | TaskPidNrNs _ _ | TaskTgidNrNs _ _ | PtraceMayAccessLocked _ _
  | GetDumpable _ | MaxFds _ | SeqOpen _ _ | SeqRelease _ _ _ | SingleOpen _ _ _
  | VfsReadlink _ _ _ _ | VfsFollowLink _ | CopyToUser _ _ | CurrentTime | PokeProcessVm _ _ _
  | ParentIno _ | FindInodeNumber _ _ | InodeChangeOk _ _ | InodeSetattr _ _
  | GenericPermission _ _ | Filldir _ _ _ _ _ | Badness _ _ | MonotonicSeconds
  | GetWchan _ | SecuritySetprocattr _ _ _ | AuditGetLoginuid _ | AuditGetSessionid _
  | AuditSetLoginuid _ _ | ExternalShow _ _ _ _ _ => Z
  | NextThread _ => task_id
  | TaskCred _ => cred
  | TaskNsproxy _ => option nsproxy_id
  | GetTaskMm _ => option mm_id
  | AccessProcessVm _ _ _ | CopyFromUser _ _ => Z * bytes
  | GetFilesStruct _ => option files_id
  | FcheckFiles _ _ => option file_id
  | DPath _ => Z + bytes
  | Kmalloc _ | GetFreePage => option ptr
  | SimpleReadFromBuffer _ _ _ _ => Z * Z
  | NewInode _ => option inode_id
  | DLookup _ _ | DAlloc _ _ | DHashAndLookup _ _ => option dentry_id
  | GenericFillattr _ => kstat
  | SimpleStrtol _ _ | SimpleStrtoul _ _ => Z * Z
  | LookupSymbolName _ => Z * bytes
  | SprintSymbol _ | SprintPointer _ => bytes
  | TaskIoAccountingAdd _ _ => io_accounting
  | SaveStackTraceTsk _ _ => list Z
  | TaskCurrentSyscall _ => Z * (Z * list Z * Z * Z)
  | SecurityGetprocattr _ _ => Z * option ptr * bytes
  | _ => unit
  end.

(** ** The pairing rules of the interface

    What each operation hands to its caller, and what it takes back: the
    [get]/[put], [lock]/[unlock], [alloc]/[free] pairs. [d_add] consumes the
    caller's inode reference. The reference of [get_task_pid] is not listed:
    the code stores it in the inode at once, and it is the inode's eviction,
    outside this file, that returns it. *)
Definition opt_res {X} (f : X -> res) (x : option X) : list res :=
  match x with Some x => [f x] | None => [] end.

Definition acquires (o : op) : ans o -> list res :=
  match o with
  | Lock l => fun _ => [RLock l]
  | LockTaskSighand t => fun b => if b then [RLock (Sighand t)] else []
  | GetProcTask _ | GetPidTask _ => opt_res RTask
  | GetTaskStruct t => fun _ => [RTask t]
  | GetTaskMm _ => opt_res RMm
  | PathGet p => fun _ => [RPath p]
  | GetFile f => fun _ => [RFile f]
  | GetFilesStruct _ => opt_res RFiles
  | GetMntNs n => fun _ => [RMntNs n]
  | SingleOpen f _ _ => fun r => if r =? 0 then [RSeq f] else []
  | Kmalloc _ => opt_res RMem
  | GetFreePage => opt_res RPage
  | NewInode _ => opt_res RInode
  | DLookup _ _ | DAlloc _ _ | DHashAndLookup _ _ => opt_res RDentry
  | SecurityGetprocattr _ _ => fun a => opt_res RMem a.1.2
  | _ => fun _ => []
  end.

Definition releases (o : op) : list res :=
  match o with
  | Unlock l => [RLock l]
  | PutTaskStruct t => [RTask t]
  | Mmput m => [RMm m]
  | PathPut p => [RPath p]
  | Fput f => [RFile f]
  | PutFilesStruct f => [RFiles f]
  | PutMntNs n => [RMntNs n]
  | SeqRelease _ _ (PrivMounts p) => [RMem p]
  | Kfree p => opt_res RMem p
  | FreePage p => [RPage p]
  | Iput i => [RInode i]
  | DAdd _ i => [RInode i]
  | Dput d => [RDentry d]
  | _ => []
  end.

Fixpoint holds (l : list res) (r : res) : bool :=
  match l with
  | [] => false
  | x :: l => if decide (r = x) then true else holds l r
  end.

(** The locks that the interface's documentation asks its callers to hold. *)
Definition guarded (o : op) (l : list res) : bool :=
  match o with
  | PidTask _ | FindTaskByPidNs _ _ | FindGePid _ _ | TracehookTracerTask _
  | TaskCred _ | TaskNsproxy _ => holds l (RLock Rcu) || holds l (RLock TasklistLock)
  | NextThread t =>
      holds l (RLock Rcu) || holds l (RLock TasklistLock) ||
      existsb (fun r => match r with RLock (Sighand _) => true | _ => false end) l
  | FcheckFiles f _ | MaxFds f => holds l (RLock Rcu) || holds l (RLock (FileLock f))
  | PtraceMayAccessLocked t _ => holds l (RLock (TaskLock t))
  | _ => true
  end.

(** Taking back one unit of a resource. *)
Fixpoint release (r : res) (l : list res) : list res :=
  match l with
  | [] => []
  | x :: l => if decide (r = x) then l else x :: release r l
  end.

Inductive misuse :=
  | Unheld (r : res)        (* given back without being held *)
  | Unguarded (o : op).     (* called without the lock it needs *)

Definition misuses (o : op) (l : list res) : list misuse :=
  flat_map (fun r => if holds l r then [] else [Unheld r]) (releases o) ++
  (if guarded o l then [] else [Unguarded o]).

(** ** Worlds *)

Inductive obs := Obs (o : op) (x : ans o).

Record world := World {
  mem : kmem;
  held : list res;          (* what the running code holds *)
  bad : list misuse;        (* the rules it broke *)
  log : list obs;           (* the calls it made, the last one first *)
}.

Definition world0 (m : kmem) : world := World m [] [] [].

Definition after (o : op) (x : ans o) (m : kmem) (w : world) : world :=
  World m (acquires o x ++ fold_right release (held w) (releases o))
    (misuses o (held w) ++ bad w) (Obs o x :: log w).

Definition set_mem (m : kmem) (w : world) : world := World m (held w) (bad w) (log w).

(** ** Programs *)

Inductive fault :=
  | OutOfFuel               (* a loop bound of the model was too small *)
  | WildAccess              (* an access outside an object *)
  | WrongMember.            (* a union read through a member not stored *)

Inductive prog (A : Type) : Type :=
  | Ret (a : A)
  | Call (o : op) (k : ans o -> prog A)
  | Get (k : kmem -> prog A)
  | Put (m : kmem) (k : prog A)
  | Halt (why : fault).
Arguments Ret {A} a.
Arguments Call {A} o k.
Arguments Get {A} k.
Arguments Put {A} m k.
Arguments Halt {A} why.

Fixpoint pbind {A B} (p : prog A) (f : A -> prog B) : prog B :=
  match p with
  | Ret a => f a
  | Call o k => Call o (fun x => pbind (k x) f)
  | Get k => Get (fun m => pbind (k m) f)
  | Put m k => Put m (pbind k f)
  | Halt y => Halt y
  end.

#[export] Instance prog_mret : MRet prog := @Ret.
#[export] Instance prog_mbind : MBind prog := fun A B f p => pbind p f.

Definition call (o : op) : prog (ans o) := Call o Ret.
Definition gets {A} (f : kmem -> A) : prog A := Get (fun m => Ret (f m)).
Definition modify (f : kmem -> kmem) : prog unit := Get (fun m => Put (f m) (Ret tt)).

(** ** Executions *)

Definition env := forall o : op, list obs -> kmem -> ans o * kmem.

(** The environment that gives every operation one answer and leaves the
    store alone. *)
Definition fixed (A : forall o, ans o) : env := fun o _ m => (A o, m).

Inductive outcome (A : Type) :=
  | Done (a : A)
  | Faulted (why : fault).
Arguments Done {A} a.
Arguments Faulted {A} why.

Fixpoint run {A} (E : env) (p : prog A) (w : world) : outcome A * world :=
  match p with
  | Ret a => (Done a, w)
  | Call o k => let '(x, m) := E o (log w) (mem w) in run E (k x) (after o x m w)
  | Get k => run E (k (mem w)) w
  | Put m k => run E k (set_mem m w)
  | Halt y => (Faulted y, w)
  end.

(** The execution of [p] ends, normally, in a result and a world that
    satisfy [Q]. *)
Definition ends {A} (E : env) (p : prog A) (w : world) (Q : A -> world -> Prop) : Prop :=
  match run E p w with
  | (Done a, w') => Q a w'
  | (Faulted _, _) => False
  end.

(** The code returned everything it took and broke no rule. *)
Definition balanced (w w' : world) : Prop := held w' = held w /\ bad w' = bad w.

(** ** Reasoning about all executions at once

    [wp R p Q w]: whatever the operations answer within the contract [R], [p]
    ends from [w] in a state satisfying [Q]. *)
Definition contract := forall o : op, list obs -> kmem -> ans o -> kmem -> Prop.

Definition anything : contract := fun _ _ _ _ _ => True.
Definition answers (A : forall o, ans o) : contract := fun o _ m x m' => x = A o /\ m' = m.
Definition keeps (E : env) (R : contract) : Prop :=
  forall o tr m, R o tr m (E o tr m).1 (E o tr m).2.

Fixpoint wp {A} (R : contract) (p : prog A) (Q : A -> world -> Prop) (w : world) : Prop :=
  match p with
  | Ret a => Q a w
  | Call o k => forall x m, R o (log w) (mem w) x m -> wp R (k x) Q (after o x m w)
  | Get k => wp R (k (mem w)) Q w
  | Put m k => wp R k Q (set_mem m w)
  | Halt _ => False
  end.

Lemma keeps_anything E : keeps E anything.
Proof. done. Qed.

Lemma keeps_fixed A : keeps (fixed A) (answers A).
Proof. done. Qed.

Lemma wp_ends {A} E R (p : prog A) Q w : keeps E R -> wp R p Q w -> ends E p w Q.
Proof.
  intros HE. unfold ends. revert w. induction p as [a|o k IH|k IH|m k IH|y]; intros w; cbn.
  - done.
  - intros H. specialize (HE o (log w) (mem w)). destruct (E o (log w) (mem w)) as [x m].
    by apply IH, H.
  - apply IH.
  - apply IH.
  - done.
Qed.

Lemma wp_bind {A B} R (p : prog A) (f : A -> prog B) Q w :
  wp R p (fun a w' => wp R (f a) Q w') w -> wp R (pbind p f) Q w.
Proof.
  revert w. induction p as [a|o k IH|k IH|m k IH|y]; intros w; cbn; [done| |apply IH|apply IH|done].
  intros H x m Hx. by apply IH, H.
Qed.

(** A call, one step at a time. *)
Lemma wp_step {B : Type} R o (k : ans o -> prog B) Q w :
  (forall x m, R o (log w) (mem w) x m -> wp R (k x) Q (after o x m w)) -> wp R (call o ≫= k) Q w.
Proof. done. Qed.

Lemma wp_mono {A} R (p : prog A) (Q Q' : A -> world -> Prop) w :
  wp R p Q w -> (forall a w', Q a w' -> Q' a w') -> wp R p Q' w.
Proof.
  intros H HQ. revert w H. induction p as [a|o k IH|k IH|m k IH|y]; intros w; cbn; eauto.
Qed.

Lemma wp_contract {A} (R R' : contract) (p : prog A) Q w :
  (forall o tr m x m', R' o tr m x m' -> R o tr m x m') -> wp R p Q w -> wp R' p Q w.
Proof.
  intros HR. revert w. induction p as [a|o k IH|k IH|m k IH|y]; intros w; cbn; eauto.
Qed.

(** The liberal counterpart: if [p] ends normally, it ends in [Q]. It is for
    the facts that hold of every operation, which compose along the syntax. *)
Fixpoint wlp {A} (R : contract) (p : prog A) (Q : A -> world -> Prop) (w : world) : Prop :=
  match p with
  | Ret a => Q a w
  | Call o k => forall x m, R o (log w) (mem w) x m -> wlp R (k x) Q (after o x m w)
  | Get k => wlp R (k (mem w)) Q w
  | Put m k => wlp R k Q (set_mem m w)
  | Halt _ => True
  end.

Lemma wlp_bind {A B} R (p : prog A) (f : A -> prog B) Q w :
  wlp R p (fun a w' => wlp R (f a) Q w') w -> wlp R (pbind p f) Q w.
Proof.
  revert w. induction p as [a|o k IH|k IH|m k IH|y]; intros w; cbn; [done| |apply IH|apply IH|done].
  intros H x m Hx. by apply IH, H.
Qed.

Lemma wlp_mono {A} R (p : prog A) (Q Q' : A -> world -> Prop) w :
  wlp R p Q w -> (forall a w', Q a w' -> Q' a w') -> wlp R p Q' w.
Proof.
  intros H HQ. revert w H. induction p as [a|o k IH|k IH|m k IH|y]; intros w; cbn; eauto.
Qed.

Lemma wlp_contract {A} (R R' : contract) (p : prog A) Q w :
  (forall o tr m x m', R' o tr m x m' -> R o tr m x m') -> wlp R p Q w -> wlp R' p Q w.
Proof.
  intros HR. revert w. induction p as [a|o k IH|k IH|m k IH|y]; intros w; cbn; eauto.
Qed.

(** Liberal, but without a union read through the wrong member: [wsafe R p Q w]
    says that no such read happens, and that [p] ends in [Q] if it ends. *)
Fixpoint wsafe {A} (R : contract) (p : prog A) (Q : A -> world -> Prop) (w : world) : Prop :=
  match p with
  | Ret a => Q a w
  | Call o k => forall x m, R o (log w) (mem w) x m -> wsafe R (k x) Q (after o x m w)
  | Get k => wsafe R (k (mem w)) Q w
  | Put m k => wsafe R k Q (set_mem m w)
  | Halt y => y <> WrongMember
  end.

Lemma wsafe_bind {A B} R (p : prog A) (f : A -> prog B) Q w :
  wsafe R p (fun a w' => wsafe R (f a) Q w') w -> wsafe R (pbind p f) Q w.
Proof.
  revert w. induction p as [a|o k IH|k IH|m k IH|y]; intros w; cbn; [done| |apply IH|apply IH|done].
  intros H x m Hx. by apply IH, H.
Qed.

Lemma wsafe_mono {A} R (p : prog A) (Q Q' : A -> world -> Prop) w :
  wsafe R p Q w -> (forall a w', Q a w' -> Q' a w') -> wsafe R p Q' w.
Proof.
  intros H HQ. revert w H. induction p as [a|o k IH|k IH|m k IH|y]; intros w; cbn; eauto.
Qed.

Lemma wsafe_run {A} E R (p : prog A) Q w : keeps E R -> wsafe R p Q w ->
  match run E p w with
  | (Done a, w') => Q a w'
  | (Faulted y, _) => y <> WrongMember
  end.
Proof.
  intros HE. revert w. induction p as [a|o k IH|k IH|m k IH|y]; intros w; cbn; [done| |apply IH|apply IH|done].
  intros H. specialize (HE o (log w) (mem w)). destruct (E o (log w) (mem w)) as [x m]. by apply IH, H.
Qed.

Lemma wp_liberal {A} R (p : prog A) (Q : A -> world -> Prop) w : wp R p Q w -> wlp R p Q w.
Proof. revert w. induction p as [a|o k IH|k IH|m k IH|y]; intros w; cbn; eauto. Qed.

Lemma wlp_run {A} E R (p : prog A) Q w : keeps E R -> wlp R p Q w ->
  match run E p w with (Done a, w') => Q a w' | (Faulted _, _) => True end.
Proof.
  intros HE. revert w. induction p as [a|o k IH|k IH|m k IH|y]; intros w; cbn; [done| |apply IH|apply IH|done].
  intros H. specialize (HE o (log w) (mem w)). destruct (E o (log w) (mem w)) as [x m]. by apply IH, H.
Qed.

Lemma wlp_both {A} R (p : prog A) (Q Q' : A -> world -> Prop) w :
  wlp R p Q w -> wlp R p Q' w -> wlp R p (fun a w' => Q a w' /\ Q' a w') w.
Proof. revert w. induction p as [a|o k IH|k IH|m k IH|y]; intros w; cbn; eauto. Qed.

(** A total fact and a liberal one hold together. *)
Lemma wp_wlp {A} R (p : prog A) (Q Q' : A -> world -> Prop) w :
  wp R p Q w -> wlp R p Q' w -> wp R p (fun a w' => Q a w' /\ Q' a w') w.
Proof. revert w. induction p as [a|o k IH|k IH|m k IH|y]; intros w; cbn; eauto. Qed.

Lemma run_bind {A B} E (p : prog A) (f : A -> prog B) w :
  run E (pbind p f) w =
    match run E p w with
    | (Done a, w') => run E (f a) w'
    | (Faulted y, w') => (Faulted y, w')
    end.
Proof.
  revert w. induction p as [a|o k IH|k IH|m k IH|y]; intros w; cbn; [done| |apply IH|apply IH|done].
  destruct (E o (log w) (mem w)). apply IH.
Qed.

Lemma ends_bind {A B} E (p : prog A) (f : A -> prog B) Q w :
  ends E p w (fun a w' => ends E (f a) w' Q) <-> ends E (pbind p f) w Q.
Proof.
  unfold ends. rewrite run_bind. destruct (run E p w) as [[a|y] w']; done.
Qed.

Lemma ends_mono {A} E (p : prog A) (Q Q' : A -> world -> Prop) w :
  ends E p w Q -> (forall a w', Q a w' -> Q' a w') -> ends E p w Q'.
Proof. unfold ends. destruct (run E p w) as [[a|y] w']; eauto. Qed.

(** Programs obey the monad laws, so sequencing may be reassociated. *)
Lemma pbind_assoc {A B C} (p : prog A) (f : A -> prog B) (g : B -> prog C) w E :
  run E (pbind (pbind p f) g) w = run E (pbind p (fun x => pbind (f x) g)) w.
Proof.
  rewrite !run_bind. destruct (run E p w) as [[a|y] w']; [|done]. by rewrite run_bind.
Qed.

(** ** The accounting *)

Lemma release_head r l : release r (r :: l) = l.
Proof. cbn. by destruct (decide (r = r)). Qed.

Lemma release_skip r x l : r <> x -> release r (x :: l) = x :: release r l.
Proof. cbn. by destruct (decide (r = x)). Qed.

Lemma holds_head r l : holds (r :: l) r = true.
Proof. cbn. by destruct (decide (r = r)). Qed.

Lemma holds_skip r x l : holds l r = true -> holds (x :: l) r = true.
Proof. cbn. by destruct (decide (r = x)). Qed.

(** Resources held in any order. *)
Lemma holds_elem l r : holds l r = true <-> r ∈ l.
Proof.
  induction l as [|x l IH]; cbn; [by split; [|intros ?%not_elem_of_nil]|].
  rewrite elem_of_cons. destruct (decide (r = x)); naive_solver.
Qed.

Lemma release_perm r l : r ∈ l -> l ≡ₚ r :: release r l.
Proof.
  induction l as [|x l IH]; cbn; [by intros ?%not_elem_of_nil|]. rewrite elem_of_cons.
  destruct (decide (r = x)) as [->|]; [done|]. intros [?|Hr]; [done|].
  rewrite (IH Hr) at 1. by apply Permutation_swap.
Qed.

(** What is given back was there, and the rest is what remains. *)
Lemma release_rest r l rest : l ≡ₚ r :: rest -> holds l r = true /\ release r l ≡ₚ rest.
Proof.
  intros Hl. assert (r ∈ l) as Hin by (rewrite Hl; left). split; [by apply holds_elem|].
  apply (Permutation_cons_inv (a := r)). by rewrite <- (release_perm r l Hin).
Qed.

Lemma balanced_refl w : balanced w w.
Proof. done. Qed.

Lemma balanced_trans w1 w2 w3 : balanced w1 w2 -> balanced w2 w3 -> balanced w1 w3.
Proof. intros [] []. split; congruence. Qed.

#[export] Hint Resolve balanced_refl balanced_trans keeps_anything keeps_fixed : kstudy.

(** ** The operations as program steps, under their C names *)

Definition lock_task_sighand (t : task_id) : prog bool := call (LockTaskSighand t).
Definition get_proc_task (i : inode_id) : prog (option task_id) := call (GetProcTask i).
Definition get_task_struct (t : task_id) : prog unit := call (GetTaskStruct t).
Definition put_task_struct (t : task_id) : prog unit := call (PutTaskStruct t).
Definition get_pid_task (p : pid_id) : prog (option task_id) := call (GetPidTask p).
Definition pid_task (p : pid_id) : prog (option task_id) := call (PidTask p).
Definition get_task_pid (t : task_id) : prog (option pid_id) := call (GetTaskPid t).
Definition proc_pid (i : inode_id) : prog pid_id := call (ProcPid i).
Definition proc_fd (i : inode_id) : prog Z := call (ProcFd i).
Definition find_task_by_pid_ns (nr : Z) (ns : ns_id) : prog (option task_id) := call (FindTaskByPidNs nr ns).
Definition find_ge_pid (nr : Z) (ns : ns_id) : prog (option pid_id) := call (FindGePid nr ns).
Definition pid_nr_ns (p : pid_id) (ns : ns_id) : prog Z := call (PidNrNs p ns).
Definition task_pid_nr_ns (t : task_id) (ns : ns_id) : prog Z := call (TaskPidNrNs t ns).
Definition task_tgid_nr_ns (t : task_id) (ns : ns_id) : prog Z := call (TaskTgidNrNs t ns).
Definition task_pid (t : task_id) : prog pid_id := call (TaskPid t).
Definition task_tgid (t : task_id) : prog pid_id := call (TaskTgid t).
Definition has_group_leader_pid (t : task_id) : prog bool := call (HasGroupLeaderPid t).
Definition thread_group_leader (t : task_id) : prog bool := call (ThreadGroupLeader t).
Definition same_thread_group (a b : task_id) : prog bool := call (SameThreadGroup a b).
Definition pid_alive (t : task_id) : prog bool := call (PidAlive t).
Definition next_thread (t : task_id) : prog task_id := call (NextThread t).
Definition task_cred (t : task_id) : prog cred := call (TaskCred t).
Definition task_is_stopped_or_traced (t : task_id) : prog bool := call (TaskIsStoppedOrTraced t).
Definition tracehook_tracer_task (t : task_id) : prog (option task_id) := call (TracehookTracerTask t).
Definition ptrace_may_access (t : task_id) (mode : Z) : prog bool := call (PtraceMayAccess t mode).
Definition ptrace_may_access_locked (t : task_id) (mode : Z) : prog Z := call (PtraceMayAccessLocked t mode).
Definition capable (cap : Z) : prog bool := call (Capable cap).
Definition task_nsproxy (t : task_id) : prog (option nsproxy_id) := call (TaskNsproxy t).
Definition pid_ns_release_proc (ns : ns_id) : prog unit := call (PidNsReleaseProc ns).
Definition get_task_mm (t : task_id) : prog (option mm_id) := call (GetTaskMm t).
Definition mmput (m : mm_id) : prog unit := call (Mmput m).
Definition get_dumpable (m : mm_id) : prog Z := call (GetDumpable m).
Definition access_process_vm (t : task_id) (addr n : Z) : prog (Z * bytes) := call (AccessProcessVm t addr n).
Definition poke_process_vm (t : task_id) (addr : Z) (data : bytes) : prog Z := call (PokeProcessVm t addr data).
Definition path_get (p : path) : prog unit := call (PathGet p).
Definition path_put (p : path) : prog unit := call (PathPut p).
Definition get_file (f : file_id) : prog unit := call (GetFile f).
Definition fput (f : file_id) : prog unit := call (Fput f).
Definition get_files_struct (t : task_id) : prog (option files_id) := call (GetFilesStruct t).
Definition put_files_struct (f : files_id) : prog unit := call (PutFilesStruct f).
Definition fcheck_files (f : files_id) (fd : Z) : prog (option file_id) := call (FcheckFiles f fd).
Definition max_fds (f : files_id) : prog Z := call (MaxFds f).
Definition get_mnt_ns (n : mntns_id) : prog unit := call (GetMntNs n).
Definition put_mnt_ns (n : mntns_id) : prog unit := call (PutMntNs n).
Definition seq_open (f : file_id) (ops : seq_operations) : prog Z := call (SeqOpen f ops).
Definition seq_release (i : inode_id) (f : file_id) (m : private_data) : prog Z := call (SeqRelease i f m).
Definition single_open (f : file_id) (show : show_cb) (data : option inode_id) : prog Z :=
  call (SingleOpen f show data).
Definition poll_wait (f : file_id) (n : mntns_id) : prog unit := call (PollWait f n).
Definition seq_print (m : ptr) (text : bytes) : prog unit := call (SeqPrint m text).
Definition d_path (p : path) : prog (Z + bytes) := call (DPath p).
Definition vfs_readlink (d : dentry_id) (buf n : Z) (link : bytes) : prog Z := call (VfsReadlink d buf n link).
Definition vfs_follow_link (link : bytes) : prog Z := call (VfsFollowLink link).
Definition kmalloc (size : Z) : prog (option ptr) := call (Kmalloc size).
Definition kfree (p : option ptr) : prog unit := call (Kfree p).
Definition get_free_page : prog (option ptr) := call GetFreePage.
Definition free_page (p : ptr) : prog unit := call (FreePage p).
Definition copy_to_user (dst : Z) (data : bytes) : prog Z := call (CopyToUser dst data).
Definition copy_from_user (src n : Z) : prog (Z * bytes) := call (CopyFromUser src n).
Definition simple_read_from_buffer (dst n pos : Z) (from : bytes) : prog (Z * Z) := call (SimpleReadFromBuffer dst n pos from).
Definition new_inode (sb : nat) : prog (option inode_id) := call (NewInode sb).
Definition iput (i : inode_id) : prog unit := call (Iput i).
Definition current_time : prog Z := call CurrentTime.
Definition d_add (d : dentry_id) (i : inode_id) : prog unit := call (DAdd d i).
Definition d_drop (d : dentry_id) : prog unit := call (DDrop d).
Definition d_lookup (dir : dentry_id) (name : bytes) : prog (option dentry_id) := call (DLookup dir name).
Definition d_alloc (dir : dentry_id) (name : bytes) : prog (option dentry_id) := call (DAlloc dir name).
Definition d_hash_and_lookup (dir : dentry_id) (name : bytes) : prog (option dentry_id) := call (DHashAndLookup dir name).
Definition dput (d : dentry_id) : prog unit := call (Dput d).
Definition shrink_dcache_parent (d : dentry_id) : prog unit := call (ShrinkDcacheParent d).
Definition parent_ino (d : dentry_id) : prog Z := call (ParentIno d).
Definition find_inode_number (dir : dentry_id) (name : bytes) : prog Z := call (FindInodeNumber dir name).
Definition security_task_to_inode (t : task_id) (i : inode_id) : prog unit := call (SecurityTaskToInode t i).
Definition inode_change_ok (i : inode_id) (valid : Z) : prog Z := call (InodeChangeOk i valid).
Definition inode_setattr (i : inode_id) (valid : Z) : prog Z := call (InodeSetattr i valid).
Definition generic_fillattr (i : inode_id) : prog kstat := call (GenericFillattr i).
Definition generic_permission (i : inode_id) (mask : Z) : prog Z := call (GenericPermission i mask).
Definition filldir (name : bytes) (nlen pos ino type : Z) : prog Z := call (Filldir name nlen pos ino type).
Definition simple_strtol (s : bytes) (base : Z) : prog (Z * Z) := call (SimpleStrtol s base).
Definition simple_strtoul (s : bytes) (base : Z) : prog (Z * Z) := call (SimpleStrtoul s base).
Definition badness (t : task_id) (uptime : Z) : prog Z := call (Badness t uptime).
Definition monotonic_seconds : prog Z := call MonotonicSeconds.
Definition task_io_accounting_add (dst src : io_accounting) : prog io_accounting :=
  call (TaskIoAccountingAdd dst src).
Definition sprint_pointer (addr : Z) : prog bytes := call (SprintPointer addr).
Definition get_wchan (t : task_id) : prog Z := call (GetWchan t).
Definition lookup_symbol_name (addr : Z) : prog (Z * bytes) := call (LookupSymbolName addr).
Definition sprint_symbol (addr : Z) : prog bytes := call (SprintSymbol addr).
Definition save_stack_trace_tsk (t : task_id) (max : Z) : prog (list Z) := call (SaveStackTraceTsk t max).
Definition task_current_syscall (t : task_id) : prog (Z * (Z * list Z * Z * Z)) := call (TaskCurrentSyscall t).
Definition security_getprocattr (t : task_id) (name : bytes) : prog (Z * option ptr * bytes) := call (SecurityGetprocattr t name).
Definition security_setprocattr (t : task_id) (name value : bytes) : prog Z := call (SecuritySetprocattr t name value).
Definition audit_get_loginuid (t : task_id) : prog Z := call (AuditGetLoginuid t).
Definition audit_get_sessionid (t : task_id) : prog Z := call (AuditGetSessionid t).
Definition audit_set_loginuid (t : task_id) (uid : Z) : prog Z := call (AuditSetLoginuid t uid).
Definition proc_sched_show_task (t : task_id) (m : ptr) : prog unit := call (ProcSchedShowTask t m).
Definition proc_sched_set_task (t : task_id) : prog unit := call (ProcSchedSetTask t).
Definition clear_all_latency_tracing (t : task_id) : prog unit := call (ClearAllLatencyTracing t).
Definition external_show (f : show_fn) (m : ptr) (ns : ns_id) (p : pid_id) (t : task_id) : prog Z := call (ExternalShow f m ns p t).
Definition force_successful_syscall_return : prog unit := call ForceSuccessfulSyscallReturn.
Definition call_hook (f : nat) : prog unit := call (CallHook f).
Definition task_lock (t : task_id) : prog unit := call (Lock (TaskLock t)).
Definition task_unlock (t : task_id) : prog unit := call (Unlock (TaskLock t)).
Definition read_lock_fs (f : fs_id) : prog unit := call (Lock (FsLock f)).
Definition read_unlock_fs (f : fs_id) : prog unit := call (Unlock (FsLock f)).
Definition rcu_read_lock : prog unit := call (Lock Rcu).
Definition rcu_read_unlock : prog unit := call (Unlock Rcu).
Definition read_lock_tasklist : prog unit := call (Lock TasklistLock).
Definition read_unlock_tasklist : prog unit := call (Unlock TasklistLock).
Definition down_read_mmap_sem (m : mm_id) : prog unit := call (Lock (MmapSem m)).
Definition up_read_mmap_sem (m : mm_id) : prog unit := call (Unlock (MmapSem m)).
Definition spin_lock_files (f : files_id) : prog unit := call (Lock (FileLock f)).
Definition spin_unlock_files (f : files_id) : prog unit := call (Unlock (FileLock f)).
Definition spin_lock_vfsmount : prog unit := call (Lock VfsmountLock).
Definition spin_unlock_vfsmount : prog unit := call (Unlock VfsmountLock).
Definition unlock_task_sighand (t : task_id) : prog unit := call (Unlock (Sighand t)).

#[export] Hint Unfold lock_task_sighand get_proc_task get_task_struct put_task_struct
  get_pid_task pid_task get_task_pid proc_pid proc_fd find_task_by_pid_ns find_ge_pid
  pid_nr_ns task_pid_nr_ns task_tgid_nr_ns task_pid task_tgid has_group_leader_pid
  thread_group_leader same_thread_group pid_alive next_thread task_cred
  task_is_stopped_or_traced tracehook_tracer_task ptrace_may_access
  ptrace_may_access_locked capable task_nsproxy pid_ns_release_proc get_task_mm mmput
  get_dumpable access_process_vm poke_process_vm path_get path_put get_file fput get_files_struct
  put_files_struct fcheck_files max_fds get_mnt_ns put_mnt_ns seq_open seq_release
  single_open poll_wait seq_print d_path vfs_readlink vfs_follow_link kmalloc kfree
  get_free_page free_page copy_to_user copy_from_user simple_read_from_buffer new_inode
  iput current_time d_add d_drop d_lookup d_alloc d_hash_and_lookup dput
  shrink_dcache_parent parent_ino find_inode_number security_task_to_inode inode_change_ok
  inode_setattr generic_fillattr generic_permission filldir simple_strtol simple_strtoul
  badness monotonic_seconds task_io_accounting_add sprint_pointer get_wchan lookup_symbol_name sprint_symbol
  save_stack_trace_tsk task_current_syscall security_getprocattr security_setprocattr
  audit_get_loginuid audit_get_sessionid audit_set_loginuid proc_sched_show_task
  proc_sched_set_task clear_all_latency_tracing external_show
  force_successful_syscall_return call_hook task_lock task_unlock read_lock_fs
  read_unlock_fs rcu_read_lock rcu_read_unlock read_lock_tasklist read_unlock_tasklist
  down_read_mmap_sem up_read_mmap_sem spin_lock_files spin_unlock_files spin_lock_vfsmount
  spin_unlock_vfsmount unlock_task_sighand : kcalls.

(** ** Automation

    [ksteps] runs a program symbolically: it introduces the answer and the
    store after every operation, keeps the accounting in normal form, and
    splits on the tests of the code. *)

#[global] Arguments after _ _ _ _ /.
#[global] Arguments set_mem _ _ /.
#[global] Arguments misuses _ _ /.
#[global] Arguments call _ /.
#[global] Arguments gets _ _ /.
#[global] Arguments modify _ /.
#[global] Arguments opt_res _ _ _ /.

Ltac kdec :=
  match goal with
  | |- context [?x || true] => rewrite (orb_true_r x); cbv iota
  | |- context [decide (?x = ?x)] => rewrite (decide_True (P := x = x)) by reflexivity
  | |- context [decide (?a = ?b)] => rewrite (decide_False (P := a = b)) by discriminate
  | |- context [decide (@eq res ?a ?b)] => destruct (decide (a = b)); simplify_eq
  end.

Ltac kcbn :=
  cbn [wp pbind mbind mret prog_mret prog_mbind call gets modify after acquires releases
       misuses guarded opt_res app fold_right flat_map held bad log mem set_mem release holds
       orb andb negb existsb fst snd].

(** Splits on the test that blocks the evaluation of a program. *)
Ltac ksplit p :=
  lazymatch p with
  | pbind ?q _ => ksplit q
  | mbind _ ?q => ksplit q
  | match ?x with _ => _ end =>
      lazymatch x with
      | decide _ => destruct x
      | _ => destruct x eqn:?
      end
  end.

Ltac kunfold := repeat autounfold with kcalls.

Ltac kstep :=
  kcbn; repeat kdec;
  lazymatch goal with
  | |- anything _ _ _ _ _ -> _ => intros _
  | |- answers _ _ _ _ _ _ -> _ => intros [-> ->]
  | |- forall _, _ => intros ?
  | |- wp _ ?p _ _ => ksplit p
  end.

Ltac ksteps := kunfold; repeat kstep; kcbn; repeat (kdec; kcbn).

(** Starts the proof of an [ends] under every environment. *)
Ltac kany :=
  intros; apply (wp_ends _ anything); [apply keeps_anything|];
  match goal with |- wp _ _ _ ?w => destruct w as [k0 h0 b0 l0] end.

(** The same under every time-invariant environment. *)
Ltac kfixed :=
  intros; match goal with |- ends (fixed ?A) _ _ _ => apply (wp_ends _ (answers A)) end;
  [apply keeps_fixed|];
  match goal with |- wp _ _ _ ?w => destruct w as [k0 h0 b0 l0] end.

(** What a function returns to its caller still held, on top of what the
    caller held already. *)
Definition keeps_only (rs : list res) (w w' : world) : Prop :=
  held w' = rs ++ held w /\ bad w' = bad w.

Lemma keeps_only_nil w w' : keeps_only [] w w' <-> balanced w w'.
Proof. done. Qed.

(** ** Contracts and sample environments *)

(** [access_process_vm] transfers at most what it was asked for and reports
    what it transferred. *)
Definition vm_contract : contract := fun o =>
  match o return list obs -> kmem -> ans o -> kmem -> Prop with
  | AccessProcessVm _ _ n => fun _ _ x _ => 0 <= n -> 0 <= x.1 <= n /\ len x.2 = x.1
  | _ => fun _ _ _ _ => True
  end.

(** A kernel that answers NULL, false, 0 or nothing to everything; the
    concrete environments of the witnesses override some of its answers. *)
Definition silent (o : op) : ans o.
Proof.
  destruct o; cbn;
    first [exact tt|exact false|exact 0|exact None|exact 0%nat|exact []|exact (0, [])|exact (0, 0)
          |exact (inl 0)|exact inhabitant|exact (0, (0, [], 0, 0))|exact (0, None, [])
          |exact (Kstat 0 0 0 0)].
Defined.
