(* ===== verification/Access.v ===== *)
(** * Access to tasks (fs/proc/base.c)

    The helpers that reach a task's file-system context, memory and thread
    count, and the permission checks every /proc/<pid> operation starts with:
    [get_fs_path], [get_nr_threads], [proc_cwd_link], [proc_root_link],
    [check_mem_permission], [mm_for_maps], [proc_fd_access_allowed],
    [proc_setattr] and [task_dumpable]. *)
From S2P Require Import Prelude Structs Kernel.

Definition PTRACE_MODE_READ := 1.
Definition PTRACE_MODE_ATTACH := 2.
Definition ATTR_MODE := 1.

(** [*path] is [Some] once it has been written. *)
Definition get_fs_path (task : task_id) (root : bool) : prog (Z * option path) :=
  task_lock task;;
  fs ← gets (fun m => t_fs (k_task m !!! task));
  result ← match fs with
           | Some fs =>
               read_lock_fs fs;;
               p ← gets (fun m => if root then fs_root (k_fs m !!! fs) else fs_pwd (k_fs m !!! fs));
               path_get p;;
               read_unlock_fs fs;;
               mret (0, Some p)
           | None => mret (- ENOENT, None)
           end;
  task_unlock task;;
  mret result.

Definition get_nr_threads (tsk : task_id) : prog Z :=
  locked ← lock_task_sighand tsk;
  if (locked : bool) then
    count ← gets (fun m => sig_count (k_signal m !!! t_signal (k_task m !!! tsk)));
    unlock_task_sighand tsk;;
    mret count
  else mret 0.

Definition proc_cwd_link (inode : inode_id) : prog (Z * option path) :=
  task ← get_proc_task inode;
  match task with
  | Some task =>
      result ← get_fs_path task false;
      put_task_struct task;;
      mret result
  | None => mret (- ENOENT, None)
  end.

Definition proc_root_link (inode : inode_id) : prog (Z * option path) :=
  task ← get_proc_task inode;
  match task with
  | Some task =>
      result ← get_fs_path task true;
      put_task_struct task;;
      mret result
  | None => mret (- ENOENT, None)
  end.

(** Zero if current may access user memory in [task], -error if not. *)
Definition check_mem_permission (task : task_id) : prog Z :=
  current ← gets k_current;
  if decide (task = current) then mret 0
  else
    stopped ← task_is_stopped_or_traced task;
    if (stopped : bool) then
      rcu_read_lock;;
      tracer ← tracehook_tracer_task task;
      current ← gets k_current;
      rcu_read_unlock;;
      if decide (tracer = Some current) then
        may ← ptrace_may_access task PTRACE_MODE_ATTACH;
        if (may : bool) then mret 0 else mret (- EPERM)
      else mret (- EPERM)
    else mret (- EPERM).

Definition mm_for_maps (task : task_id) : prog (option mm_id) :=
  mm ← get_task_mm task;
  match mm with
  | None => mret None
  | Some mm =>
      let out := task_unlock task;; up_read_mmap_sem mm;; mmput mm;; mret None in
      down_read_mmap_sem mm;;
      task_lock task;;
      task_mm ← gets (fun m => t_mm (k_task m !!! task));
      if decide (task_mm = Some mm) then
        current_mm ← gets (fun m => t_mm (k_task m !!! k_current m));
        task_mm ← gets (fun m => t_mm (k_task m !!! task));
        if decide (task_mm = current_mm) then
          task_unlock task;; mret (Some mm)
        else
          err ← ptrace_may_access_locked task PTRACE_MODE_READ;
          if err <? 0 then out else task_unlock task;; mret (Some mm)
      else out
  end.

Definition proc_fd_access_allowed (inode : inode_id) : prog bool :=
  task ← get_proc_task inode;
  match task with
  | Some task =>
      allowed ← ptrace_may_access task PTRACE_MODE_READ;
      put_task_struct task;;
      mret allowed
  | None => mret false
  end.

(** [attr] by its [ia_valid], the only field this function looks at. *)
Definition proc_setattr (inode : inode_id) (ia_valid : Z) : prog Z :=
  if negb (Z.land ia_valid ATTR_MODE =? 0) then mret (- EPERM)
  else
    error ← inode_change_ok inode ia_valid;
    if error =? 0 then inode_setattr inode ia_valid else mret error.

Definition task_dumpable (task : task_id) : prog bool :=
  task_lock task;;
  mm ← gets (fun m => t_mm (k_task m !!! task));
  dumpable ← match mm with
             | Some mm => get_dumpable mm
             | None => mret 0
             end;
  task_unlock task;;
  mret (dumpable =? 1).

(** ** Rules for callers *)

Lemma get_fs_path_wp R task root w (Q : Z * option path -> world -> Prop) :
  (forall r p w', keeps_only (opt_res RPath p) w w' ->
    r = (match p with Some _ => 0 | None => - ENOENT end) -> Q (r, p) w') ->
  wp R (get_fs_path task root) Q w.
Proof. intros HQ. destruct w. unfold get_fs_path. ksteps; by apply HQ. Qed.

Lemma check_mem_permission_wp R task w (Q : Z -> world -> Prop) :
  (forall r w', balanced w w' -> r = 0 \/ r = - EPERM -> Q r w') ->
  wp R (check_mem_permission task) Q w.
Proof.
  intros HQ. destruct w. unfold check_mem_permission. ksteps; apply HQ; auto; done.
Qed.

Lemma get_nr_threads_wp R task w (Q : Z -> world -> Prop) :
  (forall r w', balanced w w' -> Q r w') -> wp R (get_nr_threads task) Q w.
Proof. intros HQ. destruct w. unfold get_nr_threads. ksteps; by apply HQ. Qed.

Lemma proc_fd_access_allowed_wp R inode w (Q : bool -> world -> Prop) :
  (forall r w', balanced w w' -> Q r w') -> wp R (proc_fd_access_allowed inode) Q w.
Proof. intros HQ. destruct w. unfold proc_fd_access_allowed. ksteps; by apply HQ. Qed.

Lemma task_dumpable_wp R task w (Q : bool -> world -> Prop) :
  (forall r w', balanced w w' -> Q r w') -> wp R (task_dumpable task) Q w.
Proof. intros HQ. destruct w. unfold task_dumpable. ksteps; by apply HQ. Qed.

(** ** Properties *)

(** Whatever the rest of the kernel answers, the [cwd] and [root] links of
    a task give the caller a path with one reference exactly when they return
    0, return -ENOENT otherwise, and in both cases give back the task
    reference and the two locks they take. *)
Theorem task_links_keep_only_path E inode w :
  let link_ok := fun (r : Z * option path) w' =>
    keeps_only (opt_res RPath r.2) w w' /\ r.1 = (match r.2 with Some _ => 0 | None => - ENOENT end) in
  ends E (proc_cwd_link inode) w link_ok /\ ends E (proc_root_link inode) w link_ok.
Proof.
  split; kany; [unfold proc_cwd_link|unfold proc_root_link]; unfold get_fs_path; ksteps; done.
Qed.

(** Whether [check_mem_permission] grants access, given the answers of the
    kernel: the task itself, or its tracer when it could attach again. *)
Definition mem_allowed (A : forall o, ans o) (current task : task_id) : Prop :=
  task = current \/
  (A (TaskIsStoppedOrTraced task) = true /\
   A (TracehookTracerTask task) = Some current /\
   A (PtraceMayAccess task PTRACE_MODE_ATTACH) = true).

(** [check_mem_permission] returns 0 exactly for the task itself and for
    the current tracer of a stopped task that may still attach to it, -EPERM
    for everyone else, and changes nothing. *)
Theorem check_mem_permission_spec A task w :
  ends (fixed A) (check_mem_permission task) w (fun r w' =>
    mem w' = mem w /\
    (r = 0 \/ r = - EPERM) /\
    (r = 0 <-> mem_allowed A (k_current (mem w)) task)).
Proof.
  kfixed. unfold check_mem_permission, mem_allowed. ksteps; unfold EPERM; naive_solver.
Qed.

(** C22: [mm_for_maps] hands out an address space only with a reference and its
    [mmap_sem] read-held, and holds nothing after a refusal; it hands out the
    task's own current address space only, and only when it is the reader's
    address space too or tracing would be allowed. *)
Theorem mm_for_maps_spec A task w :
  let task_mm := t_mm (k_task (mem w) !!! task) in
  let current_mm := t_mm (k_task (mem w) !!! k_current (mem w)) in
  ends (fixed A) (mm_for_maps task) w (fun r w' =>
    keeps_only (match r with Some mm => [RLock (MmapSem mm); RMm mm] | None => [] end) w w' /\
    forall mm, r = Some mm <->
      A (GetTaskMm task) = Some mm /\ task_mm = Some mm /\
      (task_mm = current_mm \/ 0 <= A (PtraceMayAccessLocked task PTRACE_MODE_READ))).
Proof.
  kfixed. unfold mm_for_maps. ksteps; (split; [done|]); intros mm'; split; intros; destruct_and?;
    simplify_eq; try naive_solver lia.
Qed.
