(* ===== verification/Names.v ===== *)
(** * Numeric names (fs/proc/base.c: name_to_int, and the names readdir emits)

    [name_to_int] turns the name of a directory entry into a pid, tid or file
    descriptor; the readdir functions print the same numbers with
    [snprintf(name, PROC_NUMBUF, "%d", n)]. *)
From S2P Require Import Prelude Format.

(** [~0U], the value that stands for no number. *)
Definition NO_NUMBER := 4294967295.

Definition PROC_NUMBUF := 13.

(** The [while] loop: the rest of the name and the number read so far. *)
Fixpoint name_to_int_loop (name : bytes) (n : Z) : Z :=
  match name with
  | [] => n
  | ch :: name =>
      let c := u32 (ch - 48) in
      if 9 <? c then NO_NUMBER
      else if (NO_NUMBER - 9) / 10 <=? n then NO_NUMBER
      else name_to_int_loop name (u32 (u32 (n * 10) + c))
  end.

Definition name_to_int (name : bytes) : Z :=
  if (1 <? len name) && (zbyte name 0 =? 48) then NO_NUMBER
  else name_to_int_loop name 0.

(** [snprintf(name, sizeof(name), "%d", n)] of an [unsigned] or [int] [n]. *)
Definition numeric_name (n : Z) : bytes * Z := snprintf PROC_NUMBUF (fmt_d (s32 n)).

(** The largest number [name_to_int] can return: the test against overflow is
    made before the last digit, so the last decade below [~0U] is refused. *)
Definition MAX_NUMBER := 4294967280.

(** What [name_to_int] computes. *)
Definition name_value (name : bytes) : Z :=
  if decide (name = []) then 0
  else if canonical name && (dec_value name <? MAX_NUMBER) then dec_value name
  else NO_NUMBER.

Definition is_bytes (s : bytes) : Prop := Forall (fun c => 0 <= c < 256) s.

Lemma digit_test ch : 0 <= ch < 256 ->
  (9 <? u32 (ch - 48)) = negb (is_digit ch) /\ (is_digit ch = true -> u32 (ch - 48) = digit_value ch).
Proof.
  intros Hch. unfold u32, is_digit, digit_value.
  destruct (Z.lt_ge_cases ch 48).
  - rewrite <- (Z_mod_plus_full (ch - 48) 1), Z.mod_small by lia. lia.
  - rewrite Z.mod_small by lia. lia.
Qed.

(** The loop reads the digits of [rest] on top of those of [pre]. *)
Lemma name_to_int_loop_value rest pre : is_bytes rest -> forallb is_digit pre = true ->
  dec_value pre < MAX_NUMBER ->
  name_to_int_loop rest (dec_value pre) =
    if forallb is_digit rest && (dec_value (pre ++ rest) <? MAX_NUMBER)
    then dec_value (pre ++ rest) else NO_NUMBER.
Proof.
  revert pre. induction rest as [|ch rest IH]; intros pre Hb Hpre Hlt; cbn [name_to_int_loop forallb].
  { rewrite app_nil_r, andb_true_l. destruct (Z.ltb_spec (dec_value pre) MAX_NUMBER); lia. }
  apply Forall_cons in Hb as [Hch Hb]. destruct (digit_test ch Hch) as [-> Hv].
  destruct (is_digit ch) eqn:Hd; cbn [negb andb]; [|done]. rewrite Hv by done.
  pose proof (dec_value_nonneg pre Hpre) as Hn.
  assert (Hch' : 0 <= digit_value ch <= 9) by (unfold is_digit, digit_value in *; lia).
  change ((NO_NUMBER - 9) / 10) with 429496728.
  assert (Happ : pre ++ ch :: rest = (pre ++ [ch]) ++ rest) by by rewrite <- app_assoc.
  destruct (Z.leb_spec 429496728 (dec_value pre)) as [Hbig|Hsmall].
  - (* the number already has too many digits *)
    assert (Hmono : forall r p, forallb is_digit r = true -> forallb is_digit p = true ->
      dec_value p <= dec_value (p ++ r)).
    { clear. intros r. induction r as [|c r IHr] using rev_ind; intros p Hr Hp; [rewrite app_nil_r; lia|].
      rewrite forallb_app in Hr. apply andb_true_iff in Hr as [Hr Hc]. specialize (IHr p Hr Hp).
      pose proof (dec_value_nonneg p Hp). rewrite app_assoc, dec_value_snoc.
      cbn in Hc. unfold is_digit, digit_value in *. lia. }
    destruct (forallb is_digit rest) eqn:Hr; [|done]. rewrite Happ.
    specialize (Hmono rest (pre ++ [ch]) Hr). rewrite forallb_app, Hpre in Hmono.
    cbn [forallb] in Hmono. rewrite Hd, dec_value_snoc in Hmono. specialize (Hmono eq_refl).
    destruct (Z.ltb_spec (dec_value ((pre ++ [ch]) ++ rest)) MAX_NUMBER); [|done].
    unfold MAX_NUMBER in *; lia.
  - rewrite (u32_small (dec_value pre * 10)), (u32_small (_ + _)) by lia.
    rewrite <- dec_value_snoc, Happ. apply IH; [done| |rewrite dec_value_snoc; unfold MAX_NUMBER; lia].
    rewrite forallb_app, Hpre. cbn. by rewrite Hd.
Qed.

Lemma name_to_int_value name : is_bytes name -> name_to_int name = name_value name.
Proof.
  intros Hb. unfold name_to_int, name_value.
  destruct (decide (name = [])) as [->|Hne]; [done|].
  destruct ((1 <? len name) && (zbyte name 0 =? 48)) eqn:Hz.
  - apply andb_true_iff in Hz as [Hl Hz]. destruct name as [|c [|c' name]]; [done|done|].
    change (zbyte (c :: c' :: name) 0) with c in Hz.
    unfold canonical. rewrite Hz, andb_false_r. done.
  - pose proof (name_to_int_loop_value name [] Hb) as Hloop. cbn [app] in Hloop.
    change (dec_value []) with 0 in Hloop. rewrite Hloop by (done || unfold MAX_NUMBER; lia).
    destruct (forallb is_digit name) eqn:Hd; unfold canonical; rewrite Hd; [|done].
    destruct name as [|c [|c' name]]; [done|done|].
    change (zbyte (c :: c' :: name) 0) with c in Hz. rewrite !len_cons in Hz.
    pose proof (len_nonneg name). destruct (Z.ltb_spec 1 (1 + (1 + len name))); [|lia].
    cbn in Hz. by rewrite Hz.
Qed.

(** C15: [name_to_int] accepts exactly the canonical decimal numerals (digits
    only, no superfluous leading zero) of the numbers below 4294967280, and
    returns their value without ever wrapping around; the empty name reads as
    0 and every other name gives [~0U]. *)
Theorem name_to_int_spec name : is_bytes name -> name_to_int name = name_value name.
Proof. apply name_to_int_value. Qed.

Lemma name_to_int_spec_witness :
  is_bytes (str "4294967279") /\ name_to_int (str "4294967279") = 4294967279 /\
  name_to_int (str "4294967280") = NO_NUMBER /\ name_to_int (str "007") = NO_NUMBER.
Proof.
  assert (is_bytes (str "4294967279")) as H by (repeat constructor; done).
  split; [exact H|]. split; [rewrite (name_to_int_spec _ H); vm_compute; reflexivity|].
  split; vm_compute; reflexivity.
Defined.

(** An [int] in decimal, with its terminator, fits the buffer. *)
Lemma decimal_fits z : (PROC_NUMBUF <? len (fmt_d (s32 z)) + 1) = false.
Proof. apply Z.ltb_ge. pose proof (len_fmt_d32 _ (s32_range z)). unfold PROC_NUMBUF. lia. Qed.

Lemma numeric_name_read n : 0 <= n < 2 ^ 31 ->
  name_to_int (numeric_name n).1 = n /\ len (numeric_name n).1 = (numeric_name n).2 /\
  (numeric_name n).2 < PROC_NUMBUF.
Proof.
  intros Hn. unfold numeric_name. rewrite s32_small by lia. cbn [fst snd snprintf].
  pose proof (len_fmt_d32 n ltac:(lia)) as Hl.
  assert (Hcut : ztake (PROC_NUMBUF - 1) (fmt_d n) = fmt_d n).
  { unfold ztake. apply take_ge. unfold len in Hl. unfold PROC_NUMBUF. lia. }
  rewrite Hcut. split; [|unfold PROC_NUMBUF; lia]. unfold fmt_d.
  destruct (Z.ltb_spec n 0); [lia|]. rewrite name_to_int_value.
  - unfold name_value. destruct (decide (digits 10 n = [])) as [He|_].
    { pose proof (len_digits_bound 10 n 10 ltac:(lia) ltac:(lia) ltac:(lia)) as Hd.
      rewrite He, len_nil in Hd. lia. }
    rewrite digits_canonical, dec_value_digits by lia. unfold MAX_NUMBER.
    by destruct (Z.ltb_spec n 4294967280); [|lia].
  - eapply Forall_impl; [apply digits10_chars; lia|]. cbn. lia.
Qed.

(** The name of a number, without its buffer. *)
Lemma numeric_name_digits n : 0 <= n < 2 ^ 31 -> (numeric_name n).1 = digits 10 n.
Proof.
  intros Hn. unfold numeric_name. rewrite s32_small by lia. cbn [fst snprintf]. unfold fmt_d.
  destruct (Z.ltb_spec n 0); [lia|]. pose proof (len_fmt_d32 n ltac:(lia)) as Hl. unfold fmt_d in Hl.
  destruct (Z.ltb_spec n 0); [lia|]. unfold ztake. apply take_ge. unfold len in Hl. unfold PROC_NUMBUF. lia.
Qed.

(** The other direction: a name that reads as a number is its printed form,
    the empty name apart, which reads as 0. *)
Lemma printed_of_read name n : is_bytes name -> name <> [] -> name_to_int name = n -> 0 <= n < 2 ^ 31 ->
  name = (numeric_name n).1.
Proof.
  intros Hb Hne Hr Hn. rewrite numeric_name_digits by lia. rewrite name_to_int_value in Hr by done. unfold name_value in Hr.
  destruct (decide (name = [])); [done|]. destruct (canonical name) eqn:Hc; cbn [andb] in Hr; [|unfold NO_NUMBER in Hr; lia].
  destruct (_ <? _); [|unfold NO_NUMBER in Hr; lia]. subst n. by rewrite digits_dec_value.
Qed.

Lemma numeric_name_of_read name n : is_bytes name -> name_to_int name = n -> 0 < n < 2 ^ 31 ->
  name = (numeric_name n).1.
Proof.
  intros Hb Hr Hn. apply printed_of_read; [done| |done|lia]. intros ->. rewrite name_to_int_value in Hr by done.
  change (name_value []) with 0 in Hr. lia.
Qed.

Lemma name_to_int_range name : is_bytes name -> 0 <= name_to_int name < 2 ^ 32.
Proof.
  intros Hb. rewrite name_to_int_value by done. unfold name_value. destruct (decide (name = [])); [lia|].
  destruct (canonical name) eqn:Hc; cbn [andb]; [|unfold NO_NUMBER; lia].
  pose proof (dec_value_nonneg name (canonical_digits _ Hc)).
  destruct (Z.ltb_spec (dec_value name) MAX_NUMBER); unfold MAX_NUMBER, NO_NUMBER in *; lia.
Qed.

(** The cast to [int] loses nothing of a number that is not negative. *)
Lemma name_to_int_s32 name n : is_bytes name -> s32 (name_to_int name) = n -> 0 <= n -> name_to_int name = n.
Proof.
  intros Hb Hn Hpos. pose proof (name_to_int_range name Hb). unfold s32 in *. Z.to_euclidean_division_equations. lia.
Qed.

(** A printed number is neither "." nor "..": it starts with a digit. *)
Lemma numeric_name_head n : 0 <= n < 2 ^ 31 -> exists c s, (numeric_name n).1 = c :: s /\ 48 <= c <= 57.
Proof.
  intros Hn. rewrite numeric_name_digits by done. pose proof (digits10_chars n ltac:(lia)) as Hc.
  destruct (digits 10 n) as [|c s] eqn:Hd.
  - pose proof (len_digits_bound 10 n 10 ltac:(lia) ltac:(lia) ltac:(lia)) as Hl. rewrite Hd, len_nil in Hl. lia.
  - apply Forall_cons in Hc as [Hc _]. by exists c, s.
Qed.

Lemma numeric_name_first n : exists c s, (numeric_name n).1 = c :: s /\ (c = 45 \/ 48 <= c <= 57).
Proof.
  destruct (Z_lt_ge_dec (s32 n) 0) as [Hn|Hn].
  - unfold numeric_name, fmt_d. destruct (Z.ltb_spec (s32 n) 0); [|lia]. eexists _, _. split; [reflexivity|by left].
  - pose proof (s32_range n) as Hr. destruct (numeric_name_head (s32 n) ltac:(lia)) as (c & s & Hc & Hd).
    exists c, s. split; [|by right]. revert Hc. unfold numeric_name. by rewrite (s32_small (s32 n)) by lia.
Qed.

Lemma numeric_name_inj n k : 0 <= n < 2 ^ 31 -> 0 <= k < 2 ^ 31 -> (numeric_name n).1 = (numeric_name k).1 -> n = k.
Proof.
  intros Hn Hk He. rewrite <- (proj1 (numeric_name_read n Hn)), He. apply (numeric_name_read k Hk).
Qed.

(** C16: The names readdir prints are read back by lookup as the same number,
    for every pid, tid and descriptor an [int] can hold; they fit the
    [PROC_NUMBUF] bytes of their buffer uncut. *)
Theorem numeric_name_roundtrip n : 0 <= n < 2 ^ 31 ->
  name_to_int (numeric_name n).1 = n /\ len (numeric_name n).1 = (numeric_name n).2 /\
  (numeric_name n).2 < PROC_NUMBUF.
Proof. apply numeric_name_read. Qed.

Lemma numeric_name_roundtrip_witness :
  0 <= 2147483647 < 2 ^ 31 /\ name_to_int (numeric_name 2147483647).1 = 2147483647.
Proof. split; [lia|]. apply (numeric_name_roundtrip 2147483647). lia. Defined.
