(* ===== verification/Tables.v ===== *)
(** * The entry tables (fs/proc/base.c: struct pid_entry and the *_stuff arrays)

    The macros that build entries, the arrays of the files below /proc/<tgid>,
    /proc/<tgid>/task/<tid>, /proc/<pid>/attr and /proc itself, for every
    kernel configuration, and the functions that walk them. *)
From S2P Require Import Prelude Structs.

(** The options of the [#ifdef]s in the arrays;
    [ELF_CORE_DUMP] is [defined(USE_ELF_CORE_DUMP) && defined(CONFIG_ELF_CORE)]. *)
Class Config := {
  CONFIG_NET : bool;
  CONFIG_SCHED_DEBUG : bool;
  CONFIG_HAVE_ARCH_TRACEHOOK : bool;
  CONFIG_NUMA : bool;
  CONFIG_PROC_PAGE_MONITOR : bool;
  CONFIG_SECURITY : bool;
  CONFIG_KALLSYMS : bool;
  CONFIG_STACKTRACE : bool;
  CONFIG_SCHEDSTATS : bool;
  CONFIG_LATENCYTOP : bool;
  CONFIG_PROC_PID_CPUSET : bool;
  CONFIG_CGROUPS : bool;
  CONFIG_AUDITSYSCALL : bool;
  CONFIG_FAULT_INJECTION : bool;
  ELF_CORE_DUMP : bool;
  CONFIG_TASK_IO_ACCOUNTING : bool;
}.

Record pid_entry := PidEntry {
  pe_name : bytes;
  pe_len : Z;
  pe_mode : Z;
  pe_iop : option inode_operations;
  pe_fop : option file_operations;
  pe_op : proc_op;
}.

Definition NOD (name : string) (mode : Z) iop fop op : pid_entry :=
  PidEntry (str name) (len (str name)) mode iop fop op.

Definition DIR (name : string) (mode : Z) iops fops : pid_entry :=
  NOD name (Z.lor S_IFDIR mode) (Some iops) (Some fops) OpZero.
Definition LNK (name : string) (get_link : link_fn) : pid_entry :=
  NOD name (Z.lor S_IFLNK S_IRWXUGO) (Some proc_pid_link_inode_operations) None
    (proc_get_link get_link).
Definition REG (name : string) (mode : Z) fops : pid_entry :=
  NOD name (Z.lor S_IFREG mode) None (Some fops) OpZero.
Definition INF (name : string) (mode : Z) (read : read_fn) : pid_entry :=
  NOD name (Z.lor S_IFREG mode) None (Some proc_info_file_operations) (proc_read read).
Definition ONE (name : string) (mode : Z) (show : show_fn) : pid_entry :=
  NOD name (Z.lor S_IFREG mode) None (Some proc_single_file_operations) (proc_show show).

Infix "∥" := Z.lor (at level 40, left associativity) : Z_scope.

(** An array as the source writes it, each entry with the condition under
    which the preprocessor keeps it. *)
Definition enabled (l : list (bool * pid_entry)) : list pid_entry :=
  (filter (fun e => e.1 = true) l).*2.

Section Arrays.
Context `{Config}.

Definition attr_dir_stuff : list pid_entry :=
  [ REG "current"    (S_IRUGO ∥ S_IWUGO) proc_pid_attr_operations;
    REG "prev"       S_IRUGO proc_pid_attr_operations;
    REG "exec"       (S_IRUGO ∥ S_IWUGO) proc_pid_attr_operations;
    REG "fscreate"   (S_IRUGO ∥ S_IWUGO) proc_pid_attr_operations;
    REG "keycreate"  (S_IRUGO ∥ S_IWUGO) proc_pid_attr_operations;
    REG "sockcreate" (S_IRUGO ∥ S_IWUGO) proc_pid_attr_operations ].

Definition proc_base_stuff : list pid_entry :=
  [ NOD "self" (S_IFLNK ∥ S_IRWXUGO) (Some proc_self_inode_operations) None OpZero ].

Definition tgid_base_all : list (bool * pid_entry) :=
  [ (true, DIR "task" (S_IRUGO ∥ S_IXUGO) proc_task_inode_operations proc_task_operations);
    (true, DIR "fd" (S_IRUSR ∥ S_IXUSR) proc_fd_inode_operations proc_fd_operations);
    (true, DIR "fdinfo" (S_IRUSR ∥ S_IXUSR) proc_fdinfo_inode_operations proc_fdinfo_operations);
    (CONFIG_NET, DIR "net" (S_IRUGO ∥ S_IXUGO) proc_net_inode_operations proc_net_operations);
    (true, REG "environ" S_IRUSR proc_environ_operations);
    (true, INF "auxv" S_IRUSR F_proc_pid_auxv);
    (true, ONE "status" S_IRUGO F_proc_pid_status);
    (true, ONE "personality" S_IRUSR F_proc_pid_personality);
    (true, INF "limits" S_IRUSR F_proc_pid_limits);
    (CONFIG_SCHED_DEBUG, REG "sched" (S_IRUGO ∥ S_IWUSR) proc_pid_sched_operations);
    (CONFIG_HAVE_ARCH_TRACEHOOK, INF "syscall" S_IRUSR F_proc_pid_syscall);
    (true, INF "cmdline" S_IRUGO F_proc_pid_cmdline);
    (true, ONE "stat" S_IRUGO F_proc_tgid_stat);
    (true, ONE "statm" S_IRUGO F_proc_pid_statm);
    (true, REG "maps" S_IRUGO proc_maps_operations);
    (CONFIG_NUMA, REG "numa_maps" S_IRUGO proc_numa_maps_operations);
    (true, REG "mem" (S_IRUSR ∥ S_IWUSR) proc_mem_operations);
    (true, LNK "cwd" F_proc_cwd_link);
    (true, LNK "root" F_proc_root_link);
    (true, LNK "exe" F_proc_exe_link);
    (true, REG "mounts" S_IRUGO proc_mounts_operations);
    (true, REG "mountinfo" S_IRUGO proc_mountinfo_operations);
    (true, REG "mountstats" S_IRUSR proc_mountstats_operations);
    (CONFIG_PROC_PAGE_MONITOR, REG "clear_refs" S_IWUSR proc_clear_refs_operations);
    (CONFIG_PROC_PAGE_MONITOR, REG "smaps" S_IRUGO proc_smaps_operations);
    (CONFIG_PROC_PAGE_MONITOR, REG "pagemap" S_IRUSR proc_pagemap_operations);
    (CONFIG_SECURITY, DIR "attr" (S_IRUGO ∥ S_IXUGO) proc_attr_dir_inode_operations proc_attr_dir_operations);
    (CONFIG_KALLSYMS, INF "wchan" S_IRUGO F_proc_pid_wchan);
    (CONFIG_STACKTRACE, ONE "stack" S_IRUSR F_proc_pid_stack);
    (CONFIG_SCHEDSTATS, INF "schedstat" S_IRUGO F_proc_pid_schedstat);
    (CONFIG_LATENCYTOP, REG "latency" S_IRUGO proc_lstats_operations);
    (CONFIG_PROC_PID_CPUSET, REG "cpuset" S_IRUGO proc_cpuset_operations);
    (CONFIG_CGROUPS, REG "cgroup" S_IRUGO proc_cgroup_operations);
    (true, INF "oom_score" S_IRUGO F_proc_oom_score);
    (true, REG "oom_adj" (S_IRUGO ∥ S_IWUSR) proc_oom_adjust_operations);
    (CONFIG_AUDITSYSCALL, REG "loginuid" (S_IWUSR ∥ S_IRUGO) proc_loginuid_operations);
    (CONFIG_AUDITSYSCALL, REG "sessionid" S_IRUGO proc_sessionid_operations);
    (CONFIG_FAULT_INJECTION, REG "make-it-fail" (S_IRUGO ∥ S_IWUSR) proc_fault_inject_operations);
    (ELF_CORE_DUMP, REG "coredump_filter" (S_IRUGO ∥ S_IWUSR) proc_coredump_filter_operations);
    (CONFIG_TASK_IO_ACCOUNTING, INF "io" S_IRUGO F_proc_tgid_io_accounting) ].

Definition tgid_base_stuff : list pid_entry := enabled tgid_base_all.

Definition tid_base_all : list (bool * pid_entry) :=
  [ (true, DIR "fd" (S_IRUSR ∥ S_IXUSR) proc_fd_inode_operations proc_fd_operations);
    (true, DIR "fdinfo" (S_IRUSR ∥ S_IXUSR) proc_fdinfo_inode_operations proc_fd_operations);
    (true, REG "environ" S_IRUSR proc_environ_operations);
    (true, INF "auxv" S_IRUSR F_proc_pid_auxv);
    (true, ONE "status" S_IRUGO F_proc_pid_status);
    (true, ONE "personality" S_IRUSR F_proc_pid_personality);
    (true, INF "limits" S_IRUSR F_proc_pid_limits);
    (CONFIG_SCHED_DEBUG, REG "sched" (S_IRUGO ∥ S_IWUSR) proc_pid_sched_operations);
    (CONFIG_HAVE_ARCH_TRACEHOOK, INF "syscall" S_IRUSR F_proc_pid_syscall);
    (true, INF "cmdline" S_IRUGO F_proc_pid_cmdline);
    (true, ONE "stat" S_IRUGO F_proc_tid_stat);
    (true, ONE "statm" S_IRUGO F_proc_pid_statm);
    (true, REG "maps" S_IRUGO proc_maps_operations);
    (CONFIG_NUMA, REG "numa_maps" S_IRUGO proc_numa_maps_operations);
    (true, REG "mem" (S_IRUSR ∥ S_IWUSR) proc_mem_operations);
    (true, LNK "cwd" F_proc_cwd_link);
    (true, LNK "root" F_proc_root_link);
    (true, LNK "exe" F_proc_exe_link);
    (true, REG "mounts" S_IRUGO proc_mounts_operations);
    (true, REG "mountinfo" S_IRUGO proc_mountinfo_operations);
    (CONFIG_PROC_PAGE_MONITOR, REG "clear_refs" S_IWUSR proc_clear_refs_operations);
    (CONFIG_PROC_PAGE_MONITOR, REG "smaps" S_IRUGO proc_smaps_operations);
    (CONFIG_PROC_PAGE_MONITOR, REG "pagemap" S_IRUSR proc_pagemap_operations);
    (CONFIG_SECURITY, DIR "attr" (S_IRUGO ∥ S_IXUGO) proc_attr_dir_inode_operations proc_attr_dir_operations);
    (CONFIG_KALLSYMS, INF "wchan" S_IRUGO F_proc_pid_wchan);
    (CONFIG_STACKTRACE, ONE "stack" S_IRUSR F_proc_pid_stack);
    (CONFIG_SCHEDSTATS, INF "schedstat" S_IRUGO F_proc_pid_schedstat);
    (CONFIG_LATENCYTOP, REG "latency" S_IRUGO proc_lstats_operations);
    (CONFIG_PROC_PID_CPUSET, REG "cpuset" S_IRUGO proc_cpuset_operations);
    (CONFIG_CGROUPS, REG "cgroup" S_IRUGO proc_cgroup_operations);
    (true, INF "oom_score" S_IRUGO F_proc_oom_score);
    (true, REG "oom_adj" (S_IRUGO ∥ S_IWUSR) proc_oom_adjust_operations);
    (CONFIG_AUDITSYSCALL, REG "loginuid" (S_IWUSR ∥ S_IRUGO) proc_loginuid_operations);
    (CONFIG_AUDITSYSCALL, REG "sessionid" S_IRUSR proc_sessionid_operations);
    (CONFIG_FAULT_INJECTION, REG "make-it-fail" (S_IRUGO ∥ S_IWUSR) proc_fault_inject_operations);
    (CONFIG_TASK_IO_ACCOUNTING, INF "io" S_IRUGO F_proc_tid_io_accounting) ].

Definition tid_base_stuff : list pid_entry := enabled tid_base_all.

End Arrays.

(** ** Walking an array *)

(** The number of directories among the first [n] entries. *)
Fixpoint count_dirs_from (entries : list pid_entry) (n count : Z) : Z :=
  match entries with
  | [] => count
  | e :: entries =>
      if n <=? 0 then count
      else count_dirs_from entries (n - 1) (if S_ISDIR (pe_mode e) then count + 1 else count)
  end.

Definition pid_entry_count_dirs (entries : list pid_entry) (n : Z) : Z :=
  count_dirs_from entries n 0.

(** The loop of [proc_pident_lookup] and [proc_base_lookup]: the first entry
    whose length and bytes are those of the name. *)
Fixpoint find_entry (name : bytes) (ents : list pid_entry) : option pid_entry :=
  match ents with
  | [] => None
  | p :: ents =>
      if negb (pe_len p =? len name) then find_entry name ents
      else if decide (ztake (pe_len p) name = ztake (pe_len p) (pe_name p)) then Some p
      else find_entry name ents
  end.

(** ** Well-formed entries *)

#[export] Instance pid_entry_eq_dec : EqDecision pid_entry.
Proof. solve_decision. Defined.

(** An entry whose length is its name's, whose mode has the type bits of what
    its operations serve, and whose [union proc_op] holds the member that the
    generic operations it names will read. *)
Definition entry_ok (e : pid_entry) : bool :=
  (pe_len e =? len (pe_name e)) && negb (pe_len e =? 0) &&
  forallb (fun c => (0 <? c) && (c <? 128) && negb (c =? 47)) (pe_name e) &&
  match pe_op e with
  | proc_read _ => bool_decide (pe_fop e = Some proc_info_file_operations) &&
                   bool_decide (pe_iop e <> Some proc_pid_link_inode_operations)
  | proc_show _ => bool_decide (pe_fop e = Some proc_single_file_operations) &&
                   bool_decide (pe_iop e <> Some proc_pid_link_inode_operations)
  | proc_get_link _ => bool_decide (pe_iop e = Some proc_pid_link_inode_operations) &&
                       bool_decide (pe_fop e <> Some proc_info_file_operations) &&
                       bool_decide (pe_fop e <> Some proc_single_file_operations)
  | OpZero => bool_decide (pe_fop e <> Some proc_info_file_operations) &&
              bool_decide (pe_fop e <> Some proc_single_file_operations) &&
              bool_decide (pe_iop e <> Some proc_pid_link_inode_operations)
  end &&
  (if S_ISDIR (pe_mode e) then bool_decide (pe_iop e <> None) && bool_decide (pe_fop e <> None)
   else if S_ISLNK (pe_mode e) then bool_decide (pe_iop e <> None) && bool_decide (pe_fop e = None)
   else (Z.land (pe_mode e) S_IFMT =? S_IFREG) && bool_decide (pe_fop e <> None)).

Definition table_ok (ents : list pid_entry) : Prop :=
  Forall (fun e => entry_ok e = true) ents /\ NoDup (pe_name <$> ents).

Lemma table_ok_enabled l : table_ok l.*2 -> table_ok (enabled l).
Proof.
  unfold enabled, table_ok. intros [Hok Hnd]. split.
  - rewrite Forall_fmap in *. apply Forall_forall. intros x Hx.
    apply list_elem_of_filter in Hx as [_ Hx]. rewrite Forall_forall in Hok. by apply Hok.
  - clear Hok. induction l as [|[b e] l IH]; [done|].
    apply NoDup_cons in Hnd as [Hni Hnd]. rewrite filter_cons. cbn.
    destruct (decide (b = true)); [|by apply IH]. cbn. apply NoDup_cons. split; [|by apply IH].
    contradict Hni. cbn [fst snd]. apply list_elem_of_fmap in Hni as (e' & He & Hin).
    apply list_elem_of_fmap in Hin as (x & -> & Hx). apply list_elem_of_filter in Hx as [_ Hx].
    rewrite He. apply list_elem_of_fmap_2. by apply list_elem_of_fmap_2.
Qed.

Lemma len_enabled l : len (enabled l) <= len l.
Proof. unfold enabled. rewrite len_fmap. unfold len. pose proof (length_filter (fun e : bool * pid_entry => e.1 = true) l). lia. Qed.

Lemma table_ok_by_computation ents :
  forallb entry_ok ents && bool_decide (NoDup (pe_name <$> ents)) = true -> table_ok ents.
Proof.
  intros [H1 H2]%andb_true_iff. split; [|by apply bool_decide_eq_true in H2].
  rewrite Forall_forall. intros e He. rewrite forallb_forall in H1. apply H1. by apply list_elem_of_In.
Qed.

(** The lookup finds an entry by its name, and nothing under another name. *)
Lemma find_entry_spec name ents : table_ok ents ->
  match find_entry name ents with
  | Some e => e ∈ ents /\ pe_name e = name
  | None => name ∉ (pe_name <$> ents)
  end.
Proof.
  intros [Hok _]. induction ents as [|e ents IH]; [by apply not_elem_of_nil|].
  apply Forall_cons in Hok as [He Hok]. specialize (IH Hok). cbn [find_entry].
  assert (Hlen : pe_len e = len (pe_name e)).
  { unfold entry_ok in He. rewrite !andb_true_iff in He. lia. }
  destruct (Z.eqb_spec (pe_len e) (len name)) as [Hl|Hl]; cbn [negb].
  - destruct (decide _) as [Heq|Hne].
    + split; [left|]. rewrite Hlen in Heq at 2. rewrite Hl in Heq. unfold ztake, len in Heq.
      by rewrite !Nat2Z.id, !firstn_all in Heq.
    + assert (pe_name e <> name). { intros <-. by apply Hne. }
      destruct (find_entry name ents) as [e'|]; [destruct IH; split; [by right|done]|].
      cbn. rewrite not_elem_of_cons. auto.
  - assert (pe_name e <> name). { intros <-. congruence. }
    destruct (find_entry name ents) as [e'|]; [destruct IH; split; [by right|done]|].
    cbn. rewrite not_elem_of_cons. auto.
Qed.

(** In a well-formed array every entry is found under its own name. *)
Lemma find_entry_own e ents : table_ok ents -> e ∈ ents -> find_entry (pe_name e) ents = Some e.
Proof.
  intros Ht He. pose proof (find_entry_spec (pe_name e) ents Ht) as H.
  destruct (find_entry (pe_name e) ents) as [e'|].
  - destruct H as [Hin Hn], Ht as [_ Hnd]. f_equal.
    apply list_elem_of_lookup in He as [i Hi], Hin as [j Hj].
    assert (i = j) as <-; [|congruence].
    eapply NoDup_lookup; [exact Hnd| |]; rewrite list_lookup_fmap.
    + by rewrite Hi.
    + rewrite Hj. cbn. by rewrite Hn.
  - exfalso. apply H. by apply list_elem_of_fmap_2.
Qed.

(** Every entry is reachable by its name, and a failed search means that no
    entry has the name. *)
Definition searchable (ents : list pid_entry) : Prop :=
  table_ok ents /\
  (forall e, e ∈ ents -> find_entry (pe_name e) ents = Some e) /\
  (forall name, find_entry name ents = None <-> name ∉ (pe_name <$> ents)).

Lemma table_ok_searchable ents : table_ok ents -> searchable ents.
Proof.
  intros Ht. split; [done|]. split; [intros; by apply find_entry_own|].
  intros name. pose proof (find_entry_spec name ents Ht) as Hs.
  destruct (find_entry name ents) as [e|]; [|done]. destruct Hs as [Hin <-].
  split; [done|]. intros Hn. destruct Hn. by apply list_elem_of_fmap_2.
Qed.

(** Counting over the conditional entries. *)
Lemma count_dirs_from_add ents n count : len ents <= n ->
  count_dirs_from ents n count = count + len (filter (fun e => S_ISDIR (pe_mode e) = true) ents).
Proof.
  revert n count. induction ents as [|e ents IH]; intros n count Hn; cbn [count_dirs_from].
  { rewrite filter_nil, (@len_nil pid_entry). lia. }
  rewrite len_cons in Hn. pose proof (len_nonneg ents). destruct (Z.leb_spec n 0); [lia|].
  rewrite IH by lia. rewrite filter_cons. destruct (S_ISDIR (pe_mode e)).
  - rewrite decide_True, len_cons by done. lia.
  - by rewrite decide_False by done.
Qed.

Lemma count_dirs_filter ents :
  pid_entry_count_dirs ents (len ents) = len (filter (fun e => S_ISDIR (pe_mode e) = true) ents).
Proof. unfold pid_entry_count_dirs. rewrite count_dirs_from_add; lia. Qed.

Section Properties.
Context `{Config}.

Lemma tables_searchable :
  searchable tgid_base_stuff /\ searchable tid_base_stuff /\
  searchable attr_dir_stuff /\ searchable proc_base_stuff.
Proof.
  split; [|split; [|split]]; apply table_ok_searchable; try apply table_ok_enabled;
    apply table_ok_by_computation; vm_compute; reflexivity.
Qed.

(** C40: In every kernel configuration the arrays are well formed: names are
    distinct, non-empty and free of NUL and '/', lengths are right, the type
    bits match the operations, and the [union proc_op] of an entry holds the
    member that its operations read; so looking up a name finds the entry
    with that name, and nothing exactly when no entry has it. *)
Theorem tables_well_formed :
  searchable tgid_base_stuff /\ searchable tid_base_stuff /\
  searchable attr_dir_stuff /\ searchable proc_base_stuff.
Proof. apply tables_searchable. Qed.

(** How two entries of the same name relate in the process and thread arrays. *)
Definition same_but_known (e e' : pid_entry) : bool :=
  if decide (pe_name e = pe_name e') then
    if decide (pe_name e = str "fdinfo") then
      bool_decide (pe_mode e = pe_mode e' /\ pe_iop e = pe_iop e' /\
        pe_fop e = Some proc_fdinfo_operations /\ pe_fop e' = Some proc_fd_operations)
    else if decide (pe_name e = str "stat" \/ pe_name e = str "io") then
      bool_decide (pe_mode e = pe_mode e' /\ pe_fop e = pe_fop e' /\ pe_op e <> pe_op e')
    else if decide (pe_name e = str "sessionid") then
      bool_decide (pe_mode e = S_IFREG ∥ S_IRUGO /\ pe_mode e' = S_IFREG ∥ S_IRUSR)
    else bool_decide (e = e')
  else true.

(** The files of a process and the files of the same name of one of its
    threads are the same entries, except: [stat] and [io] use the per-thread
    function; [sessionid] is readable by the owner only; and the thread's
    [fdinfo] directory lists with the operations of [fd] although it looks up
    with those of [fdinfo]. *)
Theorem thread_entries_agree e e' :
  e ∈ tgid_base_stuff -> e' ∈ tid_base_stuff -> same_but_known e e' = true.
Proof.
  assert (Hall : forallb (fun e => forallb (same_but_known e) tid_base_all.*2) tgid_base_all.*2 = true)
    by (vm_compute; reflexivity).
  assert (Hsub : forall l (x : pid_entry), x ∈ enabled l -> In x l.*2).
  { intros l x Hx. apply list_elem_of_fmap in Hx as (y & -> & Hy).
    apply list_elem_of_filter in Hy as [_ Hy]. apply list_elem_of_In. by apply list_elem_of_fmap_2. }
  intros He He'. rewrite forallb_forall in Hall. specialize (Hall e (Hsub _ _ He)).
  rewrite forallb_forall in Hall. exact (Hall e' (Hsub _ _ He')).
Qed.

(** The link counts of the directories of a process and of a thread: two
    plus the subdirectories, which are [task], [fd], [fdinfo] and, when
    configured, [net] and [attr]; a thread has no [task] and no [net]. *)
Theorem base_dirs_nlink :
  pid_entry_count_dirs tgid_base_stuff (len tgid_base_stuff) =
    3 + Z.b2z CONFIG_NET + Z.b2z CONFIG_SECURITY /\
  pid_entry_count_dirs tid_base_stuff (len tid_base_stuff) = 2 + Z.b2z CONFIG_SECURITY.
Proof.
  rewrite !count_dirs_filter.
  assert (Hlen : forall l, len (filter (fun e => S_ISDIR (pe_mode e) = true) (enabled l)) =
    fold_right (fun (e : bool * pid_entry) n => if S_ISDIR (pe_mode e.2) then Z.b2z e.1 + n else n) 0 l).
  { induction l as [|[b e] l IH]; [done|]. unfold enabled in *. rewrite filter_cons. cbn [fold_right fst snd].
    destruct b; [rewrite decide_True by done|rewrite decide_False by done].
    - rewrite fmap_cons, filter_cons. cbn [snd]. destruct (S_ISDIR (pe_mode e)).
      + rewrite decide_True, len_cons, IH by done. cbn. lia.
      + rewrite decide_False by done. exact IH.
    - rewrite IH. destruct (S_ISDIR (pe_mode e)); cbn; lia. }
  unfold tgid_base_stuff, tid_base_stuff. rewrite !Hlen.
  unfold tgid_base_all, tid_base_all.
  destruct CONFIG_NET, CONFIG_SECURITY; split; vm_compute; reflexivity.
Qed.

End Properties.

(** A configuration with every option, and one with none. *)
Definition config_all : Config :=
  Build_Config true true true true true true true true true true true true true true true true.
Definition config_none : Config :=
  Build_Config false false false false false false false false false false false false false
    false false false.

Lemma thread_entries_agree_witness :
  let c := config_all in
  let fdinfo := DIR "fdinfo" (S_IRUSR ∥ S_IXUSR) proc_fdinfo_inode_operations in
  fdinfo proc_fdinfo_operations ∈ @tgid_base_stuff c /\
  fdinfo proc_fd_operations ∈ @tid_base_stuff c /\
  same_but_known (fdinfo proc_fdinfo_operations) (fdinfo proc_fd_operations) = true.
Proof.
  intros c fdinfo.
  assert (H1 : fdinfo proc_fdinfo_operations ∈ @tgid_base_stuff c)
    by (apply list_elem_of_lookup; exists 2%nat; vm_compute; reflexivity).
  assert (H2 : fdinfo proc_fd_operations ∈ @tid_base_stuff c)
    by (apply list_elem_of_lookup; exists 1%nat; vm_compute; reflexivity).
  split; [exact H1|split; [exact H2|exact (@thread_entries_agree c _ _ H1 H2)]].
Defined.
