(* ===== verification/Threads.v ===== *)
(** * Thread groups as rings

    [next_thread] walks a circular list. [ring A first t ts] says that under
    the answers [A] the walk from [t] visits [ts] and then arrives at
    [first], which it has not met before. A ring has no repetition, so a walk
    over it is bounded by the number of tasks. *)
From S2P Require Import Prelude Structs Kernel.

Section Ring.
Context (A : forall o, ans o).

Fixpoint ring (first t : task_id) (ts : list task_id) : Prop :=
  match ts with
  | [] => A (NextThread t) = first
  | x :: ts => A (NextThread t) = x /\ x <> first /\ ring first x ts
  end.

Lemma ring_unique first t ts ts' : ring first t ts -> ring first t ts' -> ts = ts'.
Proof.
  revert t ts'. induction ts as [|x ts IH]; intros t [|x' ts']; cbn; [done|naive_solver..|].
  intros (<- & _ & H) (<- & _ & H'). f_equal. by eapply IH.
Qed.

Lemma ring_suffix first t ts x rest pre : ring first t ts -> ts = pre ++ x :: rest -> ring first x rest.
Proof.
  revert t ts. induction pre as [|y pre IH]; intros t ts H ->; cbn in H.
  - apply H.
  - destruct H as (_ & _ & H). by eapply IH.
Qed.

Lemma ring_first_notin first t ts : ring first t ts -> first ∉ ts.
Proof.
  revert t. induction ts as [|x ts IH]; intros t; cbn; [intros _; apply not_elem_of_nil|].
  intros (_ & Hx & H). apply not_elem_of_cons. split; [done|]. by eapply IH.
Qed.

Lemma ring_NoDup first t ts : ring first t ts -> NoDup ts.
Proof.
  revert t. induction ts as [|x ts IH]; intros t; [constructor|]. intros H.
  destruct H as (_ & _ & H). constructor; [|by eapply IH].
  intros Hin. apply list_elem_of_split in Hin as (l1 & l2 & ->).
  pose proof (ring_suffix _ _ _ x l2 l1 H eq_refl) as H2.
  pose proof (ring_unique _ _ _ _ H H2) as Heq. apply (f_equal length) in Heq.
  rewrite length_app in Heq. cbn in Heq. lia.
Qed.

(** A ring of tasks of the store is not longer than the store. *)
Lemma ring_fits first t ts (m : gmap nat task_struct) :
  ring first t ts -> Forall (fun x => is_Some (m !! x)) ts -> (length ts <= size m)%nat.
Proof.
  intros Hr Hin. apply ring_NoDup in Hr.
  rewrite <- (size_list_to_set (C := gset nat) ts Hr), <- size_dom.
  apply subseteq_size. intros x Hx%elem_of_list_to_set. rewrite Forall_forall in Hin.
  apply elem_of_dom. by apply Hin.
Qed.

End Ring.
