(* ===== verification/Info.v ===== *)
(** * The contents of the per-process files (fs/proc/base.c)

    The functions behind the INF, ONE and latency entries: what each writes
    into the page or sequence file it is given, and what it returns. A
    [proc_read] function answers its return value and the bytes at the start
    of the page. *)
From S2P Require Import Prelude Structs Format Kernel Tables Access Threads.

(** [sprintf] of an [unsigned long], a [long] and the hexadecimal [%lx]. *)
Definition fmt_lu `{Arch} (z : Z) : bytes := fmt_u (ulong z).
Definition fmt_ld `{Arch} (z : Z) : bytes := fmt_d (slong z).
Definition fmt_lx `{Arch} (z : Z) : bytes := fmt_x (ulong z).
Definition fmt_llu (z : Z) : bytes := fmt_u (u64 z).

(** [sprintf(buffer, ...)]: the text and its length. *)
Definition sprintf (text : bytes) : Z * bytes := (len text, text).

Section Info.
Context `{Arch}.

(** ** cmdline *)

Definition proc_pid_cmdline (task : task_id) : prog (Z * bytes) :=
  mm ← get_task_mm task;
  match mm with
  | None => mret (0, [])
  | Some mm =>
      s ← gets (fun m => k_mm m !!! mm);
      result ←
        (if arg_end s =? 0 then mret (0, [])
         else
           let len0 := u32 (ulong (arg_end s - arg_start s)) in
           let len0 := cap PAGE_SIZE len0 in
           '(res, buffer) ← access_process_vm task (arg_start s) len0;
           if (0 <? res) && negb (zbyte buffer (res - 1) =? 0) && (len0 <? PAGE_SIZE) then
             let n := strnlen buffer res in
             if n <? res then mret (n, buffer)
             else
               s ← gets (fun m => k_mm m !!! mm);
               let n := u32 (ulong (env_end s - env_start s)) in
               let n := cap (PAGE_SIZE - res) n in
               '(more, data) ← access_process_vm task (env_start s) n;
               let res' := res + more in
               let buffer' := ztake res buffer ++ data in
               mret (strnlen buffer' res', buffer')
           else mret (res, buffer));
      mmput mm;;
      mret result
  end.

(** ** auxv *)

(** The [do ... while] loop over pairs of words up to AT_NULL; [None] when it
    would leave the array. *)
Fixpoint auxv_words (auxv : list Z) (nwords : Z) : option Z :=
  match auxv with
  | [] => None
  | a :: auxv =>
      if a =? 0 then Some (nwords + 2)
      else match auxv with
           | [] => None
           | _ :: auxv => auxv_words auxv (nwords + 2)
           end
  end.

(** The bytes of a machine word in memory, least significant first. *)
Fixpoint le_bytes (n : nat) (w : Z) : bytes :=
  match n with
  | O => []
  | S n => w mod 256 :: le_bytes n (w / 256)
  end.

Definition long_bytes (w : Z) : bytes := le_bytes (Z.to_nat (BITS_PER_LONG / 8)) w.

Definition proc_pid_auxv (task : task_id) : prog (Z * bytes) :=
  mm ← get_task_mm task;
  match mm with
  | None => mret (0, [])
  | Some mm =>
      auxv ← gets (fun m => saved_auxv (k_mm m !!! mm));
      match auxv_words auxv 0 with
      | None => Halt WildAccess
      | Some nwords =>
          let res := nwords * (BITS_PER_LONG / 8) in
          let res := cap PAGE_SIZE res in
          mmput mm;;
          mret (res, ztake res (flat_map long_bytes auxv))
      end
  end.

(** ** wchan, stack, schedstat, oom_score *)

Definition proc_pid_wchan (task : task_id) : prog (Z * bytes) :=
  wchan ← get_wchan task;
  '(r, symname) ← lookup_symbol_name wchan;
  if r <? 0 then
    may ← ptrace_may_access task PTRACE_MODE_READ;
    if (may : bool) then mret (sprintf (fmt_lu wchan)) else mret (0, [])
  else mret (sprintf symname).

Definition MAX_STACK_TRACE_DEPTH := 64.

Fixpoint print_stack (m : ptr) (entries : list Z) : prog unit :=
  match entries with
  | [] => mret tt
  | e :: entries =>
      p ← sprint_pointer e;
      sym ← sprint_symbol e;
      seq_print m (str "[<" ++ p ++ str ">] " ++ sym ++ [NL]);;
      print_stack m entries
  end.

Definition proc_pid_stack (m : ptr) (ns : ns_id) (pid : pid_id) (task : task_id) : prog Z :=
  entries ← kmalloc (MAX_STACK_TRACE_DEPTH * (BITS_PER_LONG / 8));
  match entries with
  | None => mret (- ENOMEM)
  | Some p =>
      trace ← save_stack_trace_tsk task MAX_STACK_TRACE_DEPTH;
      print_stack m trace;;
      kfree (Some p);;
      mret 0
  end.

Definition proc_pid_schedstat (task : task_id) : prog (Z * bytes) :=
  t ← gets (fun m => k_task m !!! task);
  mret (sprintf (fmt_llu (t_sum_exec_runtime t) ++ str " " ++ fmt_llu (t_run_delay t) ++
                 str " " ++ fmt_lu (t_pcount t) ++ [NL])).

Definition proc_oom_score (task : task_id) : prog (Z * bytes) :=
  uptime ← monotonic_seconds;
  read_lock_tasklist;;
  points ← badness task uptime;
  read_unlock_tasklist;;
  mret (sprintf (fmt_lu points ++ [NL])).

(** ** latency *)

Definition LT_BACKTRACEDEPTH := 12%nat.
Definition ULONG_MAX := 2 ^ BITS_PER_LONG - 1.

(** [strchr(sym, '+')] and the cut there. *)
Fixpoint upto_plus (sym : bytes) : bytes :=
  match sym with
  | [] => []
  | c :: sym => if c =? 43 then [] else c :: upto_plus sym
  end.

(** The inner loop over [backtrace[q]]. *)
Fixpoint print_backtrace (m : ptr) (depth : nat) (backtrace : list Z) : prog unit :=
  match depth, backtrace with
  | S depth, addr :: backtrace =>
      if (addr =? 0) || (addr =? ULONG_MAX) then mret tt
      else
        sym ← sprint_symbol addr;
        seq_print m (upto_plus sym ++ str " ");;
        print_backtrace m depth backtrace
  | _, _ => mret tt
  end.

Definition print_latency (m : ptr) (r : latency_record) : prog unit :=
  if zbyte (lat_backtrace r) 0 =? 0 then mret tt
  else
    seq_print m (fmt_d (s32 (lat_count r)) ++ str " " ++ fmt_ld (lat_time r) ++ str " " ++
                 fmt_ld (lat_max r) ++ str " ");;
    print_backtrace m LT_BACKTRACEDEPTH (lat_backtrace r);;
    seq_print m [NL].

(** The [for] loop over the 32 records: [n] are left, from record [i] on. *)
Fixpoint print_latencies (m : ptr) (task : task_id) (i n : nat) : prog unit :=
  match n with
  | O => mret tt
  | S n =>
      r ← gets (fun k => nth i (t_latency_record (k_task k !!! task)) (Latency 0 0 0 []));
      print_latency m r;;
      print_latencies m task (S i) n
  end.

Definition lstats_show_proc (m : ptr) : prog Z :=
  inode ← gets (fun k => k_seq_private k !!! m);
  match inode with
  | None => Halt WildAccess
  | Some inode =>
      task ← get_proc_task inode;
      match task with
      | None => mret (- ESRCH)
      | Some task =>
          seq_print m (str "Latency Top version : v0.1" ++ [NL]);;
          print_latencies m task 0 32;;
          put_task_struct task;;
          mret 0
      end
  end.

Definition lstats_open (inode : inode_id) (file : file_id) : prog Z :=
  single_open file Cb_lstats_show_proc (Some inode).

Definition lstats_write (inode : inode_id) (count : Z) : prog Z :=
  task ← get_proc_task inode;
  match task with
  | None => mret (- ESRCH)
  | Some task =>
      clear_all_latency_tracing task;;
      put_task_struct task;;
      mret count
  end.

(** ** limits *)

Record limit_names := LimitNames { ln_name : string; ln_unit : option string }.

Definition lnames : list limit_names :=
  [ LimitNames "Max cpu time" (Some "ms"%string);
    LimitNames "Max file size" (Some "bytes"%string);
    LimitNames "Max data size" (Some "bytes"%string);
    LimitNames "Max stack size" (Some "bytes"%string);
    LimitNames "Max core file size" (Some "bytes"%string);
    LimitNames "Max resident set" (Some "bytes"%string);
    LimitNames "Max processes" (Some "processes"%string);
    LimitNames "Max open files" (Some "files"%string);
    LimitNames "Max locked memory" (Some "bytes"%string);
    LimitNames "Max address space" (Some "bytes"%string);
    LimitNames "Max file locks" (Some "locks"%string);
    LimitNames "Max pending signals" (Some "signals"%string);
    LimitNames "Max msgqueue size" (Some "bytes"%string);
    LimitNames "Max nice priority" None;
    LimitNames "Max realtime priority" None;
    LimitNames "Max realtime timeout" (Some "us"%string) ].

Definition RLIM_INFINITY := 2 ^ BITS_PER_LONG - 1.

Definition limit_value (v : Z) : bytes :=
  left_field 20 (if v =? RLIM_INFINITY then str "unlimited" else fmt_lu v) ++ str " ".

Definition limit_line (l : limit_names) (r : Z * Z) : bytes :=
  left_field 25 (str (ln_name l)) ++ str " " ++ limit_value r.1 ++ limit_value r.2 ++
  match ln_unit l with
  | Some u => left_field 10 (str u) ++ [NL]
  | None => [NL]
  end.

Definition limits_header : bytes :=
  left_field 25 (str "Limit") ++ str " " ++ left_field 20 (str "Soft Limit") ++ str " " ++
  left_field 20 (str "Hard Limit") ++ str " " ++ left_field 10 (str "Units") ++ [NL].

(** The loop over the limits: line [i] is written at [bufptr + count]. *)
Fixpoint limits_lines (i : nat) (names : list limit_names) (rlim : list (Z * Z)) (buf : bytes) : bytes :=
  match names with
  | [] => buf
  | l :: names => limits_lines (S i) names rlim (buf ++ limit_line l (nth i rlim (0, 0)))
  end.

Definition proc_pid_limits (task : task_id) : prog (Z * bytes) :=
  locked ← lock_task_sighand task;
  if (locked : bool) then
    rlim ← gets (fun m => sig_rlim (k_signal m !!! t_signal (k_task m !!! task)));
    unlock_task_sighand task;;
    mret (sprintf (limits_lines 0 lnames rlim limits_header))
  else mret (0, []).

(** ** syscall *)

Definition proc_pid_syscall (task : task_id) : prog (Z * bytes) :=
  '(r, (nr, args, sp, pc)) ← task_current_syscall task;
  let hex := fun z => str " 0x" ++ fmt_lx z in
  if negb (r =? 0) then mret (sprintf (str "running" ++ [NL]))
  else if nr <? 0 then mret (sprintf (fmt_ld nr ++ hex sp ++ hex pc ++ [NL]))
  else mret (sprintf (fmt_ld nr ++ flat_map (fun i => hex (nth i args 0)) (seq 0 6) ++
                      hex sp ++ hex pc ++ [NL])).

(** ** io *)

Definition io_text (a : io_accounting) : bytes :=
  str "rchar: " ++ fmt_llu (rchar a) ++ [NL] ++
  str "wchar: " ++ fmt_llu (wchar a) ++ [NL] ++
  str "syscr: " ++ fmt_llu (syscr a) ++ [NL] ++
  str "syscw: " ++ fmt_llu (syscw a) ++ [NL] ++
  str "read_bytes: " ++ fmt_llu (read_bytes a) ++ [NL] ++
  str "write_bytes: " ++ fmt_llu (write_bytes a) ++ [NL] ++
  str "cancelled_write_bytes: " ++ fmt_llu (cancelled_write_bytes a) ++ [NL].

(** [while_each_thread(task, t) task_io_accounting_add(&acct, &t->ioac);] *)
Fixpoint add_threads (fuel : nat) (task t : task_id) (acct : io_accounting) : prog io_accounting :=
  match fuel with
  | O => Halt OutOfFuel
  | S fuel =>
      t ← next_thread t;
      if decide (t = task) then mret acct
      else
        ioac ← gets (fun m => t_ioac (k_task m !!! t));
        acct ← task_io_accounting_add acct ioac;
        add_threads fuel task t acct
  end.

Definition do_io_accounting (task : task_id) (whole : bool) : prog (Z * bytes) :=
  acct ← gets (fun m => t_ioac (k_task m !!! task));
  acct ←
    (if whole then
       locked ← lock_task_sighand task;
       if (locked : bool) then
         ioac ← gets (fun m => sig_ioac (k_signal m !!! t_signal (k_task m !!! task)));
         acct ← task_io_accounting_add acct ioac;
         fuel ← gets (fun m => S (size (k_task m)));
         acct ← add_threads fuel task task acct;
         unlock_task_sighand task;;
         mret acct
       else mret acct
     else mret acct);
  mret (sprintf (io_text acct)).

Definition proc_tid_io_accounting (task : task_id) : prog (Z * bytes) := do_io_accounting task false.
Definition proc_tgid_io_accounting (task : task_id) : prog (Z * bytes) := do_io_accounting task true.

(** ** personality *)

Definition proc_pid_personality (m : ptr) (ns : ns_id) (pid : pid_id) (task : task_id) : prog Z :=
  personality ← gets (fun k => t_personality (k_task k !!! task));
  seq_print m (zero_pad 8 (fmt_x (u32 personality)) ++ [NL]);;
  mret 0.

(** ** Calls through [union proc_op] *)

Definition call_proc_read (f : read_fn) (task : task_id) : prog (Z * bytes) :=
  match f with
  | F_proc_pid_auxv => proc_pid_auxv task
  | F_proc_pid_limits => proc_pid_limits task
  | F_proc_pid_syscall => proc_pid_syscall task
  | F_proc_pid_cmdline => proc_pid_cmdline task
  | F_proc_pid_wchan => proc_pid_wchan task
  | F_proc_pid_schedstat => proc_pid_schedstat task
  | F_proc_oom_score => proc_oom_score task
  | F_proc_tgid_io_accounting => proc_tgid_io_accounting task
  | F_proc_tid_io_accounting => proc_tid_io_accounting task
  end.

Definition call_proc_show (f : show_fn) (m : ptr) (ns : ns_id) (pid : pid_id) (task : task_id) : prog Z :=
  match f with
  | F_proc_pid_personality => proc_pid_personality m ns pid task
  | F_proc_pid_stack => proc_pid_stack m ns pid task
  | F_proc_pid_status | F_proc_tgid_stat | F_proc_tid_stat | F_proc_pid_statm =>
      external_show f m ns pid task
  end.

(** ** Properties *)

Lemma limits_lines_len names i rlim buf :
  Forall (fun l => len (str (ln_name l)) <= 25 /\
    match ln_unit l with Some u => len (str u) <= 10 | None => True end) names ->
  len (limits_lines i names rlim buf) =
    len buf + fold_right (fun l n => match ln_unit l with Some _ => 79 | None => 69 end + n) 0 names.
Proof.
  intros Hn. revert i buf. induction Hn as [|l names [Hl Hu] _ IH]; intros i buf; cbn [limits_lines fold_right].
  { lia. }
  assert (Hv : forall v, len (limit_value v) = 21).
  { intros v. unfold limit_value. autorewrite with kbytes. change (len (str " ")) with 1.
    destruct (v =? RLIM_INFINITY); [vm_compute; reflexivity|]. unfold fmt_lu. pose proof (ulong_range v). pose proof ulong_pow.
    pose proof (len_fmt_u64 (ulong v)). lia. }
  rewrite IH. unfold limit_line. rewrite !len_app, !Hv, len_left_field. change (len (str " ")) with 1.
  destruct (ln_unit l); autorewrite with kbytes; lia.
Qed.

(** The [limits] file is all or nothing: without the signal lock it is
    empty, otherwise it is 1323 bytes long whatever the limits are, so the one
    page (and the PROC_BLOCK_SIZE of it that can be read at once) is never
    overrun; the header comes first and a line per limit follows. *)
Theorem proc_pid_limits_size E task w :
  ends E (proc_pid_limits task) w (fun r w' =>
    balanced w w' /\ r.1 = len r.2 /\ (r.1 = 0 \/ r.1 = 1323) /\ r.1 <= PAGE_SIZE - 1024 /\
    (r.1 <> 0 -> ztake 79 r.2 = limits_header)).
Proof.
  assert (Hlen : forall rlim, len (limits_lines 0 lnames rlim limits_header) = 1323).
  { intros rlim. rewrite limits_lines_len; [done|]. unfold lnames.
    repeat (apply Forall_cons; split; [split; vm_compute; first [exact I|congruence]|]). constructor. }
  assert (Htake : forall names i rlim buf, 79 <= len buf ->
    ztake 79 (limits_lines i names rlim buf) = ztake 79 buf).
  { induction names as [|l names IH]; intros i rlim buf Hb; cbn [limits_lines]; [done|].
    rewrite IH by (rewrite len_app; pose proof (len_nonneg (limit_line l (nth i rlim (0, 0)))); lia).
    unfold ztake, len in *. by rewrite take_app_le by lia. }
  kany. unfold proc_pid_limits. ksteps.
  - cbn [sprintf fst snd]. rewrite Hlen. split; [done|]. split; [done|].
    split; [by right|]. split; [done|]. intros _. by rewrite Htake.
  - cbn. split; [done|]. split; [done|]. split; [by left|]. done.
Qed.

Lemma strnlen_le l n : 0 <= n -> strnlen l n <= n.
Proof. intros. by apply strnlen_bounds. Qed.

(** The command line never overruns its page: for any address space whose
    reads keep the contract of [access_process_vm], [proc_pid_cmdline] ends,
    returns between 0 and PAGE_SIZE bytes, all of them delivered, and drops
    its reference to the address space. *)
Theorem proc_pid_cmdline_bounds E task w : keeps E vm_contract ->
  ends E (proc_pid_cmdline task) w (fun r w' =>
    balanced w w' /\ 0 <= r.1 <= PAGE_SIZE /\ r.1 <= len r.2).
Proof.
  intros HE. apply (wp_ends _ vm_contract); [done|]. destruct w. unfold proc_pid_cmdline.
  ksteps; (split; [done|]); cbn [vm_contract fst snd] in *; rewrite ?cap_min in *;
    rewrite ?len_app, ?(@len_nil Z); unfold PAGE_SIZE in *;
    repeat match goal with
      | |- context [u32 ?z] => pose proof (u32_range z); generalize dependent (u32 z); intros
      | H : context [u32 ?z] |- _ => pose proof (u32_range z); generalize dependent (u32 z); intros
      end;
    repeat match goal with
      | |- context [strnlen ?l ?n] =>
          pose proof (strnlen_bounds l n ltac:(lia)); pose proof (strnlen_len l n ltac:(lia));
          generalize dependent (strnlen l n); intros
      end; rewrite ?len_app, ?len_ztake in * by lia; lia.
Qed.

Lemma auxv_words_spec ps rest n : Forall (fun p => p.1 <> 0) ps ->
  auxv_words (flat_map (fun p : Z * Z => [p.1; p.2]) ps ++ 0 :: rest) n = Some (n + 2 * len ps + 2).
Proof.
  intros Hps. revert n. induction Hps as [|p ps Hp _ IH]; intros n.
  - cbn. rewrite (@len_nil (Z * Z)). f_equal. lia.
  - cbn [flat_map app auxv_words]. destruct (Z.eqb_spec p.1 0); [done|].
    rewrite IH, len_cons. f_equal. lia.
Qed.

(** [proc_pid_auxv] finds the end of the vector: for an auxiliary vector
    of pairs whose first AT_NULL follows [ps], the loop stops there, and the
    file is the vector up to and including that pair, cut at one page. *)
Theorem proc_pid_auxv_spec (A : forall o, ans o) task mm ps rest w :
  A (GetTaskMm task) = Some mm ->
  saved_auxv (k_mm (mem w) !!! mm) = flat_map (fun p => [p.1; p.2]) ps ++ 0 :: rest ->
  Forall (fun p => p.1 <> 0) ps ->
  ends (fixed A) (proc_pid_auxv task) w (fun r w' =>
    balanced w w' /\ mem w' = mem w /\
    r.1 = Z.min PAGE_SIZE ((2 * len ps + 2) * (BITS_PER_LONG / 8)) /\
    r.2 = ztake r.1 (flat_map long_bytes (flat_map (fun p => [p.1; p.2]) ps ++ 0 :: rest))).
Proof.
  intros Hmm Hauxv Hps. kfixed. cbn [mem] in *. unfold proc_pid_auxv. kunfold. kcbn.
  intros x m [-> ->]. rewrite Hmm. kcbn. rewrite Hauxv, (auxv_words_spec ps rest 0 Hps).
  kcbn. repeat kdec. intros y1 m' [-> ->]. repeat kdec. rewrite cap_min. done.
Qed.

(** The sum [do_io_accounting] shows for a whole process. *)
Definition process_io (A : forall o, ans o) (m : kmem) (task : task_id) (ts : list task_id) : io_accounting :=
  fold_left (fun a t => A (TaskIoAccountingAdd a (t_ioac (k_task m !!! t)))) ts
    (A (TaskIoAccountingAdd (t_ioac (k_task m !!! task))
          (sig_ioac (k_signal m !!! t_signal (k_task m !!! task))))).

Lemma add_threads_wp A first t ts fuel acct w Q :
  ring A first t ts -> (length ts < fuel)%nat -> holds (held w) (RLock (Sighand first)) = true ->
  (forall w', balanced w w' -> mem w' = mem w ->
    Q (fold_left (fun a t => A (TaskIoAccountingAdd a (t_ioac (k_task (mem w) !!! t)))) ts acct) w') ->
  wp (answers A) (add_threads fuel first t acct) Q w.
Proof.
  revert t fuel acct w. induction ts as [|x ts IH]; intros t [|fuel] acct w Hr Hf Hl HQ;
    cbn [length] in Hf; try lia; destruct w as [m h b l]; cbn [held mem] in *.
  all: assert (Hg : existsb (fun r => match r with RLock (Sighand _) => true | _ => false end) h = true)
    by (clear -Hl; induction h as [|r h IH]; [done|]; cbn in Hl |- *;
        destruct (decide _) as [<-|]; [done|]; rewrite IH by done; apply orb_true_r).
  all: cbn [add_threads]; kunfold; kcbn; intros y m' [-> ->]; rewrite Hg, !orb_true_r; kcbn.
  - rewrite Hr, decide_True by done. kcbn. apply HQ; done.
  - destruct Hr as (-> & Hx & Hr). rewrite decide_False by done. kcbn.
    intros y m' [-> ->]. apply IH; [done|lia|done|]. intros w' [Hh Hb] Hm. apply HQ; done.
Qed.

(** C39: The [io] file of a process sums over the whole thread group exactly
    once each: under the signal lock, the task's own counters, those of exited
    threads, and those of every other thread of the ring; the walk ends. *)
Theorem tgid_io_sums_every_thread (A : forall o, ans o) task ts w :
  A (LockTaskSighand task) = true -> ring A task task ts ->
  Forall (fun t => is_Some (k_task (mem w) !! t)) ts ->
  ends (fixed A) (proc_tgid_io_accounting task) w (fun r w' =>
    balanced w w' /\ mem w' = mem w /\ r = sprintf (io_text (process_io A (mem w) task ts))).
Proof.
  intros Hl Hr Hts. pose proof (ring_fits A task task ts _ Hr Hts) as Hfit.
  kfixed. unfold proc_tgid_io_accounting, do_io_accounting. kunfold. kcbn.
  intros x m [-> ->]. rewrite Hl. kcbn. intros x m' [-> ->].
  apply wp_bind, wp_bind. apply (add_threads_wp A task task ts); [done|cbn [mem] in *; lia| |].
  { apply holds_head. }
  intros [m2 h2 b2 l2] [Hh Hb] Hm. cbn [held bad mem] in *. subst. kcbn. repeat kdec.
  intros y1 m' [-> ->]. repeat kdec. done.
Qed.

(** The text fits the page [proc_info_read] provides. *)
Lemma io_text_len a : len (io_text a) <= 227.
Proof.
  unfold io_text, fmt_llu. autorewrite with kbytes.
  repeat match goal with |- context [u64 ?z] =>
    pose proof (len_fmt_u64 _ (u64_range z)); generalize dependent (u64 z); intros end.
  repeat match goal with |- context [len (str ?s)] =>
    let v := eval vm_compute in (len (str s)) in change (len (str s)) with v end.
  lia.
Qed.

(** The readers that any kernel lets finish: all but the two that walk data
    of other subsystems (the auxiliary vector and the thread ring). *)
Definition plain_reader (f : read_fn) : bool :=
  match f with F_proc_pid_auxv | F_proc_tgid_io_accounting => false | _ => true end.

Lemma call_proc_read_wp R f task w (Q : Z * bytes -> world -> Prop) : plain_reader f = true ->
  (forall r w', balanced w w' -> Q r w') -> wp R (call_proc_read f task) Q w.
Proof.
  intros Hf HQ. destruct w. destruct f; try done; cbn [call_proc_read];
    unfold proc_pid_limits, proc_pid_syscall, proc_pid_cmdline, proc_pid_wchan, proc_pid_schedstat,
      proc_oom_score, proc_tid_io_accounting, do_io_accounting; ksteps; by apply HQ.
Qed.

Lemma print_stack_wp R m entries w (Q : unit -> world -> Prop) :
  (forall w', balanced w w' -> Q tt w') -> wp R (print_stack m entries) Q w.
Proof.
  revert w. induction entries as [|e entries IH]; intros w HQ; cbn [print_stack]; [by apply HQ|].
  destruct w as [k h b l]. kunfold. kcbn. intros. kcbn. intros. kcbn. intros. apply IH.
  intros w' [Hh Hb]. by apply HQ.
Qed.

Lemma print_backtrace_wp R m n bt w (Q : unit -> world -> Prop) :
  (forall w', balanced w w' -> Q tt w') -> wp R (print_backtrace m n bt) Q w.
Proof.
  revert n w. induction bt as [|e bt IH]; intros [|n] w HQ; cbn [print_backtrace]; try by apply HQ.
  destruct ((e =? 0) || (e =? ULONG_MAX)); [by apply HQ|].
  destruct w as [k h b l]. kunfold. kcbn. intros. kcbn. intros. apply IH.
  intros w' [Hh Hb]. by apply HQ.
Qed.

Lemma print_latencies_wp R m task i n w (Q : unit -> world -> Prop) :
  (forall w', balanced w w' -> Q tt w') -> wp R (print_latencies m task i n) Q w.
Proof.
  revert i w. induction n as [|n IH]; intros i w HQ; cbn [print_latencies]; [by apply HQ|].
  kunfold. kcbn. apply wp_bind. unfold print_latency. case_match; [by apply IH|].
  destruct w as [k h b l]. kunfold. kcbn. intros. apply wp_bind. apply print_backtrace_wp.
  intros [k2 h2 b2 l2] [Hh Hb]. kcbn. intros. apply IH. intros w' [Hh' Hb']. apply HQ.
  split; cbn [held bad] in *; congruence.
Qed.

(** Every [stack] and [latency] read gives back what it took, for any
    answers of the rest of the kernel and any number of entries: the buffer
    of the stack trace on success, nothing at all when its allocation fails,
    and the task reference of the latency table. *)
Theorem stack_and_latency_balanced E m ns pid task w :
  is_Some (k_seq_private (mem w) !!! m) ->
  ends E (proc_pid_stack m ns pid task) w (fun r w' => balanced w w' /\ (r = 0 \/ r = - ENOMEM)) /\
  ends E (lstats_show_proc m) w (fun r w' => balanced w w' /\ (r = 0 \/ r = - ESRCH)).
Proof.
  intros [inode Hi]. split; kany.
  - unfold proc_pid_stack. kunfold. kcbn. intros [p|] k' _; kcbn; [|split; auto; done].
    intros tr k2 _. kcbn. apply wp_bind, print_stack_wp. intros [k3 h3 b3 l3] [Hh Hb].
    cbn [held bad] in *. subst. kcbn. intros y4 k4 _. kcbn. repeat kdec. split; auto. done.
  - cbn [mem] in Hi. unfold lstats_show_proc. kunfold. kcbn. rewrite Hi. kcbn.
    intros [t|] k' _; kcbn; [|split; auto; done]. intros y2 k2 _. kcbn.
    apply wp_bind, print_latencies_wp. intros [k3 h3 b3 l3] [Hh Hb].
    cbn [held bad] in *. subst. kcbn. intros y4 k4 _. repeat kdec. split; auto. done.
Qed.

End Info.

(** ** Witnesses *)

(** A process with address space 7, whose reads deliver three bytes, and two
    threads besides the leader. *)
Definition sample_kernel (o : op) : ans o :=
  match o with
  | GetTaskMm _ => Some 7%nat
  | AccessProcessVm _ _ n => (Z.max 0 (Z.min n 3), ztake (Z.max 0 (Z.min n 3)) (str "abc"))
  | LockTaskSighand _ => true
  | NextThread t => if decide (t = 3%nat) then 1%nat else S t
  | TaskIoAccountingAdd d s => IoAcct (rchar d + rchar s) 0 0 0 0 0 0
  | GetProcTask _ => Some 1%nat
  | Kmalloc _ => Some 5%nat
  | SaveStackTraceTsk _ _ => [16; 32]
  | o => silent o
  end.

Definition sample_task (n : Z) : task_struct :=
  Task n [] 0 None (Some 7%nat) 0 0 0 0 0 false 0 (IoAcct n 0 0 0 0 0 0) 0 0 0 [] 0 [].

Definition sample_mem : kmem :=
  Kmem 0 {[ 1%nat := sample_task 10; 2%nat := sample_task 20; 3%nat := sample_task 30 ]} ∅
    {[ 7%nat := Mm 100 103 200 205 [3; 64; 0; 0; 9] 0 0 None ]} ∅ ∅ ∅ ∅ ∅ ∅ ∅ ∅ ∅ ∅
    {[ 4%nat := Some 11%nat ]} HookDummy.

Lemma sample_kernel_vm : keeps (fixed sample_kernel) vm_contract.
Proof.
  intros o tr m. destruct o; cbn; try done. intros Hn.
  rewrite len_ztake by lia. autorewrite with kbytes. lia.
Qed.

Lemma proc_pid_cmdline_bounds_witness :
  keeps (fixed sample_kernel) vm_contract /\
  ends (fixed sample_kernel) (@proc_pid_cmdline arch64 1%nat) (world0 sample_mem)
    (fun r w' => 0 <= r.1 <= PAGE_SIZE) /\
  fst (run (fixed sample_kernel) (@proc_pid_cmdline arch64 1%nat) (world0 sample_mem)) =
    Done (6, str "abcabc").
Proof.
  split; [exact sample_kernel_vm|]. split; [|vm_compute; reflexivity].
  refine (ends_mono _ _ _ _ _ (@proc_pid_cmdline_bounds arch64 _ 1%nat _ sample_kernel_vm) _).
  intros r w' H. exact (proj1 (proj2 H)).
Defined.

Lemma proc_pid_auxv_spec_witness :
  ends (fixed sample_kernel) (@proc_pid_auxv arch32 1%nat) (world0 sample_mem) (fun r w' =>
    r.1 = 16 /\ r.2 = [3; 0; 0; 0; 64; 0; 0; 0; 0; 0; 0; 0; 0; 0; 0; 0]).
Proof.
  refine (ends_mono _ _ _ _ _
    (@proc_pid_auxv_spec arch32 sample_kernel 1%nat 7%nat [(3, 64)] [0; 9] (world0 sample_mem)
      eq_refl _ _) _).
  - vm_compute; reflexivity.
  - apply Forall_cons; split; [cbn; lia|apply Forall_nil; exact I].
  - intros r w' (_ & _ & H1 & H2). rewrite H1 in H2. split; [exact H1|exact H2].
Defined.

Lemma tgid_io_sums_every_thread_witness :
  ends (fixed sample_kernel) (proc_tgid_io_accounting 1%nat) (world0 sample_mem) (fun r _ =>
    r = sprintf (io_text (IoAcct 60 0 0 0 0 0 0))).
Proof.
  refine (ends_mono _ _ _ _ _
    (@tgid_io_sums_every_thread sample_kernel 1%nat [2%nat; 3%nat] (world0 sample_mem) eq_refl _ _) _).
  - vm_compute. repeat split; discriminate.
  - repeat (apply Forall_cons; split; [vm_compute; eexists; reflexivity|]). apply Forall_nil. exact I.
  - intros r w' (_ & _ & H). rewrite H. vm_compute. reflexivity.
Defined.

Lemma stack_and_latency_balanced_witness :
  is_Some (k_seq_private sample_mem !!! 4%nat) /\
  ends (fixed sample_kernel) (@proc_pid_stack arch64 4%nat 0%nat 0%nat 1%nat) (world0 sample_mem)
    (fun r w' => balanced (world0 sample_mem) w' /\ (r = 0 \/ r = - ENOMEM)).
Proof.
  assert (H : is_Some (k_seq_private sample_mem !!! 4%nat)) by (eexists; vm_compute; reflexivity).
  split; [exact H|].
  exact (proj1 (@stack_and_latency_balanced arch64 (fixed sample_kernel) 4%nat 0%nat 0%nat 1%nat
    (world0 sample_mem) H)).
Defined.
