(* ===== verification/ExeFile.v ===== *)
(** * The executable of an address space (fs/proc/base.c)

    [mm->exe_file] and the count of the mappings that keep it:
    [added_exe_file_vma], [removed_exe_file_vma], [set_mm_exe_file],
    [get_mm_exe_file], [dup_mm_exe_file], and [proc_exe_link], the reader
    behind /proc/<pid>/exe. *)
From S2P Require Import Prelude Structs Kernel.

Section ExeFile.
Context `{Arch}.

Definition added_exe_file_vma (mm : mm_id) : prog unit :=
  modify (upd_mm mm (fun s => set_num_exe_file_vmas (ulong (num_exe_file_vmas s + 1)) s)).

Definition removed_exe_file_vma (mm : mm_id) : prog unit :=
  modify (upd_mm mm (fun s => set_num_exe_file_vmas (ulong (num_exe_file_vmas s - 1)) s));;
  s ← gets (fun m => k_mm m !!! mm);
  if num_exe_file_vmas s =? 0 then
    match exe_file s with
    | Some f => fput f;; modify (upd_mm mm (set_exe_file None))
    | None => mret tt
    end
  else mret tt.

Definition set_mm_exe_file (mm : mm_id) (new_exe_file : option file_id) : prog unit :=
  match new_exe_file with Some f => get_file f | None => mret tt end;;
  s ← gets (fun m => k_mm m !!! mm);
  match exe_file s with Some f => fput f | None => mret tt end;;
  modify (upd_mm mm (set_exe_file new_exe_file));;
  modify (upd_mm mm (set_num_exe_file_vmas 0)).

Definition get_mm_exe_file (mm : mm_id) : prog (option file_id) :=
  down_read_mmap_sem mm;;
  exe ← gets (fun m => exe_file (k_mm m !!! mm));
  match exe with Some f => get_file f | None => mret tt end;;
  up_read_mmap_sem mm;;
  mret exe.

Definition dup_mm_exe_file (oldmm newmm : mm_id) : prog unit :=
  exe ← get_mm_exe_file oldmm;
  modify (upd_mm newmm (set_exe_file exe)).

Definition proc_exe_link (inode : inode_id) : prog (Z * option path) :=
  task ← get_proc_task inode;
  match task with
  | None => mret (- ENOENT, None)
  | Some task =>
      mm ← get_task_mm task;
      put_task_struct task;;
      match mm with
      | None => mret (- ENOENT, None)
      | Some mm =>
          exe ← get_mm_exe_file mm;
          mmput mm;;
          match exe with
          | Some f =>
              exe_path ← gets (fun m => f_path (k_file m !!! f));
              path_get exe_path;;
              fput f;;
              mret (0, Some exe_path)
          | None => mret (- ENOENT, None)
          end
      end
  end.

(** ** The reference protocol as a transition system

    A state is the set of address spaces alive, the file references that
    readers hold after [get_mm_exe_file], and the world. A step is one call
    of the functions above. [Fork] is [dup_mm_exe_file] into an address space
    just copied from its parent, whose copied pointer owns nothing yet, and
    [Exit] is the [set_mm_exe_file(mm, NULL)] of the last [mmput]. *)
Record exe_state := ExeState { live : gset mm_id; readers : list file_id; at_ : world }.

Definition runs {A : Type} (ops : forall o, ans o) (p : prog A) (w : world) (a : A) (w' : world) : Prop :=
  run (fixed ops) p w = (Done a, w').

Inductive exe_step (ops : forall o, ans o) : exe_state -> exe_state -> Prop :=
  | Added L rs w mm w' : mm ∈ L -> runs ops (added_exe_file_vma mm) w tt w' ->
      exe_step ops (ExeState L rs w) (ExeState L rs w')
  | Removed L rs w mm w' : mm ∈ L -> runs ops (removed_exe_file_vma mm) w tt w' ->
      exe_step ops (ExeState L rs w) (ExeState L rs w')
  | Exec L rs w mm f w' : mm ∈ L -> runs ops (set_mm_exe_file mm f) w tt w' ->
      exe_step ops (ExeState L rs w) (ExeState L rs w')
  | Fork L rs w old new w' : old ∈ L -> new ∉ L -> runs ops (dup_mm_exe_file old new) w tt w' ->
      exe_step ops (ExeState L rs w) (ExeState ({[ new ]} ∪ L) rs w')
  | Exit L rs w mm w' : mm ∈ L -> runs ops (set_mm_exe_file mm None) w tt w' ->
      exe_step ops (ExeState L rs w) (ExeState (L ∖ {[ mm ]}) rs w')
  | Open L rs w mm f w' : mm ∈ L -> runs ops (get_mm_exe_file mm) w f w' ->
      exe_step ops (ExeState L rs w) (ExeState L (option_list f ++ rs) w')
  | Close L rs1 rs2 w f w' : runs ops (fput f) w tt w' ->
      exe_step ops (ExeState L (rs1 ++ f :: rs2) w) (ExeState L (rs1 ++ rs2) w').

(** The first address space exists, without an executable. *)
Inductive exe_reachable (ops : forall o, ans o) : exe_state -> Prop :=
  | Exe_init m mm : exe_file (k_mm m !!! mm) = None ->
      exe_reachable ops (ExeState {[ mm ]} [] (world0 m))
  | Exe_step s s' : exe_reachable ops s -> exe_step ops s s' -> exe_reachable ops s'.

(** The file references that the address spaces own. *)
Definition exe_refs (L : gset mm_id) (m : kmem) : list res :=
  omap (fun mm => RFile <$> exe_file (k_mm m !!! mm)) (elements L).

Definition exe_inv (s : exe_state) : Prop :=
  held (at_ s) ≡ₚ (RFile <$> readers s) ++ exe_refs (live s) (mem (at_ s)) /\ bad (at_ s) = [].

Lemma exe_refs_split L m mm : mm ∈ L ->
  exe_refs L m ≡ₚ opt_res RFile (exe_file (k_mm m !!! mm)) ++ exe_refs (L ∖ {[ mm ]}) m.
Proof.
  intros Hmm. unfold exe_refs. rewrite (union_difference_L {[ mm ]} L) at 1 by set_solver.
  rewrite elements_disj_union by set_solver. rewrite elements_singleton, omap_app. cbn.
  by destruct (exe_file _).
Qed.

Lemma exe_refs_ext L m m' :
  (forall mm, mm ∈ L -> exe_file (k_mm m !!! mm) = exe_file (k_mm m' !!! mm)) ->
  exe_refs L m = exe_refs L m'.
Proof.
  intros He. unfold exe_refs.
  assert (Hin : Forall (fun mm => mm ∈ L) (elements L)) by (apply Forall_forall; intros x; apply elem_of_elements).
  induction Hin as [|x l Hx _ IH]; [done|]. cbn. rewrite He by done.
  by destruct (exe_file _); cbn; rewrite IH.
Qed.

Lemma exe_refs_upd L m mm f : exe_refs (L ∖ {[ mm ]}) (upd_mm mm f m) = exe_refs (L ∖ {[ mm ]}) m.
Proof.
  apply exe_refs_ext. intros x Hx. rewrite k_mm_upd_mm, lookup_total_insert_ne; [done|set_solver].
Qed.

Lemma exe_file_upd m mm f : exe_file (k_mm (upd_mm mm f m) !!! mm) = exe_file (f (k_mm m !!! mm)).
Proof. by rewrite k_mm_upd_mm, lookup_total_insert_eq. Qed.

(** What each function does to the references: [get_mm_exe_file] adds one,
    the others exchange the one the address space owned for the new one. *)
Lemma added_exe_file_vma_wp A mm w (Q : unit -> world -> Prop) :
  Q tt (set_mem (upd_mm mm (fun s => set_num_exe_file_vmas (ulong (num_exe_file_vmas s + 1)) s) (mem w)) w) ->
  wp (answers A) (added_exe_file_vma mm) Q w.
Proof. done. Qed.

Lemma get_mm_exe_file_wp A mm w (Q : option file_id -> world -> Prop) :
  (forall w', keeps_only (opt_res RFile (exe_file (k_mm (mem w) !!! mm))) w w' -> mem w' = mem w ->
    Q (exe_file (k_mm (mem w) !!! mm)) w') ->
  wp (answers A) (get_mm_exe_file mm) Q w.
Proof.
  intros HQ. destruct w as [m h b l]. unfold get_mm_exe_file. kunfold. kcbn. intros [] m1 [_ ->].
  cbn [mem] in HQ. kcbn. destruct (exe_file _) as [f|]; kcbn.
  - intros [] m2 [_ ->]. kcbn. intros [] m3 [_ ->]. repeat kdec. kcbn. by apply HQ.
  - intros [] m3 [_ ->]. repeat kdec. kcbn. by apply HQ.
Qed.

(** Exchanging one owned reference for another. *)
Definition exchanged (old new : option file_id) (w w' : world) : Prop :=
  forall rest, held w ≡ₚ opt_res RFile old ++ rest ->
    held w' ≡ₚ opt_res RFile new ++ rest /\ bad w' = bad w.

Lemma fput_exchanged f m w : exchanged (Some f) None w (after (Fput f) tt m w).
Proof.
  intros rest Hp. cbn in *. destruct (release_rest _ _ _ Hp) as [-> Hr]. done.
Qed.

Lemma removed_exe_file_vma_wp A mm w (Q : unit -> world -> Prop) :
  (forall w' s, k_mm (mem w') = <[mm := s]> (k_mm (mem w)) -> 
    exchanged (exe_file (k_mm (mem w) !!! mm)) (exe_file s) w w' -> 
    num_exe_file_vmas s = ulong (num_exe_file_vmas (k_mm (mem w) !!! mm) - 1) ->
    exe_file s = (if num_exe_file_vmas s =? 0 then None else exe_file (k_mm (mem w) !!! mm)) ->
    Q tt w') ->
  wp (answers A) (removed_exe_file_vma mm) Q w.
Proof.
  intros HQ. destruct w as [m h b l]. unfold removed_exe_file_vma. kunfold. kcbn.
  cbn [mem] in HQ. rewrite k_mm_upd_mm, lookup_total_insert_eq.
  destruct (k_mm m !!! mm) as [a1 a2 a3 a4 au fl n e] eqn:Hs. cbn [exe_file num_exe_file_vmas set_num_exe_file_vmas] in *.
  destruct (Z.eqb_spec (ulong (n - 1)) 0) as [H0|H0]; [destruct e as [f|]|].
  - kcbn. intros [] m2 [_ ->].
    apply (HQ _ (Mm a1 a2 a3 a4 au fl (ulong (n - 1)) None)).
    + cbn [mem]. rewrite !k_mm_upd_mm, lookup_total_insert_eq, insert_insert_eq, Hs. done.
    + apply (fput_exchanged f m (World m h b l)).
    + done.
    + cbn. by rewrite H0.
  - kcbn. apply (HQ _ (Mm a1 a2 a3 a4 au fl (ulong (n - 1)) None)); cbn.
    + by rewrite k_mm_upd_mm, Hs.
    + by intros rest ->.
    + done.
    + by destruct (_ =? 0).
  - kcbn. apply (HQ _ (Mm a1 a2 a3 a4 au fl (ulong (n - 1)) e)); cbn.
    + by rewrite k_mm_upd_mm, Hs.
    + by intros rest ->.
    + done.
    + by destruct (Z.eqb_spec (ulong (n - 1)) 0).
Qed.

Lemma put_old_wp A (e : option file_id) w (Q : unit -> world -> Prop) :
  (forall w', mem w' = mem w -> exchanged e None w w' -> Q tt w') ->
  wp (answers A) (match e with Some f => call (Fput f) | None => mret tt end) Q w.
Proof.
  intros HQ. destruct e as [f|]; [|by apply HQ; [done|intros rest ->]].
  intros [] m [_ ->]. apply HQ; [done|apply fput_exchanged].
Qed.

Lemma set_mm_exe_file_wp A mm new w (Q : unit -> world -> Prop) :
  (forall w' s, k_mm (mem w') = <[mm := s]> (k_mm (mem w)) ->
    exchanged (exe_file (k_mm (mem w) !!! mm)) (exe_file s) w w' ->
    num_exe_file_vmas s = 0 -> exe_file s = new -> Q tt w') ->
  wp (answers A) (set_mm_exe_file mm new) Q w.
Proof.
  intros HQ. destruct w as [m h b l]. unfold set_mm_exe_file. kunfold. cbn [mem] in HQ.
  destruct (k_mm m !!! mm) as [a1 a2 a3 a4 au fl n e] eqn:Hs. cbn [exe_file] in HQ.
  assert (Hend : forall l0 w', mem w' = m ->
    exchanged e None (World m (opt_res RFile new ++ h) b l0) w' ->
    Q tt (set_mem (upd_mm mm (set_num_exe_file_vmas 0) (upd_mm mm (set_exe_file new) m)) w')).
  { intros l0 w' Hm Hx. apply (HQ _ (Mm a1 a2 a3 a4 au fl 0 new)); [| |done|done]; cbn.
    - by rewrite !k_mm_upd_mm, lookup_total_insert_eq, insert_insert_eq, Hs.
    - intros rest Hp. cbn [held] in Hp. specialize (Hx (opt_res RFile new ++ rest)). apply Hx.
      cbn [held]. by rewrite Hp, !app_assoc, (Permutation_app_comm (opt_res RFile e)). }
  destruct new as [f|]; kcbn; [intros [] m1 [_ ->]; kcbn|]; rewrite Hs; cbn [exe_file];
    apply wp_bind, put_old_wp; intros w' Hm Hx; kcbn; cbn [mem] in Hm; rewrite Hm;
    apply (Hend _ w' Hm Hx).
Qed.

Lemma dup_mm_exe_file_wp A old new w (Q : unit -> world -> Prop) :
  (forall w' s, k_mm (mem w') = <[new := s]> (k_mm (mem w)) ->
    exe_file s = exe_file (k_mm (mem w) !!! old) ->
    keeps_only (opt_res RFile (exe_file s)) w w' -> Q tt w') ->
  wp (answers A) (dup_mm_exe_file old new) Q w.
Proof.
  intros HQ. unfold dup_mm_exe_file. apply wp_bind, get_mm_exe_file_wp. intros w' Hk Hm. kcbn.
  destruct (k_mm (mem w) !!! new) as [a1 a2 a3 a4 au fl n e] eqn:Hs.
  apply (HQ _ (Mm a1 a2 a3 a4 au fl n (exe_file (k_mm (mem w) !!! old)))); [|done|done].
  cbn. rewrite k_mm_upd_mm, Hm. by rewrite Hs.
Qed.

(** [runs] and the rules: what a rule proves of every end holds of this one. *)
Lemma runs_wp {B : Type} A (p : prog B) w a w' (Q : B -> world -> Prop) :
  runs A p w a w' -> wp (answers A) p Q w -> Q a w'.
Proof.
  intros Hr Hw. apply (wp_ends (fixed A)) in Hw; [|apply keeps_fixed].
  unfold ends in Hw. by rewrite Hr in Hw.
Qed.

Lemma wp_runs {B : Type} A (p : prog B) (Q : B -> world -> Prop) w :
  wp (answers A) p Q w -> wp (answers A) p (fun a w' => runs A p w a w' /\ Q a w') w.
Proof.
  unfold runs. revert w. induction p as [a|o k IH|k IH|m k IH|y]; intros w; cbn; [done| | | |done].
  - intros Hp x m Hx. pose proof Hx as [-> ->]. by apply IH, Hp.
  - apply IH.
  - apply IH.
Qed.

(** One address space exchanges its reference: the invariant survives. *)
Lemma exe_inv_exchange L rs w w' mm s : mm ∈ L -> exe_inv (ExeState L rs w) ->
  k_mm (mem w') = <[mm := s]> (k_mm (mem w)) ->
  exchanged (exe_file (k_mm (mem w) !!! mm)) (exe_file s) w w' ->
  exe_inv (ExeState L rs w') /\
  (exe_file s = None -> exe_inv (ExeState (L ∖ {[ mm ]}) rs w')).
Proof.
  intros Hmm [Hh Hb] Hk Hx. unfold exe_inv in *. cbn [at_ live readers] in *.
  assert (Hrest : exe_refs (L ∖ {[ mm ]}) (mem w') = exe_refs (L ∖ {[ mm ]}) (mem w)).
  { apply exe_refs_ext. intros x Hin. rewrite Hk, lookup_total_insert_ne; [done|set_solver]. }
  destruct (Hx ((RFile <$> rs) ++ exe_refs (L ∖ {[ mm ]}) (mem w))) as [Hh' Hb'].
  { rewrite Hh, (exe_refs_split L _ mm Hmm), !app_assoc. f_equiv. apply Permutation_app_comm. }
  rewrite Hb', Hb, Hh', Hrest, (exe_refs_split L (mem w') mm Hmm), Hrest, Hk, lookup_total_insert_eq.
  split; [split; [|done]|intros ->; done].
  rewrite !app_assoc. f_equiv. apply Permutation_app_comm.
Qed.

(** ** Properties *)

(** C8: References to executables balance. In every state reachable by mapping
    changes, execs, forks, exits and readers in any order, the file references
    in existence are exactly one per live address space with an executable and
    one per reader, and no reference was ever dropped that was not held. *)
Theorem exe_file_references_balance A s : exe_reachable A s -> exe_inv s.
Proof.
  induction 1 as [m mm He|s s' _ IH Hs].
  { unfold exe_inv, exe_refs. cbn. rewrite elements_singleton. cbn. by rewrite He. }
  destruct Hs as [L rs w mm w' Hmm Hr|L rs w mm w' Hmm Hr|L rs w mm f w' Hmm Hr
    |L rs w old new w' Hold Hnew Hr|L rs w mm w' Hmm Hr|L rs w mm f w' Hmm Hr|L rs1 rs2 w f w' Hr].
  - revert Hr. intros [= <-]. refine (proj1 (exe_inv_exchange L rs w _ mm _ Hmm IH _ _)).
    + cbn. rewrite k_mm_upd_mm. reflexivity.
    + destruct (k_mm (mem w) !!! mm). by intros rest Hp.
  - apply (runs_wp _ _ _ _ _ (fun _ w' => exe_inv (ExeState L rs w')) Hr).
    apply removed_exe_file_vma_wp. intros w2 s Hk Hx _ _.
    exact (proj1 (exe_inv_exchange L rs w w2 mm s Hmm IH Hk Hx)).
  - apply (runs_wp _ _ _ _ _ (fun _ w' => exe_inv (ExeState L rs w')) Hr).
    apply set_mm_exe_file_wp. intros w2 s Hk Hx _ _.
    exact (proj1 (exe_inv_exchange L rs w w2 mm s Hmm IH Hk Hx)).
  - apply (runs_wp _ _ _ _ _ (fun _ w' => exe_inv (ExeState ({[ new ]} ∪ L) rs w')) Hr).
    apply dup_mm_exe_file_wp. intros w2 s Hk Hs [Hh Hb]. destruct IH as [Hh0 Hb0].
    unfold exe_inv. cbn [at_ live readers] in *. rewrite Hb, Hb0, Hh, Hh0. split; [|done].
    rewrite (exe_refs_split ({[ new ]} ∪ L) (mem w2) new) by (apply elem_of_union; left; by apply elem_of_singleton).
    rewrite Hk, lookup_total_insert_eq.
    replace (({[ new ]} ∪ L) ∖ {[ new ]}) with L by (clear -Hnew; set_solver).
    rewrite (exe_refs_ext L (mem w2) (mem w)).
    { rewrite !app_assoc. f_equiv. apply Permutation_app_comm. }
    intros x Hx. rewrite Hk, lookup_total_insert_ne; [done|set_solver].
  - apply (runs_wp _ _ _ _ _ (fun _ w' => exe_inv (ExeState (L ∖ {[ mm ]}) rs w')) Hr).
    apply set_mm_exe_file_wp. intros w2 s Hk Hx _ Hs.
    exact (proj2 (exe_inv_exchange L rs w w2 mm s Hmm IH Hk Hx) Hs).
  - apply (runs_wp _ _ _ _ _ (fun f w' => exe_inv (ExeState L (option_list f ++ rs) w')) Hr).
    apply get_mm_exe_file_wp. intros w2 [Hh Hb] Hm. destruct IH as [Hh0 Hb0].
    unfold exe_inv. cbn [at_ live readers] in *. rewrite Hb, Hb0, Hm, Hh, Hh0.
    by destruct (exe_file _).
  - apply (runs_wp _ _ _ _ _ (fun _ w' => exe_inv (ExeState L (rs1 ++ rs2) w')) Hr).
    intros [] m [_ ->]. destruct IH as [Hh Hb]. unfold exe_inv. cbn [at_ live readers] in *.
    destruct (fput_exchanged f (mem w) w ((RFile <$> rs1 ++ rs2) ++ exe_refs L (mem w))) as [Hh' Hb'].
    { rewrite Hh, !fmap_app. rewrite <- !app_assoc. symmetry. exact (Permutation_middle _ _ _). }
    split; [exact Hh'|]. by rewrite Hb'.
Qed.

(** A history of mappings of the executable: [true] for one added, [false]
    for one removed. *)
Fixpoint vma_history (mm : mm_id) (l : list bool) : prog unit :=
  match l with
  | [] => mret tt
  | added :: l =>
      (if added : bool then added_exe_file_vma mm else removed_exe_file_vma mm);;
      vma_history mm l
  end.

Definition vma_count (l : list bool) (n : Z) : Z :=
  fold_left (fun n (added : bool) => if added then n + 1 else n - 1) l n.

(** Every history starts with additions, and something stays mapped until its
    last event. *)
Fixpoint mapped_until_end (l : list bool) (n : Z) : Prop :=
  match l with
  | [] => True
  | added :: l =>
      let n := if added : bool then n + 1 else n - 1 in
      (l = [] /\ 0 <= n \/ 0 < n) /\ mapped_until_end l n
  end.

Lemma vma_history_spec A mm l : forall w e n,
  exe_file (k_mm (mem w) !!! mm) = Some e -> num_exe_file_vmas (k_mm (mem w) !!! mm) = n ->
  0 <= n -> n + len l < 2 ^ BITS_PER_LONG -> mapped_until_end l n -> (0 < n \/ l <> []) ->
  holds (held w) (RFile e) = true ->
  wp (answers A) (vma_history mm l) (fun _ w' =>
    exe_file (k_mm (mem w') !!! mm) = (if vma_count l n =? 0 then None else Some e) /\
    held w' = (if vma_count l n =? 0 then release (RFile e) (held w) else held w) /\
    bad w' = bad w) w.
Proof.
  induction l as [|added l IH]; intros w e n He Hn Hpos Hmax Hmap Hne Hheld; cbn [vma_history vma_count fold_left].
  { destruct Hne as [Hne|]; [|done]. kcbn. unfold vma_count. cbn.
    destruct (Z.eqb_spec n 0); [lia|]. done. }
  rewrite len_cons in Hmax. pose proof (len_nonneg l). destruct Hmap as [Hn' Hmap].
  destruct w as [m h b lg]. cbn [mem held] in *. destruct (k_mm m !!! mm) as [a1 a2 a3 a4 au fl n0 e0] eqn:Hs.
  cbn [exe_file num_exe_file_vmas] in *. subst n0 e0. destruct added.
  - unfold added_exe_file_vma. kcbn. apply (IH (World _ h b lg) e (n + 1)); cbn [mem held]; try done; try lia;
      rewrite ?k_mm_upd_mm, ?lookup_total_insert_eq, ?Hs; cbn; [done|].
    apply ulong_small. lia.
  - unfold removed_exe_file_vma. kunfold. kcbn.
    rewrite k_mm_upd_mm, lookup_total_insert_eq, Hs. cbn [exe_file num_exe_file_vmas set_num_exe_file_vmas].
    rewrite ulong_small by lia. destruct (Z.eqb_spec (n - 1) 0) as [Hz|Hz].
    + destruct Hn' as [[-> _]|]; [|lia]. kcbn. intros [] m2 [_ ->]. rewrite Hheld. unfold vma_count. cbn [fold_left vma_history].
      rewrite Hz. cbn. split; [|done]. by rewrite !k_mm_upd_mm, !lookup_total_insert_eq, Hs.
    + kcbn. apply (IH (World _ h b lg) e (n - 1)); cbn [mem held]; try done; try lia;
        rewrite ?k_mm_upd_mm, ?lookup_total_insert_eq, ?Hs; cbn; [done|].
      apply ulong_small. lia.
Qed.

(** After an exec the executable stays pinned, by the same single
    reference, for as long as some mapping of it is left, whatever mappings
    come and go; the reference is dropped and [exe_file] cleared exactly when
    the last one is removed. *)
Theorem exe_file_dropped_with_last_vma A mm f l w :
  exe_file (k_mm (mem w) !!! mm) = None -> l <> [] -> len l < 2 ^ 32 -> mapped_until_end l 0 ->
  ends (fixed A) (set_mm_exe_file mm (Some f);; vma_history mm l) w (fun _ w' =>
    exe_file (k_mm (mem w') !!! mm) = (if vma_count l 0 =? 0 then None else Some f) /\
    held w' = (if vma_count l 0 =? 0 then held w else RFile f :: held w) /\
    bad w' = bad w).
Proof.
  intros He Hl Hlen Hmap. apply (wp_ends _ (answers A)); [apply keeps_fixed|].
  destruct w as [m h b lg]. cbn [mem] in He. unfold set_mm_exe_file. kunfold. kcbn. intros [] m1 [_ ->].
  kcbn. rewrite He. kcbn. eapply wp_mono; [apply (vma_history_spec A mm l _ f 0)|].
  all: cbn [mem held]; rewrite ?k_mm_upd_mm, ?lookup_total_insert_eq; try done; try lia.
  - by destruct (_ !!! _).
  - by destruct (_ !!! _).
  - pose proof ulong_pow. lia.
  - by right.
  - apply holds_head.
  - intros [] w' (H1 & H2 & H3). split; [done|]. cbn [held bad] in *. split; [|done].
    rewrite H2. cbn. by rewrite decide_True.
Qed.

(** The executable a /proc/<pid> inode leads to, in the answers of the kernel. *)
Definition exe_of (A : forall o, ans o) (m : kmem) (inode : inode_id) : option file_id :=
  match A (GetProcTask inode) with
  | Some t =>
      match A (GetTaskMm t) with
      | Some mm => exe_file (k_mm m !!! mm)
      | None => None
      end
  | None => None
  end.

(** [/proc/<pid>/exe] resolves to the path of the file the task's address
    space runs, with a reference of its own, and to nothing when the task, its
    address space or the file is gone; every other reference is given back. *)
Theorem proc_exe_link_spec A inode w :
  ends (fixed A) (proc_exe_link inode) w (fun r w' =>
    keeps_only (opt_res RPath r.2) w w' /\ mem w' = mem w /\
    r = match exe_of A (mem w) inode with
        | Some f => (0, Some (f_path (k_file (mem w) !!! f)))
        | None => (- ENOENT, None)
        end).
Proof.
  unfold exe_of. kfixed. unfold proc_exe_link, get_mm_exe_file. ksteps; simplify_option_eq; try done.
Qed.

End ExeFile.

(** ** Witnesses *)

#[local] Existing Instance arch64.

Lemma runs_intro {B : Type} A (p : prog B) w a :
  fst (run (fixed A) p w) = Done a -> runs A p w a (snd (run (fixed A) p w)).
Proof. unfold runs. by destruct (run _ _ _) as [? ?]; cbn; intros ->. Qed.

(** Address space 1 execs file 9, forks address space 2, and then exits while
    a reader has the file open. *)
Definition exe_w0 : world := world0 kmem0.
Definition exe_w1 := snd (run (fixed silent) (set_mm_exe_file 1%nat (Some 9%nat)) exe_w0).
Definition exe_w2 := snd (run (fixed silent) (dup_mm_exe_file 1%nat 2%nat) exe_w1).
Definition exe_w3 := snd (run (fixed silent) (get_mm_exe_file 2%nat) exe_w2).
Definition exe_w4 := snd (run (fixed silent) (set_mm_exe_file 1%nat None) exe_w3).

Lemma exe_file_references_balance_witness :
  exists L rs, exe_reachable silent (ExeState L rs exe_w4) /\
    held exe_w4 = [RFile 9%nat; RFile 9%nat] /\ exe_inv (ExeState L rs exe_w4).
Proof.
  assert (Hr : exe_reachable silent (ExeState (({[ 2%nat ]} ∪ {[ 1%nat ]}) ∖ {[ 1%nat ]}) ([9%nat] ++ []) exe_w4)).
  { eapply Exe_step; [|apply (Exit _ _ _ exe_w3); [set_solver|by apply runs_intro]].
    eapply Exe_step; [|apply (Open _ _ _ exe_w2 2%nat (Some 9%nat)); [set_solver|by apply runs_intro]].
    eapply Exe_step; [|apply (Fork _ _ _ exe_w1 1%nat); [set_solver|set_solver|by apply runs_intro]].
    eapply Exe_step; [|apply (Exec _ _ _ exe_w0 1%nat (Some 9%nat)); [set_solver|by apply runs_intro]].
    by apply Exe_init. }
  eexists _, _. split; [exact Hr|]. split; [vm_compute; reflexivity|].
  exact (exe_file_references_balance silent _ Hr).
Defined.

Lemma exe_file_dropped_with_last_vma_witness :
  mapped_until_end [true; true; false; false] 0 /\
  ends (fixed silent) (set_mm_exe_file 1%nat (Some 9%nat);; vma_history 1%nat [true; true; false; false]) exe_w0
    (fun _ w' => held w' = [] /\ bad w' = []).
Proof.
  assert (Hm : mapped_until_end [true; true; false; false] 0) by (cbn; repeat split; first [right; lia|left; split; [reflexivity|lia]]).
  split; [exact Hm|].
  refine (ends_mono _ _ _ _ _ (exe_file_dropped_with_last_vma silent 1%nat 9%nat _ exe_w0 eq_refl _ _ Hm) _).
  - discriminate.
  - vm_compute. reflexivity.
  - intros [] w' (_ & Hh & Hb). exact (conj Hh Hb).
Defined.
