(* ===== verification/Links.v ===== *)
(** * Symbolic links of a process (fs/proc/base.c)

    The files behind /proc/<pid>/fd and fdinfo ([proc_fd_info], [proc_fd_link],
    [proc_fdinfo_read]), the call through [op.proc_get_link], and the two
    users of it: [proc_pid_follow_link] and [proc_pid_readlink]; and the links
    of /proc/self. *)
From S2P Require Import Prelude Format Structs Kernel Access Names ExeFile.

Definition PROC_FDINFO_MAX := 64.

(** The text of [info] before it is cut to the buffer. *)
Definition fdinfo_text (f : file) : bytes :=
  str "pos:" ++ [9] ++ fmt_d (s64 (f_pos f)) ++ [NL] ++
  str "flags:" ++ [9] ++ str "0" ++ fmt_o (u32 (f_flags f)) ++ [NL].

(** [want_path] and [want_info] say whether those pointers are non-NULL; what they
    receive is answered. *)
Definition proc_fd_info (inode : inode_id) (want_path want_info : bool) : prog (Z * option path * option bytes) :=
  task ← get_proc_task inode;
  fd ← proc_fd inode;
  files ← match task with
          | Some task =>
              files ← get_files_struct task;
              put_task_struct task;;
              mret files
          | None => mret None
          end;
  match files with
  | Some files =>
      spin_lock_files files;;
      file ← fcheck_files files fd;
      match file with
      | Some file =>
          f ← gets (fun m => k_file m !!! file);
          p ← (if want_path then path_get (f_path f);; mret (Some (f_path f)) else mret None);
          spin_unlock_files files;;
          put_files_struct files;;
          mret (0, p, if want_info then Some (fst (snprintf PROC_FDINFO_MAX (fdinfo_text f))) else None)
      | None =>
          spin_unlock_files files;;
          put_files_struct files;;
          mret (- ENOENT, None, None)
      end
  | None => mret (- ENOENT, None, None)
  end.

Definition proc_fd_link (inode : inode_id) : prog (Z * option path) :=
  '(r, p, _) ← proc_fd_info inode true false;
  mret (r, p).

(** The answer and the new [*ppos]. *)
Definition proc_fdinfo_read (file : file_id) (buf len ppos : Z) : prog (Z * Z) :=
  inode ← gets (fun m => d_inode (k_dentry m !!! f_dentry (k_file m !!! file)));
  match inode with
  | None => Halt WildAccess
  | Some inode =>
      '(err, _, tmp) ← proc_fd_info inode false true;
      if err =? 0 then
        match tmp with
        | Some tmp =>
            '(err, ppos) ← simple_read_from_buffer buf len ppos tmp;
            mret (s32 err, ppos)
        | None => Halt WildAccess
        end
      else mret (err, ppos)
  end.

(** [PROC_I(inode)->op.proc_get_link(inode, path)]: a call through a member
    of the union that was not the one stored is not a call. *)
Definition call_get_link (inode : inode_id) : prog (Z * option path) :=
  op ← gets (fun m => ei_op (k_inode m !!! inode));
  match op with
  | proc_get_link F_proc_cwd_link => proc_cwd_link inode
  | proc_get_link F_proc_root_link => proc_root_link inode
  | proc_get_link F_proc_exe_link => proc_exe_link inode
  | proc_get_link F_proc_fd_link => proc_fd_link inode
  | _ => Halt WrongMember
  end.

Definition dentry_inode (dentry : dentry_id) : prog inode_id :=
  inode ← gets (fun m => d_inode (k_dentry m !!! dentry));
  match inode with
  | Some inode => mret inode
  | None => Halt WildAccess
  end.

(** [nd_path] is [nd->path] on entry; the answer has the error and what
    [nd->path] was set to, when it was. *)
Definition proc_pid_follow_link (dentry : dentry_id) (nd_path : path) : prog (Z * option path) :=
  inode ← dentry_inode dentry;
  path_put nd_path;;
  allowed ← proc_fd_access_allowed inode;
  if (allowed : bool) then call_get_link inode
  else mret (- EACCES, None).

Definition do_proc_readlink (path : path) (buffer buflen : Z) : prog Z :=
  tmp ← get_free_page;
  match tmp with
  | None => mret (- ENOMEM)
  | Some tmp =>
      pathname ← d_path path;
      n ← match pathname with
          | inl err => mret err
          | inr pathname =>
              let n := if buflen <? len pathname then buflen else len pathname in
              if n <? 0 then Halt WildAccess
              else
                left ← copy_to_user buffer (ztake n pathname);
                mret (if left =? 0 then n else - EFAULT)
          end;
      free_page tmp;;
      mret n
  end.

Definition proc_pid_readlink (dentry : dentry_id) (buffer buflen : Z) : prog Z :=
  inode ← dentry_inode dentry;
  allowed ← proc_fd_access_allowed inode;
  if (allowed : bool) then
    '(error, path) ← call_get_link inode;
    if error =? 0 then
      match path with
      | Some path =>
          error ← do_proc_readlink path buffer buflen;
          path_put path;;
          mret error
      | None => Halt WildAccess
      end
    else mret error
  else mret (- EACCES).

(** ** /proc/self *)

Definition proc_self_readlink (dentry : dentry_id) (buffer buflen : Z) : prog Z :=
  ns ← gets (fun m => d_ns (k_dentry m !!! dentry));
  current ← gets k_current;
  tgid ← task_tgid_nr_ns current ns;
  if tgid =? 0 then mret (- ENOENT)
  else
    let text := fmt_d (s32 tgid) in
    if PROC_NUMBUF <? len text + 1 then Halt WildAccess
    else vfs_readlink dentry buffer buflen text.

Definition proc_self_follow_link (dentry : dentry_id) : prog Z :=
  ns ← gets (fun m => d_ns (k_dentry m !!! dentry));
  current ← gets k_current;
  tgid ← task_tgid_nr_ns current ns;
  if tgid =? 0 then mret (- ENOENT)
  else
    tgid ← task_tgid_nr_ns current ns;
    let text := fmt_d (s32 tgid) in
    if PROC_NUMBUF <? len text + 1 then Halt WildAccess
    else vfs_follow_link text.

(** ** Rules for callers *)

(** The function stored in a link inode. *)
Definition is_link (i : inode) : Prop := exists f, ei_op i = proc_get_link f.

Definition link_result (w w' : world) (r : Z * option path) : Prop :=
  keeps_only (opt_res RPath r.2) w w' /\
  r.1 = match r.2 with Some _ => 0 | None => - ENOENT end.

Lemma proc_fd_info_wp R inode path info w (Q : Z * option Structs.path * option bytes -> world -> Prop) :
  (forall r p i w', keeps_only (opt_res RPath p) w w' ->
    (r = 0 /\ (path = true <-> is_Some p) /\ (info = true <-> is_Some i) \/
     r = - ENOENT /\ p = None /\ i = None) -> Q (r, p, i) w') ->
  wp R (proc_fd_info inode path info) Q w.
Proof.
  intros HQ. destruct w as [m h b l]. unfold proc_fd_info. destruct path, info; ksteps;
    (apply HQ; [done|]); first [right; done|left; unfold is_Some; naive_solver].
Qed.

Lemma call_get_link_wp R inode w (Q : Z * option path -> world -> Prop) :
  is_link (k_inode (mem w) !!! inode) ->
  (forall r w', link_result w w' r -> Q r w') ->
  wp R (call_get_link inode) Q w.
Proof.
  intros [f Hf] HQ. unfold call_get_link. kcbn. rewrite Hf. destruct w as [m h b l].
  destruct f; [unfold proc_cwd_link, get_fs_path|unfold proc_root_link, get_fs_path
    |unfold proc_exe_link, get_mm_exe_file|unfold proc_fd_link, proc_fd_info]; ksteps; by apply HQ.
Qed.

Lemma do_proc_readlink_wp R p buffer buflen w (Q : Z -> world -> Prop) : 0 <= buflen ->
  (forall r w', balanced w w' -> Q r w') -> wp R (do_proc_readlink p buffer buflen) Q w.
Proof.
  intros Hb HQ. destruct w as [m h b l]. unfold do_proc_readlink. kunfold. kcbn.
  intros [t|] m1 _; [|by apply HQ]. kcbn. intros [e|n] m2 _; kcbn.
  - intros. repeat kdec. by apply HQ.
  - pose proof (len_nonneg n). destruct (Z.ltb_spec (if buflen <? len n then buflen else len n) 0).
    { destruct (buflen <? len n); lia. }
    kcbn. intros. kcbn. intros. repeat kdec. by apply HQ.
Qed.

Lemma keeps_only_pop p m w0 w w' : keeps_only [RPath p] w0 w -> balanced w w' ->
  balanced w0 (after (PathPut p) tt m w').
Proof.
  intros [H1 H2] [H3 H4]. split; cbn.
  - rewrite H3, H1. cbn. by rewrite decide_True.
  - rewrite H3, H1, H4, H2. cbn. by rewrite decide_True.
Qed.

(** Inodes change only under the code's own hands while it runs. *)
Definition inodes_stable : contract := fun o _ m _ m' => k_inode m' = k_inode m.

(** ** Properties *)

(** Reading or following a link of /proc/<pid>, on an inode whose stored
    operation is a link function: readlink gives back everything it takes, on
    every error path, and follow_link exchanges the directory reference in
    [nd->path] for one of the target, present exactly when it returns 0. *)
Theorem links_exchange_references E dentry nd_path inode buffer buflen w :
  keeps E inodes_stable ->
  d_inode (k_dentry (mem w) !!! dentry) = Some inode -> is_link (k_inode (mem w) !!! inode) ->
  0 <= buflen ->
  ends E (proc_pid_readlink dentry buffer buflen) w (fun _ w' => balanced w w') /\
  (forall rest, held w = RPath nd_path :: rest ->
    ends E (proc_pid_follow_link dentry nd_path) w (fun r w' =>
      held w' = opt_res RPath r.2 ++ rest /\ bad w' = bad w /\ (is_Some r.2 <-> r.1 = 0))).
Proof.
  intros HE Hd Hl Hb. destruct w as [m h b lg]. cbn [mem held bad] in *.
  split; [|intros rest ->]; apply (wp_ends _ inodes_stable); try exact HE;
    [unfold proc_pid_readlink|unfold proc_pid_follow_link];
    unfold dentry_inode, proc_fd_access_allowed; kunfold; kcbn; rewrite Hd; kcbn.
  - intros [t|] m1 H1; kcbn; [|done]. intros [|] m2 H2; kcbn; intros [] m3 H3; kcbn; repeat kdec; [|done].
    apply wp_bind, call_get_link_wp; cbn [mem] in *; [congruence|]. intros [e p] w' [Hk He]. cbn [fst snd] in He. subst e.
    destruct p as [p|]; cbn [fst snd] in *; [|by apply keeps_only_nil].
    kcbn. apply wp_bind, do_proc_readlink_wp; [done|]. intros r2 w2 Hw2. kcbn. intros [] m4 _.
    exact (keeps_only_pop _ m4 _ _ _ Hk Hw2).
  - intros [] m0 H0. kcbn. repeat kdec.
    intros [t|] m1 H1; kcbn; [|by split; [|split; [|split; [intros [? ?]|]]]].
    intros [|] m2 H2; kcbn; intros [] m3 H3; kcbn; repeat kdec; [|by split; [|split; [|split; [intros [? ?]|]]]].
    apply call_get_link_wp; cbn [mem] in *; [congruence|]. intros [e p] w' [[Hh Hb'] He].
    cbn [fst snd held bad] in *. subst e. split; [done|]. split; [done|].
    destruct p; split; [done|by eexists|by intros [? ?]|done].
Qed.

(** Where each link points, in the answers of the kernel. *)
Definition link_target (A : forall o, ans o) (m : kmem) (inode : inode_id) (f : link_fn) : option path :=
  match f, A (GetProcTask inode) with
  | _, None => None
  | F_proc_exe_link, _ =>
      match exe_of A m inode with Some f => Some (f_path (k_file m !!! f)) | None => None end
  | F_proc_cwd_link, Some t =>
      match t_fs (k_task m !!! t) with Some fs => Some (fs_pwd (k_fs m !!! fs)) | None => None end
  | F_proc_root_link, Some t =>
      match t_fs (k_task m !!! t) with Some fs => Some (fs_root (k_fs m !!! fs)) | None => None end
  | F_proc_fd_link, Some t =>
      match A (GetFilesStruct t) with
      | Some files =>
          match A (FcheckFiles files (A (ProcFd inode))) with
          | Some f => Some (f_path (k_file m !!! f))
          | None => None
          end
      | None => None
      end
  end.

Definition may_snoop (A : forall o, ans o) (inode : inode_id) : bool :=
  match A (GetProcTask inode) with
  | Some t => A (PtraceMayAccess t PTRACE_MODE_READ)
  | None => false
  end.

Definition readlink_result (A : forall o, ans o) (m : kmem) (inode : inode_id) (f : link_fn)
    (buffer buflen : Z) : Z :=
  if may_snoop A inode then
    match link_target A m inode f with
    | None => - ENOENT
    | Some p =>
        match A GetFreePage, A (DPath p) with
        | None, _ => - ENOMEM
        | _, inl err => err
        | _, inr name =>
            let n := Z.min buflen (len name) in
            if A (CopyToUser buffer (ztake n name)) =? 0 then n else - EFAULT
        end
    end
  else - EACCES.

Lemma call_get_link_spec A inode f w (Q : Z * option path -> world -> Prop) :
  ei_op (k_inode (mem w) !!! inode) = proc_get_link f ->
  (forall w', mem w' = mem w -> Q (match link_target A (mem w) inode f with
     Some p => (0, Some p) | None => (- ENOENT, None) end) w') ->
  wp (answers A) (call_get_link inode) Q w.
Proof.
  intros Hf HQ. unfold call_get_link. kcbn. rewrite Hf. destruct w as [m h b l]. cbn [mem] in *.
  unfold link_target, exe_of in HQ.
  destruct f; [unfold proc_cwd_link, get_fs_path|unfold proc_root_link, get_fs_path
    |unfold proc_exe_link, get_mm_exe_file|unfold proc_fd_link, proc_fd_info]; ksteps;
    simplify_option_eq; apply HQ; done.
Qed.

(** C23: What readlink on a /proc/<pid> link returns: -EACCES exactly when the
    reader may not trace the task, and otherwise the link's target by its
    kind (cwd, root, exe or an open file): -ENOENT when there is none, the
    error of the path printer, or as many bytes of the path as fit. *)
Theorem proc_pid_readlink_spec A dentry inode f buffer buflen w :
  d_inode (k_dentry (mem w) !!! dentry) = Some inode ->
  ei_op (k_inode (mem w) !!! inode) = proc_get_link f -> 0 <= buflen ->
  ends (fixed A) (proc_pid_readlink dentry buffer buflen) w (fun r w' =>
    mem w' = mem w /\ r = readlink_result A (mem w) inode f buffer buflen).
Proof.
  intros Hd Hf Hb. kfixed. cbn [mem] in *.
  unfold proc_pid_readlink, dentry_inode, proc_fd_access_allowed, readlink_result, may_snoop.
  kunfold. kcbn. rewrite Hd. kcbn. intros x m [-> ->].
  destruct (A (GetProcTask inode)) as [t|]; kcbn; [|done]. intros y m [-> ->].
  destruct (A (PtraceMayAccess _ _)); kcbn; intros [] m [_ ->]; [|done].
  kcbn. apply wp_bind, (call_get_link_spec A inode f); [done|]. intros [m1 h1 b1 l1] Hm. cbn [mem] in *. subst m1.
  destruct (link_target _ _ _ _) as [p|]; kcbn; [|done]. apply wp_bind. unfold do_proc_readlink.
  kunfold. kcbn. intros z m [-> ->]. destruct (A GetFreePage) as [tmp|]; kcbn.
  2: { intros [] m [_ ->]. done. }
  intros d m [-> ->]. destruct (A (DPath p)) as [e|name]; kcbn.
  { intros [] m [_ ->] [] m2 [_ ->]. done. }
  pose proof (len_nonneg name). replace (if buflen <? len name then buflen else len name)
    with (Z.min buflen (len name)) by (destruct (Z.ltb_spec buflen (len name)); lia).
  destruct (Z.ltb_spec (Z.min buflen (len name)) 0); [lia|]. kcbn. intros c m [-> ->]. kcbn.
  intros [] m [_ ->] [] m2 [_ ->]. done.
Qed.

(** An [fdinfo] file shows the offset and flags of the open file it stands
    for, taken under the table's lock: its text always fits the buffer on the
    stack uncut, and with no such open file the read fails with -ENOENT. *)
Theorem proc_fdinfo_shows_file A file buf n ppos w inode :
  d_inode (k_dentry (mem w) !!! f_dentry (k_file (mem w) !!! file)) = Some inode ->
  ends (fixed A) (proc_fdinfo_read file buf n ppos) w (fun r w' =>
    balanced w w' /\ mem w' = mem w /\
    match match A (GetProcTask inode) with Some t => A (GetFilesStruct t) | None => None end with
    | Some files =>
        match A (FcheckFiles files (A (ProcFd inode))) with
        | Some f =>
            let text := fdinfo_text (k_file (mem w) !!! f) in
            len text < PROC_FDINFO_MAX /\
            r.1 = s32 (A (SimpleReadFromBuffer buf n ppos text)).1
        | None => r = (- ENOENT, ppos)
        end
    | None => r = (- ENOENT, ppos)
    end).
Proof.
  assert (Hlen : forall f, len (fdinfo_text f) < PROC_FDINFO_MAX).
  { intros f. unfold fdinfo_text, PROC_FDINFO_MAX. autorewrite with kbytes.
    assert (H1 : len (fmt_d (s64 (f_pos f))) <= 20). 
    { apply len_fmt_d64. unfold s64. pose proof (Z.mod_pos_bound (f_pos f + 2 ^ 63) (2 ^ 64)). lia. }
    assert (H2 : len (fmt_o (u32 (f_flags f))) <= 11).
    { apply len_digits_bound; [lia..|]. pose proof (u32_range (f_flags f)). lia. }
    repeat match goal with |- context [len (str ?s)] =>
      let v := eval vm_compute in (len (str s)) in change (len (str s)) with v end. lia. }
  intros Hd. kfixed. cbn [mem] in *. unfold proc_fdinfo_read, proc_fd_info. kunfold. kcbn. rewrite Hd. kcbn.
  assert (Hcut : forall f, fst (snprintf PROC_FDINFO_MAX (fdinfo_text f)) = fdinfo_text f).
  { intros f. specialize (Hlen f). unfold snprintf, ztake, len, PROC_FDINFO_MAX in *. cbn [fst]. apply take_ge. lia. }
  ksteps; rewrite ?Hcut in *; try done. split_and!; try done.
  by match goal with H : A (SimpleReadFromBuffer _ _ _ _) = _ |- _ => rewrite H end.
Qed.

(** /proc/self names its reader: both ways of resolving it use the
    reader's thread group number in the namespace of the mount, in decimal,
    which always fits the buffer on the stack; a reader invisible there gets
    -ENOENT. *)
Theorem proc_self_names_reader A dentry buffer buflen w :
  let tgid := A (TaskTgidNrNs (k_current (mem w)) (d_ns (k_dentry (mem w) !!! dentry))) in
  ends (fixed A) (proc_self_readlink dentry buffer buflen) w (fun r w' => balanced w w' /\
    r = if tgid =? 0 then - ENOENT else A (VfsReadlink dentry buffer buflen (fmt_d (s32 tgid)))) /\
  ends (fixed A) (proc_self_follow_link dentry) w (fun r w' => balanced w w' /\
    r = if tgid =? 0 then - ENOENT else A (VfsFollowLink (fmt_d (s32 tgid)))).
Proof.
  split; kfixed; cbn [mem]; [unfold proc_self_readlink|unfold proc_self_follow_link];
    kunfold; kcbn; intros x m [-> ->]; destruct (_ =? 0); kcbn; try done.
  - rewrite decimal_fits. kcbn. by intros y m [-> ->].
  - intros y m [-> ->]. rewrite decimal_fits. kcbn. by intros z m [-> ->].
Qed.

(** ** Witnesses *)

(** Task 1 with working directory (3,4), read by a tracer that may attach;
    dentry 5 is /proc/1/cwd and dentry 6 an fdinfo file of descriptor 0. *)
Definition link_kernel (o : op) : ans o :=
  match o with
  | GetProcTask _ => Some 1%nat
  | PtraceMayAccess _ _ => true
  | GetFreePage => Some 2%nat
  | DPath _ => inr (str "/home")
  | GetFilesStruct _ => Some 3%nat
  | FcheckFiles _ _ => Some 4%nat
  | SimpleReadFromBuffer _ n pos text => (Z.min n (len text), pos + Z.min n (len text))
  | o => silent o
  end.

Definition link_inode : inode := set_ei_op (proc_get_link F_proc_cwd_link) inhabitant.

Definition link_mem : kmem :=
  Kmem 0 {[ 1%nat := Task 1 [] 0 (Some 8%nat) None 0 0 0 0 0 false 0 inhabitant 0 0 0 [] 0 [] ]} ∅ ∅
    {[ 8%nat := Fs inhabitant (Path 3 4) ]} {[ 4%nat := File 17 1 577 inhabitant 0 PrivNone ]}
    {[ 7%nat := link_inode ]} {[ 0%nat := Dentry [] (Some 7%nat) None 0; 5%nat := Dentry [] (Some 7%nat) None 0 ]} ∅ ∅ ∅ ∅ ∅ ∅ ∅
    HookDummy.

Lemma links_exchange_references_witness :
  ends (fixed link_kernel) (proc_pid_follow_link 5%nat (Path 9 9))
    (World link_mem [RPath (Path 9 9)] [] []) (fun r w' =>
      held w' = opt_res RPath r.2 ++ [] /\ bad w' = [] /\ (is_Some r.2 <-> r.1 = 0)) /\
  held (snd (run (fixed link_kernel) (proc_pid_follow_link 5%nat (Path 9 9))
    (World link_mem [RPath (Path 9 9)] [] []))) = [RPath (Path 3 4)].
Proof.
  split; [|vm_compute; reflexivity].
  refine (proj2 (links_exchange_references (fixed link_kernel) 5%nat (Path 9 9) 7%nat 0 10
    (World link_mem [RPath (Path 9 9)] [] []) _ _ _ _) [] eq_refl).
  - intros o tr m. reflexivity.
  - vm_compute. reflexivity.
  - exists F_proc_cwd_link. vm_compute. reflexivity.
  - lia.
Defined.

Lemma proc_pid_readlink_spec_witness :
  ends (fixed link_kernel) (proc_pid_readlink 5%nat 1000 3) (world0 link_mem) (fun r _ => r = 3).
Proof.
  refine (ends_mono _ _ _ _ _ (proc_pid_readlink_spec link_kernel 5%nat 7%nat F_proc_cwd_link 1000 3
    (world0 link_mem) _ _ _) _).
  - vm_compute. reflexivity.
  - vm_compute. reflexivity.
  - lia.
  - intros r w' [_ Hr]. rewrite Hr. vm_compute. reflexivity.
Defined.

Lemma proc_fdinfo_shows_file_witness :
  ends (fixed link_kernel) (proc_fdinfo_read 4%nat 1000 100 0) (world0 link_mem) (fun r _ => r.1 = 21).
Proof.
  refine (ends_mono _ _ _ _ _ (proc_fdinfo_shows_file link_kernel 4%nat 1000 100 0 (world0 link_mem) 7%nat _) _).
  - vm_compute. reflexivity.
  - intros r w' (_ & _ & _ & Hr). rewrite Hr. vm_compute. reflexivity.
Defined.
