(* ===== verification/Mounts.v ===== *)
(** * /proc/<pid>/mounts, mountinfo and mountstats (fs/proc/base.c)

    Opening a namespace's mount table ([mounts_open_common] and its error
    ladder), releasing it, and polling it for changes. *)
From S2P Require Import Prelude Structs Kernel Access.

Definition POLLIN := 1.
Definition POLLPRI := 2.
Definition POLLERR := 8.
Definition POLLRDNORM := 64.

Section Mounts.
(** [sizeof(struct proc_mounts)]: it depends on [struct seq_file]. *)
Context (sizeof_proc_mounts : Z).

(** The labels of the error ladder. *)
Definition mounts_err_put_ns (ns : mntns_id) (ret : Z) : prog Z :=
  put_mnt_ns ns;; mret ret.
Definition mounts_err_put_path (ns : mntns_id) (root : path) (ret : Z) : prog Z :=
  path_put root;; mounts_err_put_ns ns ret.
Definition mounts_err_free (ns : mntns_id) (root : path) (p : ptr) (ret : Z) : prog Z :=
  kfree (Some p);; mounts_err_put_path ns root ret.

(** The namespace of a task, with a reference. *)
Definition mounts_task_ns (task : task_id) : prog (option mntns_id) :=
  rcu_read_lock;;
  nsp ← task_nsproxy task;
  ns ← match nsp with
       | Some nsp =>
           ns ← gets (fun m => k_nsproxy m !!! nsp);
           match ns with
           | Some ns => get_mnt_ns ns;; mret (Some ns)
           | None => mret None
           end
       | None => mret None
       end;
  rcu_read_unlock;;
  mret ns.

Definition mounts_open_common (inode : inode_id) (file : file_id) (op : seq_operations) : prog Z :=
  task ← get_proc_task inode;
  '(ret, ns, root) ←
    match task with
    | Some task =>
        ns ← mounts_task_ns task;
        '(ret, root) ← match ns with
                       | Some _ =>
                           '(e, root) ← get_fs_path task true;
                           mret (if e =? 0 then 0 else - EINVAL, root)
                       | None => mret (- EINVAL, None)
                       end;
        put_task_struct task;;
        mret (ret, ns, root)
    | None => mret (- EINVAL, None, None)
    end;
  match ns with
  | None => mret ret
  | Some ns =>
      if negb (ret =? 0) then mounts_err_put_ns ns ret
      else
        match root with
        | None => Halt WildAccess
        | Some root =>
            p ← kmalloc sizeof_proc_mounts;
            match p with
            | None => mounts_err_put_path ns root (- ENOMEM)
            | Some p =>
                modify (upd_file file (set_f_private (PrivMounts p)));;
                ret ← seq_open file op;
                if negb (ret =? 0) then mounts_err_free ns root p ret
                else
                  event ← gets (fun m => k_mntns_event m !!! ns);
                  modify (upd_mounts p (fun _ => ProcMounts true ns root event));;
                  mret 0
            end
        end
  end.

Definition mounts_open (inode : inode_id) (file : file_id) : prog Z :=
  mounts_open_common inode file mounts_op.
Definition mountinfo_open (inode : inode_id) (file : file_id) : prog Z :=
  mounts_open_common inode file mountinfo_op.
Definition mountstats_open (inode : inode_id) (file : file_id) : prog Z :=
  mounts_open_common inode file mountstats_op.

(** [file->private_data] as a [struct proc_mounts *]. *)
Definition file_mounts (file : file_id) : prog ptr :=
  priv ← gets (fun m => f_private (k_file m !!! file));
  match priv with
  | PrivMounts p => mret p
  | _ => Halt WildAccess
  end.

Definition mounts_release (inode : inode_id) (file : file_id) : prog Z :=
  p ← file_mounts file;
  root ← gets (fun m => pm_root (k_mounts m !!! p));
  path_put root;;
  ns ← gets (fun m => pm_ns (k_mounts m !!! p));
  put_mnt_ns ns;;
  seq_release inode file (PrivMounts p).

Definition mounts_poll (file : file_id) : prog Z :=
  p ← file_mounts file;
  ns ← gets (fun m => pm_ns (k_mounts m !!! p));
  let res := Z.lor POLLIN POLLRDNORM in
  poll_wait file ns;;
  spin_lock_vfsmount;;
  seen ← gets (fun m => pm_event (k_mounts m !!! p));
  event ← gets (fun m => k_mntns_event m !!! ns);
  res ← (if negb (seen =? event) then
           modify (upd_mounts p (fun x => ProcMounts (pm_private_set x) (pm_ns x) (pm_root x) event));;
           mret (Z.lor res (Z.lor POLLERR POLLPRI))
         else mret res);
  spin_unlock_vfsmount;;
  mret res.

(** ** Properties *)

(** Open files and mount cursors change only under the code's own hands, and
    in [single_open]. *)
Definition mounts_stable : contract := fun o _ m _ m' =>
  match o with SingleOpen _ _ _ => True | _ => k_file m' = k_file m /\ k_mounts m' = k_mounts m end.

(** What a successful open leaves behind. *)
Definition mounts_opened (file : file_id) (w w' : world) : Prop :=
  exists p ns root event,
    keeps_only [RMem p; RPath root; RMntNs ns] w w' /\
    f_private (k_file (mem w') !!! file) = PrivMounts p /\
    k_mounts (mem w') !!! p = ProcMounts true ns root event.

Lemma mounts_task_ns_wp R task w (Q : option mntns_id -> world -> Prop) :
  (forall ns w', keeps_only (opt_res RMntNs ns) w w' -> Q ns w') -> wp R (mounts_task_ns task) Q w.
Proof. intros HQ. destruct w as [m h b l]. unfold mounts_task_ns. ksteps; by apply HQ. Qed.

Lemma mounts_open_wp inode file op w :
  wp mounts_stable (mounts_open_common inode file op) (fun r w' =>
    (r = 0 /\ mounts_opened file w w') \/ (r <> 0 /\ balanced w w')) w.
Proof.
  destruct w as [m h b l]. unfold mounts_open_common. kunfold. kcbn. intros [t|] m1 _; kcbn.
  2: { right. by split. }
  apply wp_bind, wp_bind, mounts_task_ns_wp. intros ns w1 [Hh1 Hb1].
  destruct ns as [ns|]; kcbn.
  2: { intros [] m2 _. right. cbn in Hh1. rewrite Hh1. cbn. rewrite decide_True by done.
       split; [done|]. split; [done|]. cbn. rewrite Hb1. cbn. by rewrite decide_True. }
  apply wp_bind, wp_bind, get_fs_path_wp. intros e root w2 [Hh2 Hb2] He.
  destruct w1 as [m1' h1 b1 l1], w2 as [m2 h2 b2 l2]. cbn [held bad mem] in *. subst h1 b1 b2 h2.
  unfold mounts_err_free, mounts_err_put_path, mounts_err_put_ns. kunfold.
  destruct root as [root|]; subst e; try change (- ENOENT =? 0) with false; kcbn; intros [] m3 _; cbn; repeat kdec; cbn.
  2: { ksteps; [right; by split|done]. }
  intros [p|] m4 _; kcbn.
  2: { ksteps. right. by split. }
  intros r m5 [Hf5 Hm5]. destruct (Z.eqb_spec r 0) as [->|Hr]; kcbn.
  - left. split; [done|]. exists p, ns, root, (k_mntns_event m5 !!! ns). split; [done|]. cbn [mem set_mem].
    rewrite k_mounts_upd_mounts, lookup_total_insert_eq. split; [|done].
    assert (Hk : forall x f m, k_file (upd_mounts x f m) = k_file m) by (intros ?? []; done).
    rewrite Hk, Hf5, k_file_upd_file, lookup_total_insert_eq. by destruct (k_file m4 !!! file).
  - ksteps. right. by split.
Qed.

(** C20: The error ladder of [mounts_open_common]: on success the open file
    owns its cursor, the root path and the namespace, all recorded in the
    cursor it points to; on every failure (no task, no namespace, no root,
    no memory, seq_open refusing) nothing is left held. *)
Theorem mounts_open_all_or_nothing E inode file op w : keeps E mounts_stable ->
  ends E (mounts_open_common inode file op) w (fun r w' =>
    (r = 0 /\ mounts_opened file w w') \/ (r <> 0 /\ balanced w w')).
Proof. intros HE. apply (wp_ends _ mounts_stable); [done|apply mounts_open_wp]. Qed.

(** Opening and then releasing a mounts file leaves nothing held and
    breaks no rule: release gives back exactly the three things open took. *)
Theorem mounts_open_release E inode file op w : keeps E mounts_stable ->
  ends E (r ← mounts_open_common inode file op;
          if r =? 0 then mounts_release inode file else mret r) w (fun _ w' => balanced w w').
Proof.
  intros HE. apply (wp_ends _ mounts_stable); [done|]. apply wp_bind.
  eapply wp_mono; [apply mounts_open_wp|]. intros r w' [[-> Ho]|[Hr Hb]]; cbn [Z.eqb].
  2: { destruct (Z.eqb_spec r 0); [done|exact Hb]. }
  destruct Ho as (p & ns & root & event & [Hh Hb] & Hf & Hm). destruct w' as [m h b l].
  cbn [held bad mem] in *. subst h b. unfold mounts_release, file_mounts. kunfold. kcbn. rewrite Hf. kcbn.
  rewrite Hm. cbn [pm_root]. intros [] m1 [_ Hm1]. kcbn. rewrite Hm1, Hm. cbn [pm_ns]. repeat (kdec; kcbn). intros [] m2 _. kcbn. repeat (kdec; kcbn).
  intros x m3 _. repeat (kdec; kcbn). done.
Qed.

(** Which error an open returns: -EINVAL without a task, a namespace or a
    root, -ENOMEM without memory, and otherwise whatever seq_open says. *)
Theorem mounts_open_result A inode file op w :
  ends (fixed A) (mounts_open_common inode file op) w (fun r _ =>
    r = match A (GetProcTask inode) with
        | None => - EINVAL
        | Some t =>
            match A (TaskNsproxy t) with
            | None => - EINVAL
            | Some nsp =>
                match k_nsproxy (mem w) !!! nsp, t_fs (k_task (mem w) !!! t), A (Kmalloc sizeof_proc_mounts) with
                | Some _, Some _, Some _ => A (SeqOpen file op)
                | Some _, Some _, None => - ENOMEM
                | _, _, _ => - EINVAL
                end
            end
        end).
Proof.
  kfixed. cbn [mem]. unfold mounts_open_common, mounts_task_ns, get_fs_path, mounts_err_free,
    mounts_err_put_path, mounts_err_put_ns. ksteps; simplify_eq; try done.
  all: repeat match goal with H : ?x = _ |- context [match ?x with _ => _ end] => rewrite H end; try done.
  by match goal with H : negb (_ =? 0) = false |- _ => apply negb_false_iff, Z.eqb_eq in H end.
Qed.

(** C21: [mounts_poll] reports each change of the namespace once: it returns
    the error bits exactly when the namespace's event differs from the one
    the file saw last, and a second poll with no change in between does not. *)
Theorem mounts_poll_reports_once A file p w :
  f_private (k_file (mem w) !!! file) = PrivMounts p ->
  let changed := pm_event (k_mounts (mem w) !!! p) <> k_mntns_event (mem w) !!! pm_ns (k_mounts (mem w) !!! p) in
  ends (fixed A) (a ← mounts_poll file; b ← mounts_poll file; mret (a, b)) w (fun r w' =>
    balanced w w' /\ (Z.land r.1 POLLERR <> 0 <-> changed) /\ Z.land r.2 POLLERR = 0 /\
    Z.land r.1 POLLIN <> 0 /\ Z.land r.2 POLLIN <> 0).
Proof.
  intros Hf changed. subst changed. kfixed. cbn [mem] in *. unfold mounts_poll, file_mounts. kunfold. kcbn.
  rewrite Hf. kcbn. intros [] m [_ ->] [] m1 [_ ->].
  destruct (Z.eqb_spec (pm_event (k_mounts k0 !!! p)) (k_mntns_event k0 !!! pm_ns (k_mounts k0 !!! p))) as [He|He]; kcbn;
    intros [] m2 [_ ->]; kcbn; repeat (kdec; kcbn).
  - rewrite Hf. kcbn. intros [] m3 [_ ->] [] m4 [_ ->]. rewrite <- He, Z.eqb_refl. kcbn.
    intros [] m5 [_ ->]. repeat (kdec; kcbn). by split_and!.
  - assert (Hkf : forall x f m, k_file (upd_mounts x f m) = k_file m) by (intros ?? []; done).
    assert (Hke : forall x f m, k_mntns_event (upd_mounts x f m) = k_mntns_event m) by (intros ?? []; done).
    rewrite Hkf, Hf. kcbn. intros [] m3 [_ ->] [] m4 [_ ->].
    rewrite Hke, k_mounts_upd_mounts, lookup_total_insert_eq. cbn [pm_event pm_ns]. rewrite Z.eqb_refl. kcbn.
    intros [] m5 [_ ->]. repeat (kdec; kcbn). by split_and!.
Qed.

End Mounts.


(** ** Witnesses *)

(** Task 1 in namespace 6, whose event count is 5; file 3 is the open file. *)
Definition mounts_kernel (o : op) : ans o :=
  match o with
  | GetProcTask _ => Some 1%nat
  | TaskNsproxy _ => Some 2%nat
  | Kmalloc _ => Some 4%nat
  | o => silent o
  end.

Definition mounts_mem : kmem :=
  Kmem 0 {[ 1%nat := Task 1 [] 0 (Some 8%nat) None 0 0 0 0 0 false 0 inhabitant 0 0 0 [] 0 [] ]} ∅ ∅
    {[ 8%nat := Fs (Path 7 7) inhabitant ]} {[ 3%nat := File 0 0 0 inhabitant 0 (PrivMounts 9) ]} ∅ ∅ ∅ ∅ ∅
    {[ 2%nat := Some 6%nat ]} {[ 6%nat := 5 ]} {[ 9%nat := ProcMounts true 6 inhabitant 4 ]} ∅ HookDummy.

Lemma mounts_kernel_stable : keeps (fixed mounts_kernel) mounts_stable.
Proof. intros o tr m. by destruct o. Qed.

Lemma mounts_open_all_or_nothing_witness :
  keeps (fixed mounts_kernel) mounts_stable /\
  ends (fixed mounts_kernel) (mounts_open 56 0%nat 3%nat) (world0 mounts_mem) (fun r w' =>
    (r = 0 /\ mounts_opened 3%nat (world0 mounts_mem) w') \/ (r <> 0 /\ balanced (world0 mounts_mem) w')) /\
  held (snd (run (fixed mounts_kernel) (mounts_open 56 0%nat 3%nat) (world0 mounts_mem))) =
    [RMem 4; RPath (Path 7 7); RMntNs 6].
Proof.
  split; [exact mounts_kernel_stable|]. split; [|vm_compute; reflexivity].
  exact (mounts_open_all_or_nothing 56 _ 0%nat 3%nat mounts_op _ mounts_kernel_stable).
Defined.

Lemma mounts_open_release_witness :
  keeps (fixed mounts_kernel) mounts_stable /\
  ends (fixed mounts_kernel)
    (r ← mounts_open_common 56 0%nat 3%nat mounts_op; if r =? 0 then mounts_release 0%nat 3%nat else mret r)
    (world0 mounts_mem) (fun _ w' => balanced (world0 mounts_mem) w').
Proof.
  split; [exact mounts_kernel_stable|].
  exact (mounts_open_release 56 _ 0%nat 3%nat mounts_op _ mounts_kernel_stable).
Defined.

Lemma mounts_poll_reports_once_witness :
  ends (fixed mounts_kernel) (a ← mounts_poll 3%nat; b ← mounts_poll 3%nat; mret (a, b)) (world0 mounts_mem)
    (fun r _ => Z.land r.1 POLLERR <> 0 /\ Z.land r.2 POLLERR = 0).
Proof.
  refine (ends_mono _ _ _ _ _ (mounts_poll_reports_once mounts_kernel 3%nat 9%nat (world0 mounts_mem) _) _).
  - vm_compute. reflexivity.
  - intros r w' (_ & [_ H] & H2 & _). split; [|exact H2]. apply H. vm_compute. discriminate.
Defined.
