(* ===== verification/MemFiles.v ===== *)
(** * The files that expose a process's memory and text (fs/proc/base.c)

    [proc_info_read] and [proc_single_show]/[proc_single_open], which call the
    functions of [Info] through [union proc_op]; [mem_open], [mem_read] and
    [mem_lseek] of /proc/<pid>/mem; [environ_read] of /proc/<pid>/environ.
    A read answers its return value and the new [*ppos]. *)
From S2P Require Import Prelude Structs Format Kernel Tables Access Info ExeFile Links.

Definition PROC_BLOCK_SIZE := 3 * 1024.

Definition file_inode (file : file_id) : prog inode_id :=
  dentry ← gets (fun m => f_dentry (k_file m !!! file));
  dentry_inode dentry.

Definition file_task (file : file_id) : prog (option task_id) :=
  inode ← file_inode file;
  get_proc_task inode.

(** [copy_to_user(buf, page, n)] from a page: bytes beyond it are not ours. *)
Definition copy_page_to_user (buf : Z) (page : bytes) (n : Z) : prog Z :=
  if (n <? 0) || (PAGE_SIZE <? n) then Halt WildAccess
  else copy_to_user buf (ztake n page).

Section MemFiles.
Context `{Arch}.

Definition proc_info_read (file : file_id) (buf count ppos : Z) : prog (Z * Z) :=
  inode ← file_inode file;
  task ← get_proc_task inode;
  match task with
  | None => mret (- ESRCH, ppos)
  | Some task =>
      let count := if PROC_BLOCK_SIZE <? count then PROC_BLOCK_SIZE else count in
      page ← get_free_page;
      result ← match page with
               | None => mret (- ENOMEM, ppos)
               | Some page =>
                   op ← gets (fun m => ei_op (k_inode m !!! inode));
                   '(length, text) ← match op with
                                     | proc_read f => call_proc_read f task
                                     | _ => Halt WrongMember
                                     end;
                   result ← (if 0 <=? length then simple_read_from_buffer buf count ppos (ztake length text)
                             else mret (length, ppos));
                   free_page page;;
                   mret result
               end;
      put_task_struct task;;
      mret result
  end.

(** [inode->i_sb->s_fs_info] is the namespace of the mount; a superblock is
    identified with it. *)
Definition proc_single_show (m : ptr) : prog Z :=
  inode ← gets (fun k => k_seq_private k !!! m);
  match inode with
  | None => Halt WildAccess
  | Some inode =>
      ns ← gets (fun k => i_sb (k_inode k !!! inode));
      pid ← proc_pid inode;
      task ← get_pid_task pid;
      match task with
      | None => mret (- ESRCH)
      | Some task =>
          op ← gets (fun k => ei_op (k_inode k !!! inode));
          ret ← match op with
                | proc_show f => call_proc_show f m ns pid task
                | _ => Halt WrongMember
                end;
          put_task_struct task;;
          mret ret
      end
  end.

(** [m->private = inode] after [single_open]. *)
Definition single_open_private (inode : inode_id) (filp : file_id) (show : show_cb) : prog Z :=
  ret ← single_open filp show None;
  if ret =? 0 then
    priv ← gets (fun m => f_private (k_file m !!! filp));
    match priv with
    | PrivSeq m => modify (upd_seq m (Some inode));; mret ret
    | _ => Halt WildAccess
    end
  else mret ret.

Definition proc_single_open (inode : inode_id) (filp : file_id) : prog Z :=
  single_open_private inode filp Cb_proc_single_show.

(** ** /proc/<pid>/mem *)

Definition mem_open (inode : inode_id) (file : file_id) : prog Z :=
  id ← gets (fun m => t_self_exec_id (k_task m !!! k_current m));
  modify (upd_file file (set_f_private (PrivExecId (slong id))));;
  mret 0.

(** The [while] loop: the answer is [ret] and [src] after it. *)
Fixpoint mem_read_loop (fuel : nat) (task : task_id) (buf src count ret : Z) : prog (Z * Z) :=
  match fuel with
  | O => Halt OutOfFuel
  | S fuel =>
      if 0 <? count then
        let this_len := s32 (if PAGE_SIZE <? count then PAGE_SIZE else count) in
        '(retval, page) ← access_process_vm task src this_len;
        stop ← (if retval =? 0 then mret true
                else e ← check_mem_permission task; mret (negb (e =? 0)));
        if (stop : bool) then mret (if ret =? 0 then - EIO else ret, src)
        else
          left ← copy_page_to_user buf page retval;
          if negb (left =? 0) then mret (- EFAULT, src)
          else mem_read_loop fuel task (buf + retval) (ulong (src + retval)) (ulong (count - retval))
                 (s32 (ret + retval))
      else mret (ret, src)
  end.

Definition mem_read (file : file_id) (buf count ppos : Z) : prog (Z * Z) :=
  task ← file_task file;
  match task with
  | None => mret (- ESRCH, ppos)
  | Some task =>
      let src := ulong ppos in
      perm ← check_mem_permission task;
      result ←
        (if negb (perm =? 0) then mret (- ESRCH, ppos)
         else
           page ← get_free_page;
           match page with
           | None => mret (- ENOMEM, ppos)
           | Some page =>
               mm ← get_task_mm task;
               result ← match mm with
                        | None => mret (0, ppos)
                        | Some mm =>
                            priv ← gets (fun m => f_private (k_file m !!! file));
                            id ← gets (fun m => t_self_exec_id (k_task m !!! k_current m));
                            result ← (if decide (priv = PrivExecId (slong id)) then
                                        '(ret, src) ← mem_read_loop (S (Z.to_nat count)) task buf src count 0;
                                        mret (ret, s64 src)
                                      else mret (- EIO, ppos));
                            mmput mm;;
                            mret result
                        end;
               free_page page;;
               mret result
           end);
      put_task_struct task;;
      mret result
  end.

Definition mem_lseek (file : file_id) (offset orig : Z) : prog Z :=
  let finish :=
    force_successful_syscall_return;;
    gets (fun m => f_pos (k_file m !!! file)) in
  if orig =? 0 then modify (upd_file file (set_f_pos offset));; finish
  else if orig =? 1 then
    modify (upd_file file (fun f => set_f_pos (s64 (f_pos f + offset)) f));; finish
  else mret (- EINVAL).

(** ** /proc/<pid>/environ *)

Fixpoint environ_read_loop (fuel : nat) (task : task_id) (mm : mm_id) (buf src count ret : Z) : prog (Z * Z) :=
  match fuel with
  | O => Halt OutOfFuel
  | S fuel =>
      if 0 <? count then
        s ← gets (fun m => k_mm m !!! mm);
        let this_len := s32 (ulong (env_end s - (env_start s + src))) in
        if this_len <=? 0 then mret (ret, src)
        else
          let max_len := s32 (if PAGE_SIZE <? count then PAGE_SIZE else count) in
          let this_len := if max_len <? this_len then max_len else this_len in
          '(retval, page) ← access_process_vm task (ulong (env_start s + src)) this_len;
          if retval <=? 0 then mret (retval, src)
          else
            left ← copy_page_to_user buf page retval;
            if negb (left =? 0) then mret (- EFAULT, src)
            else environ_read_loop fuel task mm (buf + retval) (ulong (src + retval)) (ulong (count - retval))
                   (s32 (ret + retval))
      else mret (ret, src)
  end.

Definition environ_read (file : file_id) (buf count ppos : Z) : prog (Z * Z) :=
  task ← file_task file;
  match task with
  | None => mret (- ESRCH, ppos)
  | Some task =>
      let src := ulong ppos in
      may ← ptrace_may_access task PTRACE_MODE_READ;
      result ←
        (if negb may then mret (- ESRCH, ppos)
         else
           page ← get_free_page;
           match page with
           | None => mret (- ENOMEM, ppos)
           | Some page =>
               mm ← get_task_mm task;
               result ← match mm with
                        | None => mret (0, ppos)
                        | Some mm =>
                            '(ret, src) ← environ_read_loop (S (Z.to_nat count)) task mm buf src count 0;
                            mmput mm;;
                            mret (ret, s64 src)
                        end;
               free_page page;;
               mret result
           end);
      put_task_struct task;;
      mret result
  end.

(** ** What a log says was delivered *)

(** The successful copies to user memory, in the order they were made. *)
Fixpoint copied (l : list obs) : list (Z * bytes) :=
  match l with
  | [] => []
  | Obs (CopyToUser dst data) x :: l => copied l ++ (if x =? 0 then [(dst, data)] else [])
  | _ :: l => copied l
  end.

(** What they left in the user's buffer at [buf], when they tile it. *)
Fixpoint user_buffer (buf : Z) (l : list (Z * bytes)) : option bytes :=
  match l with
  | [] => Some []
  | (dst, data) :: l =>
      if dst =? buf then
        match user_buffer (buf + len data) l with
        | Some rest => Some (data ++ rest)
        | None => None
        end
      else None
  end.

(** Every copy came right after a permission check of [task] by [current]
    (which is no operation at all when they are the same). *)
Fixpoint checked (task current : task_id) (l : list obs) : Prop :=
  match l with
  | [] => True
  | Obs (CopyToUser _ _) _ :: l =>
      (task = current \/
       match l with
       | Obs (PtraceMayAccess t mode) x :: _ => t = task /\ mode = PTRACE_MODE_ATTACH /\ x = true
       | _ => False
       end) /\ checked task current l
  | _ :: l => checked task current l
  end.

(** A stretch of log without copies and without accesses to the process. *)
Definition calm_obs (x : obs) : bool :=
  match x with Obs (CopyToUser _ _) _ | Obs (AccessProcessVm _ _ _) _ | Obs (PokeProcessVm _ _ _) _ => false | _ => true end.

Definition calm (l : list obs) : bool := forallb calm_obs l.

(** Every operation since [w] was of that kind. *)
Definition calmly (w w' : world) : Prop := exists new, log w' = new ++ log w /\ calm new = true.

Lemma calmly_refl m h b m' h' b' l : calmly (World m h b l) (World m' h' b' l).
Proof. by exists []. Qed.

Lemma calmly_cons w m' h' b' l x : calm_obs x = true ->
  calmly w (World m' h' b' l) -> calmly w (World m' h' b' (x :: l)).
Proof.
  intros Hx (new & Hl & Hc). exists (x :: new). cbn [log] in *. rewrite Hl. split; [done|].
  cbn. by rewrite Hx.
Qed.

Lemma calmly_trans w1 w2 w3 : calmly w1 w2 -> calmly w2 w3 -> calmly w1 w3.
Proof.
  intros (a & Ha & Ca) (b & Hb & Cb). exists (b ++ a). rewrite Hb, Ha, app_assoc. split; [done|].
  unfold calm in *. by rewrite forallb_app, Ca, Cb.
Qed.

Lemma copied_app l k : copied (l ++ k) = copied k ++ copied l.
Proof.
  induction l as [|[o x] l IH]; cbn [app copied]; [by rewrite app_nil_r|].
  destruct o; try exact IH. by rewrite IH, app_assoc.
Qed.

Lemma copied_calm l : calm l = true -> copied l = [].
Proof.
  induction l as [|[o x] l IH]; [done|]. unfold calm. cbn [forallb]. intros [Ho Hl]%andb_true_iff.
  destruct o; try exact (IH Hl). done.
Qed.

Lemma checked_app t c l k : checked t c l -> checked t c k -> checked t c (l ++ k).
Proof.
  intros Hl Hk. induction l as [|[o x] l IH]; [done|]. cbn [app].
  destruct o; try (exact (IH Hl)). destruct Hl as [Hc Hl]. split; [|exact (IH Hl)].
  destruct Hc as [?|Hc]; [by left|right]. destruct l as [|[o y] l]; [done|]. exact Hc.
Qed.

Lemma checked_calm t c l : calm l = true -> checked t c l.
Proof.
  induction l as [|[o x] l IH]; [done|]. unfold calm. cbn [forallb]. intros [Ho Hl]%andb_true_iff.
  destruct o; try exact (IH Hl). done.
Qed.

(** Bytes [a .. a + n - 1] of an address space. *)
Definition mem_range (M : Z -> Z) (a n : Z) : bytes :=
  (fun i => M (ulong (a + Z.of_nat i))) <$> seq 0 (Z.to_nat n).

Lemma len_mem_range M a n : 0 <= n -> len (mem_range M a n) = n.
Proof. intros. unfold mem_range, len. rewrite length_fmap, length_seq. lia. Qed.

Lemma ztake_mem_range M a n : 0 <= n -> ztake n (mem_range M a n) = mem_range M a n.
Proof. intros Hn. pose proof (len_mem_range M a n Hn). unfold ztake, len in *. apply take_ge. lia. Qed.

Lemma mem_range_app M a n k : 0 <= n -> 0 <= k ->
  mem_range M a (n + k) = mem_range M a n ++ mem_range M (ulong (a + n)) k.
Proof.
  intros Hn Hk. unfold mem_range. rewrite Z2Nat.inj_add, seq_app, fmap_app by lia. f_equal.
  rewrite Nat.add_0_l, <- (Nat.add_0_r (Z.to_nat n)), <- fmap_add_seq, <- list_fmap_compose.
  apply list_fmap_ext. intros i x _. cbn. rewrite ulong_add_l. do 2 f_equal. lia.
Qed.

(** The kernel that keeps [access_process_vm]'s contract for the task a file
    stands for: it delivers, in one call, some of the bytes asked for, as the
    address space [M] has them. The process that runs stays the same. *)
Definition target (task : task_id) (M : Z -> Z) : contract := fun o =>
  match o return list obs -> kmem -> ans o -> kmem -> Prop with
  | AccessProcessVm t a n => fun _ m x m' => k_current m' = k_current m /\ k_mm m' = k_mm m /\
      (t = task -> 0 <= n -> 0 <= x.1 <= n /\ x.2 = mem_range M a x.1)
  | GetProcTask _ => fun _ m x m' => k_current m' = k_current m /\ k_mm m' = k_mm m /\ (x = None \/ x = Some task)
  | _ => fun _ m _ m' => k_current m' = k_current m /\ k_mm m' = k_mm m
  end.

(** What a stretch of execution added to the log, and kept. *)
Definition grew (w w' : world) (new : list obs) : Prop :=
  balanced w w' /\ log w' = new ++ log w /\
  k_current (mem w') = k_current (mem w) /\ k_mm (mem w') = k_mm (mem w).

Lemma grew_trans w1 w2 w3 a b : grew w1 w2 a -> grew w2 w3 b -> grew w1 w3 (b ++ a).
Proof.
  intros ([] & Hl & Hc & Hm) ([] & Hl' & Hc' & Hm'). unfold grew, balanced.
  rewrite Hl', Hl, app_assoc. split_and!; congruence.
Qed.

Lemma check_mem_permission_log task M w (Q : Z -> world -> Prop) :
  (forall r w' new, grew w w' new -> calm new = true ->
    (r = 0 -> forall dst data x, checked task (k_current (mem w)) (Obs (CopyToUser dst data) x :: new)) -> Q r w') ->
  wp (target task M) (check_mem_permission task) Q w.
Proof.
  intros HQ. destruct w as [m h b l]. unfold check_mem_permission. kunfold. kcbn.
  destruct (decide (task = k_current m)) as [He|].
  { kcbn. apply (HQ _ _ []); [done|done|]. intros _ dst data x. by split; [left|]. }
  kcbn. intros [|] m1 [H1 H1']; kcbn.
  2: { by apply (HQ _ _ [Obs (TaskIsStoppedOrTraced task) false]); [split_and!|..]. }
  intros [] m2 [H2 H2'] tr m3 [H3 H3']. kcbn. intros [] m4 [H4 H4']. kcbn. repeat (kdec; kcbn).
  set (pre := [Obs (Unlock Rcu) (tt : ans (Unlock Rcu)); Obs (TracehookTracerTask task) tr;
    Obs (Lock Rcu) (tt : ans (Lock Rcu)); Obs (TaskIsStoppedOrTraced task) true]).
  assert (Hg : forall new m5 h5 b5, k_current m5 = k_current m4 -> k_mm m5 = k_mm m4 -> h5 = h -> b5 = b ->
    grew (World m h b l) (World m5 h5 b5 (new ++ pre ++ l)) (new ++ pre)).
  { intros new m5 h5 b5 ?? -> ->. split_and!; cbn [mem log]; rewrite <- ?app_assoc; try done; congruence. }
  match goal with |- context [@decide ?P ?D] => destruct (@decide P D) end; kcbn.
  2: { by apply (HQ _ _ pre); [apply (Hg [])|..]. }
  intros x5 m5 [H5 H5']. pose (o5 := Obs (PtraceMayAccess task PTRACE_MODE_ATTACH) x5).
  destruct x5; kcbn; apply (HQ _ _ (o5 :: pre));
    try done; try (by apply (Hg [o5])).
  intros _ dst data x. split; [by right|]. done.
Qed.

(** One chunk: [o1] is the access to the process, [new] the permission check
    after it, [o2] the copy. *)
Lemma chunk_delivered task c w w1 w2 new src this retval page buf x :
  let o1 := Obs (AccessProcessVm task src this) (retval, page) in
  let o2 := Obs (CopyToUser buf page) x in
  grew w w1 (new ++ [o1]) -> calm new = true -> checked task c (o2 :: new) ->
  held w2 = held w1 -> bad w2 = bad w1 -> log w2 = o2 :: log w1 ->
  k_current (mem w2) = k_current (mem w1) -> k_mm (mem w2) = k_mm (mem w1) ->
  grew w w2 ((o2 :: new) ++ [o1]) /\ checked task c ((o2 :: new) ++ [o1]) /\
  copied ((o2 :: new) ++ [o1]) = if x =? 0 then [(buf, page)] else [].
Proof.
  intros o1 o2 ([Hh Hb] & Hl & Hc & Hm) Hq Hck Hh2 Hb2 Hl2 Hc2 Hm2. split; [|split].
  - unfold grew, balanced. rewrite Hl2, Hl. split_and!; try congruence. by rewrite <- !app_assoc.
  - by apply checked_app.
  - rewrite copied_app. cbn [copied o2 o1 app]. by rewrite (copied_calm new Hq).
Qed.

(** What a read loop has achieved when it answers [r]: [n] more bytes reached
    the user, in order, from the bytes [M] at [src]; they are counted in [r],
    unless [F] says which error was reported instead of the total; and what
    was done on the way satisfies [P]. *)
Definition delivered (P : list obs -> Prop) (F : Z -> Z -> Prop) (M : Z -> Z) (buf src count ret : Z)
    (w : world) (r : Z * Z) (w' : world) : Prop :=
  exists new n, grew w w' new /\ 0 <= n <= count /\
    user_buffer buf (copied new) = Some (mem_range M src n) /\ r.2 = ulong (src + n) /\
    P new /\ (r.1 = ret + n \/ F r.1 (ret + n)).

Lemma delivered_nothing P F M buf src count ret w w' new r : src = ulong src -> 0 <= count ->
  grew w w' new -> copied new = [] -> P new -> r = ret \/ F r ret ->
  delivered P F M buf src count ret w (r, src) w'.
Proof.
  intros Hsrc Hc Hg Hq HP Hr. exists new, 0. rewrite Hq, !Z.add_0_r. split_and!; try done; lia.
Qed.

Lemma delivered_more (P : list obs -> Prop) F M buf src count ret w w1 w' new k r :
  (forall a b, P a -> P b -> P (a ++ b)) ->
  grew w w1 new -> P new -> copied new = [(buf, mem_range M src k)] -> 0 <= k <= count ->
  delivered P F M (buf + k) (ulong (src + k)) (count - k) (ret + k) w1 r w' ->
  delivered P F M buf src count ret w r w'.
Proof.
  intros HP Hg Hck Hcp Hk (new2 & n & Hg2 & Hn & Hub & Hs & Hck2 & Hres).
  exists (new2 ++ new), (k + n). rewrite (Z.add_assoc ret). split_and!; try done; try lia.
  - by apply (grew_trans _ _ _ _ _ Hg).
  - rewrite copied_app, Hcp. cbn [app user_buffer]. rewrite Z.eqb_refl, len_mem_range, Hub by lia.
    by rewrite mem_range_app by lia.
  - by rewrite Hs, ulong_add_l, Z.add_assoc.
  - by apply HP.
Qed.

(** [mem_read] reports a fault of the copy, or that nothing could be read. *)
Definition mem_errors (r total : Z) : Prop := r = - EFAULT \/ (r = - EIO /\ total = 0).

Lemma mem_read_loop_spec task M fuel : forall buf src count ret w,
  (Z.to_nat count < fuel)%nat -> 0 <= count -> 0 <= ret -> ret + count < 2 ^ 31 -> src = ulong src ->
  wp (target task M) (mem_read_loop fuel task buf src count ret)
    (delivered (checked task (k_current (mem w))) mem_errors M buf src count ret w) w.
Proof.
  induction fuel as [|fuel IH]; intros buf src count ret w Hf Hc Hr Hmax Hsrc; [lia|].
  cbn [mem_read_loop]. pose proof ulong_pow as Hpow.
  destruct (Z.ltb_spec 0 count) as [Hpos|]; kcbn.
  2: { apply (delivered_nothing _ _ _ _ _ _ _ _ _ []); try done; lia. }
  destruct w as [m h b l]. kunfold. kcbn. intros [retval page] m1 (H1 & H1' & Hvm). kcbn.
  set (this := s32 _) in *.
  assert (Hthis : 0 < this <= PAGE_SIZE /\ this <= count).
  { subst this. unfold PAGE_SIZE in *. destruct (Z.ltb_spec 4096 count); rewrite s32_small; lia. }
  specialize (Hvm eq_refl ltac:(lia)). cbn [fst snd] in Hvm. destruct Hvm as [Hret ->].
  pose (o1 := Obs (AccessProcessVm task src this) (retval, mem_range M src retval)).
  assert (Hg0 : grew (World m h b l) (World m1 h b (o1 :: l)) [o1]) by done.
  assert (Hstop : forall w1 new, grew (World m1 h b (o1 :: l)) w1 new -> calm new = true ->
    delivered (checked task (k_current m)) mem_errors M buf src count ret (World m h b l)
      (if ret =? 0 then - EIO else ret, src) w1).
  { intros w1 new Hg Hq. 
    apply (delivered_nothing _ _ _ _ _ _ _ _ _ (new ++ [o1])); try done.
    - by apply (grew_trans _ _ _ _ _ Hg0).
    - by rewrite copied_app, (copied_calm _ Hq).
    - apply checked_app; [by apply checked_calm|done].
    - unfold mem_errors. destruct (Z.eqb_spec ret 0); lia. }
  apply wp_bind. destruct (Z.eqb_spec retval 0) as [->|Hnz]; kcbn; [by apply (Hstop _ [])|].
  apply wp_bind, check_mem_permission_log. intros e w1 new Hg Hq Hperm. kcbn. cbn [mem] in Hperm.
  destruct (Z.eqb_spec e 0) as [->|]; kcbn; [|by apply (Hstop _ new)].
  unfold copy_page_to_user. destruct (Z.ltb_spec retval 0); [lia|].
  destruct (Z.ltb_spec PAGE_SIZE retval); [lia|]. kunfold. kcbn. intros x m2 [Hm2 Hm2'].
  rewrite ztake_mem_range by lia.
  destruct (chunk_delivered task (k_current m) (World m h b l) w1
    (World m2 (held w1) (bad w1) (Obs (CopyToUser buf (mem_range M src retval)) x :: log w1))
    new src this retval (mem_range M src retval) buf x) as (Hg2 & Hck & Hcp); try done.
  { by apply (grew_trans _ _ _ _ _ Hg0). }
  { rewrite <- H1. by apply Hperm. }
  destruct (Z.eqb_spec x 0) as [->|Hx]; kcbn.
  - eapply wp_mono; [apply IH|]; rewrite ?ulong_idemp, ?(ulong_small (count - retval)), ?s32_small by lia; try lia; try done.
    intros r w' Hd. apply (delivered_more _ _ _ _ _ _ _ _ _ _ _ retval _ (checked_app _ _) Hg2 Hck Hcp); [lia|].
    pose proof (proj1 (proj2 (proj2 Hg2))) as Hcur. cbn [mem] in Hcur. by rewrite <- Hcur.
  - apply (delivered_nothing _ _ _ _ _ _ _ _ _ _ _ Hsrc Hc Hg2 Hcp Hck). right. by left.
Qed.

(** All accesses to the process lie in [lo .. hi - 1]. *)
Definition within (lo hi : Z) (l : list obs) : Prop :=
  Forall (fun x => match x with Obs (AccessProcessVm _ a n) _ => lo <= a /\ a + n <= hi | _ => True end) l.

Lemma within_app lo hi a b : within lo hi a -> within lo hi b -> within lo hi (a ++ b).
Proof. apply Forall_app_2. Qed.

Lemma within_calm lo hi l : calm l = true -> within lo hi l.
Proof.
  induction l as [|[o x] l IH]; [constructor|]. unfold calm. cbn [forallb]. intros [Ho Hl]%andb_true_iff.
  constructor; [by destruct o|exact (IH Hl)].
Qed.

(** [environ_read] reports a fault of the copy, and an access that delivered
    nothing as an end of file, whatever came before. *)
Definition environ_errors (r total : Z) : Prop := r = - EFAULT \/ r = 0.

Definition shifted (M : Z -> Z) (base : Z) : Z -> Z := fun a => M (ulong (base + a)).

Lemma mem_range_shifted M base src n : mem_range M (ulong (base + src)) n = mem_range (shifted M base) src n.
Proof.
  unfold mem_range, shifted. apply list_fmap_ext. intros i x _. f_equal.
  rewrite ulong_add_l, (Z.add_comm base (ulong _)), ulong_add_l. f_equal. lia.
Qed.

Lemma environ_read_loop_spec task M mm fuel : forall buf src count ret w,
  let s := k_mm (mem w) !!! mm in
  (Z.to_nat count < fuel)%nat -> 0 <= count -> 0 <= ret -> ret + count < 2 ^ 31 ->
  0 <= env_start s <= env_end s -> env_end s < 2 ^ BITS_PER_LONG -> env_end s - env_start s < 2 ^ 31 ->
  0 <= src < 2 ^ 31 ->
  wp (target task M) (environ_read_loop fuel task mm buf src count ret)
    (delivered (within (env_start s) (env_end s)) environ_errors (shifted M (env_start s)) buf src count ret w) w.
Proof.
  induction fuel as [|fuel IH]; intros buf src count ret w s Hf Hc Hr Hmax Hs He Hlen Hsrc; [lia|].
  cbn [environ_read_loop]. pose proof ulong_pow as Hpow.
  assert (Hsrc' : src = ulong src) by (rewrite ulong_small; lia).
  destruct (Z.ltb_spec 0 count) as [Hpos|]; kcbn.
  2: { apply (delivered_nothing _ _ _ _ _ _ _ _ _ []); try done; [constructor|lia]. }
  destruct w as [m h b l]. kunfold. kcbn. cbn [mem] in *. fold s.
  rewrite s32_ulong, s32_small by lia.
  destruct (Z.leb_spec (env_end s - (env_start s + src)) 0) as [Hend|Hend].
  { apply (delivered_nothing _ _ _ _ _ _ _ _ _ []); try done; [constructor|lia]. }
  set (max_len := s32 _). set (this := if max_len <? _ then _ else _).
  assert (Hthis : 0 < this <= PAGE_SIZE /\ this <= count /\ this <= env_end s - (env_start s + src)).
  { subst this max_len. unfold PAGE_SIZE in *.
    destruct (Z.ltb_spec 4096 count); rewrite !s32_small by lia;
      match goal with |- context [if ?a <? ?b then _ else _] => destruct (Z.ltb_spec a b) end; lia. }
  rewrite (ulong_small (env_start s + src)) by lia. kcbn.
  intros [retval page] m1 (H1 & H1' & Hvm). kcbn.
  specialize (Hvm eq_refl ltac:(lia)). cbn [fst snd] in Hvm. destruct Hvm as [Hret ->].
  pose (o1 := Obs (AccessProcessVm task (env_start s + src) this) (retval, mem_range M (env_start s + src) retval)).
  assert (Hw : within (env_start s) (env_end s) [o1]) by (repeat constructor; lia).
  destruct (Z.leb_spec retval 0).
  { assert (retval = 0) as -> by lia. apply (delivered_nothing _ _ _ _ _ _ _ _ _ [o1]); try done.
    right. by right. }
  unfold copy_page_to_user. destruct (Z.ltb_spec retval 0); [lia|].
  destruct (Z.ltb_spec PAGE_SIZE retval); [lia|]. kunfold. kcbn. intros x m2 [Hm2 Hm2'].
  rewrite ztake_mem_range by lia. subst o1.
  assert (Hrange : mem_range M (env_start s + src) retval = mem_range (shifted M (env_start s)) src retval).
  { rewrite <- mem_range_shifted. by rewrite (ulong_small (env_start s + src)) by lia. }
  rewrite Hrange in *. set (page := mem_range (shifted _ _) _ _) in *.
  set (new := [Obs (CopyToUser buf page) x; Obs (AccessProcessVm task (env_start s + src) this) (retval, page)]).
  assert (Hg : grew (World m h b l) (World m2 h b (new ++ l)) new) by (split_and!; cbn; try done; congruence).
  assert (Hwn : within (env_start s) (env_end s) new) by (by apply Forall_cons).
  destruct (Z.eqb_spec x 0) as [->|Hx]; kcbn.
  - eapply wp_mono; [apply IH|]; cbn [mem]; rewrite ?Hm2', ?H1'; fold s;
      rewrite ?(ulong_small (src + retval)), ?(ulong_small (count - retval)), ?s32_small by lia; try lia.
    intros r w' Hd. apply (delivered_more _ _ _ _ _ _ _ _ _ _ new retval _ (within_app _ _) Hg Hwn); [done|lia|].
    by rewrite (ulong_small (src + retval)) by lia.
  - apply (delivered_nothing _ _ _ _ _ _ _ _ _ new _ Hsrc' Hc Hg); [|done|right; by left].
    cbn. by destruct (Z.eqb_spec x 0).
Qed.



(** ** Properties *)

(** What a whole read has done: everything taken is given back; the user's
    buffer holds a prefix of the bytes asked for, exactly as the process has
    them, and a non-negative answer is its length. *)
Definition read_outcome (P : list obs -> Prop) (M : Z -> Z) (buf src count : Z) (w : world) (r : Z * Z)
    (w' : world) : Prop :=
  balanced w w' /\
  exists new n, log w' = new ++ log w /\ 0 <= n <= count /\
    user_buffer buf (copied new) = Some (mem_range M src n) /\ P new /\ (0 < r.1 -> r.1 = n).

Lemma read_outcome_nothing (P : list obs -> Prop) M buf src count w r w' :
  (forall l, calm l = true -> P l) -> 0 <= count ->
  balanced w w' -> calmly w w' -> r.1 <= 0 -> read_outcome P M buf src count w r w'.
Proof.
  intros HP Hc Hb (new & Hl & Hq) Hr. split; [done|]. exists new, 0. rewrite (copied_calm new Hq).
  split_and!; try done; try lia. by apply HP.
Qed.

Lemma read_outcome_loop (P : list obs -> Prop) F M buf src count w w1 w2 w' r pos :
  (forall l, calm l = true -> P l) -> (forall a b, P a -> P b -> P (a ++ b)) -> (forall e t, F e t -> e <= 0) ->
  delivered P F M buf src count 0 w1 r w2 -> calmly w w1 -> calmly w2 w' -> balanced w w' ->
  read_outcome P M buf src count w (r.1, pos) w'.
Proof.
  intros HPc HP HF (new & n & (_ & Hl & _) & Hn & Hub & _ & HPn & Hr) (pre & Hl1 & Hq1) (post & Hl2 & Hq2) Hb.
  split; [done|]. exists (post ++ new ++ pre), n. rewrite Hl2, Hl, Hl1, <- !app_assoc.
  split; [done|]. split; [done|]. rewrite !copied_app, (copied_calm pre Hq1), (copied_calm post Hq2), app_nil_r.
  split; [done|].
  split; [apply HP; [by apply HPc|apply HP; [done|by apply HPc]]|]. cbn [fst]. intros Hpos.
  destruct Hr as [->|Hr]; [lia|]. apply HF in Hr. lia.
Qed.

Ltac calm := repeat (eapply calmly_cons; [reflexivity|]); try apply calmly_refl.
Ltac nothing := apply read_outcome_nothing; [first [apply checked_calm|apply within_calm]|lia|done|calm|done].

(** C7: Reading /proc/<pid>/mem is safe and exact, against any kernel that
    keeps the contract of [access_process_vm], short reads included: it ends;
    the user's buffer receives a prefix of the [count] bytes asked for at the
    file position, as the process has them, without gap or repetition; a
    positive answer is its length; every chunk is handed over only after the
    permission to read the process was checked again; and everything taken is
    given back on every path. *)
Theorem mem_read_delivers E task M file inode buf count ppos w : keeps E (target task M) ->
  d_inode (k_dentry (mem w) !!! f_dentry (k_file (mem w) !!! file)) = Some inode ->
  0 <= count < 2 ^ 31 ->
  ends E (mem_read file buf count ppos) w
    (read_outcome (checked task (k_current (mem w))) M buf (ulong ppos) count w).
Proof.
  intros HE Hd Hc. apply (wp_ends _ (target task M)); [done|]. destruct w as [m h b l]. cbn [mem] in *.
  unfold mem_read, file_task, file_inode, dentry_inode. kunfold. kcbn. rewrite Hd. kcbn.
  intros t m1 (H1 & H1' & Ht). destruct t as [t|]; kcbn; [|nothing].
  destruct Ht as [Ht|Ht]; [done|]. injection Ht as ->. set (w1 := World m1 _ _ _).
  apply wp_bind, check_mem_permission_log. intros perm [m2 h2 b2 l2] new ([Hh Hb] & Hl & H2 & H2') Hq _.
  cbn [held bad log mem w1] in *. subst h2 b2 l2.
  assert (Hcalm : calmly (World m h b l) (World m2 (RTask task :: h) b (new ++ log w1))).
  { apply (calmly_trans _ w1); [unfold w1; calm|by exists new]. }
  destruct (Z.eqb_spec perm 0) as [->|]; kcbn.
  2: { intros. repeat (kdec; kcbn). nothing. exact Hcalm. }
  intros [p|] m3 [H3 _]; kcbn.
  2: { intros. repeat (kdec; kcbn). nothing. exact Hcalm. }
  intros [mm|] m4 [H4 _]; kcbn.
  2: { intros. kcbn. intros. repeat (kdec; kcbn). nothing. exact Hcalm. }
  destruct (decide (f_private _ = _)); kcbn.
  2: { intros. kcbn. intros. kcbn. intros. repeat (kdec; kcbn). nothing. exact Hcalm. }
  do 4 apply wp_bind. eapply wp_mono; [apply mem_read_loop_spec; try lia; by rewrite ulong_idemp|].
  intros [r pos] [m5 h5 b5 l5] Hdel. pose proof Hdel as (new5 & n5 & ([Hh5 Hb5] & _) & _).
  cbn [held bad] in *. subst h5 b5. kcbn. intros [] m6 _. kcbn. repeat (kdec; kcbn).
  intros [] m7 _. kcbn. repeat (kdec; kcbn). intros [] m8 _. kcbn. repeat (kdec; kcbn).
  cbn [mem] in Hdel. replace (k_current m4) with (k_current m) in Hdel by congruence.
  refine (read_outcome_loop _ mem_errors _ _ _ _ _ _ _ _ (r, pos) (s64 pos)
    (checked_calm _ _) (checked_app _ _) _ Hdel _ _ _).
  - unfold mem_errors, EFAULT, EIO. lia.
  - calm. exact Hcalm.
  - calm.
  - done.
Qed.

(** C19: Reading /proc/<pid>/environ stays inside the environment: for an
    environment shorter than 2 GB and a file position below 2^31, every
    access to the process lies in [env_start .. env_end - 1], the user's
    buffer receives a prefix of the environment from the file position on,
    a positive answer is its length, and everything taken is given back. *)
Theorem environ_read_stays_inside E task M file inode buf count ppos w : keeps E (target task M) ->
  d_inode (k_dentry (mem w) !!! f_dentry (k_file (mem w) !!! file)) = Some inode ->
  0 <= count < 2 ^ 31 -> 0 <= ppos < 2 ^ 31 ->
  (forall mm, let s := k_mm (mem w) !!! mm in
     0 <= env_start s <= env_end s /\ env_end s < 2 ^ BITS_PER_LONG /\ env_end s - env_start s < 2 ^ 31) ->
  ends E (environ_read file buf count ppos) w (fun r w' =>
    exists mm, let s := k_mm (mem w) !!! mm in
      read_outcome (within (env_start s) (env_end s)) (shifted M (env_start s)) buf ppos count w r w').
Proof.
  intros HE Hd Hc Hpos Hmm. apply (wp_ends _ (target task M)); [done|]. destruct w as [m h b l]. cbn [mem] in *.
  unfold environ_read, file_task, file_inode, dentry_inode. kunfold. kcbn. rewrite Hd. kcbn.
  assert (Hppos : ulong ppos = ppos) by (apply ulong_small; pose proof ulong_pow; lia). rewrite Hppos.
  intros t m1 (H1 & H1' & Ht). destruct t as [t|]; kcbn; [|exists 0%nat; nothing].
  destruct Ht as [Ht|Ht]; [done|]. injection Ht as ->.
  intros [|] m2 [_ H2]; kcbn.
  2: { intros. repeat (kdec; kcbn). exists 0%nat. nothing. }
  intros [p|] m3 [_ H3]; kcbn.
  2: { intros. repeat (kdec; kcbn). exists 0%nat. nothing. }
  intros [mm|] m4 [_ H4]; kcbn.
  2: { intros. kcbn. intros. repeat (kdec; kcbn). exists 0%nat. nothing. }
  destruct (Hmm mm) as (Hs & He & Hlen). assert (Hk : k_mm m4 = k_mm m) by congruence.
  do 3 apply wp_bind. eapply wp_mono; [apply environ_read_loop_spec; cbn [mem]; rewrite ?Hk; try done; lia|].
  intros [r pos] [m5 h5 b5 l5] Hdel. pose proof Hdel as (new5 & n5 & ([Hh5 Hb5] & _) & _).
  cbn [held bad mem] in *. subst h5 b5. rewrite Hk in Hdel. kcbn. intros [] m6 _. kcbn. repeat (kdec; kcbn).
  intros [] m7 _. kcbn. repeat (kdec; kcbn). intros [] m8 _. kcbn. repeat (kdec; kcbn).
  exists mm. refine (read_outcome_loop _ environ_errors _ _ _ _ _ _ _ _ (r, pos) (s64 pos)
    (within_calm _ _) (within_app _ _) _ Hdel _ _ _).
  - unfold environ_errors, EFAULT. lia.
  - calm.
  - calm.
  - done.
Qed.

(** A /proc/<pid>/mem file is bound to the program that opened it: when
    the reader's exec counter is not the one [mem_open] stored, a read delivers
    nothing, never looks into the process and does not move. *)
Theorem mem_read_rejects_other_exec A file inode buf count ppos w :
  d_inode (k_dentry (mem w) !!! f_dentry (k_file (mem w) !!! file)) = Some inode ->
  f_private (k_file (mem w) !!! file) <> PrivExecId (slong (t_self_exec_id (k_task (mem w) !!! k_current (mem w)))) ->
  ends (fixed A) (mem_read file buf count ppos) w (fun r w' =>
    calmly w w' /\ balanced w w' /\ r.1 <= 0 /\ r.2 = ppos).
Proof.
  intros Hd Hx. kfixed. cbn [mem] in *. unfold mem_read, file_task, file_inode, dentry_inode, check_mem_permission.
  kunfold. kcbn. rewrite Hd. kcbn. intros t m [-> ->].
  ksteps; try done; (split; [calm|]; by split_and!).
Qed.

(** A text file is its reader's text: what [proc_info_read] hands out is
    the page the inode's own reader filled, as far as the length it returned,
    at most [PROC_BLOCK_SIZE] bytes at a time; a reader's error is passed on,
    a vanished task is -ESRCH, and the page and the task are given back. *)
Theorem proc_info_read_spec A file inode f buf count ppos w :
  d_inode (k_dentry (mem w) !!! f_dentry (k_file (mem w) !!! file)) = Some inode ->
  ei_op (k_inode (mem w) !!! inode) = proc_read f -> plain_reader f = true ->
  ends (fixed A) (proc_info_read file buf count ppos) w (fun r w' => balanced w w' /\
    match A (GetProcTask inode), A GetFreePage with
    | None, _ => r = (- ESRCH, ppos)
    | Some _, None => r = (- ENOMEM, ppos)
    | Some t, Some _ => exists length text w1 w2,
        mem w1 = mem w /\ runs A (call_proc_read f t) w1 (length, text) w2 /\
        r = if 0 <=? length
            then A (SimpleReadFromBuffer buf (Z.min count PROC_BLOCK_SIZE) ppos (ztake length text))
            else (length, ppos)
    end).
Proof.
  intros Hd Hop Hf. kfixed. cbn [mem] in *. unfold proc_info_read, file_inode, dentry_inode. kunfold. kcbn.
  rewrite Hd. kcbn. intros t m [-> ->]. destruct (A (GetProcTask inode)) as [t|]; kcbn; [|done].
  intros pg m [-> ->]. destruct (A GetFreePage) as [pg|]; kcbn.
  2: { intros. repeat (kdec; kcbn). done. }
  rewrite Hop. kcbn. do 2 apply wp_bind. match goal with |- wp _ _ _ ?x => set (w1 := x) end.
  assert (Hw : wp (answers A) (call_proc_read f t) (fun x w2 => runs A (call_proc_read f t) w1 x w2 /\ balanced w1 w2) w1).
  { apply wp_runs. apply call_proc_read_wp; auto. }
  eapply wp_mono; [exact Hw|]. intros [length text] [m2 h2 b2 l2] (Hr & Hh & Hb). cbn [held bad w1] in *. subst h2 b2.
  replace (if PROC_BLOCK_SIZE <? count then PROC_BLOCK_SIZE else count) with (Z.min count PROC_BLOCK_SIZE)
    by (destruct (Z.ltb_spec PROC_BLOCK_SIZE count); lia).
  destruct (0 <=? length) eqn:Hlen; kcbn.
  - intros [x y] m3 [Hxy ->]. kcbn. intros [] m4 _. repeat (kdec; kcbn). intros [] m5 _. repeat (kdec; kcbn).
    split; [done|]. exists length, text. eexists w1, _. split; [done|]. split; [exact Hr|]. by rewrite Hlen.
  - intros [] m4 _. repeat (kdec; kcbn). intros [] m5 _. repeat (kdec; kcbn).
    split; [done|]. exists length, text. eexists w1, _. split; [done|]. split; [exact Hr|]. by rewrite Hlen.
Qed.

Lemma call_proc_show_wp R f m ns pid task w (Q : Z -> world -> Prop) :
  (forall r w', balanced w w' -> Q r w') -> wp R (call_proc_show f m ns pid task) Q w.
Proof.
  intros HQ. destruct w as [k h b l]. destruct f; cbn [call_proc_show]; try (ksteps; by apply HQ).
  - unfold proc_pid_personality. ksteps. by apply HQ.
  - unfold proc_pid_stack. kunfold. kcbn. intros [p|] m1 _; kcbn; [|by apply HQ].
    intros tr m2 _. kcbn. apply wp_bind, print_stack_wp. intros [m3 h3 b3 l3] [Hh Hb]. cbn [held bad] in *. subst.
    kcbn. intros [] m4 _. repeat (kdec; kcbn). by apply HQ.
Qed.

(** [single_open] leaves its sequence in [private_data] when it succeeds, and
    inodes change only under the code's own hands. *)
Definition single_files : contract := fun o =>
  match o return list obs -> kmem -> ans o -> kmem -> Prop with
  | SingleOpen f _ _ => fun _ m x m' => k_inode m' = k_inode m /\
      (x = 0 -> exists q, f_private (k_file m' !!! f) = PrivSeq q)
  | _ => fun _ m _ m' => k_inode m' = k_inode m
  end.

(** A first read of a one-shot file: the open and the show function. *)
Definition open_and_show (inode : inode_id) (filp : file_id) : prog Z :=
  ret ← proc_single_open inode filp;
  if ret =? 0 then
    priv ← gets (fun k => f_private (k_file k !!! filp));
    match priv with PrivSeq m => proc_single_show m | _ => Halt WildAccess end
  else mret ret.

(** A one-shot text file shows the task its inode stands for: after
    [proc_single_open], [proc_single_show] finds that inode, calls the show
    function the entry table stored in it, and gives back the task reference
    it takes; the sequence stays with the open file, and nothing is held when
    the open fails. *)
Theorem single_file_shows_its_inode E inode filp f w :
  keeps E single_files -> ei_op (k_inode (mem w) !!! inode) = proc_show f ->
  ends E (open_and_show inode filp) w (fun r w' =>
    keeps_only [RSeq filp] w w' \/ (r <> 0 /\ balanced w w')).
Proof.
  intros HE Hop. apply (wp_ends _ single_files); [done|]. destruct w as [m h b l]. cbn [mem] in Hop.
  unfold open_and_show, proc_single_open, single_open_private. kunfold. kcbn. intros r m1 [H1 Hq].
  destruct (Z.eqb_spec r 0) as [->|Hr]; kcbn.
  2: { destruct (Z.eqb_spec r 0); [done|]. right. by split. }
  destruct (Hq eq_refl) as [q Hq']. rewrite Hq'. kcbn.
  assert (Hs : forall x v k, k_file (upd_seq x v k) = k_file k /\ k_inode (upd_seq x v k) = k_inode k /\
    k_seq_private (upd_seq x v k) = <[x := v]> (k_seq_private k)) by (intros ?? []; done).
  change (0 =? 0) with true. kcbn.
  destruct (Hs q (Some inode) m1) as (-> & Hi & Hp). rewrite Hq'. unfold proc_single_show. kunfold. kcbn.
  rewrite Hp, lookup_total_insert_eq. kcbn. intros pid m2 H2. kcbn. intros [t|] m3 H3; kcbn; [|by left].
  replace (k_inode m3) with (k_inode m) by (cbn in *; congruence). rewrite Hop. kcbn.
  apply wp_bind, call_proc_show_wp. intros r4 [m4 h4 b4 l4] [Hh Hb]. cbn [held bad] in *. subst.
  kcbn. intros [] m5 _. repeat (kdec; kcbn). by left.
Qed.

End MemFiles.

(** ** The end of the environment is an [int] *)

#[local] Existing Instance arch64.

(** A process whose memory at [a] holds [a mod 251], read three bytes at a
    time; process 1 has its environment at [1000 .. 1019]. *)
Definition mem_pattern (a : Z) : Z := a mod 251.

Definition mem_kernel (o : op) : ans o :=
  match o with
  | GetProcTask _ => Some 1%nat
  | PtraceMayAccess _ _ => true
  | GetFreePage => Some 2%nat
  | GetTaskMm _ => Some 7%nat
  | AccessProcessVm _ a n => let k := Z.max 0 (Z.min n 3) in (k, mem_range mem_pattern a k)
  | SimpleReadFromBuffer _ n pos text => (Z.min n (len text), pos + Z.min n (len text))
  | o => silent o
  end.

Definition mem_mem (op : proc_op) (exec_id : Z) : kmem :=
  Kmem 1 {[ 1%nat := Task 1 [] 0 None (Some 7%nat) 0 0 0 0 0 false 3 inhabitant 0 0 0 [] 0 [] ]} ∅
    {[ 7%nat := Mm 0 0 1000 1020 [] 0 0 None ]} ∅
    {[ 4%nat := File 0 0 0 (Path 0 5) 0 (PrivExecId exec_id) ]}
    {[ 6%nat := set_ei_op op inhabitant ]} {[ 5%nat := Dentry [] (Some 6%nat) None 0 ]} ∅ ∅ ∅ ∅ ∅ ∅ ∅ HookDummy.

(** The bound of [environ_read_stays_inside] is needed: the number of
    bytes left is kept in an [int], so at file position 2^32 a 64-bit kernel
    takes the 4 GB past the end for the start of the environment, and hands
    out 20 bytes that lie 4 GB behind it. *)
Theorem environ_read_int_truncation :
  let w := world0 (mem_mem OpZero 3) in
  ends (fixed mem_kernel) (environ_read 4%nat 0 100 (2 ^ 32)) w (fun r w' =>
    r.1 = 20 /\ user_buffer 0 (copied (log w')) = Some (mem_range mem_pattern (1000 + 2 ^ 32) 20)).
Proof. vm_compute. split; reflexivity. Qed.

(** ** Witnesses *)

Lemma mem_kernel_target : keeps (fixed mem_kernel) (target 1%nat mem_pattern).
Proof.
  intros o tr m. destruct o; cbn -[mem_range]; try done; [by split; [|split; [|right]]|].
  split; [done|]. split; [done|]. intros _ Hn. split; [cbn; lia|done].
Qed.

Lemma mem_read_delivers_witness :
  keeps (fixed mem_kernel) (target 1%nat mem_pattern) /\
  ends (fixed mem_kernel) (mem_read 4%nat 0 7 300) (world0 (mem_mem OpZero 3))
    (read_outcome (checked 1%nat 1%nat) mem_pattern 0 300 7 (world0 (mem_mem OpZero 3))) /\
  fst (run (fixed mem_kernel) (mem_read 4%nat 0 7 300) (world0 (mem_mem OpZero 3))) = Done (7, 307).
Proof.
  split; [exact mem_kernel_target|]. split; [|vm_compute; reflexivity].
  refine (mem_read_delivers (fixed mem_kernel) 1%nat mem_pattern 4%nat 6%nat 0 7 300
    (world0 (mem_mem OpZero 3)) mem_kernel_target _ _).
  - vm_compute. reflexivity.
  - lia.
Defined.

Lemma environ_read_stays_inside_witness :
  keeps (fixed mem_kernel) (target 1%nat mem_pattern) /\
  ends (fixed mem_kernel) (environ_read 4%nat 0 50 5) (world0 (mem_mem OpZero 3)) (fun r w' =>
    exists mm, let s := k_mm (mem_mem OpZero 3) !!! mm in
      read_outcome (within (env_start s) (env_end s)) (shifted mem_pattern (env_start s)) 0 5 50
        (world0 (mem_mem OpZero 3)) r w') /\
  fst (run (fixed mem_kernel) (environ_read 4%nat 0 50 5) (world0 (mem_mem OpZero 3))) = Done (15, 20).
Proof.
  split; [exact mem_kernel_target|]. split; [|vm_compute; reflexivity].
  refine (environ_read_stays_inside (fixed mem_kernel) 1%nat mem_pattern 4%nat 6%nat 0 50 5
    (world0 (mem_mem OpZero 3)) mem_kernel_target _ _ _ _).
  - vm_compute. reflexivity.
  - lia.
  - lia.
  - intros mm. destruct (decide (mm = 7%nat)) as [->|Hne]; [vm_compute; repeat split; discriminate|].
    cbn [mem world0 mem_mem k_mm]. rewrite lookup_total_singleton_ne by (intros E; exact (Hne (eq_sym E))).
    vm_compute. repeat split; discriminate.
Defined.

Lemma mem_read_rejects_other_exec_witness :
  ends (fixed mem_kernel) (mem_read 4%nat 0 7 300) (world0 (mem_mem OpZero 2)) (fun r w' =>
    calmly (world0 (mem_mem OpZero 2)) w' /\ r.1 <= 0 /\ r.2 = 300).
Proof.
  refine (ends_mono _ _ _ _ _ (mem_read_rejects_other_exec mem_kernel 4%nat 6%nat 0 7 300 (world0 (mem_mem OpZero 2)) _ _) _).
  - vm_compute. reflexivity.
  - vm_compute. discriminate.
  - intros r w' (H1 & _ & H2 & H3). exact (conj H1 (conj H2 H3)).
Defined.

Lemma proc_info_read_spec_witness :
  let w := world0 (mem_mem (proc_read F_proc_pid_cmdline) 3) in
  ends (fixed mem_kernel) (proc_info_read 4%nat 0 7 0) w (fun r w' => balanced w w').
Proof.
  refine (ends_mono _ _ _ _ _ (proc_info_read_spec mem_kernel 4%nat 6%nat F_proc_pid_cmdline 0 7 0
    (world0 (mem_mem (proc_read F_proc_pid_cmdline) 3)) _ _ _) _).
  - vm_compute. reflexivity.
  - vm_compute. reflexivity.
  - reflexivity.
  - intros r w' (H & _). exact H.
Defined.

Lemma single_file_shows_its_inode_witness :
  let w := world0 (mem_mem (proc_show F_proc_pid_personality) 3) in
  let E : env := fun o tr m => match o return ans o * kmem with
    | SingleOpen f s d => (0, upd_file f (set_f_private (PrivSeq 8%nat)) m)
    | o => (mem_kernel o, m)
    end in
  keeps E single_files /\
  ends E (open_and_show 6%nat 4%nat) w (fun r w' => keeps_only [RSeq 4%nat] w w' \/ (r <> 0 /\ balanced w w')).
Proof.
  intros w E. assert (HE : keeps E single_files).
  { intros o tr m. destruct o; try reflexivity. cbn. split; [by destruct m|]. intros _. exists 8%nat.
    destruct m. cbn. rewrite lookup_total_insert_eq. by destruct (_ !!! _). }
  split; [exact HE|].
  exact (single_file_shows_its_inode E 6%nat 4%nat F_proc_pid_personality w HE eq_refl).
Defined.
