(* ===== verification/MemWrite.v ===== *)
(** * Writing the memory of a process (fs/proc/base.c)

    [mem_write], which the file itself calls a security hazard and leaves out:
    [mem_write] is defined as NULL, and the table of /proc/<pid>/mem has no
    write function ([Ops]). This is the function as it is written, and what it
    would do if the definition were removed. *)
From S2P Require Import Prelude Structs Format Kernel Tables Access Info ExeFile Links MemFiles.

Section MemWrite.
Context `{Arch}.

(** The [while] loop: the answer is [copied] and [dst] after it. *)
Fixpoint mem_write_loop (fuel : nat) (task : task_id) (buf dst count copied : Z) : prog (Z * Z) :=
  match fuel with
  | O => Halt OutOfFuel
  | S fuel =>
      if 0 <? count then
        let this_len := s32 (if PAGE_SIZE <? count then PAGE_SIZE else count) in
        '(uncopied, page) ← copy_from_user buf this_len;
        if negb (uncopied =? 0) then mret (- EFAULT, dst)
        else
          retval ← poke_process_vm task dst (ztake this_len page);
          if retval =? 0 then mret (if copied =? 0 then - EIO else copied, dst)
          else mem_write_loop fuel task (buf + retval) (ulong (dst + retval)) (ulong (count - retval)) (s32 (copied + retval))
      else mret (copied, dst)
  end.

Definition mem_write (file : file_id) (buf count ppos : Z) : prog (Z * Z) :=
  task ← file_task file;
  match task with
  | None => mret (- ESRCH, ppos)
  | Some task =>
      let dst := ulong ppos in
      perm ← check_mem_permission task;
      result ←
        (if negb (perm =? 0) then mret (- ESRCH, ppos)
         else
           page ← get_free_page;
           match page with
           | None => mret (- ENOMEM, ppos)
           | Some page =>
               '(copied, dst) ← mem_write_loop (S (Z.to_nat count)) task buf dst count 0;
               free_page page;;
               mret (copied, s64 dst)
           end);
      put_task_struct task;;
      mret result
  end.

(** ** What reached the process *)

(** The bytes that were accepted, in the order they were offered. *)
Fixpoint poked (l : list obs) : list (task_id * Z * bytes) :=
  match l with
  | [] => []
  | Obs (PokeProcessVm t a data) x :: l => poked l ++ [(t, a, ztake x data)]
  | _ :: l => poked l
  end.

(** What they left in the memory of [task] from [a] on, when they tile it. *)
Fixpoint process_memory (task : task_id) (a : Z) (l : list (task_id * Z * bytes)) : option bytes :=
  match l with
  | [] => Some []
  | (t, dst, data) :: l =>
      if decide (t = task /\ dst = a) then
        rest ← process_memory task (ulong (a + len data)) l; Some (data ++ rest)
      else None
  end.

Lemma poked_app l k : poked (l ++ k) = poked k ++ poked l.
Proof.
  induction l as [|[o x] l IH]; cbn [app poked]; [by rewrite app_nil_r|].
  destruct o; try exact IH. by rewrite IH, app_assoc.
Qed.

Lemma poked_calm l : calm l = true -> poked l = [].
Proof.
  induction l as [|[o x] l IH]; [done|]. unfold calm. cbn [forallb]. intros [Ho Hl]%andb_true_iff.
  destruct o; try exact (IH Hl). done.
Qed.

(** The user's memory [U] is read as it is, and [access_process_vm] takes some of
    the bytes offered. *)
Definition taker (task : task_id) (M U : Z -> Z) : contract := fun o tr m x m' =>
  target task M o tr m x m' /\
  match o return ans o -> Prop with
  | CopyFromUser a n => fun x => 0 <= n -> x.1 = 0 -> x.2 = mem_range U a n
  | PokeProcessVm _ _ data => fun x => 0 <= x <= len data
  | _ => fun _ => True
  end x.

(** [n] more bytes of the user's memory at [buf] have reached the process at
    [dst]; what is reported instead of their number. *)
Definition transferred (task : task_id) (U : Z -> Z) (buf dst count copied : Z) (w : world) (r : Z * Z) (w' : world) : Prop :=
  exists new n, balanced w w' /\ log w' = new ++ log w /\ 0 <= n <= count /\
    process_memory task dst (poked new) = Some (mem_range U buf n) /\ r.2 = ulong (dst + n) /\
    (r.1 = copied + n \/ r.1 = - EFAULT \/ (r.1 = - EIO /\ copied + n = 0)).

Lemma transferred_nothing task U buf dst count copied w w' new r : dst = ulong dst -> 0 <= count ->
  balanced w w' -> log w' = new ++ log w -> poked new = [] ->
  r = copied \/ r = - EFAULT \/ (r = - EIO /\ copied = 0) -> transferred task U buf dst count copied w (r, dst) w'.
Proof.
  intros Hd Hc Hb Hl Hp Hr. exists new, 0. rewrite Hp, !Z.add_0_r. split_and!; try done; lia.
Qed.

Lemma transferred_more task U buf dst count copied k w w1 w' new r : balanced w w1 -> log w1 = new ++ log w ->
  poked new = [(task, dst, mem_range U buf k)] -> 0 <= k <= count ->
  transferred task U (buf + k) (ulong (dst + k)) (count - k) (copied + k) w1 r w' ->
  transferred task U buf dst count copied w r w'.
Proof.
  intros [Hh Hb] Hl Hp Hk (new2 & n & [Hh2 Hb2] & Hl2 & Hn & Hm & Hs & Hr).
  exists (new2 ++ new), (k + n). rewrite (Z.add_assoc copied). split_and!; try done; try lia.
  - split; congruence.
  - by rewrite Hl2, Hl, app_assoc.
  - rewrite poked_app, Hp. cbn [app process_memory]. rewrite decide_True by done. rewrite len_mem_range, Hm by lia.
    cbn. rewrite mem_range_app by lia. do 2 f_equal. unfold mem_range. apply list_fmap_ext. intros i x _. cbn.
    by rewrite ulong_add_l.
  - by rewrite Hs, ulong_add_l, Z.add_assoc.
Qed.

Lemma ztake_mem_prefix U a k n : 0 <= k <= n -> ztake k (mem_range U a n) = mem_range U a k.
Proof.
  intros Hk. replace n with (k + (n - k)) by lia. rewrite mem_range_app by lia. pose proof (len_mem_range U a k ltac:(lia)) as Hl.
  unfold ztake, len in *. rewrite take_app_le by lia. apply take_ge. lia.
Qed.

Lemma mem_write_loop_spec task M U fuel : forall buf dst count copied w,
  (Z.to_nat count < fuel)%nat -> 0 <= count -> 0 <= copied -> copied + count < 2 ^ 31 -> dst = ulong dst ->
  wp (taker task M U) (mem_write_loop fuel task buf dst count copied) (transferred task U buf dst count copied w) w.
Proof.
  induction fuel as [|fuel IH]; intros buf dst count copied w Hf Hc Hr Hmax Hdst; [lia|].
  cbn [mem_write_loop]. pose proof ulong_pow as Hpow. destruct (Z.ltb_spec 0 count) as [Hpos|]; kcbn.
  2: { apply (transferred_nothing _ _ _ _ _ _ _ _ []); try done; lia. }
  destruct w as [m h b l]. kunfold. kcbn. intros [uncopied page] m1 [_ Hcopy]. kcbn. cbn [fst snd] in Hcopy.
  set (this := s32 _) in *.
  assert (Hthis : 0 < this <= count).
  { subst this. unfold PAGE_SIZE in *. destruct (Z.ltb_spec 4096 count); rewrite s32_small; lia. }
  pose (o1 := Obs (CopyFromUser buf this) (uncopied, page)).
  destruct (Z.eqb_spec uncopied 0) as [->|Hne]; kcbn.
  2: { apply (transferred_nothing _ _ _ _ _ _ _ _ [o1]); try done; lia. }
  specialize (Hcopy ltac:(lia) eq_refl). subst page. rewrite ztake_mem_range by lia. intros retval m2 [_ Hput].
  rewrite len_mem_range in Hput by lia. pose (o2 := Obs (PokeProcessVm task dst (mem_range U buf this)) retval).
  destruct (Z.eqb_spec retval 0) as [->|Hnz]; kcbn.
  - exists [o2; o1], 0. rewrite !Z.add_0_r. split_and!; try done; try lia.
    + unfold o2, o1. cbn [poked app process_memory]. by rewrite decide_True.
    + cbn. destruct (Z.eqb_spec copied 0); lia.
  - eapply wp_mono; [apply IH|]; rewrite ?ulong_idemp, ?(ulong_small (count - retval)), ?s32_small by lia; try lia; try done.
    intros r w' Ht. refine (transferred_more _ _ _ _ _ _ retval _ _ _ [o2; o1] _ _ _ _ _ Ht); [done|done| |lia].
    cbn. by rewrite ztake_mem_prefix by lia.
Qed.

(** What a writing has achieved when it answers [r]. *)
Definition write_outcome (task : task_id) (U : Z -> Z) (buf ppos count : Z) (w : world) (r : Z * Z) (w' : world) : Prop :=
  exists new n, balanced w w' /\ log w' = new ++ log w /\ 0 <= n <= count /\
    process_memory task (ulong ppos) (poked new) = Some (mem_range U buf n) /\
    ((n = 0 /\ r.2 = ppos /\ (r.1 = - ESRCH \/ r.1 = - ENOMEM)) \/
     (r.2 = s64 (ulong (ppos + n)) /\ (r.1 = n \/ r.1 = - EFAULT \/ (r.1 = - EIO /\ n = 0)))).

Lemma write_outcome_nothing task U buf ppos count w w' r : 0 <= count -> balanced w w' -> calmly w w' ->
  r = - ESRCH \/ r = - ENOMEM -> write_outcome task U buf ppos count w (r, ppos) w'.
Proof.
  intros Hc Hb (new & Hl & Hq) Hr. exists new, 0. rewrite (poked_calm new Hq). split_and!; try done. by left.
Qed.

Lemma write_outcome_loop task U buf ppos count w w1 w2 w' r dst : calmly w w1 -> transferred task U buf (ulong ppos) count 0 w1 (r, dst) w2 ->
  calmly w2 w' -> balanced w w' -> write_outcome task U buf ppos count w (r, s64 dst) w'.
Proof.
  intros (a & Ha & Qa) (new & n & _ & Hl & Hn & Hm & Hd & Hr) (c & Hc & Qc) Hb. cbn [fst snd] in *.
  exists (c ++ new ++ a), n. split; [done|]. split; [by rewrite Hc, Hl, Ha, <- !app_assoc|]. split; [done|].
  rewrite !poked_app, (poked_calm a Qa), (poked_calm c Qc), app_nil_r. split; [done|]. right. rewrite Hd, ulong_add_l. cbn. tauto.
Qed.

Ltac calmed := repeat (eapply calmly_cons; [reflexivity|]); try apply calmly_refl.

(** Were it compiled: against any kernel that keeps the contracts of
    [copy_from_user] and [access_process_vm], short transfers included, a
    writing of /proc/<pid>/mem ends; the process receives a prefix of the
    user's [count] bytes at the file position, without gap or repetition, and
    no other process anything; the answer is its length, or an error after the
    part that was transferred; the file position is behind that part; and
    everything taken is given back on every path. Other than [mem_read] it asks
    for permission once. *)
Theorem mem_write_delivers E task M U file inode buf count ppos w : keeps E (taker task M U) ->
  d_inode (k_dentry (mem w) !!! f_dentry (k_file (mem w) !!! file)) = Some inode -> 0 <= count < 2 ^ 31 ->
  ends E (mem_write file buf count ppos) w (write_outcome task U buf ppos count w).
Proof.
  intros HE Hd Hc. apply (wp_ends _ (taker task M U)); [done|]. destruct w as [m h b l]. cbn [mem] in *.
  unfold mem_write, file_task, file_inode, dentry_inode. kunfold. kcbn. rewrite Hd. kcbn.
  intros t m1 [(H1 & H1' & Ht) _]. destruct t as [t|]; kcbn; [|apply write_outcome_nothing; [lia|done|calmed|tauto]].
  destruct Ht as [Ht|Ht]; [done|]. injection Ht as ->. set (w1 := World m1 _ _ _).
  apply wp_bind, (wp_contract (target task M)); [by intros ????? []|].
  apply check_mem_permission_log. intros perm [m2 h2 b2 l2] new ([Hh Hb] & Hl & _) Hq _.
  cbn [held bad log mem w1] in *. subst h2 b2 l2.
  assert (Hcalm : calmly (World m h b l) (World m2 (RTask task :: h) b (new ++ log w1))).
  { apply (calmly_trans _ w1); [unfold w1; calmed|by exists new]. }
  destruct (Z.eqb_spec perm 0) as [->|]; kcbn.
  2: { intros. repeat (kdec; kcbn). apply write_outcome_nothing; [lia|done|calmed; exact Hcalm|tauto]. }
  intros [p|] m3 _; kcbn.
  2: { intros. repeat (kdec; kcbn). apply write_outcome_nothing; [lia|done|calmed; exact Hcalm|tauto]. }
  do 2 apply wp_bind. eapply wp_mono; [apply (mem_write_loop_spec task M U); try lia; by rewrite ulong_idemp|].
  intros [r pos] [m5 h5 b5 l5] Hloop. pose proof Hloop as (_ & _ & [Hh5 Hb5] & _). cbn [held bad] in *. subst h5 b5.
  kcbn. intros [] m6 _. kcbn. repeat (kdec; kcbn). intros [] m7 _. kcbn. repeat (kdec; kcbn).
  refine (write_outcome_loop _ _ _ _ _ _ _ _ _ _ _ _ Hloop _ _); [calmed; exact Hcalm|calmed|done].
Qed.
End MemWrite.

(** ** Witness: seven bytes are written at 300 in transfers of at most three. *)
Definition mem_write_kernel (o : op) : ans o :=
  match o with
  | CopyFromUser a n => (0, @mem_range arch64 mem_pattern a n)
  | PokeProcessVm _ _ data => Z.min 3 (len data)
  | o => mem_kernel o
  end.

Lemma mem_write_kernel_taker : keeps (fixed mem_write_kernel) (@taker arch64 1%nat mem_pattern mem_pattern).
Proof.
  intros o tr m. split; [destruct o; try exact (mem_kernel_target _ tr m); done|].
  destruct o; try exact I; cbn; [pose proof (len_nonneg data); lia|done].
Qed.

Lemma mem_write_delivers_witness :
  ends (fixed mem_write_kernel) (@mem_write arch64 4%nat 0 7 300) (world0 (mem_mem OpZero 3))
    (@write_outcome arch64 1%nat mem_pattern 0 300 7 (world0 (mem_mem OpZero 3))) /\
  fst (run (fixed mem_write_kernel) (@mem_write arch64 4%nat 0 7 300) (world0 (mem_mem OpZero 3))) = Done (7, 307).
Proof.
  split; [|vm_compute; reflexivity].
  refine (@mem_write_delivers arch64 (fixed mem_write_kernel) 1%nat mem_pattern mem_pattern 4%nat 6%nat 0 7 300
    (world0 (mem_mem OpZero 3)) mem_write_kernel_taker _ _).
  - vm_compute. reflexivity.
  - lia.
Defined.
