(* ===== verification/Controls.v ===== *)
(** * The files that show and set one value of a process (fs/proc/base.c)

    oom_adj, loginuid, sessionid, make-it-fail, sched, attr/* and
    coredump_filter. Reads answer the return value and the new [*ppos]. *)
From S2P Require Import Prelude Structs Format Kernel Access Names Links MemFiles.

Definition OOM_DISABLE := -17.
Definition OOM_ADJUST_MIN := -16.
Definition OOM_ADJUST_MAX := 15.
Definition CAP_SYS_RESOURCE := 24.
Definition CAP_AUDIT_CONTROL := 30.
Definition TMPBUFLEN := 21.
Definition MMF_DUMP_FILTER_SHIFT := 2.
Definition MMF_DUMP_FILTER_BITS := 7.
Definition MMF_DUMP_FILTER_MASK :=
  Z.shiftl (Z.shiftl 1 MMF_DUMP_FILTER_BITS - 1) MMF_DUMP_FILTER_SHIFT.

(** [char buffer[PROC_NUMBUF]] after [memset] and a copy of [data] into it. *)
Definition num_buffer (data : bytes) : bytes :=
  data ++ replicate (Z.to_nat (PROC_NUMBUF - len data)) 0.

(** The step over a newline: [end++] when [*end] is one. *)
Definition skip_newline (buffer : bytes) (e : Z) : Z :=
  if zbyte buffer e =? NL then e + 1 else e.

(** The common part of the writers of numbers: up to 12 bytes of user memory,
    or nothing when the copy faults. *)
Definition read_num_buffer (buf count : Z) : prog (option bytes) :=
  let count := if PROC_NUMBUF - 1 <? count then PROC_NUMBUF - 1 else count in
  '(rest, data) ← copy_from_user buf count;
  mret (if rest =? 0 then Some (num_buffer (ztake count data)) else None).

Section Controls.
Context `{Arch}.

(** ** oom_adj *)

Definition oom_adjust_read (file : file_id) (buf count ppos : Z) : prog (Z * Z) :=
  task ← file_task file;
  match task with
  | None => mret (- ESRCH, ppos)
  | Some task =>
      oom_adjust ← gets (fun m => t_oomkilladj (k_task m !!! task));
      put_task_struct task;;
      let '(buffer, len) := snprintf PROC_NUMBUF (fmt_d (s32 oom_adjust) ++ [NL]) in
      simple_read_from_buffer buf count ppos (ztake len buffer)
  end.

Definition oom_adjust_write (file : file_id) (buf count : Z) : prog Z :=
  buffer ← read_num_buffer buf count;
  match buffer with
  | None => mret (- EFAULT)
  | Some buffer =>
      '(val, e) ← simple_strtol buffer 0;
      let oom_adjust := s32 val in
      if ((oom_adjust <? OOM_ADJUST_MIN) || (OOM_ADJUST_MAX <? oom_adjust)) &&
         negb (oom_adjust =? OOM_DISABLE)
      then mret (- EINVAL)
      else
        let e := skip_newline buffer e in
        task ← file_task file;
        match task with
        | None => mret (- ESRCH)
        | Some task =>
            old ← gets (fun m => t_oomkilladj (k_task m !!! task));
            allowed ← (if oom_adjust <? old then capable CAP_SYS_RESOURCE else mret true);
            if negb allowed then
              put_task_struct task;; mret (- EACCES)
            else
              modify (upd_task task (set_oomkilladj oom_adjust));;
              put_task_struct task;;
              mret (if e =? 0 then - EIO else e)
        end
  end.

(** ** loginuid and sessionid *)

(** The common body of the two readers. *)
Definition audit_read (get : task_id -> prog Z) (file : file_id) (buf count ppos : Z) : prog (Z * Z) :=
  task ← file_task file;
  match task with
  | None => mret (- ESRCH, ppos)
  | Some task =>
      id ← get task;
      let '(tmpbuf, length) := scnprintf TMPBUFLEN (fmt_u (u32 id)) in
      put_task_struct task;;
      simple_read_from_buffer buf count ppos (ztake length tmpbuf)
  end.

Definition proc_loginuid_read (file : file_id) (buf count ppos : Z) : prog (Z * Z) :=
  audit_read audit_get_loginuid file buf count ppos.
Definition proc_sessionid_read (file : file_id) (buf count ppos : Z) : prog (Z * Z) :=
  audit_read audit_get_sessionid file buf count ppos.

Definition proc_loginuid_write (file : file_id) (buf count ppos : Z) : prog Z :=
  inode ← file_inode file;
  cap ← capable CAP_AUDIT_CONTROL;
  if negb cap then mret (- EPERM)
  else
    pid ← proc_pid inode;
    task ← pid_task pid;
    current ← gets k_current;
    if decide (task = Some current) then
      let count := if PAGE_SIZE <=? count then PAGE_SIZE - 1 else count in
      if negb (ppos =? 0) then mret (- EINVAL)
      else
        page ← get_free_page;
        match page with
        | None => mret (- ENOMEM)
        | Some p =>
            '(rest, data) ← copy_from_user buf count;
            length ← (if negb (rest =? 0) then mret (- EFAULT)
                      else
                        '(loginuid, tmp) ← simple_strtoul (ztake count data ++ [0]) 10;
                        if tmp =? 0 then mret (- EINVAL)
                        else
                          current ← gets k_current;
                          length ← audit_set_loginuid current (u32 loginuid);
                          mret (if length =? 0 then count else length));
            free_page p;;
            mret length
        end
    else mret (- EPERM).

(** ** make-it-fail *)

Definition proc_fault_inject_read (file : file_id) (buf count ppos : Z) : prog (Z * Z) :=
  task ← file_task file;
  match task with
  | None => mret (- ESRCH, ppos)
  | Some task =>
      make_it_fail ← gets (fun m => t_make_it_fail (k_task m !!! task));
      put_task_struct task;;
      let '(buffer, len) := snprintf PROC_NUMBUF (fmt_d (s32 make_it_fail) ++ [NL]) in
      simple_read_from_buffer buf count ppos (ztake len buffer)
  end.

Definition proc_fault_inject_write (file : file_id) (buf count : Z) : prog Z :=
  cap ← capable CAP_SYS_RESOURCE;
  if negb cap then mret (- EPERM)
  else
    buffer ← read_num_buffer buf count;
    match buffer with
    | None => mret (- EFAULT)
    | Some buffer =>
        '(val, e) ← simple_strtol buffer 0;
        let make_it_fail := s32 val in
        let e := skip_newline buffer e in
        task ← file_task file;
        match task with
        | None => mret (- ESRCH)
        | Some task =>
            modify (upd_task task (set_make_it_fail make_it_fail));;
            put_task_struct task;;
            mret (if e =? 0 then - EIO else e)
        end
    end.

(** ** sched *)

Definition sched_show (m : ptr) : prog Z :=
  inode ← gets (fun k => k_seq_private k !!! m);
  match inode with
  | None => Halt WildAccess
  | Some inode =>
      p ← get_proc_task inode;
      match p with
      | None => mret (- ESRCH)
      | Some p => proc_sched_show_task p m;; put_task_struct p;; mret 0
      end
  end.

Definition sched_write (file : file_id) (count : Z) : prog Z :=
  p ← file_task file;
  match p with
  | None => mret (- ESRCH)
  | Some p => proc_sched_set_task p;; put_task_struct p;; mret count
  end.

Definition sched_open (inode : inode_id) (filp : file_id) : prog Z :=
  single_open_private inode filp Cb_sched_show.

(** ** attr/* *)

Definition file_name (file : file_id) : prog bytes :=
  gets (fun m => d_name (k_dentry m !!! f_dentry (k_file m !!! file))).

Definition proc_pid_attr_read (file : file_id) (buf count ppos : Z) : prog (Z * Z) :=
  task ← file_task file;
  match task with
  | None => mret (- ESRCH, ppos)
  | Some task =>
      name ← file_name file;
      '(length, p, data) ← security_getprocattr task name;
      put_task_struct task;;
      result ← (if 0 <? length then simple_read_from_buffer buf count ppos (ztake length data)
                else mret (length, ppos));
      kfree p;;
      mret result
  end.

Definition proc_pid_attr_write (file : file_id) (buf count ppos : Z) : prog Z :=
  task ← file_task file;
  match task with
  | None => mret (- ESRCH)
  | Some task =>
      let count := if PAGE_SIZE <? count then PAGE_SIZE else count in
      length ←
        (if negb (ppos =? 0) then mret (- EINVAL)
         else
           page ← get_free_page;
           match page with
           | None => mret (- ENOMEM)
           | Some page =>
               '(rest, data) ← copy_from_user buf count;
               length ← (if negb (rest =? 0) then mret (- EFAULT)
                         else
                           name ← file_name file;
                           security_setprocattr task name (ztake count data));
               free_page page;;
               mret length
           end);
      put_task_struct task;;
      mret length
  end.

(** ** coredump_filter *)

Definition proc_coredump_filter_read (file : file_id) (buf count ppos : Z) : prog (Z * Z) :=
  task ← file_task file;
  match task with
  | None => mret (- ESRCH, ppos)
  | Some task =>
      mm ← get_task_mm task;
      ret ← match mm with
            | Some mm =>
                flags ← gets (fun m => mm_flags (k_mm m !!! mm));
                let '(buffer, len) := snprintf PROC_NUMBUF
                  (zero_pad 8 (fmt_x (Z.shiftr (Z.land flags MMF_DUMP_FILTER_MASK) MMF_DUMP_FILTER_SHIFT)) ++ [NL]) in
                mmput mm;;
                '(ret, ppos) ← simple_read_from_buffer buf count ppos (ztake len buffer);
                mret (s32 ret, ppos)
            | None => mret (0, ppos)
            end;
      put_task_struct task;;
      mret ret
  end.

(** [for (i = 0, mask = 1; i < MMF_DUMP_FILTER_BITS; i++, mask <<= 1)],
    with [n] iterations to go. *)
Fixpoint set_filter_bits (n : nat) (mm : mm_id) (val i mask : Z) : prog unit :=
  match n with
  | O => mret tt
  | S n =>
      (if negb (Z.land val mask =? 0)
       then modify (upd_mm mm (fun s => set_mm_flags (Z.setbit (mm_flags s) (i + MMF_DUMP_FILTER_SHIFT)) s))
       else modify (upd_mm mm (fun s => set_mm_flags (Z.clearbit (mm_flags s) (i + MMF_DUMP_FILTER_SHIFT)) s)));;
      set_filter_bits n mm val (i + 1) (ulong (Z.shiftl mask 1))
  end.

Definition proc_coredump_filter_write (file : file_id) (buf count : Z) : prog Z :=
  buffer ← read_num_buffer buf count;
  match buffer with
  | None => mret (- EFAULT)
  | Some buffer =>
      '(v, e) ← simple_strtoul buffer 0;
      let val := u32 v in
      let e := skip_newline buffer e in
      if e =? 0 then mret (- EINVAL)
      else
        task ← file_task file;
        match task with
        | None => mret (- ESRCH)
        | Some task =>
            mm ← get_task_mm task;
            match mm with
            | Some mm =>
                set_filter_bits (Z.to_nat MMF_DUMP_FILTER_BITS) mm val 0 1;;
                mmput mm
            | None => mret tt
            end;;
            put_task_struct task;;
            mret e
        end
  end.

(** ** Properties *)

(** The inode a file stands for. *)
Definition stands_for (m : kmem) (file : file_id) (inode : inode_id) : Prop :=
  d_inode (k_dentry m !!! f_dentry (k_file m !!! file)) = Some inode.

Ltac control := unfold stands_for in *; kfixed; cbn [mem] in *;
  unfold read_num_buffer, file_task, file_inode, dentry_inode, file_name; ksteps; simplify_eq.

(** The control files of a process hold nothing back: whatever the kernel
    answers, each read and write of oom_adj, loginuid, sessionid,
    make-it-fail, sched, attr and coredump_filter returns every reference,
    page and buffer it took, on every path, and none of the reads changes a
    kernel object. *)
Theorem control_files_balanced A file inode buf count ppos w : stands_for (mem w) file inode ->
  let reads := fun p : prog (Z * Z) => ends (fixed A) p w (fun _ w' => balanced w w' /\ mem w' = mem w) in
  let writes := fun p : prog Z => ends (fixed A) p w (fun _ w' => balanced w w') in
  reads (oom_adjust_read file buf count ppos) /\ reads (proc_loginuid_read file buf count ppos) /\
  reads (proc_sessionid_read file buf count ppos) /\ reads (proc_fault_inject_read file buf count ppos) /\
  reads (proc_pid_attr_read file buf count ppos) /\ reads (proc_coredump_filter_read file buf count ppos) /\
  writes (oom_adjust_write file buf count) /\ writes (proc_fault_inject_write file buf count) /\
  writes (proc_pid_attr_write file buf count ppos) /\ writes (sched_write file count).
Proof.
  intros Hd reads writes. unfold reads, writes, oom_adjust_read, proc_loginuid_read, proc_sessionid_read, audit_read,
    proc_fault_inject_read, proc_pid_attr_read, proc_coredump_filter_read, oom_adjust_write,
    proc_fault_inject_write, proc_pid_attr_write, sched_write. split_and!; control; try done;
    match goal with o : option _ |- _ => destruct o end; kcbn; repeat (kdec; kcbn); done.
Qed.

Definition oom_value_ok (v : Z) : Prop := v = OOM_DISABLE \/ OOM_ADJUST_MIN <= v <= OOM_ADJUST_MAX.

(** C36: A write to oom_adj that changes anything stores a legal adjustment,
    the parsed one, in the task the file stands for, and lowers it only with
    CAP_SYS_RESOURCE; a write that is refused changes nothing. *)
Theorem oom_adjust_write_guarded A file inode buf count w : stands_for (mem w) file inode ->
  ends (fixed A) (oom_adjust_write file buf count) w (fun r w' =>
    (mem w' = mem w /\ (r = - EFAULT \/ r = - EINVAL \/ r = - ESRCH \/ r = - EACCES)) \/
    exists t buffer, let '(val, e) := A (SimpleStrtol buffer 0) in
      A (GetProcTask inode) = Some t /\ oom_value_ok (s32 val) /\
      (t_oomkilladj (k_task (mem w) !!! t) <= s32 val \/ A (Capable CAP_SYS_RESOURCE) = true) /\
      mem w' = upd_task t (set_oomkilladj (s32 val)) (mem w) /\
      r = (let e := skip_newline buffer e in if e =? 0 then - EIO else e)).
Proof.
  unfold oom_value_ok, oom_adjust_write. control; try (left; split; [done|tauto]).
  all: right; eexists _, _; match goal with H : _ (SimpleStrtol _ _) = _ |- _ => rewrite H end.
  all: match goal with H : _ && _ = false |- _ => apply andb_false_iff in H as [[H1%Z.ltb_ge H2%Z.ltb_ge]%orb_false_iff|H%negb_false_iff%Z.eqb_eq] end.
  all: split_and!; try done; try (by left); try (by right; lia).
  all: first [right; by apply negb_false_iff|left; by apply Z.ltb_ge].
Qed.

(** The number files print into [PROC_NUMBUF] bytes without cutting. *)
Lemma number_text_fits v : ztake (len (fmt_d (s32 v) ++ [NL])) (ztake (PROC_NUMBUF - 1) (fmt_d (s32 v) ++ [NL])) =
  fmt_d (s32 v) ++ [NL].
Proof.
  pose proof (len_fmt_d32 _ (s32_range v)). unfold ztake, PROC_NUMBUF.
  assert (len (fmt_d (s32 v) ++ [NL]) <= 12) by (autorewrite with kbytes; lia).
  rewrite !take_ge; try done; unfold len in *; rewrite ?take_ge; lia.
Qed.

Lemma audit_text_fits v : ztake (len (ztake (TMPBUFLEN - 1) (fmt_u (u32 v)))) (ztake (TMPBUFLEN - 1) (fmt_u (u32 v))) = fmt_u (u32 v).
Proof.
  pose proof (len_fmt_u32 _ (u32_range v)). unfold ztake, TMPBUFLEN, len in *.
  rewrite !take_ge; try done; rewrite ?take_ge; lia.
Qed.

(** The readers of numbers show the number: the text of the task's current
    value, sign and newline included, always fits the buffer on the stack and
    is offered to the reader whole. *)
Theorem number_files_show_value (A : forall o, ans o) file inode t buf count ppos w :
  stands_for (mem w) file inode -> A (GetProcTask inode) = Some t ->
  let shows := fun (p : prog (Z * Z)) text =>
    ends (fixed A) p w (fun r w' => balanced w w' /\ r = A (SimpleReadFromBuffer buf count ppos text)) in
  shows (oom_adjust_read file buf count ppos) (fmt_d (s32 (t_oomkilladj (k_task (mem w) !!! t))) ++ [NL]) /\
  shows (proc_fault_inject_read file buf count ppos) (fmt_d (s32 (t_make_it_fail (k_task (mem w) !!! t))) ++ [NL]) /\
  shows (proc_loginuid_read file buf count ppos) (fmt_u (u32 (A (AuditGetLoginuid t)))) /\
  shows (proc_sessionid_read file buf count ppos) (fmt_u (u32 (A (AuditGetSessionid t)))).
Proof.
  intros Hd Ht shows. unfold shows, oom_adjust_read, proc_fault_inject_read, proc_loginuid_read, proc_sessionid_read,
    audit_read. split_and!; control; unfold snprintf, scnprintf in *; simplify_eq;
    rewrite ?number_text_fits, ?audit_text_fits; done.
Qed.

(** oom_adj round trip: for a parser that reads back printed numbers,
    writing the text of a legal value the writer may set is accepted whole,
    and a read then offers exactly that text. *)
Theorem oom_adjust_roundtrip (A : forall o, ans o) file inode t src dst count ppos v w :
  stands_for (mem w) file inode -> A (GetProcTask inode) = Some t -> oom_value_ok v ->
  t_oomkilladj (k_task (mem w) !!! t) <= v \/ A (Capable CAP_SYS_RESOURCE) = true ->
  let text := fmt_d v ++ [NL] in
  A (CopyFromUser src (len text)) = (0, text) ->
  A (SimpleStrtol (num_buffer text) 0) = (v, len (fmt_d v)) ->
  ends (fixed A) (n ← oom_adjust_write file src (len text); r ← oom_adjust_read file dst count ppos; mret (n, r)) w
    (fun r w' => balanced w w' /\ r.1 = len text /\ r.2 = A (SimpleReadFromBuffer dst count ppos text)).
Proof.
  intros Hd Ht Hv Hcap text Hcopy Hparse. unfold stands_for in *. kfixed. cbn [mem] in *.
  assert (Hs : s32 v = v) by (apply s32_small; unfold oom_value_ok, OOM_DISABLE, OOM_ADJUST_MIN, OOM_ADJUST_MAX in *; lia).
  assert (Hlen : 1 <= len (fmt_d v) <= 11) by (rewrite <- Hs; apply len_fmt_d32, s32_range).
  assert (Ht2 : len text = len (fmt_d v) + 1) by (unfold text; by autorewrite with kbytes).
  assert (Hbyte : skip_newline (num_buffer text) (len (fmt_d v)) = len text).
  { unfold skip_newline, zbyte, num_buffer, text. destruct (Z.ltb_spec (len (fmt_d v)) 0); [lia|].
    unfold len. rewrite Nat2Z.id, <- app_assoc. rewrite lookup_app_r, Nat.sub_diag by lia. cbn.
    rewrite length_app. cbn. lia. }
  unfold oom_adjust_write, read_num_buffer. kunfold. kcbn.
  replace (if PROC_NUMBUF - 1 <? len text then PROC_NUMBUF - 1 else len text) with (len text)
    by (unfold PROC_NUMBUF; destruct (Z.ltb_spec (13 - 1) (len text)); lia).
  intros [rest data] m [Hc ->]. rewrite Hcopy in Hc. injection Hc as -> ->. kcbn.
  replace (ztake (len text) text) with text by (unfold ztake, len; by rewrite take_ge by lia).
  change (0 =? 0) with true. kcbn. intros [val e] m [Hp ->]. rewrite Hparse in Hp. injection Hp as -> ->. kcbn.
  rewrite Hs, Hbyte. destruct (_ && _) eqn:Hbad.
  { exfalso. apply andb_true_iff in Hbad as [Hr Hd2]. apply negb_true_iff, Z.eqb_neq in Hd2.
    destruct Hv as [|Hv]; [done|]. apply orb_true_iff in Hr as [?%Z.ltb_lt|?%Z.ltb_lt]; lia. }
  unfold file_task, file_inode, dentry_inode. kunfold. kcbn. rewrite Hd. kcbn. intros t0 m [-> ->]. rewrite Ht. kcbn.
  assert (Hread : forall l2, wp (answers A) (oom_adjust_read file dst count ppos) (fun r w' =>
    balanced (World k0 h0 b0 l0) w' /\ r = A (SimpleReadFromBuffer dst count ppos text))
    (World (upd_task t (set_oomkilladj v) k0) h0 b0 l2)).
  { intros l2. unfold oom_adjust_read, file_task, file_inode, dentry_inode. kunfold. kcbn.
    assert (Hk : k_dentry (upd_task t (set_oomkilladj v) k0) = k_dentry k0 /\
      k_file (upd_task t (set_oomkilladj v) k0) = k_file k0) by (by destruct k0).
    destruct Hk as [-> ->]. rewrite Hd. kcbn. intros t0 m [-> ->]. rewrite Ht. kcbn.
    rewrite k_task_upd_task, lookup_total_insert_eq. intros [] m [_ ->]. repeat (kdec; kcbn).
    replace (t_oomkilladj _) with v by (by destruct (k_task k0 !!! t)).
    cbn [snprintf]. rewrite number_text_fits, Hs. by intros r m [-> ->]. }
  assert (Hne : (len text =? 0) = false) by (apply Z.eqb_neq; lia).
  destruct (Z.ltb_spec v (t_oomkilladj (k_task k0 !!! t))); kcbn.
  - intros c m [-> ->]. destruct Hcap as [|Hcap]; [lia|]. rewrite Hcap. kcbn. intros [] m [_ ->]. repeat (kdec; kcbn).
    rewrite Hne. apply wp_bind. eapply wp_mono; [apply Hread|]. intros r w' [Hb ->]. by kcbn.
  - intros [] m [_ ->]. repeat (kdec; kcbn).
    rewrite Hne. apply wp_bind. eapply wp_mono; [apply Hread|]. intros r w' [Hb ->]. by kcbn.
Qed.

(** C38: Text that holds no number is not refused: both writers of numbers
    store the 0 that the parser returns for it and only then report -EIO - or
    1, as if one byte had been accepted, when the text starts with a newline.
    Only a missing capability keeps them from it: [oom_adjust_write] needs
    CAP_SYS_RESOURCE when 0 is less than the old value, and answers -EACCES
    without it; [proc_fault_inject_write] always, and answers -EPERM; then
    nothing is changed. *)
Theorem number_writes_fail_after_effect (A : forall o, ans o) file inode t buf count data w :
  stands_for (mem w) file inode -> A (GetProcTask inode) = Some t ->
  let n := Z.min count (PROC_NUMBUF - 1) in
  let text := num_buffer (ztake n data) in
  A (CopyFromUser buf n) = (0, data) -> A (SimpleStrtol text 0) = (0, 0) ->
  let answer := if decide (zbyte text 0 = NL) then 1 else - EIO in
  let cap : bool := A (Capable CAP_SYS_RESOURCE) in
  ends (fixed A) (oom_adjust_write file buf count) w (fun r w' => balanced w w' /\
    if (0 <? t_oomkilladj (k_task (mem w) !!! t)) && negb cap then r = - EACCES /\ mem w' = mem w
    else r = answer /\ mem w' = upd_task t (set_oomkilladj 0) (mem w)) /\
  ends (fixed A) (proc_fault_inject_write file buf count) w (fun r w' => balanced w w' /\
    if cap then r = answer /\ mem w' = upd_task t (set_make_it_fail 0) (mem w)
    else r = - EPERM /\ mem w' = mem w).
Proof.
  intros Hd Ht n text Hcopy Hparse answer cap. unfold stands_for in *.
  assert (Hn : (if PROC_NUMBUF - 1 <? count then PROC_NUMBUF - 1 else count) = n)
    by (unfold n; destruct (Z.ltb_spec (PROC_NUMBUF - 1) count); lia).
  assert (Hskip : (if skip_newline text 0 =? 0 then - EIO else skip_newline text 0) = answer).
  { unfold skip_newline, answer. destruct (Z.eqb_spec (zbyte text 0) NL); [by rewrite decide_True|by rewrite decide_False]. }
  split; kfixed; cbn [mem] in *; [unfold oom_adjust_write|unfold proc_fault_inject_write];
    unfold read_num_buffer, file_task, file_inode, dentry_inode; kunfold; kcbn; rewrite Hn; kcbn.
  - intros [rest d] m [Hc ->]. rewrite Hcopy in Hc. injection Hc as -> ->. kcbn. change (0 =? 0) with true. kcbn.
    fold text. intros [val e] m [Hp ->]. rewrite Hparse in Hp. injection Hp as -> ->. kcbn.
    match goal with |- context [if ?b && ?c then _ else _] => change (b && c) with false end.
    change (s32 0) with 0. kcbn.
    rewrite Hd. kcbn. intros t0 m [-> ->]. rewrite Ht. kcbn.
    destruct (0 <? t_oomkilladj (k_task k0 !!! t)); kcbn; [intros c m [-> ->]; fold cap; destruct cap; kcbn|];
      intros [] m [_ ->]; repeat (kdec; kcbn); rewrite ?Hskip; done.
  - intros c m [-> ->]. fold cap. destruct cap; kcbn; [|done].
    intros [rest d] m [Hc ->]. rewrite Hcopy in Hc. injection Hc as -> ->. kcbn. change (0 =? 0) with true. kcbn.
    fold text. intros [val e] m [Hp ->]. rewrite Hparse in Hp. injection Hp as -> ->. kcbn.
    rewrite Hd. kcbn. intros t0 m [-> ->]. rewrite Ht. kcbn. change (s32 0) with 0.
    intros [] m [_ ->]. repeat (kdec; kcbn). rewrite Hskip. done.
Qed.

(** loginuid is set only for the writer itself, with CAP_AUDIT_CONTROL and
    from offset 0: the only call that sets one names the current task, which
    is the task of the inode, and carries the number parsed from at most one
    page; every other outcome is an error, and the page is given back. The
    task is looked up without the read lock that [pid_task] asks for. *)
Theorem proc_loginuid_write_only_self A file inode buf count ppos w :
  stands_for (mem w) file inode ->
  ends (fixed A) (proc_loginuid_write file buf count ppos) w (fun r w' =>
    held w' = held w /\ mem w' = mem w /\
    (A (Capable CAP_AUDIT_CONTROL) = true ->
      holds (held w) (RLock Rcu) = false -> holds (held w) (RLock TasklistLock) = false ->
      bad w' = Unguarded (PidTask (A (ProcPid inode))) :: bad w) /\
    (r < 0 \/
     exists text uid, A (Capable CAP_AUDIT_CONTROL) = true /\ ppos = 0 /\
       A (PidTask (A (ProcPid inode))) = Some (k_current (mem w)) /\
       (A (SimpleStrtoul text 10)).1 = uid /\ len text <= PAGE_SIZE /\
       (exists x, In (Obs (AuditSetLoginuid (k_current (mem w)) (u32 uid)) x) (log w')))).
Proof.
  intros Hd. unfold stands_for in *. kfixed. cbn [mem held bad] in *.
  unfold proc_loginuid_write, file_inode, dentry_inode. ksteps; simplify_eq.
  all: split; [done|split; [done|split]]; [intros Hcap Hr Ht; rewrite ?Hr, ?Ht; first [done|by rewrite Hcap in *]|].
  all: try (left; unfold EPERM, EINVAL, ENOMEM, EFAULT; lia).
  right. match goal with H : A (SimpleStrtoul ?t _) = (?u, _) |- _ => exists t, u; rewrite H end.
  split_and!; try done.
  - by apply negb_false_iff.
  - by apply Z.eqb_eq, negb_false_iff.
  - rewrite len_app, len_cons, len_nil. unfold ztake, len, PAGE_SIZE. rewrite length_take.
    match goal with |- context [if ?b then _ else _] => destruct b eqn:Hb end; [lia|].
    apply Z.leb_gt in Hb. unfold PAGE_SIZE in Hb. lia.
  - eexists. right. left. reflexivity.
Qed.

Lemma land_bit v i : 0 <= i -> (Z.land v (2 ^ i) =? 0) = negb (Z.testbit v i).
Proof.
  intros Hi. destruct (Z.testbit v i) eqn:Hb; cbn.
  - apply Z.eqb_neq. intros H0. apply (f_equal (fun z => Z.testbit z i)) in H0.
    rewrite Z.land_spec, Hb, Z.pow2_bits_true, Z.testbit_0_l in H0 by done. done.
  - apply Z.eqb_eq, Z.bits_inj'. intros j Hj. rewrite Z.land_spec, Z.testbit_0_l, Z.pow2_bits_eqb by done.
    destruct (Z.eqb_spec i j) as [->|]; [by rewrite Hb|apply andb_false_r].
Qed.

(** One filter bit is set or cleared to the bit of the mask. *)
Definition flags_with (flags val i n : Z) (flags' : Z) : Prop := forall j, 0 <= j ->
  Z.testbit flags' j =
    if (i + MMF_DUMP_FILTER_SHIFT <=? j) && (j <? i + MMF_DUMP_FILTER_SHIFT + n)
    then Z.testbit val (j - MMF_DUMP_FILTER_SHIFT) else Z.testbit flags j.

(** What the loop changes: the flags of [mm], and nothing else. *)
Definition filter_set (mm : mm_id) (val i n : Z) (w w' : world) : Prop :=
  balanced w w' /\ k_file (mem w') = k_file (mem w) /\ k_dentry (mem w') = k_dentry (mem w) /\
  (forall x, x <> mm -> k_mm (mem w') !!! x = k_mm (mem w) !!! x) /\
  flags_with (mm_flags (k_mm (mem w) !!! mm)) val i n (mm_flags (k_mm (mem w') !!! mm)).

Lemma flags_with_step flags val i n flags' : 0 <= i -> 0 <= n ->
  flags_with (if Z.testbit val i then Z.setbit flags (i + MMF_DUMP_FILTER_SHIFT)
              else Z.clearbit flags (i + MMF_DUMP_FILTER_SHIFT)) val (i + 1) n flags' ->
  flags_with flags val i (1 + n) flags'.
Proof.
  intros Hi Hn H1 j Hj. rewrite H1 by done. unfold MMF_DUMP_FILTER_SHIFT.
  destruct (Z.eq_dec j (i + 2)) as [->|Hne].
  - destruct (Z.leb_spec (i + 1 + 2) (i + 2)); [lia|]. cbn.
    destruct (Z.leb_spec (i + 2) (i + 2)); [|lia]. destruct (Z.ltb_spec (i + 2) (i + 2 + (1 + n))); [|lia]. cbn.
    replace (i + 2 - 2) with i by lia. destruct (Z.testbit val i).
    + apply Z.setbit_eq. lia.
    + apply Z.clearbit_eq.
  - replace (Z.testbit (if Z.testbit val i then _ else _) j) with (Z.testbit flags j)
      by (destruct (Z.testbit val i); [rewrite Z.setbit_neq|rewrite Z.clearbit_neq]; lia || done).
    destruct (Z.leb_spec (i + 1 + 2) j), (Z.leb_spec (i + 2) j), (Z.ltb_spec j (i + 1 + 2 + n)),
      (Z.ltb_spec j (i + 2 + (1 + n))); cbn; done || lia.
Qed.

Lemma set_filter_bits_wp A n : forall mm val i w (Q : unit -> world -> Prop),
  0 <= i -> i + Z.of_nat n < 32 ->
  (forall w', filter_set mm val i (Z.of_nat n) w w' -> Q tt w') ->
  wp (answers A) (set_filter_bits n mm val i (2 ^ i)) Q w.
Proof.
  induction n as [|n IH]; intros mm val i w Q Hi Hn HQ; cbn [set_filter_bits].
  { apply HQ. split_and!; try done. intros j Hj. change (Z.of_nat 0) with 0.
    destruct (Z.leb_spec (i + MMF_DUMP_FILTER_SHIFT) j), (Z.ltb_spec j (i + MMF_DUMP_FILTER_SHIFT + 0)); try done; lia. }
  assert (Hmask : ulong (Z.shiftl (2 ^ i) 1) = 2 ^ (i + 1)).
  { rewrite Z.shiftl_mul_pow2, <- Z.pow_add_r by lia. apply ulong_small. pose proof ulong_pow.
    split; [lia|]. apply Z.lt_le_trans with (2 ^ 32); [apply Z.pow_lt_mono_r; lia|lia]. }
  rewrite Hmask, land_bit, negb_involutive by done.
  destruct w as [m h b l]. rewrite Nat2Z.inj_succ in *.
  assert (Hstep : forall f : mm_struct -> mm_struct,
    (forall s, mm_flags (f s) = if Z.testbit val i then Z.setbit (mm_flags s) (i + MMF_DUMP_FILTER_SHIFT)
       else Z.clearbit (mm_flags s) (i + MMF_DUMP_FILTER_SHIFT)) ->
    wp (answers A) (set_filter_bits n mm val (i + 1) (2 ^ (i + 1))) Q (World (upd_mm mm f m) h b l)).
  { intros f Hf. apply IH; [lia|lia|]. intros w' (Hb & Hkf & Hkd & Hx & Hfl). apply HQ.
    assert (k_file (upd_mm mm f m) = k_file m /\ k_dentry (upd_mm mm f m) = k_dentry m) as [Hkf' Hkd'] by (by destruct m).
    cbn [mem] in *. split_and!; cbn [mem]; try done; try congruence.
    - intros x Hne. cbn [mem]. rewrite Hx, k_mm_upd_mm, lookup_total_insert_ne by done. done.
    - cbn [mem]. replace (Z.succ (Z.of_nat n)) with (1 + Z.of_nat n) by lia.
      apply flags_with_step; [done|lia|]. rewrite <- Hf.
      by rewrite k_mm_upd_mm, lookup_total_insert_eq in Hfl. }
  destruct (Z.testbit val i); kcbn; apply Hstep; intros []; done.
Qed.

Lemma filter_shown flags val flags' : flags_with flags val 0 MMF_DUMP_FILTER_BITS flags' ->
  Z.shiftr (Z.land flags' MMF_DUMP_FILTER_MASK) MMF_DUMP_FILTER_SHIFT = val mod 2 ^ MMF_DUMP_FILTER_BITS.
Proof.
  intros Hf. apply Z.bits_inj'. intros j Hj.
  change MMF_DUMP_FILTER_MASK with (Z.shiftl (Z.ones 7) 2). unfold MMF_DUMP_FILTER_SHIFT, MMF_DUMP_FILTER_BITS in *.
  rewrite Z.shiftr_spec, Z.land_spec, Z.shiftl_spec, Z.testbit_ones_nonneg, Hf by lia.
  unfold MMF_DUMP_FILTER_SHIFT. replace (j + 2 - 2) with j by lia.
  destruct (Z.leb_spec (0 + 2) (j + 2)); [|lia]. destruct (Z.ltb_spec j 7).
  - destruct (Z.ltb_spec (j + 2) (0 + 2 + 7)); [|lia]. cbn. by rewrite andb_true_r, Z.mod_pow2_bits_low.
  - destruct (Z.ltb_spec (j + 2) (0 + 2 + 7)); [lia|]. by rewrite andb_false_r, Z.mod_pow2_bits_high by lia.
Qed.

Lemma filter_text_fits v : 0 <= v < 2 ^ MMF_DUMP_FILTER_BITS ->
  ztake (len (zero_pad 8 (fmt_x v) ++ [NL])) (ztake (PROC_NUMBUF - 1) (zero_pad 8 (fmt_x v) ++ [NL])) =
  zero_pad 8 (fmt_x v) ++ [NL].
Proof.
  intros Hv. unfold MMF_DUMP_FILTER_BITS in Hv.
  assert (Hl : 1 <= len (fmt_x v) <= 2) by (apply len_digits_bound; lia).
  assert (len (zero_pad 8 (fmt_x v) ++ [NL]) <= 12) by (autorewrite with kbytes; lia).
  unfold ztake, PROC_NUMBUF. rewrite !take_ge; try done; unfold len in *; rewrite ?take_ge; lia.
Qed.

Lemma coredump_filter_read_wp (A : forall o, ans o) file inode t mm flags val dst count ppos w (Q : Z * Z -> world -> Prop) :
  stands_for (mem w) file inode -> A (GetProcTask inode) = Some t -> A (GetTaskMm t) = Some mm ->
  flags_with flags val 0 MMF_DUMP_FILTER_BITS (mm_flags (k_mm (mem w) !!! mm)) ->
  (forall r w', balanced w w' -> mem w' = mem w ->
    r.1 = s32 (A (SimpleReadFromBuffer dst count ppos (zero_pad 8 (fmt_x (val mod 2 ^ MMF_DUMP_FILTER_BITS)) ++ [NL]))).1 -> Q r w') ->
  wp (answers A) (proc_coredump_filter_read file dst count ppos) Q w.
Proof.
  intros Hd Ht Hmm Hf HQ. destruct w as [m h b l]. unfold stands_for in *. cbn [mem] in *.
  unfold proc_coredump_filter_read, file_task, file_inode, dentry_inode. kunfold. kcbn. rewrite Hd. kcbn.
  intros t0 m0 [-> ->]. rewrite Ht. kcbn. intros mm0 m0 [-> ->]. rewrite Hmm. kcbn.
  rewrite (filter_shown _ _ _ Hf). cbn [snprintf]. rewrite filter_text_fits by (apply Z.mod_pos_bound; done).
  intros [] m0 [_ ->]. repeat (kdec; kcbn). intros [r pos] m0 [Hr ->]. kcbn. intros [] m0 [_ ->]. repeat (kdec; kcbn).
  by apply HQ; [..|by rewrite <- Hr].
Qed.

(** C37: coredump_filter round trip: writing a number sets exactly the seven
    filter bits of the process's address space to the number's low bits, and
    leaves its other flags and every other address space alone; reading then
    offers those seven bits as eight hexadecimal digits. *)
Theorem coredump_filter_roundtrip (A : forall o, ans o) file inode t mm src n dst count ppos data v e w :
  stands_for (mem w) file inode -> A (GetProcTask inode) = Some t -> A (GetTaskMm t) = Some mm ->
  0 <= n < PROC_NUMBUF -> A (CopyFromUser src n) = (0, data) ->
  A (SimpleStrtoul (num_buffer (ztake n data)) 0) = (v, e) -> 0 < e ->
  ends (fixed A) (x ← proc_coredump_filter_write file src n; y ← proc_coredump_filter_read file dst count ppos; mret (x, y)) w
    (fun r w' => r.1 = skip_newline (num_buffer (ztake n data)) e /\
      filter_set mm (u32 v) 0 MMF_DUMP_FILTER_BITS w w' /\
      r.2.1 = s32 (A (SimpleReadFromBuffer dst count ppos (zero_pad 8 (fmt_x (u32 v mod 2 ^ MMF_DUMP_FILTER_BITS)) ++ [NL]))).1).
Proof.
  intros Hd Ht Hmm Hn Hcopy Hparse He. unfold stands_for in *. kfixed. cbn [mem] in *.
  assert (Hskip : 0 < skip_newline (num_buffer (ztake n data)) e) by (unfold skip_newline; destruct (_ =? _); lia).
  unfold proc_coredump_filter_write, read_num_buffer. kunfold. kcbn.
  replace (if PROC_NUMBUF - 1 <? n then PROC_NUMBUF - 1 else n) with n by (destruct (Z.ltb_spec (PROC_NUMBUF - 1) n); lia).
  intros [rest d] m [Hc ->]. rewrite Hcopy in Hc. injection Hc as -> ->. change (0 =? 0) with true. kcbn.
  intros [val e0] m [Hp ->]. rewrite Hparse in Hp. injection Hp as -> ->. kcbn.
  destruct (Z.eqb_spec (skip_newline (num_buffer (ztake n data)) e) 0); [lia|].
  unfold file_task, file_inode, dentry_inode. kunfold. kcbn. rewrite Hd. kcbn. intros t0 m [-> ->]. rewrite Ht. kcbn.
  intros m0 m [-> ->]. rewrite Hmm. kcbn. do 2 apply wp_bind. change 1 with (2 ^ 0). kcbn.
  apply wp_bind, set_filter_bits_wp; [done|done|]. intros [m1 h1 b1 l1] Hf.
  change (Z.of_nat (Z.to_nat MMF_DUMP_FILTER_BITS)) with MMF_DUMP_FILTER_BITS in Hf.
  destruct Hf as ([Hh Hb] & Hkf & Hkd & Hx & Hfl). cbn [held bad mem] in *. subst h1 b1.
  kcbn. intros [] m2 [_ ->]. repeat (kdec; kcbn). intros [] m2 [_ ->]. repeat (kdec; kcbn).
  apply wp_bind. eapply (coredump_filter_read_wp A file inode t mm _ (u32 v)); cbn [mem]; try done.
  { unfold stands_for. by rewrite Hkd, Hkf. }
  intros r [m2 h2 b2 l2] [Hh2 Hb2] Hm2 Hr. cbn [held bad mem] in *. subst. kcbn.
  split; [done|]. split; [by split_and!|exact Hr].
Qed.

End Controls.

(** ** Witnesses *)

#[local] Existing Instance arch64.

(** A parser of unsigned decimal numbers. *)
Fixpoint leading_digits (s : bytes) : bytes :=
  match s with
  | c :: s => if is_digit c then c :: leading_digits s else []
  | [] => []
  end.

(** Process 1 writes its own files; user memory holds [data]. *)
Definition ctl_kernel (data : bytes) (o : op) : ans o :=
  match o with
  | GetProcTask _ => Some 1%nat
  | PidTask _ => Some 1%nat
  | Capable _ => true
  | GetTaskMm _ => Some 7%nat
  | GetFreePage => Some 2%nat
  | CopyFromUser _ n => (0, ztake n data)
  | SimpleStrtol s _ | SimpleStrtoul s _ => (dec_value (leading_digits s), len (leading_digits s))
  | SimpleReadFromBuffer _ n pos text => (Z.min n (len text), pos + Z.min n (len text))
  | o => silent o
  end.

Definition ctl_mem : kmem :=
  Kmem 1 {[ 1%nat := Task 1 [] 0 None (Some 7%nat) 0 0 7 0 0 false 3 inhabitant 0 0 0 [] 0 [] ]} ∅
    {[ 7%nat := Mm 0 0 0 0 [] 1537 0 None ]} ∅
    {[ 4%nat := File 0 0 0 (Path 0 5) 0 PrivNone ]}
    {[ 6%nat := inhabitant ]} {[ 5%nat := Dentry (str "current") (Some 6%nat) None 0 ]} ∅ ∅ ∅ ∅ ∅ ∅ ∅ HookDummy.

Definition ctl_text : bytes := str "12" ++ [NL].

Lemma ctl_stands : stands_for ctl_mem 4%nat 6%nat.
Proof. vm_compute. reflexivity. Qed.

Lemma control_files_balanced_witness :
  stands_for ctl_mem 4%nat 6%nat /\
  ends (fixed (ctl_kernel ctl_text)) (proc_pid_attr_write 4%nat 0 2 0) (world0 ctl_mem)
    (fun _ w' => balanced (world0 ctl_mem) w').
Proof.
  split; [exact ctl_stands|].
  exact (proj1 (proj2 (proj2 (proj2 (proj2 (proj2 (proj2 (proj2 (proj2
    (control_files_balanced (ctl_kernel ctl_text) 4%nat 6%nat 0 2 0 (world0 ctl_mem) ctl_stands)))))))))).
Defined.

Lemma oom_adjust_write_guarded_witness :
  ends (fixed (ctl_kernel ctl_text)) (oom_adjust_write 4%nat 0 3) (world0 ctl_mem) (fun r w' =>
    (mem w' = ctl_mem /\ (r = - EFAULT \/ r = - EINVAL \/ r = - ESRCH \/ r = - EACCES)) \/
    exists t v, oom_value_ok v /\ mem w' = upd_task t (set_oomkilladj v) ctl_mem).
Proof.
  refine (ends_mono _ _ _ _ _ (oom_adjust_write_guarded (ctl_kernel ctl_text) 4%nat 6%nat 0 3 (world0 ctl_mem) ctl_stands) _).
  intros r w' [Hr|(t & buffer & Hr)]; [left; exact Hr|right].
  destruct (ctl_kernel ctl_text (SimpleStrtol buffer 0)) as [val e].
  destruct Hr as (_ & Hv & _ & Hm & _). exists t, (s32 val). exact (conj Hv Hm).
Defined.

Lemma number_files_show_value_witness :
  ends (fixed (ctl_kernel [])) (oom_adjust_read 4%nat 0 10 0) (world0 ctl_mem) (fun r _ => r = (2, 2)).
Proof.
  refine (ends_mono _ _ _ _ _ (proj1 (number_files_show_value (ctl_kernel []) 4%nat 6%nat 1%nat 0 10 0
    (world0 ctl_mem) ctl_stands eq_refl)) _).
  intros r w' [_ Hr]. rewrite Hr. vm_compute. reflexivity.
Defined.

Lemma oom_adjust_roundtrip_witness :
  ends (fixed (ctl_kernel ctl_text))
    (n ← oom_adjust_write 4%nat 0 3; r ← oom_adjust_read 4%nat 500 10 0; mret (n, r)) (world0 ctl_mem)
    (fun r _ => r.1 = 3 /\ r.2 = ctl_kernel ctl_text (SimpleReadFromBuffer 500 10 0 ctl_text)).
Proof.
  refine (ends_mono _ _ _ _ _ (oom_adjust_roundtrip (ctl_kernel ctl_text) 4%nat 6%nat 1%nat 0 500 10 0 12
    (world0 ctl_mem) ctl_stands eq_refl _ _ _ _) _).
  - right. unfold OOM_ADJUST_MIN, OOM_ADJUST_MAX. lia.
  - right. reflexivity.
  - vm_compute. reflexivity.
  - vm_compute. reflexivity.
  - intros r w' (_ & H1 & H2). split; [exact (eq_trans H1 eq_refl)|exact H2].
Defined.

Lemma number_writes_fail_after_effect_witness :
  ends (fixed (ctl_kernel (str "x"))) (oom_adjust_write 4%nat 0 1) (world0 ctl_mem) (fun r w' =>
    r = - EIO /\ t_oomkilladj (k_task (mem w') !!! 1%nat) = 0).
Proof.
  refine (ends_mono _ _ _ _ _ (proj1 (number_writes_fail_after_effect (ctl_kernel (str "x")) 4%nat 6%nat 1%nat 0 1
    (str "x") (world0 ctl_mem) ctl_stands eq_refl eq_refl _)) _).
  - vm_compute. reflexivity.
  - cbv beta zeta. change (ctl_kernel (str "x") (Capable CAP_SYS_RESOURCE)) with true. rewrite andb_false_r.
    intros r w' (_ & Hr & Hm). split; [exact Hr|]. rewrite Hm. vm_compute. reflexivity.
Defined.

Lemma proc_loginuid_write_only_self_witness :
  ends (fixed (ctl_kernel ctl_text)) (proc_loginuid_write 4%nat 0 3 0) (world0 ctl_mem) (fun _ w' =>
    bad w' = [Unguarded (PidTask 0%nat)]).
Proof.
  refine (ends_mono _ _ _ _ _ (proc_loginuid_write_only_self (ctl_kernel ctl_text) 4%nat 6%nat 0 3 0
    (world0 ctl_mem) ctl_stands) _).
  intros r w' (_ & _ & H & _). exact (H eq_refl eq_refl eq_refl).
Defined.

Lemma coredump_filter_roundtrip_witness :
  ends (fixed (ctl_kernel ctl_text))
    (x ← proc_coredump_filter_write 4%nat 0 3; y ← proc_coredump_filter_read 4%nat 500 20 0; mret (x, y))
    (world0 ctl_mem) (fun r w' => r.1 = 3 /\ filter_set 7%nat 12 0 7 (world0 ctl_mem) w' /\ r.2.1 = 9).
Proof.
  refine (ends_mono _ _ _ _ _ (coredump_filter_roundtrip (ctl_kernel ctl_text) 4%nat 6%nat 1%nat 7%nat 0 3 500 20 0
    ctl_text 12 2 (world0 ctl_mem) ctl_stands eq_refl eq_refl _ _ _ _) _).
  - unfold PROC_NUMBUF. lia.
  - vm_compute. reflexivity.
  - vm_compute. reflexivity.
  - lia.
  - intros r w' (H1 & H2 & H3). split; [exact (eq_trans H1 eq_refl)|].
    split; [exact H2|exact (eq_trans H3 eq_refl)].
Defined.
