(* ===== verification/Inodes.v ===== *)
(** * Building and revalidating inodes (fs/proc/base.c)

    The inode of a task ([proc_pid_make_inode]), what the dentry operations do
    with it ([pid_revalidate], [tid_fd_revalidate], [proc_base_revalidate],
    [pid_delete_dentry]), the attributes shown ([pid_getattr],
    [proc_task_getattr], [proc_fd_permission]), and the functions that fill
    in a new dentry: the [instantiate_t]s. A returned [struct dentry *] is 0
    for NULL and -error for an [ERR_PTR]; none of them returns a dentry. *)
From S2P Require Import Prelude Structs Kernel Access Tables Links.

Definition FMODE_READ := 1.
Definition FMODE_WRITE := 2.
Definition S_IMMUTABLE := 8.

(** The mode of the directories whose owner is always shown. *)
Definition world_dir_mode : Z := Z.lor (Z.lor S_IFDIR S_IRUGO) S_IXUGO.

(** [inode->i_uid = cred->euid; inode->i_gid = cred->egid;] under RCU. *)
Definition own_by_task (task : task_id) (inode : inode_id) : prog unit :=
  rcu_read_lock;;
  cred ← task_cred task;
  modify (upd_inode inode (set_i_ids (euid cred) (egid cred)));;
  rcu_read_unlock.

Definition proc_pid_make_inode (sb : nat) (task : task_id) : prog (option inode_id) :=
  inode ← new_inode sb;
  match inode with
  | None => mret None
  | Some inode =>
      now ← current_time;
      modify (upd_inode inode (set_i_times now));;
      modify (upd_inode inode (set_i_op (Some proc_def_inode_operations)));;
      pid ← get_task_pid task;
      modify (upd_inode inode (set_ei_pid pid));;
      match pid with
      | None => iput inode;; mret None
      | Some _ =>
          dumpable ← task_dumpable task;
          (if (dumpable : bool) then own_by_task task inode else mret tt);;
          security_task_to_inode task inode;;
          mret (Some inode)
      end
  end.

Definition pid_getattr (dentry : dentry_id) : prog kstat :=
  inode ← dentry_inode dentry;
  stat ← generic_fillattr inode;
  rcu_read_lock;;
  let stat := Kstat 0 0 (st_nlink stat) (st_mode stat) in
  pid ← proc_pid inode;
  task ← pid_task pid;
  stat ← match task with
         | Some task =>
             mode ← gets (fun m => i_mode (k_inode m !!! inode));
             shown ← (if mode =? world_dir_mode then mret true else task_dumpable task);
             if (shown : bool) then
               cred ← task_cred task;
               mret (Kstat (euid cred) (egid cred) (st_nlink stat) (st_mode stat))
             else mret stat
         | None => mret stat
         end;
  rcu_read_unlock;;
  mret stat.

(** The attributes both revalidate functions rewrite. *)
Definition strip_ids (inode : inode_id) : prog unit :=
  modify (upd_inode inode (fun i => set_i_mode (Z.ldiff (i_mode i) (Z.lor S_ISUID S_ISGID)) i)).

Definition pid_revalidate (dentry : dentry_id) : prog bool :=
  inode ← dentry_inode dentry;
  task ← get_proc_task inode;
  match task with
  | Some task =>
      mode ← gets (fun m => i_mode (k_inode m !!! inode));
      shown ← (if mode =? world_dir_mode then mret true else task_dumpable task);
      (if (shown : bool) then own_by_task task inode
       else modify (upd_inode inode (set_i_ids 0 0)));;
      strip_ids inode;;
      security_task_to_inode task inode;;
      put_task_struct task;;
      mret true
  | None =>
      d_drop dentry;;
      mret false
  end.

Definition pid_delete_dentry (dentry : dentry_id) : prog bool :=
  inode ← dentry_inode dentry;
  pid ← proc_pid inode;
  gets (fun m => negb (pid_first (k_pid m !!! pid))).

Definition tid_fd_revalidate (dentry : dentry_id) : prog bool :=
  let drop := d_drop dentry;; mret false in
  inode ← dentry_inode dentry;
  task ← get_proc_task inode;
  fd ← proc_fd inode;
  match task with
  | Some task =>
      files ← get_files_struct task;
      match files with
      | Some files =>
          rcu_read_lock;;
          file ← fcheck_files files fd;
          match file with
          | Some _ =>
              rcu_read_unlock;;
              put_files_struct files;;
              dumpable ← task_dumpable task;
              (if (dumpable : bool) then own_by_task task inode
               else modify (upd_inode inode (set_i_ids 0 0)));;
              strip_ids inode;;
              security_task_to_inode task inode;;
              put_task_struct task;;
              mret true
          | None =>
              rcu_read_unlock;;
              put_files_struct files;;
              put_task_struct task;;
              drop
          end
      | None =>
          put_task_struct task;;
          drop
      end
  | None => drop
  end.

Definition proc_base_revalidate (dentry : dentry_id) : prog bool :=
  inode ← dentry_inode dentry;
  task ← get_proc_task inode;
  match task with
  | Some task => put_task_struct task;; mret true
  | None => d_drop dentry;; mret false
  end.

Definition proc_fd_permission (inode : inode_id) (mask : Z) : prog Z :=
  rv ← generic_permission inode mask;
  if rv =? 0 then mret 0
  else
    current ← gets k_current;
    a ← task_pid current;
    b ← proc_pid inode;
    mret (if decide (a = b) then 0 else rv).

Definition proc_task_getattr (dentry : dentry_id) : prog kstat :=
  inode ← dentry_inode dentry;
  p ← get_proc_task inode;
  stat ← generic_fillattr inode;
  match p with
  | Some p =>
      n ← get_nr_threads p;
      put_task_struct p;;
      mret (Kstat (st_uid stat) (st_gid stat) (u32 (st_nlink stat + n)) (st_mode stat))
  | None => mret stat
  end.

(** ** Instantiation *)

Definition instantiate_t := inode_id -> dentry_id -> task_id -> prog Z.

Definition inode_sb (dir : inode_id) : prog nat := gets (fun m => i_sb (k_inode m !!! dir)).

(** [dentry->d_op = ops; d_add(dentry, inode);] *)
Definition set_and_add (dentry : dentry_id) (ops : dentry_operations) (inode : inode_id) : prog unit :=
  modify (upd_dentry dentry (set_d_op (Some ops)));;
  d_add dentry inode.

Definition proc_fd_instantiate (fd : Z) : instantiate_t := fun dir dentry task =>
  sb ← inode_sb dir;
  inode ← proc_pid_make_inode sb task;
  match inode with
  | None => mret (- ENOENT)
  | Some inode =>
      modify (upd_inode inode (set_ei_fd (s32 fd)));;
      files ← get_files_struct task;
      match files with
      | None => iput inode;; mret (- ENOENT)
      | Some files =>
          modify (upd_inode inode (set_i_mode S_IFLNK));;
          spin_lock_files files;;
          file ← fcheck_files files fd;
          match file with
          | None =>
              spin_unlock_files files;;
              put_files_struct files;;
              iput inode;;
              mret (- ENOENT)
          | Some file =>
              f_mode ← gets (fun m => f_mode (k_file m !!! file));
              (if negb (Z.land f_mode FMODE_READ =? 0)
               then modify (upd_inode inode (fun i => set_i_mode (Z.lor (i_mode i) (Z.lor S_IRUSR S_IXUSR)) i))
               else mret tt);;
              (if negb (Z.land f_mode FMODE_WRITE =? 0)
               then modify (upd_inode inode (fun i => set_i_mode (Z.lor (i_mode i) (Z.lor S_IWUSR S_IXUSR)) i))
               else mret tt);;
              spin_unlock_files files;;
              put_files_struct files;;
              modify (upd_inode inode (set_i_op (Some proc_pid_link_inode_operations)));;
              modify (upd_inode inode (set_i_size 64));;
              modify (upd_inode inode (set_ei_op (proc_get_link F_proc_fd_link)));;
              set_and_add dentry tid_fd_dentry_operations inode;;
              ok ← tid_fd_revalidate dentry;
              mret (if (ok : bool) then 0 else - ENOENT)
          end
      end
  end.

Definition proc_fdinfo_instantiate (fd : Z) : instantiate_t := fun dir dentry task =>
  sb ← inode_sb dir;
  inode ← proc_pid_make_inode sb task;
  match inode with
  | None => mret (- ENOENT)
  | Some inode =>
      modify (upd_inode inode (set_ei_fd (s32 fd)));;
      modify (upd_inode inode (set_i_mode (Z.lor S_IFREG S_IRUSR)));;
      modify (upd_inode inode (set_i_fop (Some proc_fdinfo_file_operations)));;
      set_and_add dentry tid_fd_dentry_operations inode;;
      ok ← tid_fd_revalidate dentry;
      mret (if (ok : bool) then 0 else - ENOENT)
  end.

(** The fields an entry of a table gives its inode. *)
Definition apply_entry (p : pid_entry) (inode : inode_id) : prog unit :=
  match pe_iop p with Some iop => modify (upd_inode inode (set_i_op (Some iop))) | None => mret tt end;;
  match pe_fop p with Some fop => modify (upd_inode inode (set_i_fop (Some fop))) | None => mret tt end;;
  modify (upd_inode inode (set_ei_op (pe_op p))).

Definition proc_pident_instantiate (p : pid_entry) : instantiate_t := fun dir dentry task =>
  sb ← inode_sb dir;
  inode ← proc_pid_make_inode sb task;
  match inode with
  | None => mret (- ENOENT)
  | Some inode =>
      modify (upd_inode inode (set_i_mode (pe_mode p)));;
      (if S_ISDIR (pe_mode p) then modify (upd_inode inode (set_i_nlink 2)) else mret tt);;
      apply_entry p inode;;
      set_and_add dentry pid_dentry_operations inode;;
      ok ← pid_revalidate dentry;
      mret (if (ok : bool) then 0 else - ENOENT)
  end.

(** The directory of a task: [proc_pid_instantiate] and
    [proc_task_instantiate] differ in the tables only. *)
Definition task_dir_instantiate (iop : inode_operations) (fop : file_operations) (stuff : list pid_entry) : instantiate_t :=
  fun dir dentry task =>
  sb ← inode_sb dir;
  inode ← proc_pid_make_inode sb task;
  match inode with
  | None => mret (- ENOENT)
  | Some inode =>
      modify (upd_inode inode (set_i_mode world_dir_mode));;
      modify (upd_inode inode (set_i_op (Some iop)));;
      modify (upd_inode inode (set_i_fop (Some fop)));;
      modify (upd_inode inode (fun i => set_i_flags (Z.lor (i_flags i) S_IMMUTABLE) i));;
      modify (upd_inode inode (set_i_nlink (2 + pid_entry_count_dirs stuff (len stuff))));;
      set_and_add dentry pid_dentry_operations inode;;
      ok ← pid_revalidate dentry;
      mret (if (ok : bool) then 0 else - ENOENT)
  end.

Definition proc_pid_instantiate `{Config} : instantiate_t :=
  task_dir_instantiate proc_tgid_base_inode_operations proc_tgid_base_operations tgid_base_stuff.
Definition proc_task_instantiate `{Config} : instantiate_t :=
  task_dir_instantiate proc_tid_base_inode_operations proc_tid_base_operations tid_base_stuff.

Definition proc_base_instantiate (p : pid_entry) : instantiate_t := fun dir dentry task =>
  sb ← inode_sb dir;
  inode ← new_inode sb;
  match inode with
  | None => mret (- ENOMEM)
  | Some inode =>
      now ← current_time;
      modify (upd_inode inode (set_i_times now));;
      pid ← get_task_pid task;
      modify (upd_inode inode (set_ei_pid pid));;
      match pid with
      | None => iput inode;; mret (- ENOMEM)
      | Some _ =>
          modify (upd_inode inode (set_i_mode (pe_mode p)));;
          (if S_ISDIR (pe_mode p) then modify (upd_inode inode (set_i_nlink 2)) else mret tt);;
          (if S_ISLNK (pe_mode p) then modify (upd_inode inode (set_i_size 64)) else mret tt);;
          apply_entry p inode;;
          set_and_add dentry proc_base_dentry_operations inode;;
          mret 0
      end
  end.

(** ** The contract between the instantiate functions and their callers *)

(** The dcache: [d_add] makes the inode the dentry's. *)
Definition dcache : contract := fun o =>
  match o return list obs -> kmem -> ans o -> kmem -> Prop with
  | DAdd d i => fun _ _ _ m' => d_inode (k_dentry m' !!! d) = Some i
  | _ => fun _ _ _ _ => True
  end.

(** An instantiate function ends, whatever the kernel does, with 0 or an error
    pointer, and holds nothing: the inode it made belongs to the dentry or is
    dropped. This is what lookup and readdir rely on. *)
Class Instantiates (f : instantiate_t) : Prop :=
  instantiates : forall dir dentry task w (Q : Z -> world -> Prop),
    (forall r w', balanced w w' -> (r = 0 \/ r = - ENOENT \/ r = - ENOMEM) -> Q r w') ->
    wp dcache (f dir dentry task) Q w.

Lemma proc_pid_make_inode_wp R sb task w (Q : option inode_id -> world -> Prop) :
  (forall r w', keeps_only (opt_res RInode r) w w' -> Q r w') ->
  wp R (proc_pid_make_inode sb task) Q w.
Proof.
  intros HQ. destruct w as [m h b l]. unfold proc_pid_make_inode, own_by_task, task_dumpable.
  ksteps; by apply HQ.
Qed.

Lemma pid_revalidate_wp R dentry i w (Q : bool -> world -> Prop) : d_inode (k_dentry (mem w) !!! dentry) = Some i ->
  (forall r w', balanced w w' -> Q r w') -> wp R (pid_revalidate dentry) Q w.
Proof.
  intros Hd HQ. destruct w as [m h b l]. cbn [mem] in Hd. unfold pid_revalidate, dentry_inode. kcbn. rewrite Hd.
  unfold own_by_task, strip_ids, task_dumpable. ksteps; by apply HQ.
Qed.

Lemma tid_fd_revalidate_wp R dentry i w (Q : bool -> world -> Prop) : d_inode (k_dentry (mem w) !!! dentry) = Some i ->
  (forall r w', balanced w w' -> Q r w') -> wp R (tid_fd_revalidate dentry) Q w.
Proof.
  intros Hd HQ. destruct w as [m h b l]. cbn [mem] in Hd. unfold tid_fd_revalidate, dentry_inode. kcbn. rewrite Hd.
  unfold own_by_task, strip_ids, task_dumpable. ksteps; by apply HQ.
Qed.

Lemma set_and_add_wp dentry ops inode w (Q : unit -> world -> Prop) :
  (forall w', d_inode (k_dentry (mem w') !!! dentry) = Some inode ->
    held w' = release (RInode inode) (held w) ->
    bad w' = (if holds (held w) (RInode inode) then [] else [Unheld (RInode inode)]) ++ bad w -> Q tt w') ->
  wp dcache (set_and_add dentry ops inode) Q w.
Proof.
  intros HQ. destruct w as [m h b l]. unfold set_and_add. kunfold. kcbn. intros [] m1 H1. apply HQ; [done|done|].
  cbn. by rewrite !app_nil_r.
Qed.

(** Runs an instantiate function up to the inode it made. *)
Ltac instantiated := intros dir dentry task w Q HQ; unfold inode_sb; kcbn;
  apply wp_bind, proc_pid_make_inode_wp; intros [ino|] [m h b l] [Hh Hb];
  cbn [held bad opt_res app] in *; subst; kcbn; [|by apply HQ; [|auto]].

(** From the point where the inode is handed to the dentry. *)
Ltac added := kcbn; apply wp_bind, set_and_add_wp; intros [ma ha ba la] Hd Hh1 Hb1;
  cbn [held bad] in *; rewrite release_head in Hh1; rewrite holds_head in Hb1; cbn [app] in Hb1; subst.

Ltac revalidated rule HQ Hd := apply wp_bind, (rule _ _ _ _ _ Hd); intros r w' Hw; kcbn;
  apply HQ; [done|destruct r; auto].

#[export] Instance proc_pident_instantiates p : Instantiates (proc_pident_instantiate p).
Proof.
  unfold proc_pident_instantiate. instantiated.
  unfold apply_entry. destruct (S_ISDIR _), (pe_iop p), (pe_fop p); added;
    revalidated pid_revalidate_wp HQ Hd.
Qed.

#[export] Instance task_dir_instantiates iop fop stuff : Instantiates (task_dir_instantiate iop fop stuff).
Proof. unfold task_dir_instantiate. instantiated. added. revalidated pid_revalidate_wp HQ Hd. Qed.

#[export] Instance proc_pid_instantiates `{Config} : Instantiates proc_pid_instantiate.
Proof. exact (task_dir_instantiates _ _ _). Qed.

#[export] Instance proc_task_instantiates `{Config} : Instantiates proc_task_instantiate.
Proof. exact (task_dir_instantiates _ _ _). Qed.
#[export] Instance proc_fdinfo_instantiates fd : Instantiates (proc_fdinfo_instantiate fd).
Proof.
  unfold proc_fdinfo_instantiate. instantiated. added.
  revalidated tid_fd_revalidate_wp HQ Hd.
Qed.

#[export] Instance proc_fd_instantiates fd : Instantiates (proc_fd_instantiate fd).
Proof.
  unfold proc_fd_instantiate. instantiated. kunfold. kcbn. intros [files|] m1 _; kcbn.
  2: { intros [] m2 _. repeat (kdec; kcbn). by apply HQ; [|auto]. }
  intros [] m2 _. kcbn. intros [file|] m3 _; kcbn; repeat (kdec; kcbn).
  2: { intros [] m4 _. repeat (kdec; kcbn). intros [] m5 _. repeat (kdec; kcbn). intros [] m6 _.
       repeat (kdec; kcbn). by apply HQ; [|auto]. }
  destruct (negb _), (negb _); kcbn; intros [] m4 _; repeat (kdec; kcbn); intros [] m5 _; repeat (kdec; kcbn);
    added; revalidated tid_fd_revalidate_wp HQ Hd.
Qed.

#[export] Instance proc_base_instantiates p : Instantiates (proc_base_instantiate p).
Proof.
  intros dir dentry task [m h b l] Q HQ. unfold proc_base_instantiate, inode_sb. kunfold. kcbn.
  intros [ino|] m1 _; kcbn; [|by apply HQ; [|auto]]. intros now m2 _. kcbn. intros [pid|] m3 _; kcbn.
  2: { intros [] m4 _. repeat (kdec; kcbn). by apply HQ; [|auto]. }
  unfold apply_entry. destruct (S_ISDIR _), (S_ISLNK _), (pe_iop p), (pe_fop p); added; by apply HQ; [|auto].
Qed.

(** ** Properties *)

Definition dumpable (A : forall o, ans o) (m : kmem) (task : task_id) : bool :=
  match t_mm (k_task m !!! task) with Some mm => A (GetDumpable mm) =? 1 | None => false end.

(** Who owns the files of a task: itself when it may be dumped, root when it
    may not, and always itself in the directories everyone can list. *)
Definition owner (A : forall o, ans o) (m : kmem) (task : task_id) (mode : Z) : Z * Z :=
  if (mode =? world_dir_mode) || dumpable A m task
  then (euid (A (TaskCred task)), egid (A (TaskCred task))) else (0, 0).

Definition owned_by (A : forall o, ans o) (m : kmem) (task : task_id) (i i' : inode) : Prop :=
  (i_uid i', i_gid i') = owner A m task (i_mode i) /\
  i_mode i' = Z.ldiff (i_mode i) (Z.lor S_ISUID S_ISGID) /\
  i' = set_i_mode (i_mode i') (set_i_ids (i_uid i') (i_gid i') i).

Lemma task_dumpable_spec (A : forall o, ans o) task w (Q : bool -> world -> Prop) :
  (forall w', balanced w w' -> mem w' = mem w -> Q (dumpable A (mem w) task) w') ->
  wp (answers A) (task_dumpable task) Q w.
Proof.
  intros HQ. destruct w as [m h b l]. unfold task_dumpable. ksteps; cbn [mem] in *;
    match goal with |- Q ?b ?w => replace b with (dumpable A m task); [by apply HQ|] end;
    unfold dumpable; by match goal with H : t_mm _ = _ |- _ => rewrite H end.
Qed.

Lemma own_spec (A : forall o, ans o) task i w (Q : unit -> world -> Prop) :
  (forall w', balanced w w' ->
    mem w' = upd_inode i (set_i_ids (euid (A (TaskCred task))) (egid (A (TaskCred task)))) (mem w) -> Q tt w') ->
  wp (answers A) (own_by_task task i) Q w.
Proof. intros HQ. destruct w as [m h b l]. unfold own_by_task. ksteps. destruct (A (Unlock Rcu)). by apply HQ. Qed.

(** The ownership code both revalidate functions share. *)
Lemma reown_wp {B : Type} (A : forall o, ans o) (own : bool) task i w (k : prog B) (Q : B -> world -> Prop) :
  (forall w', balanced w w' -> k_dentry (mem w') = k_dentry (mem w) ->
    (forall j, j <> i -> k_inode (mem w') !!! j = k_inode (mem w) !!! j) ->
    (own = (i_mode (k_inode (mem w) !!! i) =? world_dir_mode) || dumpable A (mem w) task ->
     owned_by A (mem w) task (k_inode (mem w) !!! i) (k_inode (mem w') !!! i)) ->
    wp (answers A) k Q w') ->
  wp (answers A) ((if own then own_by_task task i else modify (upd_inode i (set_i_ids 0 0)));; strip_ids i;; k) Q w.
Proof.
  intros HQ.
  assert (Hfin : forall u g w', balanced w w' ->
    (u, g) = (if own then (euid (A (TaskCred task)), egid (A (TaskCred task))) else (0, 0)) ->
    mem w' = upd_inode i (fun x => set_i_mode (Z.ldiff (i_mode x) (Z.lor S_ISUID S_ISGID)) x)
      (upd_inode i (set_i_ids u g) (mem w)) -> wp (answers A) k Q w').
  { intros u g w' Hb Hug Hm. apply HQ; [done|..]; rewrite Hm.
    - by rewrite !k_dentry_upd_inode.
    - intros j Hj. by rewrite !k_inode_upd_inode, !lookup_total_insert_ne by done.
    - intros Hown. unfold owned_by, owner. rewrite <- Hown, <- Hug, !k_inode_upd_inode, !lookup_total_insert_eq.
      by destruct (k_inode (mem w) !!! i). }
  destruct own.
  - apply wp_bind, own_spec. intros [m1 h1 b1 l1] Hb Hm. cbn [mem] in Hm. subst m1. unfold strip_ids. kcbn.
    by eapply Hfin.
  - destruct w as [m h b l]. unfold strip_ids. kcbn. by eapply Hfin.
Qed.

(** What a revalidation does to the inode of its dentry. *)
Definition revalidated_to (A : forall o, ans o) (dentry : dentry_id) (i : inode_id) (w : world) (r : bool) (w' : world) : Prop :=
  balanced w w' /\ (r = true -> k_dentry (mem w') = k_dentry (mem w)) /\
  (forall j, j <> i -> k_inode (mem w') !!! j = k_inode (mem w) !!! j) /\
  match A (GetProcTask i) with
  | Some t => r = true /\ owned_by A (mem w) t (k_inode (mem w) !!! i) (k_inode (mem w') !!! i)
  | None => r = false /\ mem w' = mem w /\ exists x, In (Obs (DDrop dentry) x) (log w')
  end.

Lemma pid_revalidate_answers (A : forall o, ans o) dentry i w : d_inode (k_dentry (mem w) !!! dentry) = Some i ->
  wp (answers A) (pid_revalidate dentry) (revalidated_to A dentry i w) w.
Proof.
  intros Hd. destruct w as [k0 h0 b0 l0]. cbn [mem] in *. unfold revalidated_to. cbn [mem]. unfold pid_revalidate, dentry_inode. kunfold. kcbn. rewrite Hd. kcbn.
  intros t m [-> ->]. destruct (A (GetProcTask i)) as [t|]; kcbn.
  2: { intros x m [-> ->]. do 5 (split; [done|]). eexists. by left. }
  assert (Hend : forall (own : bool) w1, mem w1 = k0 -> balanced (World k0 (RTask t :: h0) b0 []) w1 ->
    own = (i_mode (k_inode k0 !!! i) =? world_dir_mode) || dumpable A k0 t ->
    wp (answers A) (((if own then own_by_task t i else modify (upd_inode i (set_i_ids 0 0)));;
       strip_ids i;; Call (SecurityTaskToInode t i) (fun _ => Call (PutTaskStruct t) (fun _ => Ret true))) : prog bool)
      (fun (r : bool) w' => balanced (World k0 h0 b0 l0) w' /\ (r = true -> k_dentry (mem w') = k_dentry k0) /\
         (forall j, j <> i -> k_inode (mem w') !!! j = k_inode k0 !!! j) /\
         r = true /\ owned_by A k0 t (k_inode k0 !!! i) (k_inode (mem w') !!! i)) w1).
  { intros own [m1 h1 b1 l1] Hm [Hh Hb] Hown. cbn [mem held bad] in *. subst m1 h1 b1.
    apply reown_wp. intros [m1 h1 b1 l2] [Hh Hb] Hkd Hj Ho. cbn [mem held bad] in *. subst h1 b1. kcbn.
    intros [] m2 [_ ->]. kcbn. intros [] m2 [_ ->]. repeat (kdec; kcbn). split; [done|]. auto. }
  destruct (i_mode (k_inode k0 !!! i) =? world_dir_mode) eqn:Hmode; kcbn.
  - by apply (Hend true).
  - apply wp_bind, task_dumpable_spec. intros w1 Hb Hm. by apply Hend.
Qed.

(** C17: Revalidating the dentry of a task's file: while the task lives, its
    inode is re-owned (by the task's effective ids when the task may be
    dumped or the directory is world readable, by root otherwise) and loses
    its set-id bits, nothing else changes, and the dentry stays; when the
    task is gone the dentry is dropped and nothing changes. *)
Theorem pid_revalidate_spec (A : forall o, ans o) dentry i w : d_inode (k_dentry (mem w) !!! dentry) = Some i ->
  ends (fixed A) (pid_revalidate dentry) w (revalidated_to A dentry i w).
Proof. intros Hd. apply (wp_ends _ (answers A)); [done|]. by apply pid_revalidate_answers. Qed.

Lemma pid_getattr_answers (A : forall o, ans o) dentry i w :
  d_inode (k_dentry (mem w) !!! dentry) = Some i ->
  wp (answers A) (pid_getattr dentry) (fun stat w' => balanced w w' /\ mem w' = mem w /\
    (st_uid stat, st_gid stat) = match A (PidTask (A (ProcPid i))) with
      Some t => owner A (mem w) t (i_mode (k_inode (mem w) !!! i)) | None => (0, 0) end) w.
Proof.
  intros Hd. destruct w as [k0 h0 b0 l0]. cbn [mem] in *. unfold pid_getattr, dentry_inode. kunfold. kcbn.
  rewrite Hd. kcbn. intros st m [-> ->]. kcbn.
  intros [] m [_ ->]. kcbn. intros pid m [-> ->]. kcbn. intros t m [-> ->]. repeat (kdec; kcbn).
  destruct (A (PidTask _)) as [t|]; kcbn.
  2: { intros [] m [_ ->]. repeat (kdec; kcbn). done. }
  unfold owner. destruct (i_mode (k_inode k0 !!! i) =? world_dir_mode); kcbn.
  { intros c m [-> ->]. kcbn. intros [] m [_ ->]. repeat (kdec; kcbn). done. }
  apply wp_bind, wp_bind, task_dumpable_spec. intros [m1 h1 b1 l1] [Hh Hb] Hm. cbn [mem held bad] in *. subst.
  destruct (dumpable A k0 t); kcbn; [intros c m [-> ->]; kcbn|]; intros [] m [_ ->]; repeat (kdec; kcbn); done.
Qed.

(** stat agrees with the inode: for a task that stays, the owner
    [pid_getattr] reports is the owner the next revalidation stores in the
    inode, whatever the inode held before. *)
Theorem getattr_agrees_with_revalidate (A : forall o, ans o) dentry i w :
  d_inode (k_dentry (mem w) !!! dentry) = Some i ->
  A (PidTask (A (ProcPid i))) = A (GetProcTask i) ->
  ends (fixed A) (stat ← pid_getattr dentry; ok ← pid_revalidate dentry; mret (stat, ok)) w (fun r w' =>
    balanced w w' /\
    (r.2 = true -> (st_uid r.1, st_gid r.1) =
       (i_uid (k_inode (mem w') !!! i), i_gid (k_inode (mem w') !!! i)))).
Proof.
  intros Hd Ht. apply (wp_ends _ (answers A)); [done|]. apply wp_bind.
  eapply wp_mono; [by apply pid_getattr_answers|]. intros stat w1 (Hb & Hm & Hu). apply wp_bind.
  eapply wp_mono; [apply (pid_revalidate_answers A dentry i); by rewrite Hm|].
  intros ok w2 (Hb2 & _ & _ & Ho). kcbn. split; [by apply (balanced_trans _ w1)|]. intros ->.
  rewrite Ht in Hu. rewrite Hm in Ho. destruct (A (GetProcTask i)); [|by destruct Ho].
  destruct Ho as (_ & Ho & _). by rewrite Hu, Ho.
Qed.

(** ** Instantiation in a dcache *)

(** The kernel that gives every operation one answer, with a dcache. *)
Definition dcache_step (o : op) (m : kmem) : kmem :=
  match o with DAdd d i => upd_dentry d (set_d_inode (Some i)) m | _ => m end.

Definition dcache_env (A : forall o, ans o) : env := fun o _ m => (A o, dcache_step o m).
Definition dcache_answers (A : forall o, ans o) : contract := fun o _ m x m' => x = A o /\ m' = dcache_step o m.

Lemma keeps_dcache_env A : keeps (dcache_env A) (dcache_answers A).
Proof. done. Qed.

(** A program that adds nothing to the dcache runs as without one. *)
Fixpoint adds_nothing {B : Type} (p : prog B) : Prop :=
  match p with
  | Ret _ => True
  | Call o k => (match o with DAdd _ _ => False | _ => True end) /\ forall x, adds_nothing (k x)
  | Get k => forall m, adds_nothing (k m)
  | Put _ k => adds_nothing k
  | Halt _ => True
  end.

Lemma wp_adds_nothing {B : Type} A (p : prog B) Q w :
  adds_nothing p -> wp (answers A) p Q w -> wp (dcache_answers A) p Q w.
Proof.
  revert w. induction p as [a|o k IH|k IH|m k IH|y]; intros w; cbn; [done| |intros Ha; apply IH, Ha|intros Ha; apply IH, Ha|done].
  intros [Ho Ha] H x m [-> ->]. replace (dcache_step o (mem w)) with (mem w) by (by destruct o).
  apply IH; [apply Ha|]. by apply H.
Qed.

Ltac adds_nothing := repeat first
  [ progress kcbn | progress cbn [adds_nothing] | exact I | split | intros ?
  | match goal with |- adds_nothing ?p => ksplit p end ].

Lemma pid_revalidate_adds_nothing dentry : adds_nothing (pid_revalidate dentry).
Proof.
  unfold pid_revalidate, dentry_inode, own_by_task, strip_ids, task_dumpable. kunfold. adds_nothing.
Qed.

Lemma proc_pid_make_inode_adds_nothing sb task : adds_nothing (proc_pid_make_inode sb task).
Proof. unfold proc_pid_make_inode, own_by_task, task_dumpable. kunfold. adds_nothing. Qed.

Lemma k_task_upd_inode x f m : k_task (upd_inode x f m) = k_task m.
Proof. by destruct m. Qed.
Lemma k_task_upd_dentry x f m : k_task (upd_dentry x f m) = k_task m.
Proof. by destruct m. Qed.

Lemma owner_ext (A : forall o, ans o) m m' t mode : k_task m = k_task m' -> owner A m t mode = owner A m' t mode.
Proof. intros Hk. unfold owner, dumpable. by rewrite Hk. Qed.

(** What [proc_pid_make_inode] made: only the inode it returns has changed. *)
Definition made_inode (pid : pid_id) (ino : inode_id) (w w' : world) : Prop :=
  keeps_only [RInode ino] w w' /\ k_dentry (mem w') = k_dentry (mem w) /\ k_task (mem w') = k_task (mem w) /\
  exists now u g, k_inode (mem w') !!! ino =
    set_i_ids u g (set_ei_pid (Some pid) (set_i_op (Some proc_def_inode_operations)
      (set_i_times now (k_inode (mem w) !!! ino)))).

Lemma proc_pid_make_inode_answers (A : forall o, ans o) sb task w (Q : option inode_id -> world -> Prop) :
  (forall r w', match A (NewInode sb), A (GetTaskPid task) with
     | Some ino, Some pid => r = Some ino /\ made_inode pid ino w w'
     | _, _ => r = None /\ balanced w w' /\ k_dentry (mem w') = k_dentry (mem w)
     end -> Q r w') ->
  wp (answers A) (proc_pid_make_inode sb task) Q w.
Proof.
  intros HQ. destruct w as [m h b l]. unfold proc_pid_make_inode. kunfold. kcbn. intros i0 m0 [-> ->].
  destruct (A (NewInode sb)) as [ino|]; kcbn; [|by apply HQ].
  intros now m0 [-> ->]. kcbn. intros p0 m0 [-> ->]. destruct (A (GetTaskPid task)) as [pid|]; kcbn.
  2: { intros [] m0 [_ ->]. repeat (kdec; kcbn). apply HQ. cbn [mem]. by rewrite !k_dentry_upd_inode. }
  apply wp_bind, task_dumpable_spec. intros [m1 h1 b1 l1] [Hh Hb] Hm. cbn [mem held bad] in *. subst.
  destruct (dumpable A _ task); kcbn.
  - apply wp_bind, own_spec. intros [m2 h2 b2 l2] [Hh Hb] Hm. cbn [mem held bad] in *. subst. kcbn.
    intros [] m0 [_ ->]. apply HQ. cbn [mem]. split; [done|]. split; [done|]. cbn [mem].
    rewrite !k_dentry_upd_inode, !k_task_upd_inode, !k_inode_upd_inode, !lookup_total_insert_eq. split_and!; try done.
    by eexists _, _, _.
  - intros [] m0 [_ ->]. apply HQ. cbn [mem]. split; [done|]. split; [done|]. cbn [mem].
    rewrite !k_dentry_upd_inode, !k_task_upd_inode, !k_inode_upd_inode, !lookup_total_insert_eq. split_and!; try done.
    exists (A CurrentTime), (i_uid (k_inode m !!! ino)), (i_gid (k_inode m !!! ino)). by destruct (k_inode m !!! ino).
Qed.

(** What an inode has to be to stand for the entry [p] of a task's table. *)
Definition shows_entry (p : pid_entry) (pid : pid_id) (i : inode) : Prop :=
  ei_pid i = Some pid /\ ei_op i = pe_op p /\
  i_op i = Some (default proc_def_inode_operations (pe_iop p)) /\
  (forall fop, pe_fop p = Some fop -> i_fop i = Some fop) /\
  (S_ISDIR (pe_mode p) = true -> i_nlink i = 2).

Lemma pident_built {B : Type} (p : pid_entry) (pid : pid_id) ino m i0 now u g :
  k_inode m !!! ino = set_i_ids u g (set_ei_pid (Some pid) (set_i_op (Some proc_def_inode_operations) (set_i_times now i0))) ->
  forall (R : contract) w (k : prog B) (Q : B -> world -> Prop), mem w = m ->
  (forall w', balanced w w' -> k_dentry (mem w') = k_dentry m -> k_task (mem w') = k_task m ->
    shows_entry p pid (k_inode (mem w') !!! ino) -> i_mode (k_inode (mem w') !!! ino) = pe_mode p -> wp R k Q w') ->
  wp R (modify (upd_inode ino (set_i_mode (pe_mode p)));;
        (if S_ISDIR (pe_mode p) then modify (upd_inode ino (set_i_nlink 2)) else mret tt);;
        apply_entry p ino;; k) Q w.
Proof.
  intros Hi R [m1 h b l] k Q Hm HQ. cbn [mem] in Hm. subst m1. unfold apply_entry.
  destruct (S_ISDIR (pe_mode p)) eqn:Hdir, (pe_iop p) as [iop|] eqn:Hiop, (pe_fop p) as [fop|] eqn:Hfop; kcbn;
    apply HQ; cbn [mem]; try done;
    rewrite ?k_dentry_upd_inode, ?k_task_upd_inode, ?k_inode_upd_inode, ?lookup_total_insert_eq; try done;
    rewrite Hi; destruct i0; unfold shows_entry; rewrite ?Hdir, ?Hiop, ?Hfop; cbn; try done; split_and!; try done;
    intros ? [= <-]; done.
Qed.

(** What [proc_pident_instantiate] leaves of [dentry] when the kernel answers
    as [A]. *)
Definition instantiated (A : forall o, ans o) p0 dir dentry task w (r : Z) (w' : world) : Prop :=
  balanced w w' /\
  match A (NewInode (i_sb (k_inode (mem w) !!! dir))), A (GetTaskPid task) with
  | Some ino, Some pid =>
      let i := k_inode (mem w') !!! ino in
      match A (GetProcTask ino) with
      | Some t => r = 0 /\ shows_entry p0 pid i /\
          d_inode (k_dentry (mem w') !!! dentry) = Some ino /\
          d_op (k_dentry (mem w') !!! dentry) = Some pid_dentry_operations /\
          i_mode i = Z.ldiff (pe_mode p0) (Z.lor S_ISUID S_ISGID) /\
          (i_uid i, i_gid i) = owner A (mem w) t (pe_mode p0)
      | None => r = - ENOENT
      end
  | _, _ => r = - ENOENT /\ k_dentry (mem w') = k_dentry (mem w)
  end.

Lemma proc_pident_instantiate_answers (A : forall o, ans o) p0 dir dentry task w :
  wp (dcache_answers A) (proc_pident_instantiate p0 dir dentry task) (instantiated A p0 dir dentry task w) w.
Proof.
  unfold instantiated, proc_pident_instantiate, inode_sb. kcbn. apply wp_bind, wp_adds_nothing; [apply proc_pid_make_inode_adds_nothing|].
  apply proc_pid_make_inode_answers. intros r w1 Hr.
  destruct (A (NewInode _)) as [ino|]; [|destruct Hr as (-> & Hb & Hk); by kcbn].
  destruct (A (GetTaskPid task)) as [pid|]; [|destruct Hr as (-> & Hb & Hk); by kcbn].
  destruct Hr as (-> & [Hh Hb] & Hkd & Hkt & now & u & g & Hi). cbn [opt_res app] in *. cbv beta iota.
  apply (pident_built p0 pid ino _ _ now u g Hi); [done|]. intros w2 [Hh2 Hb2] Hkd2 Hkt2 Hs Hmode.
  unfold set_and_add. kunfold. kcbn. intros [] m3 [_ Hm3]. cbn [dcache_step] in Hm3.
  set (w3 := World m3 _ _ _). apply wp_bind, wp_adds_nothing; [apply pid_revalidate_adds_nothing|].
  assert (Hk3 : k_inode m3 = k_inode (mem w2) /\ k_task m3 = k_task (mem w2) /\
    d_inode (k_dentry m3 !!! dentry) = Some ino /\ d_op (k_dentry m3 !!! dentry) = Some pid_dentry_operations).
  { rewrite Hm3, !k_inode_upd_dentry, !k_task_upd_dentry, !k_dentry_upd_dentry, !lookup_total_insert_eq.
    by destruct (k_dentry (mem w2) !!! dentry). }
  destruct Hk3 as (Hi3 & Ht3 & Hd3 & Ho3).
  eapply wp_mono; [apply (pid_revalidate_answers A dentry ino w3 Hd3)|].
  intros ok w4 ([Hh4 Hb4] & Hk4 & _ & Hrev). kcbn. cbn [mem held bad w3] in *.
  assert (Hbal : balanced w w4).
  { split; [rewrite Hh4, Hh2, Hh; apply release_head|]. rewrite Hb4, Hh2, Hh, holds_head, Hb2. done. }
  split; [exact Hbal|]. destruct (A (GetProcTask ino)) as [t|].
  2: { destruct Hrev as (-> & _). done. }
  destruct Hrev as (-> & Hown & Hmode4 & Hrest). specialize (Hk4 eq_refl). rewrite Hi3 in *. rewrite Hmode in *.
  split; [done|]. rewrite Hk4. split_and!; try done.
  - rewrite Hrest. unfold shows_entry in *. by destruct (k_inode (mem w2) !!! ino).
  - rewrite Hown. apply owner_ext. congruence.
Qed.

(** Instantiating an entry: when it answers NULL, the dentry has the
    table's operations and an inode that stands for exactly this entry and
    this task, with the entry's mode and the task as owner when that may be
    shown; a dead task or a failed allocation is -ENOENT, and in every case
    nothing stays held: the inode is the dentry's, or gone. *)
Theorem proc_pident_instantiate_spec (A : forall o, ans o) p0 dir dentry task w :
  ends (dcache_env A) (proc_pident_instantiate p0 dir dentry task) w (fun r w' => balanced w w' /\
    match A (NewInode (i_sb (k_inode (mem w) !!! dir))), A (GetTaskPid task) with
    | Some ino, Some pid =>
        let i := k_inode (mem w') !!! ino in
        match A (GetProcTask ino) with
        | Some t => r = 0 /\ shows_entry p0 pid i /\
            d_inode (k_dentry (mem w') !!! dentry) = Some ino /\
            d_op (k_dentry (mem w') !!! dentry) = Some pid_dentry_operations /\
            i_mode i = Z.ldiff (pe_mode p0) (Z.lor S_ISUID S_ISGID) /\
            (i_uid i, i_gid i) = owner A (mem w) t (pe_mode p0)
        | None => r = - ENOENT
        end
    | _, _ => r = - ENOENT /\ k_dentry (mem w') = k_dentry (mem w)
    end).
Proof.
  apply (wp_ends _ (dcache_answers A)); [apply keeps_dcache_env|]. apply proc_pident_instantiate_answers.
Qed.

(** Every instantiate function keeps its callers' contract: against any
    kernel whose [d_add] attaches the inode, it ends in NULL, -ENOENT or
    -ENOMEM with every inode, task, table and lock reference given back. *)
Theorem instantiate_functions_hold_nothing `{Config} E fd p (f : instantiate_t) dir dentry task w :
  keeps E dcache ->
  In f [proc_fd_instantiate fd; proc_fdinfo_instantiate fd; proc_pident_instantiate p; proc_base_instantiate p;
        proc_pid_instantiate; proc_task_instantiate] ->
  ends E (f dir dentry task) w (fun r w' => balanced w w' /\ (r = 0 \/ r = - ENOENT \/ r = - ENOMEM)).
Proof.
  intros HE Hf. apply (wp_ends _ dcache); [done|].
  assert (Hi : Instantiates f).
  { destruct Hf as [<-|[<-|[<-|[<-|[<-|[<-|[]]]]]]].
    - exact (proc_fd_instantiates fd).
    - exact (proc_fdinfo_instantiates fd).
    - exact (proc_pident_instantiates p).
    - exact (proc_base_instantiates p).
    - exact proc_pid_instantiates.
    - exact proc_task_instantiates. }
  by apply Hi.
Qed.

(** A task may always search its own fd directory: [proc_fd_permission]
    grants what the mode bits grant, and everything to the task itself; any
    other refusal is passed on unchanged. *)
Theorem proc_fd_permission_spec (A : forall o, ans o) inode mask w :
  let generic := A (GenericPermission inode mask) in
  let self := A (TaskPid (k_current (mem w))) = A (ProcPid inode) in
  ends (fixed A) (proc_fd_permission inode mask) w (fun r w' => balanced w w' /\ mem w' = mem w /\
    (r = 0 <-> generic = 0 \/ self) /\ (r <> 0 -> r = generic)).
Proof.
  kfixed. cbn [mem]. unfold proc_fd_permission. kunfold. kcbn. intros g m0 [-> ->].
  destruct (Z.eqb_spec (A (GenericPermission inode mask)) 0) as [Hg|Hg]; kcbn; [split_and!; try done; naive_solver|].
  intros a m1 [-> ->] b m2 [-> ->]. destruct (decide _); split_and!; try done; naive_solver.
Qed.

(** ** Witnesses *)

(** Task 1, which may be dumped, with effective ids 1000 and 100; dentry 5 is
    one of its files, inode 6. New inodes are number 9. *)
Definition ino_kernel (o : op) : ans o :=
  match o with
  | GetProcTask _ => Some 1%nat
  | PidTask _ => Some 1%nat
  | NewInode _ => Some 9%nat
  | GetTaskPid _ => Some 3%nat
  | GetDumpable _ => 1
  | TaskCred _ => Cred 500 1000 100
  | o => silent o
  end.

Definition ino_mem : kmem :=
  Kmem 1 {[ 1%nat := Task 1 [] 0 None (Some 7%nat) 0 0 7 0 0 false 3 inhabitant 0 0 0 [] 0 [] ]} ∅ ∅ ∅ ∅
    {[ 6%nat := set_i_mode (Z.lor S_IFREG S_ISUID) inhabitant ]} {[ 5%nat := Dentry [] (Some 6%nat) None 0 ]}
    ∅ ∅ ∅ ∅ ∅ ∅ ∅ HookDummy.

Lemma pid_revalidate_spec_witness :
  ends (fixed ino_kernel) (pid_revalidate 5%nat) (world0 ino_mem) (fun r w' =>
    r = true /\ (i_uid (k_inode (mem w') !!! 6%nat), i_gid (k_inode (mem w') !!! 6%nat)) = (1000, 100)).
Proof.
  refine (ends_mono _ _ _ _ _ (pid_revalidate_spec ino_kernel 5%nat 6%nat (world0 ino_mem) _) _).
  - vm_compute. reflexivity.
  - intros r w' (_ & _ & _ & Hr & Ho & _). exact (conj Hr Ho).
Defined.

Lemma getattr_agrees_with_revalidate_witness :
  ends (fixed ino_kernel) (stat ← pid_getattr 5%nat; ok ← pid_revalidate 5%nat; mret (stat, ok)) (world0 ino_mem)
    (fun r w' => r.2 = true -> (st_uid r.1, st_gid r.1) =
       (i_uid (k_inode (mem w') !!! 6%nat), i_gid (k_inode (mem w') !!! 6%nat))).
Proof.
  refine (ends_mono _ _ _ _ _ (getattr_agrees_with_revalidate ino_kernel 5%nat 6%nat (world0 ino_mem) _ _) _).
  - vm_compute. reflexivity.
  - reflexivity.
  - intros r w' [_ H]. exact H.
Defined.

Lemma dcache_env_dcache A : keeps (dcache_env A) dcache.
Proof.
  intros o tr m. destruct o; try exact I. cbn. rewrite k_dentry_upd_dentry, lookup_total_insert_eq.
  by destruct (k_dentry m !!! d).
Qed.

Lemma instantiate_functions_hold_nothing_witness :
  keeps (dcache_env ino_kernel) dcache /\
  ends (dcache_env ino_kernel) (@proc_pid_instantiate config_all 6%nat 5%nat 1%nat) (world0 ino_mem)
    (fun r w' => balanced (world0 ino_mem) w' /\ (r = 0 \/ r = - ENOENT \/ r = - ENOMEM)).
Proof.
  split; [exact (dcache_env_dcache ino_kernel)|].
  refine (@instantiate_functions_hold_nothing config_all (dcache_env ino_kernel) 0
    (NOD "self" 0 None None OpZero) _ 6%nat 5%nat 1%nat (world0 ino_mem) (dcache_env_dcache ino_kernel) _).
  right; right; right; right; left. reflexivity.
Defined.
