(* ===== verification/Dirs.v ===== *)
(** * The directories with a fixed or per-descriptor content (fs/proc/base.c)

    [proc_fill_cache], which emits one entry and gives it a dentry first; the
    table directories ([proc_pident_lookup], [proc_pident_readdir] and their
    users); /proc/<pid>/fd and fdinfo ([proc_lookupfd_common],
    [proc_readfd_common]); and the entries of /proc that are no processes
    ([proc_base_lookup]). *)
From S2P Require Import Prelude Format Structs Kernel Access Names Tables Links Inodes.

Definition DT_UNKNOWN := 0.
Definition DT_DIR := 4.

(** The first half: the child's dentry, found or made, with a reference;
    [None] also stands for the [ERR_PTR] of a failed [instantiate]. *)
Definition fill_cache_child (dir : dentry_id) (name : bytes) (instantiate : instantiate_t) (task : task_id) :
    prog (option dentry_id) :=
  child ← d_lookup dir name;
  match child with
  | Some child => mret (Some child)
  | None =>
      new ← d_alloc dir name;
      match new with
      | None => mret None
      | Some new =>
          dir_inode ← dentry_inode dir;
          r ← instantiate dir_inode new task;
          if negb (r =? 0) then dput new;; mret None
          else mret (Some new)
      end
  end.

(** The second half, from [if (!child || IS_ERR(child) || !child->d_inode)]. *)
Definition fill_cache_emit (filp : file_id) (dir : dentry_id) (name : bytes) (len : Z) (child : option dentry_id) : prog Z :=
  inode ← match child with
          | None => mret None
          | Some child => gets (fun m => d_inode (k_dentry m !!! child))
          end;
  '(ino, type) ← match child, inode with
                 | Some child, Some inode =>
                     ino ← gets (fun m => i_ino (k_inode m !!! inode));
                     mode ← gets (fun m => i_mode (k_inode m !!! inode));
                     dput child;;
                     mret (ino, Z.shiftr mode 12)
                 | _, _ => mret (0, DT_UNKNOWN)
                 end;
  ino ← (if ino =? 0 then find_inode_number dir name else mret ino);
  let ino := if ino =? 0 then 1 else ino in
  pos ← gets (fun m => f_pos (k_file m !!! filp));
  filldir name len pos ino type.

Definition proc_fill_cache (filp : file_id) (name : bytes) (len : Z) (instantiate : instantiate_t)
    (task : task_id) : prog Z :=
  dir ← gets (fun m => f_dentry (k_file m !!! filp));
  child ← fill_cache_child dir name instantiate task;
  fill_cache_emit filp dir name len child.

Definition f_pos_inc (filp : file_id) : prog unit :=
  modify (upd_file filp (fun f => set_f_pos (s64 (f_pos f + 1)) f)).

Definition file_pos (filp : file_id) : prog Z := gets (fun m => f_pos (k_file m !!! filp)).

(** ** Directories made from a table *)

Definition proc_pident_lookup (dir : inode_id) (dentry : dentry_id) (ents : list pid_entry) : prog Z :=
  task ← get_proc_task dir;
  match task with
  | None => mret (- ENOENT)
  | Some task =>
      name ← gets (fun m => d_name (k_dentry m !!! dentry));
      error ← match find_entry name ents with
              | None => mret (- ENOENT)
              | Some p => proc_pident_instantiate p dir dentry task
              end;
      put_task_struct task;;
      mret error
  end.

Definition proc_pident_fill_cache (filp : file_id) (task : task_id) (p : pid_entry) : prog Z :=
  proc_fill_cache filp (pe_name p) (pe_len p) (proc_pident_instantiate p) task.

(** The [while] loop; whether it ran to the end. *)
Fixpoint pident_loop (filp : file_id) (task : task_id) (ps : list pid_entry) : prog bool :=
  match ps with
  | [] => mret true
  | p :: ps =>
      r ← proc_pident_fill_cache filp task p;
      if r <? 0 then mret false
      else f_pos_inc filp;; pident_loop filp task ps
  end.

(** One of the two dot entries; whether it was accepted. *)
Definition emit_dot (filp : file_id) (name : bytes) (pos ino : Z) : prog bool :=
  r ← filldir name (len name) pos ino DT_DIR;
  if r <? 0 then mret false else f_pos_inc filp;; mret true.

(** [switch (i) { case 0: ... case 1: ... }] up to the default case: what [i]
    is there, or [None] after [goto out]. *)
Definition pident_dots (filp : file_id) (dentry : dentry_id) (inode : inode_id) (i : Z) : prog (option Z) :=
  i ← (if i =? 0 then
         ino ← gets (fun m => i_ino (k_inode m !!! inode));
         ok ← emit_dot filp (str ".") i ino;
         mret (if (ok : bool) then Some (i + 1) else None)
       else mret (Some i));
  match i with
  | None => mret None
  | Some i =>
      if i =? 1 then
        ino ← parent_ino dentry;
        ok ← emit_dot filp (str "..") i ino;
        mret (if (ok : bool) then Some (i + 1) else None)
      else mret (Some i)
  end.

Definition proc_pident_readdir (filp : file_id) (ents : list pid_entry) : prog Z :=
  dentry ← gets (fun m => f_dentry (k_file m !!! filp));
  inode ← dentry_inode dentry;
  task ← get_proc_task inode;
  match task with
  | None => mret (- ENOENT)
  | Some task =>
      pos ← file_pos filp;
      i ← pident_dots filp dentry inode (s32 pos);
      ret ← match i with
            | None => mret 0
            | Some i =>
                let i := i - 2 in
                if len ents <=? u32 i then mret 1
                else
                  done ← pident_loop filp task (zdrop i ents);
                  mret (if (done : bool) then 1 else 0)
            end;
      put_task_struct task;;
      mret ret
  end.

Section Tables.
Context `{Config}.

Definition proc_attr_dir_readdir (filp : file_id) : prog Z := proc_pident_readdir filp attr_dir_stuff.
Definition proc_attr_dir_lookup (dir : inode_id) (dentry : dentry_id) : prog Z :=
  proc_pident_lookup dir dentry attr_dir_stuff.
Definition proc_tgid_base_readdir (filp : file_id) : prog Z := proc_pident_readdir filp tgid_base_stuff.
Definition proc_tgid_base_lookup (dir : inode_id) (dentry : dentry_id) : prog Z :=
  proc_pident_lookup dir dentry tgid_base_stuff.
Definition proc_tid_base_readdir (filp : file_id) : prog Z := proc_pident_readdir filp tid_base_stuff.
Definition proc_tid_base_lookup (dir : inode_id) (dentry : dentry_id) : prog Z :=
  proc_pident_lookup dir dentry tid_base_stuff.

End Tables.

(** The entries of /proc itself. *)
Definition proc_base_lookup (dir : inode_id) (dentry : dentry_id) : prog Z :=
  task ← get_proc_task dir;
  match task with
  | None => mret (- ENOENT)
  | Some task =>
      name ← gets (fun m => d_name (k_dentry m !!! dentry));
      error ← match find_entry name proc_base_stuff with
              | None => mret (- ENOENT)
              | Some p => proc_base_instantiate p dir dentry task
              end;
      put_task_struct task;;
      mret error
  end.

Definition proc_base_fill_cache (filp : file_id) (task : task_id) (p : pid_entry) : prog Z :=
  proc_fill_cache filp (pe_name p) (pe_len p) (proc_base_instantiate p) task.

(** ** Directories of open files *)

Definition proc_lookupfd_common (dir : inode_id) (dentry : dentry_id) (instantiate : Z -> instantiate_t) : prog Z :=
  task ← get_proc_task dir;
  name ← gets (fun m => d_name (k_dentry m !!! dentry));
  let fd := name_to_int name in
  match task with
  | None => mret (- ENOENT)
  | Some task =>
      result ← (if fd =? NO_NUMBER then mret (- ENOENT) else instantiate fd dir dentry task);
      put_task_struct task;;
      mret result
  end.

(** The [for] loop, with the file table; [fuel] bounds the descriptors it may
    look at. It is entered and left under [rcu_read_lock]. *)
Fixpoint readfd_loop (fuel : nat) (filp : file_id) (files : files_id) (p : task_id) (fd : Z)
    (instantiate : Z -> instantiate_t) : prog unit :=
  max ← max_fds files;
  if fd <? max then
    match fuel with
    | O => Halt OutOfFuel
    | S fuel =>
        file ← fcheck_files files fd;
        match file with
        | None =>
            f_pos_inc filp;; readfd_loop fuel filp files p (u32 (fd + 1)) instantiate
        | Some _ =>
            rcu_read_unlock;;
            let '(name, len) := snprintf PROC_NUMBUF (fmt_d (s32 fd)) in
            r ← proc_fill_cache filp name len (instantiate fd) p;
            rcu_read_lock;;
            if r <? 0 then mret tt
            else f_pos_inc filp;; readfd_loop fuel filp files p (u32 (fd + 1)) instantiate
        end
    end
  else mret tt.

Definition readfd_files (fuel : nat) (filp : file_id) (p : task_id) (instantiate : Z -> instantiate_t) : prog unit :=
  files ← get_files_struct p;
  match files with
  | None => mret tt
  | Some files =>
      rcu_read_lock;;
      pos ← file_pos filp;
      readfd_loop fuel filp files p (u32 (pos - 2)) instantiate;;
      rcu_read_unlock;;
      put_files_struct files
  end.

(** The cases 0 and 1 of the [switch]; whether the default case is reached. *)
Definition readfd_dots (filp : file_id) (dentry : dentry_id) (inode : inode_id) (fd : Z) : prog bool :=
  go ← (if fd =? 0 then
          ino ← gets (fun m => i_ino (k_inode m !!! inode));
          emit_dot filp (str ".") 0 ino
        else mret true);
  if (go : bool) && (fd <=? 1) then
    ino ← parent_ino dentry;
    emit_dot filp (str "..") 1 (u32 ino)
  else mret go.

Definition proc_readfd_common (fuel : nat) (filp : file_id) (instantiate : Z -> instantiate_t) : prog Z :=
  dentry ← gets (fun m => f_dentry (k_file m !!! filp));
  inode ← dentry_inode dentry;
  p ← get_proc_task inode;
  match p with
  | None => mret (- ENOENT)
  | Some p =>
      pos ← file_pos filp;
      let fd := u32 pos in
      go ← readfd_dots filp dentry inode fd;
      (if (go : bool) then readfd_files fuel filp p instantiate else mret tt);;
      put_task_struct p;;
      mret 0
  end.

Definition proc_lookupfd (dir : inode_id) (dentry : dentry_id) : prog Z :=
  proc_lookupfd_common dir dentry proc_fd_instantiate.
Definition proc_readfd (fuel : nat) (filp : file_id) : prog Z :=
  proc_readfd_common fuel filp proc_fd_instantiate.
Definition proc_lookupfdinfo (dir : inode_id) (dentry : dentry_id) : prog Z :=
  proc_lookupfd_common dir dentry proc_fdinfo_instantiate.
Definition proc_readfdinfo (fuel : nat) (filp : file_id) : prog Z :=
  proc_readfd_common fuel filp proc_fdinfo_instantiate.

(** ** What a directory operation leaves alone

    The names offered to the caller of readdir, the newest first: the name,
    its offset, and the caller's answer. *)
Fixpoint dirents (l : list obs) : list (bytes * Z * Z) :=
  match l with
  | [] => []
  | Obs (Filldir name _ pos _ _) x :: l => (name, pos, x) :: dirents l
  | _ :: l => dirents l
  end.

(** The kernel a directory runs in: open files move only under the code's own
    hands, [single_open] writing their [private_data] apart, a dentry changes
    only in [d_add], and the dcache holds no negative dentries of /proc, whose
    lookups never leave any. *)
Definition dir_stable : contract := fun o =>
  match o return list obs -> kmem -> ans o -> kmem -> Prop with
  | DLookup dir name => fun _ m x m' => k_file m' = k_file m /\ k_dentry m' = k_dentry m /\
      forall d, x = Some d -> is_Some (d_inode (k_dentry m !!! d))
  | SingleOpen f _ _ => fun _ m x m' => k_dentry m' = k_dentry m /\
      (forall g, g <> f -> k_file m' !!! g = k_file m !!! g) /\
      exists p, k_file m' !!! f = set_f_private p (k_file m !!! f)
  | o => fun _ m x m' => k_file m' = k_file m /\ k_dentry m' = k_dentry (dcache_step o m)
  end.

Definition attached (m : kmem) (d : dentry_id) : Prop := is_Some (d_inode (k_dentry m !!! d)).

(** No dentry moves to another mount or changes its name. *)
Definition same_place (m m' : kmem) : Prop := forall d,
  d_ns (k_dentry m' !!! d) = d_ns (k_dentry m !!! d) /\ d_name (k_dentry m' !!! d) = d_name (k_dentry m !!! d).

Definition frame (w w' : world) : Prop :=
  k_file (mem w') = k_file (mem w) /\ (forall d, attached (mem w) d -> attached (mem w') d) /\
  dirents (log w') = dirents (log w) /\ same_place (mem w) (mem w').

Definition framed {A : Type} (p : prog A) : Prop := forall w, wlp dir_stable p (fun _ w' => frame w w') w.

Lemma same_place_refl m : same_place m m.
Proof. done. Qed.

Lemma same_place_trans m1 m2 m3 : same_place m1 m2 -> same_place m2 m3 -> same_place m1 m3.
Proof. intros H12 H23 d. destruct (H12 d), (H23 d). split; congruence. Qed.

Lemma frame_refl w : frame w w.
Proof. done. Qed.

Lemma frame_trans w1 w2 w3 : frame w1 w2 -> frame w2 w3 -> frame w1 w3.
Proof.
  intros (H1 & H2 & H3 & H4) (H1' & H2' & H3' & H4'). split_and!; [congruence|auto|congruence|].
  by apply (same_place_trans _ (mem w2)).
Qed.

Lemma dir_stable_dcache o tr m x m' : dir_stable o tr m x m' -> dcache o tr m x m'.
Proof.
  destruct o; try done. cbn. intros [_ ->]. rewrite k_dentry_upd_dentry, lookup_total_insert_eq.
  by destruct (k_dentry m !!! d).
Qed.

Lemma framed_ret {A : Type} (a : A) : framed (mret a).
Proof. intros w. apply frame_refl. Qed.

Lemma framed_halt {A : Type} y : framed (@Halt A y).
Proof. done. Qed.

Lemma framed_bind {A B : Type} (p : prog A) (f : A -> prog B) :
  framed p -> (forall a, framed (f a)) -> framed (p ≫= f).
Proof.
  intros Hp Hf w. apply wlp_bind. eapply wlp_mono; [apply Hp|]. intros a w1 H1.
  eapply wlp_mono; [apply Hf|]. intros b w2 H2. by apply (frame_trans _ w1).
Qed.

Lemma framed_gets {A : Type} (f : kmem -> A) : framed (gets f).
Proof. intros w. apply frame_refl. Qed.

Lemma framed_modify f :
  (forall m, k_file (f m) = k_file m /\ (forall d, attached m d -> attached (f m) d) /\ same_place m (f m)) ->
  framed (modify f).
Proof. intros Hf w. cbn. destruct (Hf (mem w)) as (? & ? & ?). by split. Qed.

Lemma frame_call o : match o with Filldir _ _ _ _ _ | SingleOpen _ _ _ => False | _ => True end -> forall w x m,
  dir_stable o (log w) (mem w) x m -> frame w (after o x m w).
Proof.
  intros Ho w x m H. unfold frame.
  assert (Hm : k_file m = k_file (mem w) /\ k_dentry m = k_dentry (dcache_step o (mem w))).
  { destruct o; try exact H; [done|destruct H as (? & ? & _); by split]. }
  destruct Hm as [Hf Hd]. split; [done|]. split.
  - intros d. unfold attached. cbn. rewrite Hd. destruct o; try done. cbn.
    rewrite k_dentry_upd_dentry. destruct (decide (d = d0)) as [->|Hne].
    + rewrite lookup_total_insert_eq. intros _. by destruct (k_dentry (mem w) !!! d0).
    + by rewrite lookup_total_insert_ne.
  - split; [cbn; by destruct o|]. intros d. cbn. rewrite Hd. destruct o; try done. cbn.
    rewrite k_dentry_upd_dentry. destruct (decide (d = d0)) as [->|Hne].
    + rewrite lookup_total_insert_eq. by destruct (k_dentry (mem w) !!! d0).
    + by rewrite lookup_total_insert_ne.
Qed.

Lemma framed_call o : match o with Filldir _ _ _ _ _ | SingleOpen _ _ _ => False | _ => True end -> framed (call o).
Proof. intros Ho w x m H. by apply frame_call. Qed.

Lemma framed_upd_inode i f : framed (modify (upd_inode i f)).
Proof. apply framed_modify. intros m. by destruct m. Qed.

Lemma framed_d_op d ops : framed (modify (upd_dentry d (set_d_op ops))).
Proof.
  apply framed_modify. intros m. split; [by destruct m|]. unfold attached, same_place. rewrite k_dentry_upd_dentry.
  split; intros x; (destruct (decide (x = d)) as [->|Hne];
    [rewrite lookup_total_insert_eq; by destruct (k_dentry m !!! d)|by rewrite lookup_total_insert_ne]).
Qed.

Create HintDb framed.
#[export] Hint Resolve framed_ret framed_halt framed_bind framed_gets framed_upd_inode framed_d_op : framed.

(** Proves [framed] of a program from its syntax. *)
Ltac framed := repeat first
  [ match goal with |- forall _, _ => intros ? end | solve [auto with framed nocore] | apply framed_bind | apply framed_call; exact I
  | match goal with |- framed (match ?x with _ => _ end) => destruct x end ].

Lemma proc_pid_make_inode_framed sb task : framed (proc_pid_make_inode sb task).
Proof. unfold proc_pid_make_inode, own_by_task, task_dumpable. kunfold. framed. Qed.

Lemma dentry_inode_framed d : framed (dentry_inode d).
Proof. unfold dentry_inode. framed. Qed.

#[export] Hint Resolve dentry_inode_framed proc_pid_make_inode_framed : framed.

Lemma pid_revalidate_framed d : framed (pid_revalidate d).
Proof. unfold pid_revalidate, own_by_task, strip_ids, task_dumpable. kunfold. framed. Qed.

Lemma tid_fd_revalidate_framed d : framed (tid_fd_revalidate d).
Proof. unfold tid_fd_revalidate, own_by_task, strip_ids, task_dumpable. kunfold. framed. Qed.

Lemma apply_entry_framed p i : framed (apply_entry p i).
Proof. unfold apply_entry. framed. Qed.

Lemma set_and_add_framed d ops i : framed (set_and_add d ops i).
Proof. unfold set_and_add. kunfold. framed. Qed.

#[export] Hint Resolve pid_revalidate_framed tid_fd_revalidate_framed apply_entry_framed set_and_add_framed : framed.

(** ** Instantiation, as readdir uses it *)

(** When [p] answers NULL, the dentry has got its inode. *)
Definition attaching (d : dentry_id) (p : prog Z) : Prop := forall w,
  wlp dir_stable p (fun r w' => r = 0 -> attached (mem w') d) w.

Lemma wlp_true {A : Type} R (p : prog A) w : wlp R p (fun _ _ => True) w.
Proof. revert w. induction p as [a|o k IH|k IH|m k IH|y]; intros w; cbn; eauto. Qed.

Lemma attaching_bind {A : Type} d (p : prog A) f : (forall a, attaching d (f a)) -> attaching d (p ≫= f).
Proof.
  intros Hf w. apply wlp_bind. eapply wlp_mono; [apply wlp_true|]. intros a w1 _. apply Hf.
Qed.

Lemma attaching_err d e : e <> 0 -> attaching d (mret e).
Proof. intros He w H. done. Qed.

Lemma attaching_add d ops i (q : prog Z) : framed q -> attaching d (set_and_add d ops i;; q).
Proof.
  intros Hq w. apply wlp_bind. cbn -[dcache_step]. intros [] m [_ Hm].
  eapply wlp_mono; [apply Hq|]. intros r w' (_ & Ha & _) _. apply Ha. unfold attached. cbn [mem]. rewrite Hm. cbn.
  rewrite k_dentry_upd_dentry, lookup_total_insert_eq. by destruct (_ !!! d).
Qed.

Ltac attaching := repeat first
  [ apply attaching_add; framed | apply attaching_err; done | apply attaching_bind; intros ?
  | match goal with |- attaching _ (match ?x with _ => _ end) => destruct x end ].

(** What readdir asks of an instantiate function on top of [Instantiates]. *)
Class Attaches (f : instantiate_t) : Prop := {
  attaches_framed : forall dir dentry task, framed (f dir dentry task);
  attaches_attaching : forall dir dentry task, attaching dentry (f dir dentry task);
}.

Ltac attaches f := split; intros dir dentry task; unfold f, inode_sb; kunfold; [framed|attaching].

#[export] Instance proc_fd_attaches fd : Attaches (proc_fd_instantiate fd).
Proof. attaches proc_fd_instantiate. Qed.
#[export] Instance proc_fdinfo_attaches fd : Attaches (proc_fdinfo_instantiate fd).
Proof. attaches proc_fdinfo_instantiate. Qed.
#[export] Instance proc_pident_attaches p : Attaches (proc_pident_instantiate p).
Proof. attaches proc_pident_instantiate. Qed.
#[export] Instance task_dir_attaches iop fop stuff : Attaches (task_dir_instantiate iop fop stuff).
Proof. attaches task_dir_instantiate. Qed.
#[export] Instance proc_base_attaches p : Attaches (proc_base_instantiate p).
Proof. attaches proc_base_instantiate. Qed.
#[export] Instance proc_pid_attaches `{Config} : Attaches proc_pid_instantiate.
Proof. exact (task_dir_attaches _ _ _). Qed.
#[export] Instance proc_task_attaches `{Config} : Attaches proc_task_instantiate.
Proof. exact (task_dir_attaches _ _ _). Qed.

Lemma instantiate_wp f dir dentry task w (Q : Z -> world -> Prop) : Instantiates f -> Attaches f ->
  (forall r w', balanced w w' -> frame w w' -> (r = 0 -> attached (mem w') dentry) -> Q r w') ->
  wp dir_stable (f dir dentry task) Q w.
Proof.
  intros Hi Ha HQ. eapply wp_mono.
  - apply wp_wlp; [apply wp_wlp|].
    + apply (wp_contract dcache _ _ _ _ dir_stable_dcache). apply Hi. intros r w' Hb _. exact Hb.
    + apply attaches_framed.
    + apply (attaches_attaching dir dentry task).
  - intros r w' [[Hb Hf] Hat]. by apply HQ.
Qed.

(** [proc_fill_cache] offers exactly the entry it was given, at the current
    offset, and holds nothing afterwards. *)
Definition offered (filp : file_id) (name : bytes) (w : world) (r : Z) (w' : world) : Prop :=
  balanced w w' /\ k_file (mem w') = k_file (mem w) /\
  dirents (log w') = (name, f_pos (k_file (mem w) !!! filp), r) :: dirents (log w) /\
  (forall d, attached (mem w) d -> attached (mem w') d) /\ same_place (mem w) (mem w').

Lemma filldir_step filp name n ino type w w' : balanced w w' -> frame w w' ->
  forall r m, dir_stable (Filldir name n (f_pos (k_file (mem w') !!! filp)) ino type) (log w') (mem w') r m ->
  offered filp name w r (after (Filldir name n (f_pos (k_file (mem w') !!! filp)) ino type) r m w').
Proof.
  intros [Hh Hb] (Hf & Ha & Hd & Hn) r m [Hf' Hd']. unfold offered, balanced, attached, same_place in *. cbn in *.
  rewrite Hf' , Hf, Hd', Hd. split_and!; try done.
Qed.

Lemma fill_cache_child_wp dir name f task w (Q : option dentry_id -> world -> Prop) : Instantiates f -> Attaches f ->
  attached (mem w) dir ->
  (forall child w', keeps_only (opt_res RDentry child) w w' -> frame w w' ->
     (forall d, child = Some d -> attached (mem w') d) -> Q child w') ->
  wp dir_stable (fill_cache_child dir name f task) Q w.
Proof.
  intros Hi Ha [di Hdi] HQ. destruct w as [m h b l]. unfold fill_cache_child, dentry_inode. kunfold. kcbn. cbn [mem] in *.
  intros x m1 H1. pose proof (frame_call (DLookup dir name) I (World m h b l) x m1 H1) as F1.
  destruct H1 as (_ & Hd1 & Hat). destruct x as [d|]; kcbn.
  - apply HQ; [done|exact F1|]. intros x [= <-]. unfold attached. cbn. rewrite Hd1. by apply Hat.
  - intros x m2 H2. pose proof (frame_call (DAlloc dir name) I (World m1 h b (Obs (DLookup dir name) None :: l)) x m2 H2) as F2.
    pose proof (frame_trans _ _ _ F1 F2) as F12. destruct H2 as [_ Hd2]. cbn [dcache_step] in Hd2.
    destruct x as [new|]; kcbn; [|by apply HQ].
    rewrite Hd2, Hd1, Hdi. kcbn. apply wp_bind, (instantiate_wp f); [done|done|]. intros r w3 Hb Hfr3 Hat3.
    pose proof (frame_trans _ _ _ F12 Hfr3) as F13. destruct (Z.eqb_spec r 0) as [->|Hr]; kcbn.
    + apply HQ; [by destruct Hb|done|]. intros x [= <-]. by apply Hat3.
    + intros [] m4 H4. pose proof (frame_call (Dput new) I w3 tt m4 H4) as F4.
      destruct w3 as [m3 h3 b3 l3], Hb as [Hh Hb].
      cbn [held bad mem] in *. subst h3 b3. apply HQ; [|by apply (frame_trans _ _ _ F13)|done].
      split; cbn; by repeat kdec.
Qed.

Lemma fill_cache_emit_wp filp dir name n child w0 w (Q : Z -> world -> Prop) :
  keeps_only (opt_res RDentry child) w0 w -> frame w0 w -> (forall d, child = Some d -> attached (mem w) d) ->
  (forall r w', offered filp name w0 r w' -> Q r w') ->
  wp dir_stable (fill_cache_emit filp dir name n child) Q w.
Proof.
  intros [Hh Hb] Hfr Hat HQ. unfold fill_cache_emit. kunfold.
  assert (Hemit : forall ino type w', balanced w0 w' -> frame w0 w' ->
    wp dir_stable (ino ← (if ino =? 0 then call (FindInodeNumber dir name) else mret ino);
      pos ← gets (fun m => f_pos (k_file m !!! filp));
      call (Filldir name n pos (if ino =? 0 then 1 else ino) type)) Q w').
  { intros ino type [m h b l] Hb' Hfr'. destruct (ino =? 0); kcbn.
    - intros i m1 H1. pose proof (frame_call (FindInodeNumber dir name) I (World m h b l) i m1 H1) as F1.
      kcbn. intros r m2 H2. apply HQ.
      apply (filldir_step filp name n _ _ w0 (World m1 h b (Obs (FindInodeNumber dir name) i :: l))); [done| |exact H2].
      by apply (frame_trans _ _ _ Hfr').
    - intros r m2 H2. apply HQ. by apply (filldir_step filp name n _ _ w0 (World m h b l)). }
  destruct child as [d|]; kcbn.
  - destruct (Hat d eq_refl) as [i Hi]. rewrite Hi. destruct w as [m h b l]. cbn [held bad mem opt_res app] in *. subst h b.
    kcbn. intros [] m1 H1. pose proof (frame_call (Dput d) I (World m (RDentry d :: held w0) (bad w0) l) tt m1 H1) as F1.
    revert F1. kcbn. repeat (kdec; kcbn). intros F1. apply Hemit; [done|]. by apply (frame_trans _ _ _ Hfr).
  - by apply (Hemit 0 DT_UNKNOWN).
Qed.

Lemma proc_fill_cache_wp filp name n f task w (Q : Z -> world -> Prop) : Instantiates f -> Attaches f ->
  attached (mem w) (f_dentry (k_file (mem w) !!! filp)) ->
  (forall r w', offered filp name w r w' -> Q r w') ->
  wp dir_stable (proc_fill_cache filp name n f task) Q w.
Proof.
  intros Hi Ha Hdir HQ. unfold proc_fill_cache. kcbn. apply wp_bind, fill_cache_child_wp; [done|done|done|].
  intros child w' Hk Hfr Hat. by apply (fill_cache_emit_wp _ _ _ _ _ w).
Qed.

(** ** Listings

    [lists pos names l q d]: offered [names] from offset [pos] on, the caller
    of readdir answered as [l] records (the oldest first); the listing stopped
    at offset [q], where the next one will start; [d] says that it was
    complete. An entry is refused with a negative answer. *)
Inductive lists : Z -> list bytes -> list (bytes * Z * Z) -> Z -> bool -> Prop :=
  | Lists_done pos : lists pos [] [] pos true
  | Lists_refused pos n ns x : x < 0 -> lists pos (n :: ns) [(n, pos, x)] pos false
  | Lists_accepted pos n ns x l q d : 0 <= x -> lists (pos + 1) ns l q d ->
      lists pos (n :: ns) ((n, pos, x) :: l) q d.

Definition accepted (l : list (bytes * Z * Z)) : list bytes :=
  flat_map (fun e : bytes * Z * Z => if e.2 <? 0 then [] else [e.1.1]) l.

Lemma lists_bounds pos names l q d : lists pos names l q d ->
  pos <= q <= pos + len names /\ (d = true <-> q = pos + len names) /\ accepted l = ztake (q - pos) names.
Proof.
  induction 1 as [pos|pos n ns x Hx|pos n ns x l q d Hx _ (IH1 & IH2 & IH3)].
  - rewrite len_nil, Z.sub_diag. split; [lia|]. split; [|done]. split; [lia|done].
  - rewrite len_cons, Z.sub_diag. pose proof (len_nonneg ns). split; [lia|]. split; [split; [done|lia]|].
    cbn. destruct (Z.ltb_spec x 0); [done|lia].
  - rewrite len_cons. split; [lia|]. split; [rewrite IH2; lia|]. cbn [accepted flat_map].
    fold (accepted l). rewrite IH3. cbn [fst snd]. destruct (Z.ltb_spec x 0); [lia|]. cbn [app].
    unfold ztake. replace (Z.to_nat (q - pos)) with (S (Z.to_nat (q - (pos + 1)))) by lia. done.
Qed.

Lemma lists_app pos ns1 l1 q1 ns2 l2 q2 d : lists pos ns1 l1 q1 true -> lists q1 ns2 l2 q2 d ->
  lists pos (ns1 ++ ns2) (l1 ++ l2) q2 d.
Proof.
  intros H. remember true as b eqn:Hb. induction H as [pos|pos n ns x Hx|pos n ns x l q e Hx _ IH]; [done|done|].
  intros H2. cbn [app]. constructor; [done|]. by apply IH.
Qed.

Lemma lists_cut pos ns1 l q ns2 : lists pos ns1 l q false -> lists pos (ns1 ++ ns2) l q false.
Proof.
  intros H. remember false as b eqn:Hb. induction H as [pos|pos n ns x Hx|pos n ns x l q e Hx _ IH]; [done|by constructor|].
  cbn [app]. constructor; [done|]. by apply IH.
Qed.

(** What a stretch of execution offered, and what it gave back. *)
Definition listed (l : list (bytes * Z * Z)) (w w' : world) : Prop :=
  dirents (log w') = rev l ++ dirents (log w) /\ same_place (mem w) (mem w').

Definition emitted (l : list (bytes * Z * Z)) (w w' : world) : Prop := balanced w w' /\ listed l w w'.

Lemma listed_trans l1 l2 w1 w2 w3 : listed l1 w1 w2 -> listed l2 w2 w3 -> listed (l1 ++ l2) w1 w3.
Proof.
  intros (Hd1 & Hn1) (Hd2 & Hn2). split; [by rewrite Hd2, Hd1, rev_app_distr, app_assoc|].
  by apply (same_place_trans _ (mem w2)).
Qed.

(** The call asked for the task of the directory and there was none any more;
    it did nothing else. *)
Definition vanished (dir : dentry_id) (w w' : world) : Prop :=
  exists di, d_inode (k_dentry (mem w) !!! dir) = Some di /\ log w' = Obs (GetProcTask di) None :: log w.

(** A call that is no entry. *)
Lemma listed_call o x m w : match o with Filldir _ _ _ _ _ | SingleOpen _ _ _ => False | _ => True end ->
  dir_stable o (log w) (mem w) x m -> listed [] w (after o x m w).
Proof. intros Ho H. destruct (frame_call o Ho w x m H) as (_ & _ & Hd & Hn). by split. Qed.

Lemma emitted_trans l1 l2 w1 w2 w3 : emitted l1 w1 w2 -> emitted l2 w2 w3 -> emitted (l1 ++ l2) w1 w3.
Proof.
  intros (Hb1 & H1) (Hb2 & H2). split; [by apply (balanced_trans _ w2)|by apply (listed_trans _ _ _ w2)].
Qed.

(** The open directory: its offset and its dentry. *)
Definition opened (filp : file_id) (dir : dentry_id) (pos : Z) (m : kmem) : Prop :=
  f_pos (k_file m !!! filp) = pos /\ f_dentry (k_file m !!! filp) = dir /\ attached m dir.

Lemma opened_frame filp dir pos w w' : opened filp dir pos (mem w) -> frame w w' -> opened filp dir pos (mem w').
Proof. intros (H1 & H2 & H3) (Hf & Ha & _). unfold opened. rewrite Hf. auto. Qed.

Lemma s64_small z : 0 <= z < 2 ^ 63 -> s64 z = z.
Proof. intros H. unfold s64. rewrite Z.mod_small; lia. Qed.

(** An assignment to the offset, the version or the like of the open file. *)
Lemma upd_file_emitted filp f m h b l : emitted [] (World m h b l) (World (upd_file filp f m) h b l).
Proof. split; [done|]. split; [done|]. intros d. cbn. by rewrite k_dentry_upd_file. Qed.

Lemma upd_file_opened filp dir pos pos' f m : opened filp dir pos m ->
  (forall x, f_pos x = pos -> f_pos (f x) = pos' /\ f_dentry (f x) = f_dentry x) -> opened filp dir pos' (upd_file filp f m).
Proof.
  intros (Hp & Hd & Ha) Hf. unfold opened, attached. rewrite k_file_upd_file, k_dentry_upd_file, lookup_total_insert_eq.
  destruct (Hf _ Hp) as [-> ->]. by split_and!.
Qed.

Lemma f_pos_inc_wp R filp dir pos w (Q : unit -> world -> Prop) :
  opened filp dir pos (mem w) -> 0 <= pos < 2 ^ 62 ->
  (forall w', emitted [] w w' -> opened filp dir (pos + 1) (mem w') -> Q tt w') -> wp R (f_pos_inc filp) Q w.
Proof.
  intros Ho Hpos HQ. destruct w as [m h b l]. cbn [mem] in *. unfold f_pos_inc. kcbn.
  apply HQ; [apply upd_file_emitted|]. apply (upd_file_opened _ _ pos); [done|]. intros [] H. cbn in *. subst.
  split; [apply s64_small; lia|done].
Qed.

(** One entry offered, and the offset advanced when it is accepted: the step
    of every readdir loop. *)
Lemma offer_step (p : prog Z) filp dir pos name w (k : prog bool) (Q : bool -> world -> Prop) :
  opened filp dir pos (mem w) -> 0 <= pos < 2 ^ 62 ->
  (forall Q' : Z -> world -> Prop, (forall r w', offered filp name w r w' -> Q' r w') -> wp dir_stable p Q' w) ->
  (forall r w', r < 0 -> emitted [(name, pos, r)] w w' -> opened filp dir pos (mem w') -> Q false w') ->
  (forall r w', 0 <= r -> emitted [(name, pos, r)] w w' -> opened filp dir (pos + 1) (mem w') -> wp dir_stable k Q w') ->
  wp dir_stable (r ← p; if r <? 0 then mret false else f_pos_inc filp;; k) Q w.
Proof.
  intros Ho Hpos Hp Hno Hyes. apply wp_bind, Hp. intros r w1 (Hb & Hf & Hd & Ha & Hn). destruct Ho as (Hp0 & Hd0 & Ha0).
  assert (Ho1 : opened filp dir pos (mem w1)) by (unfold opened; rewrite Hf; auto).
  assert (He : emitted [(name, pos, r)] w w1) by (split; [done|]; split; [cbn; by rewrite Hd, Hp0|done]).
  destruct (Z.ltb_spec r 0); [by kcbn; eapply Hno|]. apply wp_bind. eapply f_pos_inc_wp; [done|done|].
  intros w2 He2 Ho2. eapply Hyes; [done| |done]. rewrite <- (app_nil_r [_]). by apply (emitted_trans _ _ _ w1).
Qed.

Lemma pident_loop_wp filp task dir ps : forall pos w (Q : bool -> world -> Prop),
  opened filp dir pos (mem w) -> 0 <= pos -> pos + len ps < 2 ^ 62 ->
  (forall d w' l q, emitted l w w' -> opened filp dir q (mem w') -> lists pos (pe_name <$> ps) l q d -> Q d w') ->
  wp dir_stable (pident_loop filp task ps) Q w.
Proof.
  induction ps as [|p ps IH]; intros pos w Q Ho Hpos Hmax HQ; cbn [pident_loop].
  { apply (HQ _ _ [] pos); [done|done|constructor]. }
  rewrite len_cons in Hmax. pose proof (len_nonneg ps).
  eapply (offer_step _ filp dir pos (pe_name p)); [done|lia| | |].
  - intros Q' HQ'. refine (proc_fill_cache_wp filp (pe_name p) (pe_len p) (proc_pident_instantiate p) task w Q'
      (proc_pident_instantiates p) (proc_pident_attaches p) _ HQ').
    destruct Ho as (_ & -> & Ha). exact Ha.
  - intros r w' Hr He Ho'. eapply HQ; [done|done|]. by constructor.
  - intros r w' Hr He Ho'. eapply IH; [done|lia|lia|]. intros d w2 l q He2 Ho2 Hl.
    eapply HQ; [by eapply emitted_trans|done|]. by constructor.
Qed.

Lemma frame_emitted w w' : balanced w w' -> frame w w' -> emitted [] w w'.
Proof. intros Hb (_ & _ & Hd & Hn). by split. Qed.

(** A call of the code that is not an entry, seen from an open directory. *)
Lemma call_opened filp dir pos o w x m : match o with Filldir _ _ _ _ _ | SingleOpen _ _ _ => False | _ => True end ->
  opened filp dir pos (mem w) -> dir_stable o (log w) (mem w) x m -> opened filp dir pos m.
Proof. intros Ho Hw Hm. exact (opened_frame _ _ _ _ _ Hw (frame_call o Ho w x m Hm)). Qed.

(** A call that takes and gives nothing, before a stretch of execution. *)
Lemma emitted_call o x m w w' l : match o with Filldir _ _ _ _ _ | SingleOpen _ _ _ => False | _ => True end ->
  acquires o x = [] -> releases o = [] -> guarded o (held w) = true ->
  dir_stable o (log w) (mem w) x m -> emitted l (after o x m w) w' -> emitted l w w'.
Proof.
  intros Ho Ha Hr Hg Hm [Hb Hl]. split; [|by apply (listed_trans [] _ _ (after o x m w)); [apply listed_call|]].
  eapply balanced_trans; [|exact Hb]. split; cbn; unfold misuses; by rewrite ?Ha, ?Hr, ?Hg.
Qed.

(** The state of a reading: what it has listed since [w], and where it is. *)
Definition reading filp dir pos l (w w' : world) : Prop := listed l w w' /\ opened filp dir pos (mem w').

Lemma reading_call filp dir pos l w0 o x m w : match o with Filldir _ _ _ _ _ | SingleOpen _ _ _ => False | _ => True end ->
  reading filp dir pos l w0 w -> dir_stable o (log w) (mem w) x m -> reading filp dir pos l w0 (after o x m w).
Proof.
  intros Ho [Hl Hop] Hm. split; [|by eapply call_opened].
  rewrite <- (app_nil_r l). eapply listed_trans; [exact Hl|]. by apply listed_call.
Qed.

Lemma reading_trans filp dir pos pos' l l' w0 w w' : reading filp dir pos l w0 w -> emitted l' w w' ->
  opened filp dir pos' (mem w') -> reading filp dir pos' (l ++ l') w0 w'.
Proof. intros [Hl _] [_ Hl'] Ho. split; [by eapply listed_trans|done]. Qed.

(** One entry offered, in any kernel of the kind. *)
Lemma offer_wp (R : contract) filp dir pos name n f task w (Q : Z -> world -> Prop) :
  (forall o tr m x m', R o tr m x m' -> dir_stable o tr m x m') -> Instantiates f -> Attaches f ->
  opened filp dir pos (mem w) ->
  (forall r w', emitted [(name, pos, r)] w w' -> opened filp dir pos (mem w') -> Q r w') ->
  wp R (proc_fill_cache filp name n f task) Q w.
Proof.
  intros HR Hi Ha (Hp & Hd & Hat) HQ. apply (wp_contract dir_stable R _ _ _ HR).
  apply proc_fill_cache_wp; [done|done|by rewrite Hd|]. intros r w' (Hb & Hf & Hl & Hk). apply HQ.
  - split; [done|]. split; [by rewrite Hl, Hp|apply Hk].
  - unfold opened. rewrite Hf. split; [done|]. split; [done|]. by apply Hk.
Qed.

(** The end of every readdir: the task taken at its start is put back. *)
Lemma put_task_wp (R : contract) filp dir q task l w w1 w' (r : Z) (Q : Z -> world -> Prop) :
  (forall o tr m x m', R o tr m x m' -> dir_stable o tr m x m') ->
  keeps_only [RTask task] w w1 -> listed [] w w1 -> emitted l w1 w' -> opened filp dir q (mem w') ->
  (forall w2, emitted l w w2 -> opened filp dir q (mem w2) -> Q r w2) ->
  wp R (call (PutTaskStruct task);; mret r) Q w'.
Proof.
  intros HR [Hh1 Hb1] Hl1 [[Hh Hb] Hl] Ho HQ. kcbn. intros [] m2 Hm2%HR. apply HQ.
  - split.
    + split; cbn; unfold misuses; rewrite Hh, Hh1, ?Hb, ?Hb1; kcbn; by repeat kdec.
    + apply (listed_trans [] l w w1); [done|]. rewrite <- (app_nil_r l). apply (listed_trans _ _ _ w'); [done|].
      by apply (listed_call (PutTaskStruct task)).
  - by apply (call_opened _ _ _ (PutTaskStruct task) w' tt).
Qed.

Lemma emit_dot_wp filp dir pos name ino w (Q : bool -> world -> Prop) :
  opened filp dir pos (mem w) -> 0 <= pos < 2 ^ 62 ->
  (forall x w', x < 0 -> emitted [(name, pos, x)] w w' -> opened filp dir pos (mem w') -> Q false w') ->
  (forall x w', 0 <= x -> emitted [(name, pos, x)] w w' -> opened filp dir (pos + 1) (mem w') -> Q true w') ->
  wp dir_stable (emit_dot filp name pos ino) Q w.
Proof.
  intros Ho Hpos Hno Hyes. unfold emit_dot. apply (offer_step _ filp dir pos name); [done|done| |exact Hno|exact Hyes].
  intros Q' HQ'. kunfold. kcbn. intros x m Hm. apply HQ'. split; [done|]. destruct Ho as (Hp & _ & _), Hm as [Hf Hd].
  cbn [mem log dirents]. rewrite Hf, Hp. unfold attached, same_place. by rewrite Hd.
Qed.

Lemma zdrop_app {A} n (l k : list A) : zdrop n (l ++ k) = zdrop n l ++ zdrop (n - len l) k.
Proof. unfold zdrop, len. rewrite drop_app. do 2 f_equal. lia. Qed.

(** ** The directories made from a table *)

Definition dots : list bytes := [str "."; str ".."].

Lemma len_zdrop_dots pos : 0 <= pos -> pos + len (zdrop pos dots) = Z.max pos 2.
Proof. intros H. rewrite len_zdrop by done. change (len dots) with 2. lia. Qed.

Lemma pident_dots_wp filp dir inode pos w (Q : option Z -> world -> Prop) :
  opened filp dir pos (mem w) -> 0 <= pos < 2 ^ 62 ->
  (forall i l q w', emitted l w w' -> opened filp dir q (mem w') ->
     lists pos (zdrop pos dots) l q (match i with Some _ => true | None => false end) ->
     (forall j, i = Some j -> j = q) -> Q i w') ->
  wp dir_stable (pident_dots filp dir inode pos) Q w.
Proof.
  intros Ho Hpos HQ. unfold pident_dots. kunfold.
  destruct (Z.eqb_spec pos 0) as [->|H0]; kcbn.
  - apply wp_bind, wp_bind, (emit_dot_wp filp dir 0); [done|lia| |].
    + intros x w1 Hx He Ho1. kcbn. eapply HQ; [done|done|by constructor|done].
    + intros x w1 Hx He Ho1. kcbn. change (0 + 1 =? 1) with true. kcbn. intros ino m1 Hm1.
      apply wp_bind, (emit_dot_wp filp dir 1); [by eapply (call_opened _ _ _ (ParentIno dir))|lia| |];
        intros y w2 Hy He2 Ho2; (apply (emitted_call (ParentIno dir) ino m1 w1) in He2; [|done..|exact Hm1]); kcbn; eapply HQ; try done; try (by eapply emitted_trans).
      * cbn. constructor; [done|]. by constructor.
      * cbn. constructor; [done|]. constructor; [done|]. constructor.
      * by intros j [= <-].
  - destruct (Z.eqb_spec pos 1) as [->|H1]; kcbn.
    + intros ino m1 Hm1.
      apply wp_bind, (emit_dot_wp filp dir 1); [by eapply (call_opened _ _ _ (ParentIno dir))|lia| |];
        intros y w2 Hy He2 Ho2; (apply (emitted_call (ParentIno dir) ino m1 w) in He2; [|done..|exact Hm1]); kcbn; eapply HQ; try done.
      * by constructor.
      * cbn. constructor; [done|]. constructor.
      * by intros j [= <-].
    + eapply (HQ _ []); [done|done| |by intros j [= <-]].
      replace (zdrop pos dots) with (@nil bytes) by (unfold zdrop; by rewrite drop_ge by (cbn; lia)). constructor.
Qed.

(** What a table directory lists. *)
Definition listing (ents : list pid_entry) : list bytes := dots ++ (pe_name <$> ents).

Lemma proc_pident_readdir_wp filp dir pos ents w (Q : Z -> world -> Prop) :
  opened filp dir pos (mem w) -> 0 <= pos < 2 ^ 31 -> len ents < 2 ^ 31 ->
  (forall w', emitted [] w w' -> opened filp dir pos (mem w') -> Q (- ENOENT) w') ->
  (forall l q (d : bool) w', emitted l w w' -> opened filp dir q (mem w') -> lists pos (zdrop pos (listing ents)) l q d ->
     Q (if d then 1 else 0) w') ->
  wp dir_stable (proc_pident_readdir filp ents) Q w.
Proof.
  intros Ho Hpos Hents Hgone HQ. pose proof Ho as (_ & Hd & [di Hdi]).
  unfold proc_pident_readdir, dentry_inode. kunfold. kcbn. rewrite Hd, Hdi. kcbn.
  intros [task|] m1 Hm1; kcbn; pose proof (call_opened _ _ _ (GetProcTask di) w _ m1 I Ho Hm1) as Ho1;
    [|apply Hgone; [|done]; apply frame_emitted; [done|by apply frame_call]].
  pose proof (listed_call (GetProcTask di) (Some task) m1 w I Hm1) as Hl1.
  set (w1 := World m1 (RTask task :: held w) (bad w) (Obs (GetProcTask di) (Some task) :: log w)) in *.
  change (opened filp dir pos (mem w1)) in Ho1.
  cbn [file_pos gets pbind mbind prog_mbind wp]. destruct Ho1 as (Hp1 & Ho1). rewrite Hp1, s32_small by lia.
  assert (Hout : forall l q r w', emitted l w1 w' -> opened filp dir q (mem w') ->
    (forall w2, emitted l w w2 -> opened filp dir q (mem w2) -> Q r w2) ->
    wp dir_stable (call (PutTaskStruct task);; mret r) Q w').
  { intros. by eapply (put_task_wp _ filp dir q task l w w1). }
  apply wp_bind, (pident_dots_wp filp dir); [by split|lia|]. intros i l q w2 He2 Ho2 Hl2 Hi.
  pose proof (lists_bounds _ _ _ _ _ Hl2) as (Hq & Hdone & _). rewrite len_zdrop_dots in Hq, Hdone by lia.
  unfold listing in HQ. rewrite zdrop_app in HQ. change (len dots) with 2 in HQ.
  destruct i as [i|]; kcbn.
  - rewrite (Hi i eq_refl). destruct Hdone as [Hq2 _]. specialize (Hq2 eq_refl).
    assert (Hz : zdrop (pos - 2) ents = zdrop (q - 2) ents).
    { destruct (Z_le_gt_dec 2 pos); [f_equal; lia|]. unfold zdrop. f_equal. lia. }
    rewrite u32_small by lia. destruct (Z.leb_spec (len ents) (q - 2)) as [Hle|Hlt]; kcbn.
    + eapply Hout; [exact He2|exact Ho2|]. intros w3 He3 Ho3. apply (HQ l q true w3 He3 Ho3).
      rewrite <- (app_nil_r l). eapply lists_app; [exact Hl2|].
      assert (Hnil : zdrop (pos - 2) (pe_name <$> ents) = []).
      { unfold zdrop. apply drop_ge. rewrite length_fmap. unfold len in Hle. lia. }
      rewrite Hnil. constructor.
    + apply wp_bind, wp_bind, (pident_loop_wp filp task dir _ q); [done|lia|rewrite len_zdrop; lia|].
      intros d w3 l3 q3 He3 Ho3 Hl3. kcbn. eapply Hout; [by eapply emitted_trans|exact Ho3|].
      intros w4 He4 Ho4. apply (HQ _ _ d w4 He4 Ho4). eapply lists_app; [exact Hl2|].
      replace (zdrop (pos - 2) (pe_name <$> ents)) with (pe_name <$> zdrop (q - 2) ents); [exact Hl3|].
      rewrite <- Hz. unfold zdrop. by rewrite fmap_drop.
  - eapply Hout; [exact He2|exact Ho2|]. intros w3 He3 Ho3. apply (HQ l q false w3 He3 Ho3).
    by apply lists_cut.
Qed.

(** ** The descriptor directories *)

(** Files are opened and closed, and the table grows, between any two calls
    of the kernel. What a reading can rely on: *)
Record fd_view := FdView {
  sizes : Z -> Prop;      (* the numbers of slots the table has at some time *)
  stays_open : Z -> Prop;      (* the descriptors that are open all the time *)
  may_open : Z -> Prop;      (* the descriptors that are open at some time *)
}.

Section View.
Context (V : fd_view).

(** The file table of a process that keeps one. *)
Definition live_files : contract := fun o tr m x m' =>
  dir_stable o tr m x m' /\
  match o return ans o -> Prop with
  | MaxFds _ => fun x => sizes V x
  | FcheckFiles _ fd => fun x => (stays_open V fd -> is_Some x) /\ (is_Some x -> may_open V fd)
  | GetFilesStruct _ => fun x => is_Some x
  | _ => fun _ => True
  end x.

Lemma live_files_stable o tr m x m' : live_files o tr m x m' -> dir_stable o tr m x m'.
Proof. by intros []. Qed.

(** The table never has more than [bound] slots, and its slots hold what stays. *)
Record live_table (bound : Z) : Prop := {
  table_bound : forall s, sizes V s -> s <= bound;
  table_holds : forall s k, sizes V s -> stays_open V k -> k < s;
}.

Definition fd_entry (fd x : Z) : bytes * Z * Z := ((numeric_name fd).1, fd + 2, x).

(** What the loop offers from descriptor [fd] on, until [q]. *)
Inductive fdlists : Z -> list (bytes * Z * Z) -> Z -> Prop :=
  | Fd_done fd s : sizes V s -> s <= fd -> fdlists fd [] fd
  | Fd_skip fd s l q : sizes V s -> fd < s -> ~ stays_open V fd -> fdlists (fd + 1) l q -> fdlists fd l q
  | Fd_refused fd s x : sizes V s -> fd < s -> may_open V fd -> x < 0 -> fdlists fd [fd_entry fd x] fd
  | Fd_accepted fd s x l q : sizes V s -> fd < s -> may_open V fd -> 0 <= x -> fdlists (fd + 1) l q ->
      fdlists fd (fd_entry fd x :: l) q.

Definition fd_names (S : list Z) : list bytes := (fun fd => (numeric_name fd).1) <$> S.
Definition fds : Z -> Z -> list Z -> Prop := spans (stays_open V) (may_open V).

Definition all_accepted (l : list (bytes * Z * Z)) : bool := forallb (fun e => 0 <=? e.2) l.

(** Where a walk from [fd] may have got to. *)
Definition within (fd q : Z) : Prop := q <= fd \/ exists s, sizes V s /\ q <= s.

Lemma within_next fd s q : sizes V s -> fd < s -> within (fd + 1) q -> within fd q.
Proof. intros Hs Hfd [Hq|Hq]; right; [exists s; split; [done|lia]|done]. Qed.

Lemma fdlists_spec fd l q : fdlists fd l q ->
  fd <= q /\ within fd q /\ (exists S, fds fd q S /\ accepted l = fd_names S) /\
  (all_accepted l = true -> exists s, sizes V s /\ s <= q).
Proof.
  induction 1 as [fd s Hs H|fd s l q Hs H Ho _ (IH1 & IH2 & (S & HS & IH3) & IH4)|fd s x Hs H Ho Hx
    |fd s x l q Hs H Ho Hx _ (IH1 & IH2 & (S & HS & IH3) & IH4)].
  - split; [lia|]. split; [by left|]. split; [|by exists s]. exists []. split; [|done]. apply spans_nil. lia.
  - split; [lia|]. split; [by apply (within_next fd s)|]. split; [|done]. exists S. split; [|done].
    apply (spans_skip fd (fd + 1)); [lia| |done]. intros n Hn. by replace n with fd by lia.
  - split; [lia|]. split; [by left|]. split.
    + exists []. split; [apply spans_nil; lia|]. cbn. by destruct (Z.ltb_spec x 0); [|lia].
    + cbn. by destruct (Z.leb_spec 0 x); [lia|].
  - split; [lia|]. split; [by apply (within_next fd s)|]. split.
    + exists (fd :: S). split; [apply spans_cons; [lia|done|lia|done]|]. cbn. destruct (Z.ltb_spec x 0); [lia|].
      cbn. fold (accepted l). by f_equal.
    + cbn. by destruct (Z.leb_spec 0 x); [|lia].
Qed.

Lemma readfd_loop_wp bound filp dir files p (inst : Z -> instantiate_t) h :
  (forall fd, Instantiates (inst fd)) -> (forall fd, Attaches (inst fd)) -> live_table bound -> bound <= 2 ^ 31 ->
  forall fuel fd w (Q : unit -> world -> Prop),
  opened filp dir (fd + 2) (mem w) -> held w = RLock Rcu :: h -> 0 <= fd < 2 ^ 32 -> bound <= fd + Z.of_nat fuel ->
  (forall l q w', emitted l w w' -> opened filp dir (q + 2) (mem w') -> fdlists fd l q -> Q tt w') ->
  wp live_files (readfd_loop fuel filp files p fd inst) Q w.
Proof.
  intros Hi Ha Hview Hmax fuel fd w Q Ho Hh Hfd Hfuel HQ.
  revert fd w Q Ho Hh Hfd Hfuel HQ. induction fuel as [|fuel IH]; intros fd w Q Ho Hh Hfd Hfuel HQ;
    cbn [readfd_loop]; kunfold; kcbn; intros s m1 Hm1;
    assert (R0 : reading filp dir (fd + 2) [] w w) by (by split);
    pose proof (reading_call _ _ _ _ _ (MaxFds files) s m1 w I R0 (proj1 Hm1)) as R1; destruct Hm1 as [_ Hs];
    pose proof (table_bound _ Hview s Hs) as Hb;
    destruct w as [m0 h0 b0 l0]; cbn [mem held] in *; subst h0; kcbn.
  { destruct (Z.ltb_spec fd s); [lia|]. kcbn. apply (HQ [] fd); [split; [done|apply R1]|apply R1|by apply (Fd_done fd s)]. }
  destruct (Z.ltb_spec fd s) as [Hlt|Hge]; kcbn; [|apply (HQ [] fd); [split; [done|apply R1]|apply R1|by apply (Fd_done fd s)]].
  repeat (kdec; kcbn). intros file m2 Hm2.
  pose proof (reading_call _ _ _ _ _ (FcheckFiles files fd) file m2 _ I R1 (proj1 Hm2)) as R2.
  destruct Hm2 as [_ [Hstay Hmay]]. unfold u32. rewrite Z.mod_small by lia.
  assert (Hnext : forall w5 l', reading filp dir (fd + 2) l' (World m0 (RLock Rcu :: h) b0 l0) w5 ->
    balanced (World m0 (RLock Rcu :: h) b0 l0) w5 ->
    (forall l q, fdlists (fd + 1) l q -> fdlists fd (l' ++ l) q) ->
    wp live_files (f_pos_inc filp;; readfd_loop fuel filp files p (fd + 1) inst) Q w5).
  { intros w5 l' [Hl5 Ho5] Hb5 Hext. apply wp_bind, (f_pos_inc_wp _ filp dir (fd + 2)); [done|lia|]. intros w6 He6 Ho6.
    pose proof He6 as [[Hh6 _] _]. apply IH; [by replace (fd + 1 + 2) with (fd + 2 + 1) by lia|by rewrite Hh6, (proj1 Hb5)|lia|lia|].
    intros l q w7 He7 Ho7 Hl7. eapply HQ; [|exact Ho7|by apply Hext].
    apply (emitted_trans _ _ _ w5); [by split|]. by apply (emitted_trans [] _ _ w6). }
  destruct file as [file|]; kcbn; repeat (kdec; kcbn).
  - assert (Hop : may_open V fd) by (apply Hmay; by eexists).
    intros [] m3 Hm3. pose proof (reading_call _ _ _ _ _ (Unlock Rcu) tt m3 _ I R2 (proj1 Hm3)) as R3.
    change (snprintf PROC_NUMBUF (fmt_d (s32 fd))) with (numeric_name fd).
    assert (Hsplit : numeric_name fd = ((numeric_name fd).1, (numeric_name fd).2)) by done.
    rewrite Hsplit. cbv beta iota. apply wp_bind.
    apply (offer_wp _ filp dir (fd + 2)); [apply live_files_stable|done|done|apply R3|]. intros r [m4 h4 b4 l4] He4 Ho4.
    assert (R4 : reading filp dir (fd + 2) [fd_entry fd r] (World m0 (RLock Rcu :: h) b0 l0) (World m4 h b0 l4)).
    { exact (reading_trans _ _ _ _ [] _ _ _ _ R3 He4 Ho4). }
    destruct He4 as [[Hh4 Hb4] _]. cbn [held bad] in *. subst h4 b4. kcbn. intros [] m5 Hm5.
    pose proof (reading_call _ _ _ _ _ (Lock Rcu) tt m5 _ I R4 (proj1 Hm5)) as R5.
    destruct (Z.ltb_spec r 0); kcbn.
    + eapply HQ; [split; [|apply R5]; done|apply R5|by apply (Fd_refused fd s)].
    + refine (Hnext (after (Lock Rcu) tt m5 (World m4 h b0 l4)) _ R5 _ _); [done|]. intros l q Hl. by apply (Fd_accepted fd s).
  - refine (Hnext _ _ R2 _ _); [split; kcbn; by repeat kdec|]. intros l q Hl. apply (Fd_skip fd s); try done.
    intros Hst. by destruct (Hstay Hst).
Qed.
End View.

Lemma readfd_dots_wp filp dir inode pos w (Q : bool -> world -> Prop) :
  opened filp dir pos (mem w) -> 0 <= pos < 2 ^ 62 ->
  (forall d l q w', emitted l w w' -> opened filp dir q (mem w') -> lists pos (zdrop pos dots) l q d -> Q d w') ->
  wp dir_stable (readfd_dots filp dir inode pos) Q w.
Proof.
  intros Ho Hpos HQ. unfold readfd_dots. kunfold.
  destruct (Z.eqb_spec pos 0) as [->|H0]; kcbn.
  - apply wp_bind, (emit_dot_wp filp dir 0); [done|lia| |].
    + intros x w1 Hx He Ho1. kcbn. eapply HQ; [done|done|by constructor].
    + intros x w1 Hx He Ho1. kcbn. change (0 <=? 1) with true. kcbn. intros ino m1 Hm1.
      apply (emit_dot_wp filp dir 1); [by eapply (call_opened _ _ _ (ParentIno dir))|lia| |];
        intros y w2 Hy He2 Ho2; (apply (emitted_call (ParentIno dir) ino m1 w1) in He2; [|done..|exact Hm1]); (eapply HQ; [by eapply emitted_trans|done|]); cbn; constructor; try done.
      * by constructor.
      * constructor; [done|]. constructor.
  - destruct (Z.leb_spec pos 1) as [H1|H1]; kcbn.
    + assert (pos = 1) as -> by lia. intros ino m1 Hm1.
      apply (emit_dot_wp filp dir 1); [by eapply (call_opened _ _ _ (ParentIno dir))|lia| |];
        intros y w2 Hy He2 Ho2; (apply (emitted_call (ParentIno dir) ino m1 w) in He2; [|done..|exact Hm1]); (eapply HQ; [done|done|]); [by constructor|].
      constructor; [done|]. constructor.
    + apply (HQ true [] pos); [done|done|].
      replace (zdrop pos dots) with (@nil bytes) by (unfold zdrop; by rewrite drop_ge by (cbn; lia)). constructor.
Qed.

Lemma accepted_app l k : accepted (l ++ k) = accepted l ++ accepted k.
Proof. apply flat_map_app. Qed.

Lemma all_accepted_cons name pos x l : 0 <= x -> all_accepted ((name, pos, x) :: l) = all_accepted l.
Proof. intros Hx. unfold all_accepted at 1. cbn [forallb snd]. by destruct (Z.leb_spec 0 x); [|lia]. Qed.

Lemma all_accepted_app l k : all_accepted (l ++ k) = all_accepted l && all_accepted k.
Proof. apply forallb_app. Qed.

Lemma lists_all_accepted pos names l q d : lists pos names l q d -> all_accepted l = true -> d = true.
Proof.
  induction 1 as [|? ? ? x Hx|? ? ? x l q d Hx _ IH]; cbn; [done| |].
  - by destruct (Z.leb_spec 0 x); [lia|].
  - intros H. apply IH. by destruct (0 <=? x).
Qed.

(** The caller stopped the listing: it refused the entry at offset [q], and
    none before. *)
Definition stopped_at (q : Z) (l : list (bytes * Z * Z)) : Prop :=
  exists l0 name x, l = l0 ++ [(name, q, x)] /\ all_accepted l0 = true /\ x < 0.

Lemma stopped_at_app k q l : all_accepted k = true -> stopped_at q l -> stopped_at q (k ++ l).
Proof.
  intros Hk (l0 & name & x & -> & Hl & Hx). exists (k ++ l0), name, x. by rewrite app_assoc, all_accepted_app, Hk, Hl.
Qed.

Lemma lists_end pos names l q d : lists pos names l q d -> if d then all_accepted l = true else stopped_at q l.
Proof.
  induction 1 as [|pos n ns x Hx|pos n ns x l q [] Hx _ IH]; [done|by exists [], n, x| |].
  - by rewrite all_accepted_cons.
  - apply (stopped_at_app [_]); [|done]. by rewrite all_accepted_cons.
Qed.

(** The entries offered carry their own offset and name. *)
Lemma lists_entries pos names l q d : lists pos names l q d ->
  Forall (fun e : bytes * Z * Z => pos <= e.1.2 /\ names !! Z.to_nat (e.1.2 - pos) = Some e.1.1) l.
Proof.
  induction 1 as [|pos n ns x Hx|pos n ns x l q d Hx _ IH]; [constructor|..]; constructor; cbn [fst snd];
    try (rewrite Z.sub_diag; split; [lia|done]); [constructor|].
  eapply Forall_impl; [exact IH|]. intros [[name p] y] [Hp Hn]. cbn [fst snd] in *. split; [lia|].
  by replace (Z.to_nat (p - pos)) with (S (Z.to_nat (p - (pos + 1)))) by lia.
Qed.

(** One reading of a descriptor directory from [pos]: what was accepted up
    to the new offset [q], and that only a refusal stops it before the end of
    the table. *)
Definition live_fd_reading (V : fd_view) (pos : Z) (l : list (bytes * Z * Z)) (q : Z) : Prop :=
  pos <= q /\ within V (Z.max pos 2 - 2) (q - 2) /\
  (exists S, fds V (Z.max pos 2 - 2) (q - 2) S /\ accepted l = ztake (q - pos) (zdrop pos dots) ++ fd_names S) /\
  (all_accepted l = true -> 2 <= q /\ exists s, sizes V s /\ s <= q - 2).

(** The two dots and what the loop adds. *)
Lemma live_fd_reading_files V pos l q l5 q5 : 0 <= pos -> lists pos (zdrop pos dots) l q true ->
  fdlists V (q - 2) l5 q5 -> live_fd_reading V pos (l ++ l5) (q5 + 2).
Proof.
  intros Hpos Hl Hfd. unfold live_fd_reading. pose proof (lists_bounds _ _ _ _ _ Hl) as (Hq & Hdone & Hacc).
  rewrite len_zdrop_dots in Hq, Hdone by lia. destruct Hdone as [Hdone _]. specialize (Hdone eq_refl).
  pose proof (fdlists_spec V _ _ _ Hfd) as (Hq5 & Hw & (S & HS & Hacc5) & Hall). replace (Z.max pos 2 - 2) with (q - 2) by lia.
  replace (q5 + 2 - 2) with q5 by lia. split; [lia|]. split; [done|]. split.
  - exists S. split; [done|]. rewrite accepted_app, Hacc, Hacc5. f_equal.
    pose proof (len_zdrop_dots pos Hpos) as Hlz. unfold len in Hlz. unfold ztake.
    rewrite !take_ge by lia. done.
  - rewrite all_accepted_app, andb_true_iff. intros [_ H5]. destruct (Hall H5) as (s & Hs & Hle). split; [lia|]. by exists s.
Qed.

Lemma proc_readfd_common_wp V bound fuel filp dir pos (inst : Z -> instantiate_t) w (Q : Z -> world -> Prop) :
  (forall fd, Instantiates (inst fd)) -> (forall fd, Attaches (inst fd)) -> live_table V bound -> bound <= 2 ^ 31 ->
  bound <= Z.of_nat fuel -> opened filp dir pos (mem w) -> 0 <= pos < 2 ^ 31 ->
  (forall w', emitted [] w w' -> opened filp dir pos (mem w') -> Q (- ENOENT) w') ->
  (forall l q w', emitted l w w' -> opened filp dir q (mem w') -> live_fd_reading V pos l q -> Q 0 w') ->
  wp (live_files V) (proc_readfd_common fuel filp inst) Q w.
Proof.
  intros Hi Ha Hview Hmax Hfuel Ho Hpos Hgone HQ. pose proof Ho as (_ & Hd & [di Hdi]). destruct w as [m0 h b l0]. cbn [mem] in *.
  unfold proc_readfd_common, dentry_inode. kunfold. kcbn. rewrite Hd, Hdi. kcbn.
  assert (R0 : reading filp dir pos [] (World m0 h b l0) (World m0 h b l0)) by (by split).
  intros [p|] m1 Hm1; pose proof (reading_call _ _ _ _ _ (GetProcTask di) _ m1 (World m0 h b l0) I R0 (proj1 Hm1)) as R1; kcbn;
    [|apply Hgone; [split; [done|apply R1]|apply R1]].
  set (w1 := World m1 _ _ _) in *. assert (Hp1 : f_pos (k_file m1 !!! filp) = pos) by apply R1.
  cbn [file_pos gets pbind mbind prog_mbind wp]. cbn [w1 mem]. rewrite Hp1. unfold u32 at 1. rewrite Z.mod_small by lia.
  assert (Hout : forall l q w', emitted l w1 w' -> opened filp dir q (mem w') -> live_fd_reading V pos l q ->
    wp (live_files V) (call (PutTaskStruct p);; mret 0) Q w').
  { intros l q w' He Ho' Hr. eapply (put_task_wp _ filp dir q p l (World m0 h b l0) w1); [apply live_files_stable|done|apply R1|done|done|].
    intros w2 He2 Ho2. by apply (HQ l q). }
  fold w1. apply wp_bind, (wp_contract dir_stable _ _ _ _ (live_files_stable V)).
  apply (readfd_dots_wp filp dir); [apply R1|lia|]. intros d l q w2 He2 Ho2 Hl2.
  pose proof (lists_bounds _ _ _ _ _ Hl2) as (Hq & Hdone & Hacc). rewrite len_zdrop_dots in Hq, Hdone by lia.
  destruct d; cbv iota; [destruct Hdone as [Hq2 _]; specialize (Hq2 eq_refl)|].
  2: { assert (Hq2 : q < 2) by (destruct (Z.lt_ge_cases q 2); [done|]; assert (false = true) by (apply Hdone; lia); done).
       apply (Hout l q); [exact He2|exact Ho2|]. split; [lia|]. split; [left; lia|]. split.
       - exists []. split; [apply spans_nil; lia|]. by rewrite Hacc, app_nil_r.
       - intros H. by apply (lists_all_accepted _ _ _ _ _ Hl2) in H. }
  assert (R2 : reading filp dir q l w1 w2) by (by split; [apply He2|]). destruct He2 as [Hb2 _].
  unfold readfd_files. kunfold. destruct w2 as [m2 h2 b2 l2]. kcbn. intros x m3 [Hm3 [files ->]].
  pose proof (reading_call _ _ _ _ _ (GetFilesStruct p) _ m3 _ I R2 Hm3) as R3. kcbn. intros [] m4 [Hm4 _].
  pose proof (reading_call _ _ _ _ _ (Lock Rcu) tt m4 _ I R3 Hm4) as R4.
  assert (Hp4 : f_pos (k_file m4 !!! filp) = q) by apply R4. cbn [file_pos gets pbind mbind prog_mbind wp mem]. rewrite Hp4.
  rewrite u32_small by lia. do 2 apply wp_bind.
  eapply (readfd_loop_wp V bound filp dir files p inst (RFiles files :: h2)); [done|done|done|done| |done|lia|lia|].
  { replace (q - 2 + 2) with q by lia. apply R4. }
  intros l5 q5 [m5 h5 b5 ll5] He5 Ho5 Hfd. pose proof (reading_trans _ _ _ _ _ _ _ _ _ R4 He5 Ho5) as R5.
  destruct He5 as [[Hh5 Hb5] _]. cbn [held bad] in *. subst h5 b5. kcbn.
  intros [] m6 [Hm6 _]. pose proof (reading_call _ _ _ _ _ (Unlock Rcu) tt m6 _ I R5 Hm6) as R6. repeat (kdec; kcbn).
  intros [] m7 [Hm7 _]. pose proof (reading_call _ _ _ _ _ (PutFilesStruct files) tt m7 _ I R6 Hm7) as R7. repeat (kdec; kcbn).
  refine (Hout (l ++ l5) (q5 + 2) (World m7 h2 b2 (Obs (PutFilesStruct files) tt :: Obs (Unlock Rcu) tt :: ll5)) _ _ _).
  - split; [exact Hb2|apply R7].
  - apply R7.
  - by apply (live_fd_reading_files V pos l q l5 q5); [lia|..].
Qed.

(** *** A file table that stays as it is *)

(** A file table with [max] slots, of which [opens] holds the used ones. *)
Definition fd_table (max : Z) (opens : Z -> bool) : contract := fun o tr m x m' =>
  dir_stable o tr m x m' /\
  match o return ans o -> Prop with
  | MaxFds _ => fun x => x = max
  | FcheckFiles _ fd => fun x => x = None <-> opens fd = false
  | GetFilesStruct _ => fun x => is_Some x
  | _ => fun _ => True
  end x.

Definition static_fds (max : Z) (opens : Z -> bool) : fd_view :=
  FdView (fun s => s = max) (fun k => k < max /\ opens k = true) (fun k => opens k = true).

Lemma static_live_table max opens : live_table (static_fds max opens) max.
Proof. split; [intros s ->; lia|]. by intros s k -> [Hk _]. Qed.

Lemma static_files max opens o tr m x m' : fd_table max opens o tr m x m' -> live_files (static_fds max opens) o tr m x m'.
Proof.
  intros [Hst Hx]. split; [done|]. destruct o; try done. cbn in *. destruct (opens fd) eqn:Ho.
  - split; [|done]. intros _. destruct x; [by eexists|]. by destruct Hx as [Hx _]; specialize (Hx eq_refl).
  - split; [by intros []|]. intros [y ->]. by destruct Hx as [_ Hx]; specialize (Hx eq_refl).
Qed.

Definition zrange (a b : Z) : list Z := (fun i => a + Z.of_nat i) <$> seq 0 (Z.to_nat (b - a)).

Lemma zrange_elem a b n : n ∈ zrange a b <-> a <= n < b.
Proof.
  unfold zrange. rewrite list_elem_of_fmap. split.
  - intros (i & -> & Hi%elem_of_seq). lia.
  - intros H. exists (Z.to_nat (n - a)). rewrite elem_of_seq. lia.
Qed.

Lemma zrange_sorted a b : StronglySorted Z.lt (zrange a b).
Proof.
  unfold zrange. generalize 0%nat. induction (Z.to_nat (b - a)) as [|k IH]; intros i; cbn; constructor; [apply IH|].
  apply Forall_forall. intros x (j & -> & Hj%elem_of_seq)%list_elem_of_fmap. lia.
Qed.

(** The used descriptors in a range. *)
Definition open_fds (opens : Z -> bool) (a b : Z) : list Z := filter (fun fd => opens fd = true) (zrange a b).

Lemma open_fds_elem opens a b n : n ∈ open_fds opens a b <-> a <= n < b /\ opens n = true.
Proof. unfold open_fds. rewrite list_elem_of_filter, zrange_elem. tauto. Qed.

Lemma open_fds_sorted opens a b : StronglySorted Z.lt (open_fds opens a b).
Proof.
  unfold open_fds. induction (zrange_sorted a b) as [|x l Hl IH Hx]; [constructor|]. rewrite filter_cons. destruct (decide _); [|done].
  constructor; [done|]. rewrite Forall_forall in *. intros y [_ Hy]%list_elem_of_filter. by apply Hx.
Qed.

Definition fd_reading (max : Z) (opens : Z -> bool) (pos : Z) (l : list (bytes * Z * Z)) (q : Z) : Prop :=
  pos <= q /\
  accepted l = ztake (q - pos) (zdrop pos dots) ++ fd_names (open_fds opens (Z.max pos 2 - 2) (q - 2)) /\
  (all_accepted l = true -> q = Z.max pos (Z.max max 0 + 2)).

Lemma static_fd_reading max opens pos l q : 0 <= pos -> live_fd_reading (static_fds max opens) pos l q -> fd_reading max opens pos l q.
Proof.
  intros Hpos (Hq & Hw & (S & HS & Hacc) & Hall). split; [done|]. unfold within in Hw. cbn [sizes static_fds] in Hw.
  split.
  - rewrite Hacc. do 2 f_equal. apply sorted_elem_unique; [apply HS|apply open_fds_sorted|]. intros n.
    rewrite open_fds_elem. destruct HS as (_ & Hin & Hmust). split; [apply Hin|]. intros [Hn Ho]. apply Hmust; [|done].
    split; [|done]. destruct Hw as [Hw|(s & -> & Hw)]; lia.
  - intros Ha. destruct (Hall Ha) as (H2 & s & -> & Hs). destruct Hw as [Hw|(s' & -> & Hw)]; lia.
Qed.

(** ** Properties *)

Lemma dcache_env_stable (A : forall o, ans o) : (forall dir name, A (DLookup dir name) = None) -> keeps (dcache_env A) dir_stable.
Proof.
  intros HA o tr m. assert (Hk : k_file (dcache_step o m) = k_file m) by (by destruct o, m).
  destruct o; try (split; [exact Hk|done]).
  - split; [done|]. split; [done|]. exists (f_private (k_file m !!! f)). cbn. by destruct (k_file m !!! f).
  - split; [done|]. split; [done|]. cbn. by rewrite HA.
Qed.

(** [n] calls of readdir on one open directory. *)
Fixpoint again (n : nat) (readdir : prog Z) : prog unit :=
  match n with
  | O => mret tt
  | S n => r ← readdir; again n readdir
  end.

Lemma zdrop_cut {A} a b (l : list A) : 0 <= a <= b -> ztake (b - a) (zdrop a l) = zdrop a (ztake b l).
Proof. intros H. unfold ztake, zdrop. rewrite take_drop_commute. do 2 f_equal. lia. Qed.

Lemma ztake_step {A} a b (l : list A) : 0 <= a <= b -> ztake b l = ztake a l ++ ztake (b - a) (zdrop a l).
Proof.
  intros H. rewrite zdrop_cut by done. rewrite <- (ztake_zdrop a (ztake b l)) at 1. f_equal.
  unfold ztake. rewrite take_take. f_equal. lia.
Qed.

Lemma len_listing ents : len (listing ents) = 2 + len ents.
Proof. unfold listing. rewrite len_app, len_fmap. done. Qed.

Lemma again_wp filp dir ents n : len ents + 2 < 2 ^ 31 -> forall pos w (Q : unit -> world -> Prop),
  opened filp dir pos (mem w) -> 0 <= pos <= len (listing ents) ->
  (forall l q w', emitted l w w' -> opened filp dir q (mem w') -> pos <= q <= len (listing ents) ->
     ztake q (listing ents) = ztake pos (listing ents) ++ accepted l -> Q tt w') ->
  wp dir_stable (again n (proc_pident_readdir filp ents)) Q w.
Proof.
  intros Hmax. induction n as [|n IH]; intros pos w Q Ho Hpos HQ; cbn [again].
  { apply (HQ [] pos); [done|done|lia|by rewrite app_nil_r]. }
  assert (Hnext : forall l q w1, emitted l w w1 -> opened filp dir q (mem w1) -> pos <= q <= len (listing ents) ->
    ztake q (listing ents) = ztake pos (listing ents) ++ accepted l -> 
    wp dir_stable (again n (proc_pident_readdir filp ents)) (fun a w' => Q a w') w1).
  { intros l q w1 He Ho1 Hq Hl. apply (IH q); [done|lia|]. intros l2 q2 w2 He2 Ho2 Hq2 Hl2.
    eapply HQ; [by eapply emitted_trans|exact Ho2|lia|]. by rewrite Hl2, Hl, accepted_app, app_assoc. }
  rewrite len_listing in *. pose proof (len_nonneg ents). apply wp_bind, (proc_pident_readdir_wp filp dir pos); [done|lia|lia| |].
  - intros w1 He Ho1. apply (Hnext [] pos); [done|done|lia|by rewrite app_nil_r].
  - intros l q d w1 He Ho1 Hl. pose proof (lists_bounds _ _ _ _ _ Hl) as (Hq & _ & Hacc).
    rewrite len_zdrop, len_listing in Hq by lia. apply (Hnext l q); [done|done|lia|].
    rewrite Hacc. apply ztake_step. lia.
Qed.

(** C13: However the reading of a directory made from a table is cut up - any
    number of calls, the caller refusing entries wherever it likes, the
    process disappearing in between - the entries it accepted are, in order
    and each once, the first [f_pos] of ".", ".." and the table's names, and
    no call leaves anything held. *)
Theorem table_directory_lists_each_once E filp dir ents n w :
  keeps E dir_stable -> len ents + 2 < 2 ^ 31 -> opened filp dir 0 (mem w) ->
  ends E (again n (proc_pident_readdir filp ents)) w (fun _ w' =>
    exists l q, emitted l w w' /\ opened filp dir q (mem w') /\ 0 <= q <= len (listing ents) /\
      accepted l = ztake q (listing ents)).
Proof.
  intros HE Hmax Ho. pose proof (len_nonneg (listing ents)). apply (wp_ends _ dir_stable); [done|].
  apply (again_wp filp dir ents n Hmax 0); [done|lia|]. intros l q w' He Ho' Hq Hl. exists l, q. by rewrite Hl.
Qed.

(** One call of readdir on a table directory: a process that is gone is
    -ENOENT; otherwise the entries from the current offset on are offered in
    order until one is refused, where the next call resumes; the answer is 1
    exactly when the listing was completed. *)
Theorem proc_pident_readdir_spec E filp dir ents pos w :
  keeps E dir_stable -> len ents + 2 < 2 ^ 31 -> 0 <= pos < 2 ^ 31 -> opened filp dir pos (mem w) ->
  ends E (proc_pident_readdir filp ents) w (fun r w' =>
    exists l q, emitted l w w' /\ opened filp dir q (mem w') /\
      (r = - ENOENT /\ l = [] /\ q = pos \/
       exists d : bool, lists pos (zdrop pos (listing ents)) l q d /\ r = if d then 1 else 0)).
Proof.
  intros HE Hmax Hpos Ho. apply (wp_ends _ dir_stable); [done|].
  apply (proc_pident_readdir_wp filp dir pos); [done|lia|lia| |].
  - intros w' He Ho'. exists [], pos. split_and!; [done|done|by left].
  - intros l q d w' He Ho' Hl. exists l, q. split_and!; [done|done|]. right. by exists d.
Qed.

(** A name of the table is found, and a live process gets an inode that stands
    for the entry of this name; any other name is -ENOENT and leaves the kernel
    as it was. *)
Lemma proc_pident_lookup_finds (A : forall o, ans o) ents dir dentry task w : searchable ents -> A (GetProcTask dir) = Some task ->
  let name := d_name (k_dentry (mem w) !!! dentry) in
  ends (dcache_env A) (proc_pident_lookup dir dentry ents) w (fun r w' => balanced w w' /\
    (name ∈ (pe_name <$> ents) -> exists p, p ∈ ents /\ pe_name p = name /\
       forall ino pid t, A (NewInode (i_sb (k_inode (mem w) !!! dir))) = Some ino -> A (GetTaskPid task) = Some pid ->
         A (GetProcTask ino) = Some t -> r = 0 /\ shows_entry p pid (k_inode (mem w') !!! ino) /\
         d_inode (k_dentry (mem w') !!! dentry) = Some ino) /\
    (name ∉ (pe_name <$> ents) -> r = - ENOENT /\ mem w' = mem w)).
Proof.
  intros (Ht & _) HA name. apply (wp_ends _ (dcache_answers A)); [apply keeps_dcache_env|].
  destruct w as [m h b l]. cbn [mem] in *. unfold proc_pident_lookup. kunfold. kcbn.
  intros x m1 [-> ->]. rewrite HA. kcbn. cbn [dcache_step].
  change (d_name (k_dentry m !!! dentry)) with name. pose proof (find_entry_spec name ents Ht) as Hs.
  destruct (find_entry name ents) as [p|]; kcbn.
  - destruct Hs as [Hp Hn]. apply wp_bind. eapply wp_mono; [apply proc_pident_instantiate_answers|].
    intros r [m2 h2 b2 l2] [[Hh Hb] Hi]. cbn [mem held bad] in *. subst h2 b2. kcbn.
    intros [] m3 [_ ->]. cbn [dcache_step]. repeat (kdec; kcbn). split; [done|]. split.
    + intros _. exists p. split; [done|]. split; [done|]. intros ino pid t H1 H2 H3. rewrite H1, H2, H3 in Hi. by destruct Hi as (? & ? & ? & _).
    + intros Hnot. destruct Hnot. rewrite <- Hn. by apply list_elem_of_fmap_2.
  - intros [] m3 [_ ->]. repeat (kdec; kcbn). split; [done|]. split; [done|]. by intros _.
Qed.

(** Both directories are one function with two ways to make an entry. *)
Lemma readfd_instantiates (readfd : nat -> file_id -> prog Z) fuel filp : In readfd [proc_readfd; proc_readfdinfo] ->
  exists f, readfd fuel filp = proc_readfd_common fuel filp f /\ (forall fd, Instantiates (f fd)) /\ forall fd, Attaches (f fd).
Proof.
  intros [<-|[<-|[]]].
  - exists proc_fd_instantiate. split; [done|]. split; intros fd; [exact (proc_fd_instantiates fd)|exact (proc_fd_attaches fd)].
  - exists proc_fdinfo_instantiate. split; [done|]. split; intros fd;
      [exact (proc_fdinfo_instantiates fd)|exact (proc_fdinfo_attaches fd)].
Qed.

(** The names below offset [q] of a descriptor directory. *)
Definition fd_names_below (V : fd_view) (q : Z) (names : list bytes) : Prop :=
  exists S, fds V 0 (q - 2) S /\ names = ztake q dots ++ fd_names S.

Lemma fd_names_start V : fd_names_below V 0 [].
Proof. exists []. split; [|done]. apply spans_nil. lia. Qed.

Lemma fd_names_step V pos l q names : 0 <= pos -> fd_names_below V pos names -> live_fd_reading V pos l q ->
  fd_names_below V q (names ++ accepted l).
Proof.
  intros Hpos (S0 & HS0 & ->) (Hq & _ & (S & HS & Hacc) & _). rewrite Hacc. destruct (Z.lt_ge_cases pos 2) as [Hlt|Hge].
  - assert (S0 = []) as ->.
    { destruct S0 as [|x S0]; [done|]. destruct (proj1 (proj2 HS0) x ltac:(left)) as [Hx _]. lia. }
    exists S. replace (Z.max pos 2 - 2) with 0 in HS by lia. split; [done|]. rewrite zdrop_cut by lia. cbn [fd_names fmap list_fmap].
    rewrite app_nil_r, app_assoc. f_equal. unfold ztake, zdrop. rewrite <- (take_drop (Z.to_nat pos) (take (Z.to_nat q) dots)) at 2.
    by rewrite take_take, Nat.min_l by lia.
  - replace (Z.max pos 2) with pos in HS by lia. exists (S0 ++ S). split; [by apply (spans_app _ (pos - 2)); [lia| |]|].
    unfold fd_names, ztake, zdrop. rewrite fmap_app, (drop_ge dots), take_nil, !(take_ge dots) by (cbn; lia). cbn [app]. by rewrite <- app_assoc.
Qed.

Lemma again_fd_wp V bound fuel filp dir (inst : Z -> instantiate_t) n :
  (forall fd, Instantiates (inst fd)) -> (forall fd, Attaches (inst fd)) -> live_table V bound -> 0 <= bound < 2 ^ 31 - 2 ->
  bound <= Z.of_nat fuel -> forall pos w (Q : unit -> world -> Prop),
  0 <= pos <= bound + 2 -> opened filp dir pos (mem w) ->
  (forall l q w', emitted l w w' -> opened filp dir q (mem w') -> pos <= q <= bound + 2 ->
     (forall names, fd_names_below V pos names -> fd_names_below V q (names ++ accepted l)) -> Q tt w') ->
  wp (live_files V) (again n (proc_readfd_common fuel filp inst)) Q w.
Proof.
  intros Hi Ha Hview Hmax Hfuel. induction n as [|n IH]; intros pos w Q Hpos Ho HQ; cbn [again].
  { apply (HQ [] pos); [done|done|lia|]. intros names. by rewrite app_nil_r. }
  assert (Hnext : forall l q w1, emitted l w w1 -> opened filp dir q (mem w1) -> pos <= q <= bound + 2 ->
    (forall names, fd_names_below V pos names -> fd_names_below V q (names ++ accepted l)) ->
    wp (live_files V) (again n (proc_readfd_common fuel filp inst)) (fun a w' => Q a w') w1).
  { intros l q w1 He Ho1 Hq Hl. apply (IH q); [lia|done|]. intros l2 q2 w2 He2 Ho2 Hq2 Hl2.
    eapply HQ; [by eapply emitted_trans|exact Ho2|lia|]. intros names Hn. rewrite accepted_app, app_assoc. by apply Hl2, Hl. }
  apply wp_bind, (proc_readfd_common_wp V bound fuel filp dir pos); [done|done|done|lia|lia|done|lia| |].
  - intros w1 He Ho1. apply (Hnext [] pos); [done|done|lia|]. intros names. by rewrite app_nil_r.
  - intros l q w1 He Ho1 Hr. apply (Hnext l q); [done|done| |].
    + destruct Hr as (Hq & Hw & _). split; [done|]. destruct Hw as [Hw|(s & Hs & Hw)]; [lia|].
      pose proof (table_bound _ _ Hview s Hs). lia.
    + intros names Hn. by apply (fd_names_step V pos); [lia| |].
Qed.

(** C18: However the reading of fd or fdinfo is cut up, and whatever files the
    process opens and closes meanwhile (its table may grow): after any number
    of calls the accepted entries are ".", ".." and then numbers of
    descriptors that were open, in strictly ascending order and so each at most
    once, and every descriptor that stays open and is below the offset is among
    them. The loop ends for any [fuel] from the largest size of the table, and
    the RCU lock, dropped around every entry, and all references are given
    back. *)
Theorem fd_directory_lists_open_files E filp dir V bound fuel n w (readfd : nat -> file_id -> prog Z) :
  keeps E (live_files V) -> live_table V bound -> 0 <= bound < 2 ^ 31 - 2 -> bound <= Z.of_nat fuel ->
  opened filp dir 0 (mem w) -> In readfd [proc_readfd; proc_readfdinfo] ->
  ends E (again n (readfd fuel filp)) w (fun _ w' =>
    exists l q, emitted l w w' /\ opened filp dir q (mem w') /\ 0 <= q <= bound + 2 /\
      exists S, accepted l = ztake q dots ++ ((fun fd => (numeric_name fd).1) <$> S) /\
        StronglySorted Z.lt S /\ (forall fd, fd ∈ S -> 0 <= fd < q - 2 /\ may_open V fd) /\
        (forall fd, stays_open V fd -> 0 <= fd < q - 2 -> fd ∈ S)).
Proof.
  intros HE Hview Hmax Hfuel Ho Hin. apply (wp_ends _ (live_files V)); [done|].
  destruct (readfd_instantiates readfd fuel filp Hin) as (f & -> & Hi & Ha).
  apply (again_fd_wp V bound fuel filp dir f n Hi Ha Hview Hmax Hfuel 0); [lia|done|].
  intros l q w' He Ho' Hq Hl. exists l, q. split; [done|]. split; [done|]. split; [lia|].
  destruct (Hl [] (fd_names_start V)) as (S & HS & Hacc). exists S. split; [exact Hacc|]. exact HS.
Qed.

(** One reading of a descriptor directory, [fuel] being any bound of the
    number of slots: it ends, and from the offset it started at lists ".",
    ".." and the numbers of the open descriptors in ascending order; only a
    refused entry stops it before the table's end, the offset then names that
    entry, and the RCU lock, dropped around every entry, and the references
    are given back on each path. *)
Theorem proc_readfd_spec E filp dir max opens fuel pos w (readfd : nat -> file_id -> prog Z) :
  keeps E (fd_table max opens) -> max <= Z.of_nat fuel -> max <= 2 ^ 31 -> 0 <= pos < 2 ^ 31 ->
  opened filp dir pos (mem w) -> In readfd [proc_readfd; proc_readfdinfo] ->
  ends E (readfd fuel filp) w (fun r w' =>
    exists l q, emitted l w w' /\ opened filp dir q (mem w') /\
      (r = - ENOENT /\ l = [] /\ q = pos \/ r = 0 /\ fd_reading max opens pos l q)).
Proof.
  intros HE Hfuel Hmax Hpos Ho Hin. apply (wp_ends _ (fd_table max opens)); [done|].
  destruct (readfd_instantiates readfd fuel filp Hin) as (f & -> & Hi & Ha).
  apply (wp_contract (live_files (static_fds max opens)) _ _ _ _ (static_files max opens)).
  apply (proc_readfd_common_wp _ max fuel filp dir pos f w); [done|done|apply static_live_table|done|done|done|done| |].
  - intros w' He Ho'. exists [], pos. split_and!; [done|done|by left].
  - intros l q w' He Ho' Hr. exists l, q. split_and!; [done|done|right]. split; [done|]. apply static_fd_reading; [lia|done].
Qed.

(** The reference that is not given back: a cached dentry without an inode is
    found by [d_lookup], and no path of [proc_fill_cache] puts it. *)
Theorem proc_fill_cache_keeps_negative_dentry (A : forall o, ans o) filp name n f task child w :
  A (DLookup (f_dentry (k_file (mem w) !!! filp)) name) = Some child -> d_inode (k_dentry (mem w) !!! child) = None ->
  ends (fixed A) (proc_fill_cache filp name n f task) w (fun _ w' => keeps_only [RDentry child] w w').
Proof.
  intros Hl Hd. apply (wp_ends _ (answers A)); [done|]. destruct w as [m h b l]. cbn [mem] in *.
  unfold proc_fill_cache, fill_cache_child, fill_cache_emit. kunfold. kcbn. intros x m1 [-> ->]. rewrite Hl. kcbn.
  rewrite Hd. kcbn. change (0 =? 0) with true. kcbn. intros ino m1 [-> ->]. kcbn. intros r m1 [-> ->]. done.
Qed.

(** ** Witnesses *)

(** A kernel in which the reader accepts every entry; the process has
    descriptors 0 and 2 open. File 4 is the open directory, dentry 5. *)
Definition dir_opens (fd : Z) : bool := (fd =? 0) || (fd =? 2).

Definition dir_kernel (o : op) : ans o :=
  match o with
  | GetFilesStruct _ => Some 8%nat
  | MaxFds _ => 3
  | FcheckFiles _ fd => if dir_opens fd then Some 4%nat else None
  | DAlloc _ _ => Some 7%nat
  | o => ino_kernel o
  end.

Definition dir_mem (pos : Z) : kmem :=
  Kmem 1 ∅ ∅ ∅ ∅ {[ 4%nat := File pos 0 0 (Path 0%nat 5%nat) 0 PrivNone ]} {[ 6%nat := inhabitant ]}
    {[ 5%nat := Dentry (str "comm") (Some 6%nat) None 0 ]} ∅ ∅ ∅ ∅ ∅ ∅ ∅ HookDummy.

Lemma dir_kernel_stable : keeps (dcache_env dir_kernel) dir_stable.
Proof. by apply dcache_env_stable. Qed.

Lemma dir_kernel_fd_table : keeps (dcache_env dir_kernel) (fd_table 3 dir_opens).
Proof.
  intros o tr m. split; [apply dir_kernel_stable|]. destruct o; try done.
  cbn. by destruct (dir_opens fd).
Qed.

Lemma dir_mem_opened pos : opened 4%nat 5%nat pos (dir_mem pos).
Proof. split; [done|]. split; [done|]. by exists 6%nat. Qed.

Lemma table_directory_lists_each_once_witness :
  keeps (dcache_env dir_kernel) dir_stable /\ len attr_dir_stuff + 2 < 2 ^ 31 /\
  ends (dcache_env dir_kernel) (again 2 (proc_pident_readdir 4%nat attr_dir_stuff)) (world0 (dir_mem 0))
    (fun _ w' => exists l q, emitted l (world0 (dir_mem 0)) w' /\ opened 4%nat 5%nat q (mem w') /\
      0 <= q <= len (listing attr_dir_stuff) /\ accepted l = ztake q (listing attr_dir_stuff)).
Proof.
  split; [exact dir_kernel_stable|]. split; [reflexivity|].
  exact (table_directory_lists_each_once _ 4%nat 5%nat attr_dir_stuff 2 (world0 (dir_mem 0)) dir_kernel_stable eq_refl (dir_mem_opened 0)).
Defined.

Lemma proc_pident_readdir_spec_witness :
  ends (dcache_env dir_kernel) (proc_pident_readdir 4%nat attr_dir_stuff) (world0 (dir_mem 3)) (fun r w' =>
    exists l q, emitted l (world0 (dir_mem 3)) w' /\ opened 4%nat 5%nat q (mem w') /\
      (r = - ENOENT /\ l = [] /\ q = 3 \/
       exists d : bool, lists 3 (zdrop 3 (listing attr_dir_stuff)) l q d /\ r = if d then 1 else 0)).
Proof.
  refine (proc_pident_readdir_spec _ 4%nat 5%nat attr_dir_stuff 3 (world0 (dir_mem 3)) dir_kernel_stable eq_refl _ (dir_mem_opened 3)).
  split; [discriminate|reflexivity].
Defined.

Lemma proc_readfd_spec_witness :
  ends (dcache_env dir_kernel) (proc_readfd 3 4%nat) (world0 (dir_mem 0)) (fun r w' =>
    exists l q, emitted l (world0 (dir_mem 0)) w' /\ opened 4%nat 5%nat q (mem w') /\
      (r = - ENOENT /\ l = [] /\ q = 0 \/ r = 0 /\ fd_reading 3 dir_opens 0 l q)).
Proof.
  refine (proc_readfd_spec _ 4%nat 5%nat 3 dir_opens 3%nat 0 (world0 (dir_mem 0)) proc_readfd dir_kernel_fd_table _ _ _
    (dir_mem_opened 0) _).
  - reflexivity || discriminate.
  - discriminate.
  - split; [discriminate|reflexivity].
  - left. reflexivity.
Defined.

(** The whole reading, evaluated: ".", "..", "0" and "2". *)
Example proc_readfd_evaluates :
  let '(r, w') := run (dcache_env dir_kernel) (proc_readfd 3 4%nat) (world0 (dir_mem 0)) in
  r = Done 0 /\ rev (dirents (log w')) = [(str ".", 0, 0); (str "..", 1, 0); (str "0", 2, 0); (str "2", 4, 0)] /\
  f_pos (k_file (mem w') !!! 4%nat) = 5 /\ held w' = [] /\ bad w' = [].
Proof. vm_compute. repeat split. Qed.

(** A table that changes: as soon as "0" is listed, descriptor 1 is closed,
    the table grows from 3 to 5 slots and 4 is opened; 0 and 2 stay. *)
Definition moved (tr : list obs) : bool := bool_decide (str "0" ∈ (fun e => e.1.1) <$> dirents tr).

Definition moving_kernel : env := fun o tr m =>
  match o return ans o * kmem with
  | MaxFds _ => (if moved tr then 5 else 3, m)
  | FcheckFiles _ fd =>
      (if (fd =? 0) || (fd =? 2) || (if moved tr then fd =? 4 else fd =? 1) then Some 4%nat else None, m)
  | o => dcache_env dir_kernel o tr m
  end.

Definition moving_view : fd_view :=
  FdView (fun s => s = 3 \/ s = 5) (fun k => k = 0 \/ k = 2) (fun k => k = 0 \/ k = 1 \/ k = 2 \/ k = 4).

Lemma moving_table : live_table moving_view 5.
Proof. split; cbn; lia. Qed.

Lemma moving_files : keeps moving_kernel (live_files moving_view).
Proof.
  intros o tr m. split; [destruct o; try (by apply dir_kernel_stable); done|]. destruct o; try done; cbn.
  - destruct (Z.eqb_spec fd 0), (Z.eqb_spec fd 2), (Z.eqb_spec fd 4), (Z.eqb_spec fd 1), (moved tr); cbn;
      (split; [first [intros _; by eexists|intros; exfalso; lia]|first [by intros []|intros _; lia]]).
  - destruct (moved tr); [by right|by left].
Qed.

Lemma fd_directory_lists_open_files_witness :
  ends moving_kernel (again 2 (proc_readfdinfo 5 4%nat)) (world0 (dir_mem 0)) (fun _ w' =>
    exists l q, emitted l (world0 (dir_mem 0)) w' /\ opened 4%nat 5%nat q (mem w') /\ 0 <= q <= 7 /\
      exists S, accepted l = ztake q dots ++ ((fun fd => (numeric_name fd).1) <$> S) /\
        StronglySorted Z.lt S /\ (forall fd, fd ∈ S -> 0 <= fd < q - 2 /\ may_open moving_view fd) /\
        (forall fd, fd = 0 \/ fd = 2 -> 0 <= fd < q - 2 -> fd ∈ S)).
Proof.
  refine (fd_directory_lists_open_files moving_kernel 4%nat 5%nat moving_view 5 5%nat 2 (world0 (dir_mem 0)) proc_readfdinfo
    moving_files moving_table _ _ (dir_mem_opened 0) _).
  - split; [discriminate|reflexivity].
  - discriminate.
  - right. left. reflexivity.
Defined.

(** Evaluated: 1 is missed and 4 is met. *)
Example moving_evaluates :
  let '(_, w') := run moving_kernel (proc_readfdinfo 5 4%nat) (world0 (dir_mem 0)) in
  rev (dirents (log w')) = [(str ".", 0, 0); (str "..", 1, 0); (str "0", 2, 0); (str "2", 4, 0); (str "4", 6, 0)].
Proof. vm_compute. reflexivity. Qed.

(** Dentry 7 is cached without an inode. *)
Definition negative_kernel (o : op) : ans o :=
  match o with DLookup _ _ => Some 7%nat | o => dir_kernel o end.

Lemma proc_fill_cache_keeps_negative_dentry_witness :
  ends (fixed negative_kernel) (proc_fill_cache 4%nat (str "fd") 2 (proc_fd_instantiate 0) 1%nat) (world0 (dir_mem 3))
    (fun _ w' => keeps_only [RDentry 7%nat] (world0 (dir_mem 3)) w').
Proof.
  exact (proc_fill_cache_keeps_negative_dentry negative_kernel 4%nat (str "fd") 2 (proc_fd_instantiate 0) 1%nat 7%nat
    (world0 (dir_mem 3)) eq_refl eq_refl).
Defined.
