(* ===== verification/Flush.v ===== *)
(** * Flushing a task from the dcache (fs/proc/base.c: proc_flush_task)

    What the dcache holds of a task that exits is dropped, in every pid
    namespace the task has a number in. *)
From S2P Require Import Prelude Format Structs Kernel Access Names Tables Threads Links Inodes Dirs.

Definition proc_flush_task_mnt (mnt : mnt_id) (pid tgid : Z) : prog unit :=
  root ← gets (fun m => k_mnt_root m !!! mnt);
  dentry ← d_hash_and_lookup root (numeric_name pid).1;
  match dentry with
  | Some dentry =>
      exiting ← gets (fun m => t_exiting (k_task m !!! k_current m));
      (if negb exiting then shrink_dcache_parent dentry else mret tt);;
      d_drop dentry;;
      dput dentry
  | None => mret tt
  end;;
  if tgid =? 0 then mret tt
  else
    root ← gets (fun m => k_mnt_root m !!! mnt);
    leader ← d_hash_and_lookup root (numeric_name tgid).1;
    match leader with
    | None => mret tt
    | Some leader =>
        dir ← d_hash_and_lookup leader (str "task");
        match dir with
        | None => mret tt
        | Some dir =>
            dentry ← d_hash_and_lookup dir (numeric_name pid).1;
            match dentry with
            | Some dentry =>
                shrink_dcache_parent dentry;;
                d_drop dentry;;
                dput dentry
            | None => mret tt
            end;;
            dput dir
        end;;
        dput leader
    end.

(** The [for] loop over [pid->numbers]; [tgid] holds the numbers of the group
    leader's pid from the same level on, when it is not NULL. *)
Fixpoint flush_loop (numbers : list (Z * ns_id)) (tgid : option (list (Z * ns_id))) : prog unit :=
  match numbers with
  | [] => mret tt
  | (nr, ns) :: numbers =>
      mnt ← gets (fun m => ns_proc_mnt (k_ns m !!! ns));
      match tgid with
      | None => proc_flush_task_mnt mnt nr 0;; flush_loop numbers None
      | Some [] => Halt WildAccess
      | Some ((tg, _) :: tgid) => proc_flush_task_mnt mnt nr tg;; flush_loop numbers (Some tgid)
      end
  end.

Definition proc_flush_task (task : task_id) : prog unit :=
  pid ← task_pid task;
  leader ← thread_group_leader task;
  tgid ← (if (leader : bool) then tgid ← task_tgid task; mret (Some tgid) else mret None);
  numbers ← gets (fun m => pid_numbers (k_pid m !!! pid));
  tnumbers ← gets (fun m => (fun t => pid_numbers (k_pid m !!! t)) <$> (tgid : option pid_id));
  flush_loop numbers tnumbers;;
  match last numbers with
  | Some (nr, ns) => if nr =? 1 then pid_ns_release_proc ns else mret tt
  | None => Halt WildAccess
  end.


(** ** Properties: flushing *)

Section Flush.
Context (A : forall o, ans o).

(** The dentries dropped, the last one first. *)
Fixpoint dropped (l : list obs) : list dentry_id :=
  match l with
  | [] => []
  | Obs (DDrop d) _ :: l => d :: dropped l
  | _ :: l => dropped l
  end.

(** The dentries of one mount that stand for thread [pid] of process [tgid]. *)
Definition mnt_dentries (m : kmem) (mnt : mnt_id) (pid tgid : Z) : list dentry_id :=
  let root := k_mnt_root m !!! mnt in
  let find d name := A (DHashAndLookup d name) in
  from_option (fun d => [d]) [] (find root (numeric_name pid).1) ++
  (if tgid =? 0 then []
   else from_option (fun d => [d]) []
     (leader ← find root (numeric_name tgid).1; dir ← find leader (str "task"); find dir (numeric_name pid).1)).

(** ... and of all the mounts in which a pid has a number. *)
Fixpoint task_dentries (m : kmem) (numbers : list (Z * ns_id)) (tgids : option (list (Z * ns_id))) : list dentry_id :=
  match numbers with
  | [] => []
  | (nr, ns) :: numbers =>
      mnt_dentries m (ns_proc_mnt (k_ns m !!! ns)) nr
        (match tgids with Some ((tg, _) :: _) => tg | _ => 0 end) ++
      task_dentries m numbers (tail <$> tgids)
  end.

Definition flushed (ds : list dentry_id) (w w' : world) : Prop :=
  balanced w w' /\ mem w' = mem w /\ dropped (log w') = rev ds ++ dropped (log w).

Lemma flushed_trans ds ds' w w1 w2 : flushed ds w w1 -> flushed ds' w1 w2 -> flushed (ds ++ ds') w w2.
Proof.
  intros (Hb & Hm & Hd) (Hb' & Hm' & Hd'). split; [by apply (balanced_trans _ w1)|]. split; [congruence|].
  by rewrite Hd', Hd, rev_app_distr, app_assoc.
Qed.

Lemma proc_flush_task_mnt_wp mnt pid tgid w (Q : unit -> world -> Prop) :
  (forall u w', flushed (mnt_dentries (mem w) mnt pid tgid) w w' -> Q u w') ->
  wp (answers A) (proc_flush_task_mnt mnt pid tgid) Q w.
Proof.
  intros HQ. destruct w as [m h b l]. unfold proc_flush_task_mnt. unfold flushed, mnt_dentries in HQ. ksteps;
    apply HQ; cbn [mem held bad log] in *; simplify_eq;
    repeat match goal with H : A _ = _ |- _ => rewrite H; clear H; cbn [mbind option_bind from_option]
      | H : (tgid =? 0) = _ |- _ => rewrite H; clear H end;
    by repeat split.
Qed.

Lemma flush_loop_wp numbers : forall tgids w (Q : unit -> world -> Prop),
  (forall ts, tgids = Some ts -> len numbers <= len ts) ->
  (forall u w', flushed (task_dentries (mem w) numbers tgids) w w' -> Q u w') ->
  wp (answers A) (flush_loop numbers tgids) Q w.
Proof.
  induction numbers as [|[nr ns] numbers IH]; intros tgids w Q Hlen HQ; cbn [flush_loop task_dentries] in *.
  { apply HQ. by repeat split. }
  assert (Hnext : forall tg rest ds w1, flushed ds w w1 -> (forall ts, rest = Some ts -> len numbers <= len ts) ->
    task_dentries (mem w) ((nr, ns) :: numbers) tgids = ds ++ task_dentries (mem w) numbers rest ->
    tg = rest -> wp (answers A) (flush_loop numbers tg) Q w1).
  { intros tg rest ds w1 H1 Hr Hds ->. pose proof H1 as (_ & Hm & _). apply IH; [done|]. rewrite Hm. intros u w2 H2.
    apply HQ. cbn [task_dentries] in Hds. rewrite Hds. by apply (flushed_trans _ _ _ w1). }
  kcbn. destruct tgids as [[|[tg gs] ts]|].
  - specialize (Hlen _ eq_refl). rewrite len_cons in Hlen. pose proof (len_nonneg numbers). by rewrite len_nil in Hlen; lia.
  - apply wp_bind, proc_flush_task_mnt_wp. intros u w1 H1. apply (Hnext _ (Some ts) _ _ H1); [|done|done].
    intros ts' [= <-]. specialize (Hlen _ eq_refl). rewrite !len_cons in Hlen. lia.
  - apply wp_bind, proc_flush_task_mnt_wp. intros u w1 H1. by apply (Hnext _ None _ _ H1).
Qed.

Lemma proc_flush_task_wp task w :
  let numbers := pid_numbers (k_pid (mem w) !!! A (TaskPid task)) in
  let tgids := pid_numbers (k_pid (mem w) !!! A (TaskTgid task)) in
  numbers <> [] -> (A (ThreadGroupLeader task) = true -> len numbers <= len tgids) ->
  wp (answers A) (proc_flush_task task) (fun _ w' =>
    flushed (task_dentries (mem w) numbers (if A (ThreadGroupLeader task) then Some tgids else None)) w w') w.
Proof.
  intros numbers tgids Hne Hlen. destruct w as [m h b l].
  cbn [mem] in *. unfold proc_flush_task. kunfold. kcbn. intros p m1 [-> ->] r m2 [-> ->].
  assert (Hlast : exists x, last numbers = Some x).
  { destruct (last numbers) as [x|] eqn:Hl; [by exists x|]. by apply last_None in Hl. }
  destruct Hlast as [[nr ns] Hl]. cbn [mem].
  assert (Htail : forall ds w0 w1, mem w0 = m -> flushed ds w0 w1 -> forall (Q : unit -> world -> Prop),
    (forall u w', flushed ds w0 w' -> Q u w') ->
    wp (answers A) (match last numbers with
      | Some (nr, ns) => if nr =? 1 then call (PidNsReleaseProc ns) else mret tt | None => Halt WildAccess end) Q w1).
  { intros ds w0 [m1 h1 b1 l1] H0 ([Hh Hb] & Hm & Hd) Q HQ. rewrite Hl. destruct (nr =? 1); kcbn; [intros [] ? [-> ->]|];
      apply HQ; by repeat split. }
  destruct (A (ThreadGroupLeader task)); kcbn.
  - intros t m1 [-> ->]. kcbn. apply wp_bind, flush_loop_wp; [intros ts [= <-]; by apply Hlen|].
    intros u w1 H1. eapply (Htail _ (World m h b l)); [done| |].
    + exact H1.
    + intros ? w' H'. exact H'.
  - apply wp_bind, flush_loop_wp; [done|]. intros u w1 H1. eapply (Htail _ (World m h b l)); [done|exact H1|].
    intros ? w' H'. exact H'.
Qed.
(** C25: Flushing an exiting task drops, in every pid namespace it has a
    number in, the dentry of its pid, and of its entry below the leader's
    task directory if it is a group leader itself, when the dcache has them;
    the references to all of them are given back. *)
Theorem proc_flush_task_spec task w :
  let numbers := pid_numbers (k_pid (mem w) !!! A (TaskPid task)) in
  let tgids := pid_numbers (k_pid (mem w) !!! A (TaskTgid task)) in
  numbers <> [] -> (A (ThreadGroupLeader task) = true -> len numbers <= len tgids) ->
  ends (fixed A) (proc_flush_task task) w (fun _ w' =>
    flushed (task_dentries (mem w) numbers (if A (ThreadGroupLeader task) then Some tgids else None)) w w').
Proof.
  intros numbers tgids Hne Hlen. apply (wp_ends _ (answers A)); [apply keeps_fixed|]. by apply proc_flush_task_wp.
Qed.

Lemma task_dentries_none m numbers d : d ∈ task_dentries m numbers None ->
  exists nr ns, (nr, ns) ∈ numbers /\
    A (DHashAndLookup (k_mnt_root m !!! ns_proc_mnt (k_ns m !!! ns)) (numeric_name nr).1) = Some d.
Proof.
  induction numbers as [|[nr ns] numbers IH]; cbn [task_dentries]; [by intros ?%elem_of_nil|].
  unfold mnt_dentries. cbn. rewrite app_nil_r, elem_of_app. intros [Hd|Hd].
  - exists nr, ns. split; [by left|]. destruct (A _) as [x|]; cbn in Hd; [|by apply elem_of_nil in Hd].
    by apply list_elem_of_singleton in Hd as ->.
  - destruct (IH Hd) as (nr' & ns' & Hin & Hx). exists nr', ns'. split; [by right|done].
Qed.

(** When the exiting task is not its group's leader, only dentries that
    carry its own pid at the root of a mount are dropped: its entry in the
    leader's task directory, which the comment promises to flush, stays. *)
Theorem proc_flush_task_skips_thread_entry task w :
  let numbers := pid_numbers (k_pid (mem w) !!! A (TaskPid task)) in
  numbers <> [] -> A (ThreadGroupLeader task) = false ->
  ends (fixed A) (proc_flush_task task) w (fun _ w' => exists ds,
    dropped (log w') = rev ds ++ dropped (log w) /\
    Forall (fun d => exists nr ns, (nr, ns) ∈ numbers /\
      A (DHashAndLookup (k_mnt_root (mem w) !!! ns_proc_mnt (k_ns (mem w) !!! ns)) (numeric_name nr).1) = Some d) ds).
Proof.
  intros numbers Hne Hl. apply (wp_ends _ (answers A)); [apply keeps_fixed|].
  eapply wp_mono; [apply proc_flush_task_wp; [done|by rewrite Hl]|]. rewrite Hl. intros u w' (_ & _ & Hd).
  eexists. split; [exact Hd|]. apply Forall_forall. intros d. apply task_dentries_none.
Qed.
End Flush.


(** ** Witnesses *)

(** A task with pid 7 in namespace 0, mounted with root dentry 2; every name
    is in the dcache, one dentry further. *)
Definition flush_kernel (leader : bool) (o : op) : ans o :=
  match o with
  | TaskPid _ => 3%nat
  | TaskTgid _ => 3%nat
  | ThreadGroupLeader _ => leader
  | DHashAndLookup d _ => Some (S d)
  | o => silent o
  end.

Definition flush_mem : kmem :=
  Kmem 1 ∅ ∅ ∅ ∅ ∅ ∅ ∅ {[ 3%nat := Pid true [(7, 0%nat)] ]} {[ 0%nat := PidNs 0 ]} {[ 0%nat := 2%nat ]} ∅ ∅ ∅ ∅ HookDummy.

Lemma proc_flush_task_spec_witness :
  ends (fixed (flush_kernel true)) (proc_flush_task 1%nat) (world0 flush_mem)
    (fun _ w' => flushed [3%nat; 5%nat] (world0 flush_mem) w').
Proof.
  refine (ends_mono _ _ _ _ _ (proc_flush_task_spec (flush_kernel true) 1%nat (world0 flush_mem) _ _) _).
  - discriminate.
  - intros _. vm_compute. discriminate.
  - intros r w' H. exact H.
Defined.

Lemma proc_flush_task_skips_thread_entry_witness :
  ends (fixed (flush_kernel false)) (proc_flush_task 1%nat) (world0 flush_mem) (fun _ w' =>
    exists ds, dropped (log w') = rev ds ++ []).
Proof.
  refine (ends_mono _ _ _ _ _ (proc_flush_task_skips_thread_entry (flush_kernel false) 1%nat (world0 flush_mem) _ eq_refl) _).
  - discriminate.
  - intros r w' (ds & H & _). exists ds. exact H.
Defined.
