(* ===== verification/NoProcFs.v ===== *)
(** * A kernel without the proc file system (include/linux/proc_fs.h)

    The stubs that take the place of the interface when CONFIG_PROC_FS is not
    set. Entries are those of [ProcFs], pointers are addresses. *)
From S2P Require Import Prelude Structs Kernel ProcFs.

Definition proc_flush_task (task : task_id) : prog unit := mret tt.

Definition create_proc_entry (name : bytes) (mode parent : Z) (h : pdes) : Z * pdes := (0, h).
Definition proc_create (name : bytes) (mode parent proc_fops : Z) (h : pdes) : Z * pdes := (0, h).
Definition proc_create_data (name : bytes) (mode parent proc_fops data : Z) (h : pdes) : Z * pdes := (0, h).
Definition proc_symlink (name : bytes) (parent : Z) (dest : bytes) (h : pdes) : Z * pdes := (0, h).
Definition proc_mkdir (name : bytes) (parent : Z) (h : pdes) : Z * pdes := (0, h).
Definition create_proc_read_entry (name : bytes) (mode base read_proc data : Z) (h : pdes) : Z * pdes := (0, h).

Definition pid_ns_prepare_proc (ns : ns_id) : prog Z := mret 0.
Definition pid_ns_release_proc (ns : ns_id) : prog unit := mret tt.

Definition set_mm_exe_file (mm : mm_id) (new_exe_file : option file_id) : prog unit := mret tt.
Definition get_mm_exe_file (mm : mm_id) : prog (option file_id) := mret None.
Definition dup_mm_exe_file (oldmm newmm : mm_id) : prog unit := mret tt.

(** The stubs keep the promise of the functions they replace, ... *)
Lemma stub_creates : creates create_proc_entry.
Proof. intros name mode parent h. by left. Qed.

(** ... and the inline functions of the header compute on them what their own
    stubs answer: a client sees one interface in both kernels. *)
Lemma stubs_agree name mode parent fops read data h :
  ProcFs.create_proc_read_entry create_proc_entry name mode parent read data h =
    Some ((create_proc_read_entry name mode parent read data h).1, [(create_proc_read_entry name mode parent read data h).2]) /\
  ProcFs.proc_create proc_create_data name mode parent fops h = proc_create name mode parent fops h.
Proof. done. Qed.
