(* ===== verification/Procs.v ===== *)
(** * The processes in /proc (fs/proc/base.c)

    [proc_pid_lookup], [next_tgid] and [proc_pid_readdir], with the honeypot
    hook that runs before every process entry. *)
From S2P Require Import Prelude Format Structs Kernel Access Names Tables Threads Links Inodes Dirs.

Definition FIRST_PROCESS_ENTRY := 256.
Definition TGID_OFFSET : Z := FIRST_PROCESS_ENTRY + len proc_base_stuff.

Record tgid_iter := TgidIter { it_tgid : Z; it_task : option task_id }.

(** From the label [retry] on; [fuel] bounds the pids it may look at. *)
Fixpoint next_tgid_retry (fuel : nat) (ns : ns_id) (tgid : Z) : prog tgid_iter :=
  match fuel with
  | O => Halt OutOfFuel
  | S fuel =>
      pid ← find_ge_pid (s32 tgid) ns;
      match pid with
      | None => mret (TgidIter tgid None)
      | Some pid =>
          nr ← pid_nr_ns pid ns;
          task ← pid_task pid;
          match task with
          | None => next_tgid_retry fuel ns (u32 (u32 nr + 1))
          | Some task =>
              leader ← has_group_leader_pid task;
              if negb leader then next_tgid_retry fuel ns (u32 (u32 nr + 1))
              else get_task_struct task;; mret (TgidIter (u32 nr) (Some task))
          end
      end
  end.

Definition next_tgid (fuel : nat) (ns : ns_id) (iter : tgid_iter) : prog tgid_iter :=
  match it_task iter with Some task => put_task_struct task | None => mret tt end;;
  rcu_read_lock;;
  iter ← next_tgid_retry fuel ns (it_tgid iter);
  rcu_read_unlock;;
  mret iter.

Definition dummy_in_proc_pid_readdir : prog unit := mret tt.

(** [honeypot_hooks.in_proc_pid_readdir()]. *)
Definition in_proc_pid_readdir : prog unit :=
  h ← gets k_hook;
  match h with
  | HookDummy => dummy_in_proc_pid_readdir
  | HookModule f => call_hook f
  end.

Definition set_file_pos (filp : file_id) (pos : Z) : prog unit :=
  modify (upd_file filp (set_f_pos pos)).

(** The first [for] loop: whether it ran to its end. *)
Fixpoint base_loop (filp : file_id) (reaper : task_id) (ps : list pid_entry) : prog bool :=
  match ps with
  | [] => mret true
  | p :: ps =>
      r ← proc_base_fill_cache filp reaper p;
      if r <? 0 then mret false
      else f_pos_inc filp;; base_loop filp reaper ps
  end.

Section Proc.
Context `{Arch} `{Config}.
(** From linux/threads.h. *)
Context (PID_MAX_LIMIT : Z).

Definition proc_pid_lookup (dir : inode_id) (dentry : dentry_id) : prog Z :=
  result ← proc_base_lookup dir dentry;
  if negb (result <? 0) || negb (result =? - ENOENT) then mret result
  else
    name ← gets (fun m => d_name (k_dentry m !!! dentry));
    let tgid := name_to_int name in
    if tgid =? NO_NUMBER then mret result
    else
      ns ← gets (fun m => d_ns (k_dentry m !!! dentry));
      rcu_read_lock;;
      task ← find_task_by_pid_ns (s32 tgid) ns;
      match task with Some task => get_task_struct task | None => mret tt end;;
      rcu_read_unlock;;
      match task with
      | None => mret result
      | Some task =>
          result ← proc_pid_instantiate dir dentry task;
          put_task_struct task;;
          mret result
      end.

Definition proc_pid_fill_cache (filp : file_id) (tgid : Z) (task : task_id) : prog Z :=
  let '(name, len) := numeric_name tgid in
  proc_fill_cache filp name len proc_pid_instantiate task.

(** The second [for] loop, from its condition on; [fuel] bounds the processes
    it may meet. Whether it ran to its end. *)
Fixpoint tgid_loop (fuel : nat) (filp : file_id) (ns : ns_id) (iter : tgid_iter) : prog bool :=
  match it_task iter with
  | None => mret true
  | Some task =>
      match fuel with
      | O => Halt OutOfFuel
      | S fuel =>
          set_file_pos filp (s64 (ulong (it_tgid iter + TGID_OFFSET)));;
          in_proc_pid_readdir;;
          r ← proc_pid_fill_cache filp (it_tgid iter) task;
          if r <? 0 then put_task_struct task;; mret false
          else
            iter ← next_tgid (S fuel) ns (TgidIter (u32 (it_tgid iter + 1)) (Some task));
            tgid_loop fuel filp ns iter
      end
  end.

Definition proc_pid_readdir (fuel : nat) (filp : file_id) : prog Z :=
  pos ← file_pos filp;
  let nr := u32 (pos - FIRST_PROCESS_ENTRY) in
  dentry ← gets (fun m => f_dentry (k_file m !!! filp));
  inode ← dentry_inode dentry;
  reaper ← get_proc_task inode;
  match reaper with
  | None => mret 0
  | Some reaper =>
      go ← base_loop filp reaper (zdrop nr proc_base_stuff);
      (if (go : bool) then
         ns ← gets (fun m => d_ns (k_dentry m !!! f_dentry (k_file m !!! filp)));
         pos ← file_pos filp;
         iter ← next_tgid fuel ns (TgidIter (u32 (pos - TGID_OFFSET)) None);
         complete ← tgid_loop fuel filp ns iter;
         if (complete : bool) then set_file_pos filp (PID_MAX_LIMIT + TGID_OFFSET) else mret tt
       else mret tt);;
      put_task_struct reaper;;
      mret 0
  end.


End Proc.

(** ** Properties: the processes in /proc *)

(** *** A namespace that changes while it is read

    Processes come and go between any two calls of the kernel. What a reading
    can rely on is put together in a view of the namespace. *)
Record pid_view := PidView {
  known : pid_id -> Prop;      (* the pids the namespace has at some time *)
  number : pid_id -> Z;        (* their numbers in it *)
  carries : pid_id -> task_id -> Prop;      (* the tasks they belong to at some time *)
  stays : Z -> Prop;           (* the numbers of the processes that live all the time *)
  may_be : Z -> Prop;          (* the numbers of processes, at whatever time *)
  to_go : Z -> nat;            (* a bound of the pids from a number on *)
}.

Section Space.
Context (ns : ns_id) (V : pid_view) (limit : Z).

(** The kernel of the reading: [find_ge_pid] finds the next pid there is, and
    passes none that stays; what is the leader of a group is a process, and a
    process that stays is found to be one. *)
Definition live_kernel : contract := fun o tr m x m' =>
  dir_stable o tr m x m' /\
  match o return ans o -> Prop with
  | FindGePid n ns' => fun x => ns' = ns -> 0 <= n ->
      match x with
      | Some p => known V p /\ n <= number V p < limit /\ forall k, stays V k -> n <= k -> number V p <= k
      | None => forall k, stays V k -> k < n
      end
  | PidNrNs p ns' => fun x => ns' = ns -> x = number V p
  | PidTask p => fun x => known V p -> (stays V (number V p) -> is_Some x) /\ forall t, x = Some t -> carries V p t
  | HasGroupLeaderPid t => fun x => forall p, known V p -> carries V p t ->
      (x = true -> may_be V (number V p)) /\ (stays V (number V p) -> x = true)
  | _ => fun _ => True
  end x.

Lemma live_kernel_stable o tr m x m' : live_kernel o tr m x m' -> dir_stable o tr m x m'.
Proof. by intros []. Qed.

(** The bound counts. *)
Record live_view : Prop := {
  view_stays : forall k, stays V k -> 0 <= k < limit;
  view_step : forall p n, known V p -> n <= number V p -> (to_go V (number V p + 1) < to_go V n)%nat;
  view_mono : forall n n', n <= n' -> (to_go V n' <= to_go V n)%nat;
}.

(** [S] are processes with numbers in [from .. upto), in order, and all those
    that stay are among them. *)
Definition tgids : Z -> Z -> list Z -> Prop := spans (stays V) (may_be V).

Context (Hview : live_view) (Hlimit : limit < 2 ^ 31).

(** What [next_tgid] has found from number [from] on. *)
Definition found (from : Z) (it : tgid_iter) : Prop :=
  match it_task it with
  | None => forall n, from <= n -> ~ stays V n
  | Some _ => (exists p, known V p /\ number V p = it_tgid it) /\ from <= it_tgid it < limit /\ may_be V (it_tgid it) /\
      forall n, from <= n < it_tgid it -> ~ stays V n
  end.

Lemma found_skip n p it : n <= number V p -> ~ stays V (number V p) ->
  (forall k, stays V k -> n <= k -> number V p <= k) -> found (number V p + 1) it -> found n it.
Proof.
  intros Hn Hl Hmin. assert (Hgap : forall k, n <= k < number V p + 1 -> ~ stays V k).
  { intros k Hk Hs. specialize (Hmin k Hs ltac:(lia)). by replace k with (number V p) in Hs by lia. }
  unfold found. destruct (it_task it).
  - intros (Hp & Hr & Ht & Hno). split; [done|]. split; [lia|]. split; [done|].
    intros k Hk. destruct (Z_lt_ge_dec k (number V p + 1)); [apply Hgap; lia|apply Hno; lia].
  - intros Hno k Hk. destruct (Z_lt_ge_dec k (number V p + 1)); [apply Hgap; lia|apply Hno; lia].
Qed.

(** What the search leaves of the world it started in. *)
Definition searched (w w' : world) : Prop := frame w w' /\ bad w' = bad w.

Lemma searched_trans w1 w2 w3 : searched w1 w2 -> searched w2 w3 -> searched w1 w3.
Proof. intros [Hf Hb] [Hf' Hb']. split; [by apply (frame_trans _ w2)|congruence]. Qed.

Lemma searched_call o x m w : match o with Filldir _ _ _ _ _ | SingleOpen _ _ _ => False | _ => True end ->
  misuses o (held w) = [] -> live_kernel o (log w) (mem w) x m -> searched w (after o x m w).
Proof. intros Ho Hmis [Hm _]. split; [by apply frame_call|]. cbn [bad after]. by rewrite Hmis. Qed.

(** One step of the search: a call that answers and does nothing else. *)
Lemma search_step {B : Type} o (k : ans o -> prog B) Q w0 w h :
  match o with Filldir _ _ _ _ _ | SingleOpen _ _ _ => False | _ => True end ->
  (forall x, acquires o x = []) -> releases o = [] -> guarded o (RLock Rcu :: h) = true ->
  searched w0 w -> held w = RLock Rcu :: h ->
  (forall x m w', live_kernel o (log w) (mem w) x m -> searched w0 w' -> held w' = RLock Rcu :: h ->
     wp live_kernel (k x) Q w') ->
  wp live_kernel (call o ≫= k) Q w.
Proof.
  intros Ho Ha Hr Hg Hs Hh Hk. apply wp_step. intros x m Hm. apply (Hk x m); [done| |by cbn; rewrite Ha, Hr].
  apply (searched_trans _ w); [done|]. apply searched_call; [done| |done]. unfold misuses. by rewrite Hr, Hh, Hg.
Qed.

Lemma next_tgid_retry_wp h : forall fuel n w (Q : tgid_iter -> world -> Prop),
  0 <= n <= limit -> (to_go V n < fuel)%nat -> held w = RLock Rcu :: h ->
  (forall it w', searched w w' -> held w' = opt_res RTask (it_task it) ++ RLock Rcu :: h -> found n it -> Q it w') ->
  wp live_kernel (next_tgid_retry fuel ns n) Q w.
Proof.
  induction fuel as [|fuel IH]; intros n w Q Hn Hfuel Hh HQ; [lia|]. cbn [next_tgid_retry]. kunfold.
  rewrite s32_small by lia. assert (S0 : searched w w) by done.
  apply (search_step _ _ _ w w h); [done|done|done|done|done|done|]. intros x m1 w1 [_ Hfind] S1 H1.
  specialize (Hfind eq_refl ltac:(lia)). destruct x as [p|].
  2: { apply HQ; [done|done|]. intros k Hk Hs. specialize (Hfind k Hs). lia. }
  destruct Hfind as (Hp & Hr & Hmin).
  apply (search_step _ _ _ w w1 h); [done|done|done|done|done|done|]. intros y m2 w2 [_ Hy] S2 H2. rewrite (Hy eq_refl).
  apply (search_step _ _ _ w w2 h); [done|done|done|done|done|done|]. intros z m3 w3 [_ Hz] S3 H3. destruct (Hz Hp) as [Hlive Hcar].
  rewrite (u32_small (number V p)), u32_small by lia.
  assert (Hskip : forall w4, ~ stays V (number V p) -> searched w w4 -> held w4 = RLock Rcu :: h ->
    wp live_kernel (next_tgid_retry fuel ns (number V p + 1)) Q w4).
  { intros w4 Hlp S4 H4. apply IH; [lia| |done|].
    - pose proof (view_step Hview p n Hp ltac:(lia)). lia.
    - intros it w5 S5 H5 Hf. apply HQ; [by apply (searched_trans _ w4)|done|]. by apply (found_skip n p); [lia| | |]. }
  destruct z as [t|]; [|apply Hskip; [intros Hs; by destruct (Hlive Hs)|done|done]].
  apply (search_step _ _ _ w w3 h); [done|done|done|done|done|done|]. intros g m4 w4 [_ Hg] S4 H4.
  destruct (Hg p Hp (Hcar t eq_refl)) as [Hmay Hlead]. destruct g; cbv beta iota delta [negb].
  2: { apply Hskip; [intros Hs; by specialize (Hlead Hs)|done|done]. }
  apply wp_step. intros [] m5 Hm5. apply HQ.
  - apply (searched_trans _ w4); [done|]. by apply searched_call.
  - cbn. by rewrite H4.
  - split; [by exists p|]. cbn [it_tgid]. split; [lia|]. split; [by apply Hmay|]. intros k Hk Hs. specialize (Hmin k Hs). lia.
Qed.

Lemma next_tgid_wp h fuel n task w (Q : tgid_iter -> world -> Prop) :
  0 <= n <= limit -> (to_go V n < fuel)%nat -> held w = opt_res RTask task ++ h ->
  (forall it w', searched w w' -> held w' = opt_res RTask (it_task it) ++ h -> found n it -> Q it w') ->
  wp live_kernel (next_tgid fuel ns (TgidIter n task)) Q w.
Proof.
  intros Hn Hfuel Hh HQ. unfold next_tgid. cbn [it_task it_tgid]. kunfold.
  assert (Hgo : forall w1, searched w w1 -> held w1 = h -> wp live_kernel
    (call (Lock Rcu) ≫= fun _ => next_tgid_retry fuel ns n ≫= fun iter => call (Unlock Rcu) ≫= fun _ => mret iter) Q w1).
  { intros w1 S1 H1. apply wp_step. intros [] m2 Hm2. apply wp_bind.
    assert (S2 : searched w1 (after (Lock Rcu) tt m2 w1)) by (by apply searched_call).
    apply (next_tgid_retry_wp h); [done|done|cbn; by rewrite H1|]. intros it w3 S3 H3 Hf. apply wp_step.
    intros [] m4 Hm4. apply HQ; [|cbn; rewrite H3; destruct (it_task it); cbn; by repeat kdec|done].
    apply (searched_trans _ w3); [by apply (searched_trans _ _ _ (searched_trans _ _ _ S1 S2))|].
    apply searched_call; [done| |done]. unfold misuses. rewrite H3. destruct (it_task it); cbn; by repeat kdec. }
  destruct task as [t|].
  - apply wp_step. intros [] m1 Hm1. apply Hgo; [|cbn; rewrite Hh; cbn; by repeat kdec].
    apply searched_call; [done| |done]. unfold misuses. rewrite Hh. cbn. by repeat kdec.
  - by apply Hgo.
Qed.

(** What is listed of the processes from number [from] on; [q] is the offset
    where it stopped, [d] whether all were accepted. *)
Definition proc_entry (n : Z) (e : bytes * Z * Z) : Prop :=
  e.1 = ((numeric_name n).1, n + TGID_OFFSET) /\ 0 <= e.2.

Definition procs_listed (from : Z) (d : bool) (l : list (bytes * Z * Z)) (q : Z) : Prop :=
  exists S l', tgids from (if d then limit else q - TGID_OFFSET) S /\ Forall2 proc_entry S l' /\
    if d then l = l'
    else from <= q - TGID_OFFSET < limit /\ may_be V (q - TGID_OFFSET) /\
      exists x, x < 0 /\ l = l' ++ [((numeric_name (q - TGID_OFFSET)).1, q, x)].

Lemma procs_listed_cons from t x d l q : from <= t < limit -> may_be V t -> (forall n, from <= n < t -> ~ stays V n) ->
  0 <= x -> procs_listed (t + 1) d l q ->
  procs_listed from d (((numeric_name t).1, t + TGID_OFFSET, x) :: l) q.
Proof.
  intros Ht Hl Hno Hx (S & l' & HS & HF & Hd). exists (t :: S), (((numeric_name t).1, t + TGID_OFFSET, x) :: l').
  split; [|split; [by constructor|]].
  - apply spans_cons; [destruct d; [done|lia]|done|done|done].
  - destruct d; [by f_equal|]. destruct Hd as (Hr & Hu & y & Hy & ->). split; [lia|]. split; [done|]. by exists y.
Qed.

Lemma procs_listed_done from : 0 <= from -> (forall n, from <= n -> ~ stays V n) -> forall q, procs_listed from true [] q.
Proof.
  intros Hf Hno q. exists [], []. split; [|by split]. apply spans_nil. intros n [Hn _]. by apply Hno.
Qed.

Lemma procs_listed_refused from t x : from <= t < limit -> may_be V t -> (forall n, from <= n < t -> ~ stays V n) -> x < 0 ->
  procs_listed from false [((numeric_name t).1, t + TGID_OFFSET, x)] (t + TGID_OFFSET).
Proof.
  intros Ht Hl Hno Hx. exists [], []. replace (t + TGID_OFFSET - TGID_OFFSET) with t by lia.
  split; [by apply spans_nil|]. split; [constructor|]. split; [done|]. split; [done|]. by exists x.
Qed.

Context `{Arch} `{Config}.

Lemma in_proc_pid_readdir_wp w (Q : unit -> world -> Prop) :
  (forall u w', searched w w' -> held w' = held w -> Q u w') -> wp live_kernel in_proc_pid_readdir Q w.
Proof.
  intros HQ. unfold in_proc_pid_readdir, dummy_in_proc_pid_readdir. kunfold. cbn [gets mbind prog_mbind pbind wp].
  destruct (k_hook (mem w)) as [|f]; [by apply HQ|]. intros u m Hm.
  by apply HQ; [apply searched_call|].
Qed.

Lemma emitted_searched w w1 w2 l : searched w w1 -> held w1 = held w -> emitted l w1 w2 -> emitted l w w2.
Proof.
  intros [Hf Hb] Hh He. apply (emitted_trans [] _ _ w1); [|done]. by apply frame_emitted.
Qed.

Lemma ulong_tgid t : 0 <= t < limit -> s64 (ulong (t + TGID_OFFSET)) = t + TGID_OFFSET.
Proof.
  intros Ht. assert (HO : TGID_OFFSET = 257) by reflexivity. rewrite ulong_small; [apply s64_small; lia|].
  pose proof ulong_pow. lia.
Qed.

Lemma tgid_loop_wp filp dir h : forall fuel it from w pos (Q : bool -> world -> Prop),
  0 <= from <= limit -> (to_go V from <= fuel)%nat -> found from it ->
  opened filp dir pos (mem w) -> held w = opt_res RTask (it_task it) ++ h ->
  (forall d l q w', listed l w w' -> opened filp dir q (mem w') -> held w' = h -> bad w' = bad w ->
     procs_listed from d l q -> Q d w') ->
  wp live_kernel (tgid_loop fuel filp ns it) Q w.
Proof.
  induction fuel as [|fuel IH]; intros [t [task|]] from w pos Q Hfrom Hfuel Hf Ho Hh HQ; cbn [tgid_loop it_task it_tgid].
  - destruct Hf as ((p & Hp & Hnr) & Ht & _). cbn [it_tgid] in *. pose proof (view_step Hview p from Hp ltac:(lia)). lia.
  - apply (HQ true [] pos); [done|done|done|done|]. apply procs_listed_done; [lia|exact Hf].
  - destruct Hf as ((p & Hp & Hnr) & Ht & Hl & Hno). cbn [it_tgid it_task] in *. assert (HO : TGID_OFFSET = 257) by reflexivity.
    pose proof (view_step Hview p from Hp ltac:(lia)) as Hrem. rewrite Hnr in Hrem.
    rewrite ulong_tgid by lia. unfold set_file_pos. cbn [modify mbind prog_mbind pbind wp].
    set (w1 := set_mem _ w).
    assert (He1 : emitted [] w w1) by (destruct w; apply upd_file_emitted).
    assert (Ho1 : opened filp dir (t + TGID_OFFSET) (mem w1)).
    { apply (upd_file_opened _ _ pos); [done|]. by intros []. }
    apply wp_bind, in_proc_pid_readdir_wp. intros [] w2 S2 H2.
    pose proof (opened_frame _ _ _ _ _ Ho1 (proj1 S2)) as Ho2.
    assert (He2 : emitted [] w w2).
    { apply (emitted_trans [] _ _ w1); [done|]. apply frame_emitted; [|apply S2]. split; [done|apply S2]. }
    unfold proc_pid_fill_cache. assert (Hsplit : numeric_name t = ((numeric_name t).1, (numeric_name t).2)) by done.
    rewrite Hsplit. cbv beta iota. apply wp_bind.
    apply (offer_wp _ filp dir (t + TGID_OFFSET)); [apply live_kernel_stable|exact proc_pid_instantiates|exact proc_pid_attaches|done|].
    intros r w3 He3 Ho3. pose proof (emitted_trans [] _ _ _ _ He2 He3) as [[Hh3 Hb3] Hl3]. cbn [app] in Hl3.
    rewrite Hh in Hh3. cbn [opt_res app] in Hh3. destruct (Z.ltb_spec r 0) as [Hr|Hr].
    + kunfold. apply wp_step. intros [] m4 Hm4.
      apply (HQ false [((numeric_name t).1, t + TGID_OFFSET, r)] (t + TGID_OFFSET)).
      * rewrite <- (app_nil_r [_]). eapply listed_trans; [exact Hl3|]. apply (listed_call (PutTaskStruct task)); [done|apply Hm4].
      * eapply (call_opened _ _ _ (PutTaskStruct task)); [done|exact Ho3|apply Hm4].
      * cbn. rewrite Hh3. cbn. by repeat kdec.
      * cbn. rewrite Hh3, Hb3. cbn. by repeat kdec.
      * by apply procs_listed_refused.
    + rewrite u32_small by lia. apply wp_bind, (next_tgid_wp h); [lia|lia|exact Hh3|]. intros it' w4 S4 Hh4 Hf4.
      apply (IH it' (t + 1) w4 (t + TGID_OFFSET)); [lia|lia|done| |done|].
      * by apply (opened_frame _ _ _ w3); [|apply S4].
      * intros d l q w5 Hl5 Ho5 Hh5 Hb5 Hp5. apply (HQ d (((numeric_name t).1, t + TGID_OFFSET, r) :: l) q); [|done|done| |].
        -- apply (listed_trans [_] _ _ w3); [done|]. apply (listed_trans [] _ _ w4); [|done]. split; apply S4.
        -- rewrite Hb5, <- Hb3. apply S4.
        -- by apply procs_listed_cons.
  - apply (HQ true [] pos); [done|done|done|done|]. apply procs_listed_done; [lia|exact Hf].
Qed.

Lemma base_loop_wp filp task dir ps : forall pos w (Q : bool -> world -> Prop),
  opened filp dir pos (mem w) -> 0 <= pos -> pos + len ps < 2 ^ 62 ->
  (forall d w' l q, emitted l w w' -> opened filp dir q (mem w') -> lists pos (pe_name <$> ps) l q d -> Q d w') ->
  wp dir_stable (base_loop filp task ps) Q w.
Proof.
  induction ps as [|p ps IH]; intros pos w Q Ho Hpos Hmax HQ; cbn [base_loop].
  { apply (HQ _ _ [] pos); [done|done|constructor]. }
  rewrite len_cons in Hmax. pose proof (len_nonneg ps).
  eapply (offer_step _ filp dir pos (pe_name p)); [done|lia| | |].
  - intros Q' HQ'. refine (proc_fill_cache_wp filp (pe_name p) (pe_len p) (proc_base_instantiate p) task w Q'
      (proc_base_instantiates p) (proc_base_attaches p) _ HQ').
    destruct Ho as (_ & -> & Ha). exact Ha.
  - intros r w' Hr He Ho'. eapply HQ; [done|done|]. by constructor.
  - intros r w' Hr He Ho'. eapply IH; [done|lia|lia|]. intros d w2 l q He2 Ho2 Hl.
    eapply HQ; [by eapply emitted_trans|done|]. by constructor.
Qed.

Lemma proc_entries_accepted S l : Forall2 proc_entry S l -> accepted l = (fun n => (numeric_name n).1) <$> S.
Proof.
  induction 1 as [|n [e x] S l [He Hx] _ IH]; [done|]. cbn in *. subst e. destruct (Z.ltb_spec x 0); [lia|].
  cbn. by f_equal.
Qed.

Definition base_names : list bytes := pe_name <$> proc_base_stuff.

(** An entry of /proc, accepted or not: its offset says which one it is, a
    fixed entry or the process of a number. *)
Definition root_entry (e : bytes * Z * Z) : Prop :=
  let '(name, pos, _) := e in
  FIRST_PROCESS_ENTRY <= pos < limit + TGID_OFFSET /\
  if pos <? TGID_OFFSET then base_names !! Z.to_nat (pos - FIRST_PROCESS_ENTRY) = Some name
  else may_be V (pos - TGID_OFFSET) /\ name = (numeric_name (pos - TGID_OFFSET)).1.

Lemma procs_entries from d l q : 0 <= from -> procs_listed from d l q -> Forall root_entry l.
Proof.
  intros Hfrom (S & l' & HS & HF & Hd).
  assert (Hone : forall n x, 0 <= n < limit -> may_be V n -> root_entry ((numeric_name n).1, n + TGID_OFFSET, x)).
  { intros n x Hn Hm. cbn. assert (HO : TGID_OFFSET = FIRST_PROCESS_ENTRY + 1) by reflexivity.
    assert (FIRST_PROCESS_ENTRY = 256) by reflexivity. destruct (Z.ltb_spec (n + TGID_OFFSET) TGID_OFFSET); [lia|].
    split; [lia|]. by replace (n + TGID_OFFSET - TGID_OFFSET) with n by lia. }
  assert (Hupto : (if d then limit else q - TGID_OFFSET) <= limit) by (destruct d; [lia|destruct Hd as (Hr & _); lia]).
  assert (Hl' : Forall root_entry l').
  { apply Forall_forall. intros e (i & He)%list_elem_of_lookup. destruct (Forall2_lookup_r _ _ _ _ _ HF He) as (n & Hn & Hne & _).
    apply list_elem_of_lookup_2 in Hn. apply HS in Hn as [Hr Hm]. destruct e as [e x]. cbn in Hne. subst e. apply Hone; [lia|done]. }
  destruct d; [by subst|]. destruct Hd as (Hr & Hm & x & _ & ->). apply Forall_app. split; [done|]. constructor; [|done].
  specialize (Hone (q - TGID_OFFSET) x ltac:(lia) Hm). by replace (q - TGID_OFFSET + TGID_OFFSET) with q in Hone by lia.
Qed.

Lemma base_entries pos l q d : 0 <= limit -> FIRST_PROCESS_ENTRY <= pos -> lists pos (zdrop (pos - FIRST_PROCESS_ENTRY) base_names) l q d -> Forall root_entry l.
Proof.
  intros Hlim Hpos Hl%lists_entries. eapply Forall_impl; [exact Hl|]. intros [[name p] x] [Hp Hn]. cbn [fst snd] in *.
  unfold zdrop in Hn. rewrite lookup_drop in Hn. replace (Z.to_nat (pos - _) + _)%nat with (Z.to_nat (p - FIRST_PROCESS_ENTRY)) in Hn by lia.
  assert (HO : TGID_OFFSET = FIRST_PROCESS_ENTRY + 1) by reflexivity.
  pose proof (lookup_lt_Some _ _ _ Hn) as Hlt. change (length base_names) with 1%nat in Hlt. unfold root_entry.
  destruct (Z.ltb_spec p TGID_OFFSET); [|lia]. split; [lia|done].
Qed.

(** One reading of /proc from offset [pos]: what was offered, what was
    accepted up to the new offset, and that only a refusal stops it early: the
    offset is then the one of the refused entry. *)
Definition root_reading (pos : Z) (l : list (bytes * Z * Z)) (q : Z) : Prop :=
  pos <= q <= limit + TGID_OFFSET /\ Forall root_entry l /\
  (exists S, tgids (Z.max pos TGID_OFFSET - TGID_OFFSET) (q - TGID_OFFSET) S /\
    accepted l = ztake (q - pos) (zdrop (pos - FIRST_PROCESS_ENTRY) base_names) ++ ((fun n => (numeric_name n).1) <$> S)) /\
  (all_accepted l = true /\ q = limit + TGID_OFFSET \/ stopped_at q l).

Lemma proc_entries_all S l : Forall2 proc_entry S l -> all_accepted l = true.
Proof. induction 1 as [|n [[name p] x] S l [_ Hx] _ IH]; [done|]. by rewrite all_accepted_cons. Qed.

Lemma root_reading_procs pos l1 q1 from d l2 q2 : from = Z.max pos TGID_OFFSET - TGID_OFFSET -> 0 <= limit ->
  FIRST_PROCESS_ENTRY <= pos -> from <= limit ->
  lists pos (zdrop (pos - FIRST_PROCESS_ENTRY) base_names) l1 q1 true ->
  procs_listed from d l2 q2 ->
  root_reading pos (l1 ++ l2) (if d then limit + TGID_OFFSET else q2).
Proof.
  intros Hfrom Hlim Hpos Hle Hl Hproc. pose proof (base_entries _ _ _ _ Hlim Hpos Hl) as He1.
  pose proof (procs_entries from _ _ _ ltac:(lia) Hproc) as He2. pose proof (lists_end _ _ _ _ _ Hl) as Hall1. cbv iota in Hall1.
  destruct Hproc as (S & l' & HS & HF & Hd). pose proof (lists_bounds _ _ _ _ _ Hl) as (Hq & Hdone & Hacc).
  destruct Hdone as [Hdone _]. specialize (Hdone eq_refl).
  assert (HO : TGID_OFFSET = FIRST_PROCESS_ENTRY + 1) by reflexivity.
  set (base := zdrop (pos - FIRST_PROCESS_ENTRY) base_names) in *.
  assert (Hbase : len base = Z.max 0 (1 - (pos - FIRST_PROCESS_ENTRY))).
  { unfold base. rewrite len_zdrop by lia. reflexivity. }
  assert (Hwhole : forall q, pos + len base <= q -> ztake (q - pos) base = base).
  { intros q Hq'. unfold ztake. apply take_ge. unfold len in Hq'. lia. }
  rewrite Hwhole in Hacc by lia. pose proof (proc_entries_accepted _ _ HF) as Hacc'.
  assert (Hrange : pos <= (if d then limit + TGID_OFFSET else q2) <= limit + TGID_OFFSET).
  { destruct d; [lia|]. destruct Hd as (Hr & _). lia. }
  pose proof (proc_entries_all _ _ HF) as Hall2.
  split; [exact Hrange|]. split; [by apply Forall_app|]. split; [exists S; destruct d|destruct d; [left|right]].
  - subst l2. replace (limit + TGID_OFFSET - TGID_OFFSET) with limit by lia. subst from. split; [done|].
    rewrite accepted_app, Hacc, Hacc', Hwhole by lia. done.
  - destruct Hd as (Hr & Hu & x & Hx & ->). subst from. split; [done|].
    rewrite !accepted_app, Hacc, Hacc', Hwhole by lia. cbn. destruct (Z.ltb_spec x 0); [|lia]. by rewrite app_nil_r.
  - subst l2. by rewrite all_accepted_app, Hall1, Hall2.
  - destruct Hd as (_ & _ & x & Hx & ->). apply stopped_at_app; [done|]. by exists l', (numeric_name (q2 - TGID_OFFSET)).1, x.
Qed.

Lemma proc_pid_readdir_wp fuel filp dir pos w (Q : Z -> world -> Prop) :
  FIRST_PROCESS_ENTRY <= pos <= limit + TGID_OFFSET -> (to_go V 0 < fuel)%nat -> 0 <= limit ->
  opened filp dir pos (mem w) -> d_ns (k_dentry (mem w) !!! dir) = ns ->
  (forall w', vanished dir w w' -> emitted [] w w' -> opened filp dir pos (mem w') -> Q 0 w') ->
  (forall l q w', emitted l w w' -> opened filp dir q (mem w') -> root_reading pos l q -> Q 0 w') ->
  wp live_kernel (proc_pid_readdir limit fuel filp) Q w.
Proof.
  intros Hpos Hfuel Hlim Ho Hns Hgone HQ. pose proof Ho as (Hp & Hd & [di Hdi]). unfold proc_pid_readdir, dentry_inode, file_pos.
  assert (HO : TGID_OFFSET = FIRST_PROCESS_ENTRY + 1) by reflexivity. assert (HF : FIRST_PROCESS_ENTRY = 256) by reflexivity.
  kunfold. cbn [gets mbind prog_mbind pbind wp]. rewrite Hd, Hdi, Hp. cbn [wp mret prog_mret pbind]. apply wp_step.
  assert (R0 : reading filp dir pos [] w w) by (by split).
  intros reaper m1 [Hm1 _]. pose proof (reading_call _ _ _ _ _ (GetProcTask di) reaper m1 w I R0 Hm1) as R1.
  destruct reaper as [reaper|]; cbv beta iota; [|apply Hgone; [by exists di|split; [done|apply R1]|apply R1]].
  set (w1 := after (GetProcTask di) (Some reaper) m1 w) in *.
  assert (Hout : forall l q w', emitted l w1 w' -> opened filp dir q (mem w') -> root_reading pos l q ->
    wp live_kernel (call (PutTaskStruct reaper);; mret 0) Q w').
  { intros l q w' He Ho' Hr. eapply (put_task_wp _ filp dir q reaper l w w1); [apply live_kernel_stable|done|apply R1|done|done|].
    intros w2 He2 Ho2. by apply (HQ l q). }
  apply wp_bind, (wp_contract dir_stable _ _ _ _ live_kernel_stable).
  rewrite u32_small by lia. apply (base_loop_wp filp reaper dir _ pos); [apply R1|lia| |].
  { rewrite len_zdrop by lia. change (len proc_base_stuff) with 1. lia. }
  intros d w2 l q He2 Ho2 Hl. pose proof (lists_bounds _ _ _ _ _ Hl) as (Hq & Hdone & Hacc).
  rewrite len_fmap, len_zdrop in Hq, Hdone by lia. change (len proc_base_stuff) with 1 in Hq, Hdone.
  destruct d; cbv beta iota.
  - destruct Hdone as [Hdone _]. specialize (Hdone eq_refl).
    assert (Hns2 : d_ns (k_dentry (mem w2) !!! f_dentry (k_file (mem w2) !!! filp)) = ns).
    { rewrite (proj1 (proj2 Ho2)), (proj1 (proj2 (proj2 He2) dir)), (proj1 (proj2 (proj1 R1) dir)). exact Hns. }
    cbn [gets mbind prog_mbind pbind wp]. rewrite Hns2, (proj1 Ho2). rewrite u32_small by lia.
    do 2 apply wp_bind. pose proof He2 as [[Hh2 Hb2] Hl2].
    apply (next_tgid_wp (held w1)); [lia| |done|].
    { pose proof (view_mono Hview 0 (q - TGID_OFFSET) ltac:(lia)). lia. }
    intros it w3 S3 Hh3 Hf3. apply wp_bind.
    apply (tgid_loop_wp filp dir (held w1) fuel it (q - TGID_OFFSET) w3 q); [lia| |done| |done|].
    { pose proof (view_mono Hview 0 (q - TGID_OFFSET) ltac:(lia)). lia. }
    { by apply (opened_frame _ _ _ w2); [|apply S3]. }
    intros d l' q' w4 Hl4 Ho4 Hh4 Hb4 Hp4.
    assert (He4 : emitted (l ++ l') w1 w4).
    { apply (emitted_trans _ _ _ w2); [done|]. split; [split; [congruence|]|].
      - rewrite Hb4. apply S3.
      - apply (listed_trans [] _ _ w3); [split; apply S3|done]. }
    pose proof (root_reading_procs pos l q (q - TGID_OFFSET) d l' q' ltac:(lia) Hlim ltac:(lia) ltac:(lia)) as Hrr.
    unfold zdrop, base_names in Hl, Hrr. rewrite <- fmap_drop in Hrr. specialize (Hrr Hl Hp4).
    destruct d; cbv beta iota; [|by apply (Hout (l ++ l') q')].
    unfold set_file_pos. cbn [modify mbind prog_mbind pbind wp].
    apply (Hout (l ++ l') (limit + TGID_OFFSET)); [| |done].
    + rewrite <- (app_nil_r (l ++ l')). apply (emitted_trans _ _ _ w4); [done|]. destruct w4. apply upd_file_emitted.
    + destruct w4. apply (upd_file_opened _ _ q'); [done|]. by intros [].
  - pose proof (lists_end _ _ _ _ _ Hl) as Hstop. cbv iota in Hstop.
    assert (Hl' : lists pos (zdrop (pos - FIRST_PROCESS_ENTRY) base_names) l q false).
    { revert Hl. unfold zdrop, base_names. by rewrite fmap_drop. }
    apply (Hout l q); [done|done|]. split; [lia|]. split; [by apply (base_entries _ _ _ _ Hlim (proj1 Hpos) Hl')|]. split; [|by right]. exists []. split.
    + apply spans_nil. intros n Hn. destruct (decide (q = pos + Z.max 0 (1 - (pos - FIRST_PROCESS_ENTRY)))); [by destruct Hdone as [_ H1]; specialize (H1 e)|lia].
    + rewrite Hacc. cbn [fmap list_fmap]. rewrite app_nil_r. unfold zdrop, base_names. by rewrite fmap_drop.
Qed.

(** *** Several calls *)

(** The names below offset [q] of /proc: the fixed entries, then the processes. *)
Definition root_names (q : Z) (names : list bytes) : Prop :=
  exists S, tgids 0 (q - TGID_OFFSET) S /\
    names = ztake (q - FIRST_PROCESS_ENTRY) (pe_name <$> proc_base_stuff) ++ ((fun n => (numeric_name n).1) <$> S).

Lemma root_names_start : root_names FIRST_PROCESS_ENTRY [].
Proof. exists []. split; [|done]. apply spans_nil. assert (HO : TGID_OFFSET = FIRST_PROCESS_ENTRY + 1) by reflexivity. lia. Qed.

Lemma root_names_step pos l q names : FIRST_PROCESS_ENTRY <= pos -> root_names pos names -> root_reading pos l q ->
  root_names q (names ++ accepted l).
Proof.
  intros Hpos (S0 & Hs0 & ->) (Hq & _ & (S & HS & Hacc) & _). assert (HO : TGID_OFFSET = FIRST_PROCESS_ENTRY + 1) by reflexivity.
  fold base_names in *. set (base := base_names) in *. assert (Hbase : length base = 1%nat) by reflexivity.
  rewrite Hacc. destruct (Z.eq_dec pos FIRST_PROCESS_ENTRY) as [->|Hne].
  - assert (S0 = []) as ->.
    { destruct S0 as [|x S0]; [done|]. destruct (proj1 (proj2 Hs0) x ltac:(left)) as [Hx _]. lia. }
    exists S. rewrite Z.sub_diag. replace (Z.max FIRST_PROCESS_ENTRY TGID_OFFSET - TGID_OFFSET) with 0 in HS by lia. by split.
  - replace (Z.max pos TGID_OFFSET) with pos in HS by lia. exists (S0 ++ S). split; [by apply (spans_app _ (pos - TGID_OFFSET)); [lia| |]|].
    unfold ztake, zdrop. rewrite (drop_ge base), take_nil, !(take_ge base) by lia. cbn [app]. by rewrite fmap_app, app_assoc.
Qed.

Lemma again_root_wp fuel filp dir n : (to_go V 0 < fuel)%nat -> 0 <= limit -> forall pos w (Q : unit -> world -> Prop),
  FIRST_PROCESS_ENTRY <= pos <= limit + TGID_OFFSET -> opened filp dir pos (mem w) -> d_ns (k_dentry (mem w) !!! dir) = ns ->
  (forall l q w', emitted l w w' -> opened filp dir q (mem w') -> pos <= q <= limit + TGID_OFFSET ->
     (forall names, root_names pos names -> root_names q (names ++ accepted l)) -> Q tt w') ->
  wp live_kernel (again n (proc_pid_readdir limit fuel filp)) Q w.
Proof.
  intros Hfuel Hlim. induction n as [|n IH]; intros pos w Q Hpos Ho Hns HQ; cbn [again].
  { apply (HQ [] pos); [done|done|lia|]. intros names. by rewrite app_nil_r. }
  assert (Hnext : forall l q w1, emitted l w w1 -> opened filp dir q (mem w1) -> pos <= q <= limit + TGID_OFFSET ->
    (forall names, root_names pos names -> root_names q (names ++ accepted l)) ->
    wp live_kernel (again n (proc_pid_readdir limit fuel filp)) (fun a w' => Q a w') w1).
  { intros l q w1 He Ho1 Hq Hl. apply (IH q); [lia|done|by rewrite (proj1 (proj2 (proj2 He) dir))|].
    intros l2 q2 w2 He2 Ho2 Hq2 Hl2. eapply HQ; [by eapply emitted_trans|exact Ho2|lia|]. intros names Hn.
    rewrite accepted_app, app_assoc. by apply Hl2, Hl. }
  apply wp_bind, (proc_pid_readdir_wp fuel filp dir pos); [done|done|done|done|done| |].
  - intros w1 _ He Ho1. apply (Hnext [] pos); [done|done|lia|]. intros names. by rewrite app_nil_r.
  - intros l q w1 He Ho1 Hr. apply (Hnext l q); [done|done|by apply Hr|]. intros names Hn. by apply (root_names_step pos); [lia| |].
Qed.
End Space.

(** *** A namespace that stays as it is *)

Section Static.
Context (A : forall o, ans o) (ns : ns_id) (pids : list pid_id).

(** The number of a pid in the namespace, and whether it is a process. *)
Definition nr (p : pid_id) : Z := A (PidNrNs p ns).
Definition leads (p : pid_id) : bool :=
  match A (PidTask p) with Some t => A (HasGroupLeaderPid t) | None => false end.
Definition is_tgid (n : Z) : Prop := exists p, p ∈ pids /\ nr p = n /\ leads p = true.

(** [pids] are the pids of the namespace, all below [limit], and
    [find_ge_pid] finds the next one. *)
Record pid_space (limit : Z) : Prop := {
  space_range : Forall (fun p => 0 <= nr p < limit) pids;
  space_inj : forall p q, p ∈ pids -> q ∈ pids -> nr p = nr q -> p = q;
  space_find : forall n, 0 <= n ->
    match A (FindGePid n ns) with
    | Some p => p ∈ pids /\ n <= nr p /\ forall q, q ∈ pids -> n <= nr q -> nr p <= nr q
    | None => forall q, q ∈ pids -> nr q < n
    end;
}.

(** The kernel of the reading: it answers from this pid space. *)
Definition pid_kernel : contract := fun o tr m x m' =>
  dir_stable o tr m x m' /\
  match o return ans o -> Prop with
  | FindGePid _ _ as o | PidNrNs _ _ as o | PidTask _ as o | HasGroupLeaderPid _ as o => fun x => x = A o
  | _ => fun _ => True
  end x.

(** The pids not passed yet. *)
Definition remaining (n : Z) : nat := length (filter (fun p => n <= nr p) pids).

Lemma remaining_step n p : p ∈ pids -> n <= nr p -> (remaining (nr p + 1) < remaining n)%nat.
Proof.
  unfold remaining. intros Hp Hn. induction pids as [|x l IH]; [by apply elem_of_nil in Hp|].
  assert (Hle : (length (filter (fun p' => nr p + 1 <= nr p')%Z l) <= length (filter (fun p' => n <= nr p')%Z l))%nat).
  { clear - Hn. induction l as [|y l IH]; [done|]. rewrite !filter_cons.
    destruct (decide (nr p + 1 <= nr y)), (decide (n <= nr y)); cbn; lia. }
  rewrite !filter_cons. apply elem_of_cons in Hp as [->|Hp].
  - destruct (decide (nr x + 1 <= nr x)); [lia|]. destruct (decide (n <= nr x)); [|lia]. cbn. lia.
  - specialize (IH Hp). destruct (decide (nr p + 1 <= nr x)), (decide (n <= nr x)); cbn; lia.
Qed.

Lemma remaining_mono n n' : n <= n' -> (remaining n' <= remaining n)%nat.
Proof.
  intros H. unfold remaining. induction pids as [|y l IH]; [done|]. rewrite !filter_cons.
  destruct (decide (n <= nr y)), (decide (n' <= nr y)); cbn; lia.
Qed.

Lemma remaining_all : (remaining 0 <= length pids)%nat.
Proof. apply length_filter. Qed.

(** Then every process stays, and nothing else is one. *)
Definition static_view : pid_view := PidView (fun p => p ∈ pids) nr (fun p t => A (PidTask p) = Some t) is_tgid is_tgid remaining.

Lemma static_tgids from upto S : tgids static_view from upto S -> forall n, n ∈ S <-> from <= n < upto /\ is_tgid n.
Proof. apply spans_elem. Qed.

Context (limit : Z) (Hspace : pid_space limit).

Lemma static_live_view : live_view static_view limit.
Proof.
  split.
  - intros k (p & Hp & <- & _). exact (proj1 (Forall_forall _ _) (space_range _ Hspace) p Hp).
  - intros p n Hp Hn. by apply remaining_step.
  - apply remaining_mono.
Qed.

(** A number of the pid space belongs to one pid. *)
Lemma is_tgid_leads p : p ∈ pids -> is_tgid (nr p) -> leads p = true.
Proof. intros Hp (q & Hq & Hn & Hl). by apply (space_inj _ Hspace) in Hn as ->. Qed.

Lemma static_kernel o tr m x m' : pid_kernel o tr m x m' -> live_kernel ns static_view limit o tr m x m'.
Proof.
  intros [Hst Hx]. split; [done|]. destruct o; try done; cbn [known number carries stays may_be static_view].
  - intros Hp. rewrite Hx. split; [|done]. intros Hs%is_tgid_leads; [|done]. unfold leads in Hs. by destruct (A (PidTask p)).
  - intros ->. intros Hn. rewrite Hx. pose proof (space_find _ Hspace nr0 Hn) as Hf. destruct (A (FindGePid nr0 ns)) as [p|].
    + destruct Hf as (Hp & Hnp & Hmin). split; [done|]. pose proof (proj1 (Forall_forall _ _) (space_range _ Hspace) p Hp) as Hr.
      cbv beta in Hr. split; [lia|]. intros k (q & Hq & <- & _). by apply Hmin.
    + intros k (q & Hq & <- & _). by apply Hf.
  - intros ->. exact Hx.
  - intros p Hp Ht. rewrite Hx. assert (Hl : leads p = A (HasGroupLeaderPid t)) by (unfold leads; by rewrite Ht). rewrite <- Hl.
    split; [by exists p|by apply is_tgid_leads].
Qed.
End Static.


(** ** The honeypot hook *)

(** What an observer of the hook and of the entries sees, the last event
    first. *)
Inductive event := HookRun (f : nat) | Entry (name : bytes).

Fixpoint events (l : list obs) : list event :=
  match l with
  | [] => []
  | Obs (CallHook f) _ :: l => HookRun f :: events l
  | Obs (Filldir name _ _ _ _) _ :: l => Entry name :: events l
  | _ :: l => events l
  end.

(** No operation exchanges the hook while a directory is read. *)
Definition hook_kept : contract := fun o _ m _ m' => k_hook m' = k_hook m.

Definition same_hook (es : list event) (w w' : world) : Prop :=
  events (log w') = rev es ++ events (log w) /\ k_hook (mem w') = k_hook (mem w).

Definition shows {B : Type} (es : list event) (p : prog B) : Prop :=
  forall w, wlp hook_kept p (fun _ w' => same_hook es w w') w.

Lemma same_hook_trans es es' w w1 w2 : same_hook es w w1 -> same_hook es' w1 w2 -> same_hook (es ++ es') w w2.
Proof. intros [He Hk] [He' Hk']. split; [by rewrite He', He, rev_app_distr, app_assoc|congruence]. Qed.

Lemma shows_ret {B : Type} (b : B) : shows [] (mret b).
Proof. by intros w. Qed.

Lemma shows_halt {B : Type} es y : shows es (@Halt B y).
Proof. done. Qed.

Lemma shows_bind {B C : Type} (p : prog B) (f : B -> prog C) es es' :
  shows es p -> (forall b, shows es' (f b)) -> shows (es ++ es') (p ≫= f).
Proof.
  intros Hp Hf w. apply wlp_bind. eapply wlp_mono; [apply Hp|]. intros b w1 H1.
  eapply wlp_mono; [apply Hf|]. intros c w2 H2. by apply (same_hook_trans _ _ _ w1).
Qed.

Lemma shows_gets {B : Type} (f : kmem -> B) : shows [] (gets f).
Proof. by intros w. Qed.

Lemma shows_modify f : (forall m, k_hook (f m) = k_hook m) -> shows [] (modify f).
Proof. intros Hf w. split; [done|apply Hf]. Qed.

Lemma shows_call o : match o with Filldir _ _ _ _ _ | CallHook _ => False | _ => True end -> shows [] (call o).
Proof. intros Ho w x m Hm. split; [|exact Hm]. cbn. by destruct o. Qed.

Lemma shows_filldir name n pos ino type : shows [Entry name] (call (Filldir name n pos ino type)).
Proof. intros w x m Hm. by split. Qed.

Create HintDb shows.
#[export] Hint Resolve shows_ret shows_halt shows_gets : shows.

(** Proves [shows []] of a program from its syntax. *)
Ltac shows := repeat first
  [ match goal with |- forall _, _ => intros ? end | solve [auto with shows nocore]
  | apply (shows_bind _ _ [] []) | apply shows_call; exact I
  | apply shows_modify; intros []; reflexivity
  | match goal with |- shows _ (match ?x with _ => _ end) => destruct x end ].

Lemma proc_pid_make_inode_shows sb task : shows [] (proc_pid_make_inode sb task).
Proof. unfold proc_pid_make_inode, own_by_task, task_dumpable. kunfold. shows. Qed.

Lemma pid_revalidate_shows d : shows [] (pid_revalidate d).
Proof. unfold pid_revalidate, dentry_inode, own_by_task, strip_ids, task_dumpable. kunfold. shows. Qed.

#[export] Hint Resolve proc_pid_make_inode_shows pid_revalidate_shows : shows.

Lemma task_dir_instantiate_shows iop fop stuff dir dentry task : shows [] (task_dir_instantiate iop fop stuff dir dentry task).
Proof. unfold task_dir_instantiate, inode_sb, set_and_add. kunfold. shows. Qed.

Lemma proc_base_instantiate_shows p dir dentry task : shows [] (proc_base_instantiate p dir dentry task).
Proof. unfold proc_base_instantiate, inode_sb, set_and_add, apply_entry. kunfold. shows. Qed.

Lemma proc_fill_cache_shows filp name n f task : (forall dir dentry t, shows [] (f dir dentry t)) ->
  shows [Entry name] (proc_fill_cache filp name n f task).
Proof.
  intros Hf. unfold proc_fill_cache, fill_cache_child, fill_cache_emit, dentry_inode. kunfold.
  apply (shows_bind _ _ [] [_]); [shows|]. intros dir. apply (shows_bind _ _ [] [_]); [shows; apply Hf|]. intros child.
  apply (shows_bind _ _ [] [_]); [shows|]. intros i. apply (shows_bind _ _ [] [_]); [destruct child, i; cbv beta iota; shows|]. intros [ino ty].
  apply (shows_bind _ _ [] [_]); [shows|]. intros ino'. apply (shows_bind _ _ [] [_]); [shows|]. intros pos.
  apply shows_filldir.
Qed.

Section Hook.
Context `{Arch} `{Config} (limit : Z).

(** What one process adds to the events. *)
Definition process_events (h : hook) (n : Z) : list event :=
  match h with
  | HookDummy => [Entry (numeric_name n).1]
  | HookModule f => [HookRun f; Entry (numeric_name n).1]
  end.

(** What an entry adds to them, given its offset: the hook runs for the
    entries of processes only. *)
Definition entry_events (h : hook) (e : bytes * Z * Z) : list event :=
  let '(name, pos, _) := e in
  match h with
  | HookModule f => if pos <? TGID_OFFSET then [Entry name] else [HookRun f; Entry name]
  | HookDummy => [Entry name]
  end.

Definition entry_name (e : event) : option bytes := match e with Entry name => Some name | HookRun _ => None end.

(** The entries among the events are those of the log. *)
Lemma events_dirents l : omap entry_name (events l) = (fun e => e.1.1) <$> dirents l.
Proof. induction l as [|[o x] l IH]; [done|]. destruct o; cbn; rewrite ?IH; done. Qed.

Lemma omap_rev {B C : Type} (f : B -> option C) l : omap f (rev l) = rev (omap f l).
Proof.
  induction l as [|x l IH]; [done|]. cbn [rev]. rewrite omap_app, IH. cbn. by destruct (f x); cbn; rewrite ?app_nil_r.
Qed.

Lemma omap_base_events (names : list bytes) : omap entry_name (Entry <$> names) = names.
Proof. induction names as [|n names IH]; [done|]. cbn. by rewrite IH. Qed.

Lemma omap_process_events h procs :
  omap entry_name (flat_map (process_events h) procs) = (fun n => (numeric_name n).1) <$> procs.
Proof. induction procs as [|n procs IH]; [done|]. destruct h; cbn; by rewrite IH. Qed.

(** A name of /proc says whether it is a fixed entry or a process, and so
    does its offset. *)
Lemma base_not_number name n : name ∈ base_names -> name <> (numeric_name n).1.
Proof.
  intros Hin. assert (name = str "self") as -> by (by apply list_elem_of_singleton in Hin).
  destruct (numeric_name_first n) as (c & s & -> & Hc). change (str "self") with (115 :: str "elf"). intros [= ]. lia.
Qed.

Lemma entry_events_fit V h : forall l names procs, Forall (root_entry V limit) l -> Forall (fun n => n ∈ base_names) names ->
  (fun e : bytes * Z * Z => e.1.1) <$> l = names ++ ((fun n => (numeric_name n).1) <$> procs) ->
  flat_map (entry_events h) l = (Entry <$> names) ++ flat_map (process_events h) procs.
Proof.
  induction l as [|[[name pos] x] l IH]; intros names procs Hl Hn He.
  { symmetry in He. apply app_eq_nil in He as [-> He]. by destruct procs. }
  apply Forall_cons in Hl as [[Hr He1] Hl]. cbn [fmap list_fmap fst] in He. destruct names as [|n names].
  - destruct procs as [|p procs]; [done|]. injection He as -> He. specialize (IH [] procs Hl Hn He).
    cbn [flat_map entry_events fmap list_fmap app] in *. rewrite IH. destruct (pos <? TGID_OFFSET); [|by destruct h].
    apply list_elem_of_lookup_2, base_not_number with (n := p) in He1. done.
  - injection He as -> He. apply Forall_cons in Hn as [Hb Hn]. specialize (IH names procs Hl Hn He).
    cbn [flat_map entry_events fmap list_fmap app] in *. rewrite IH. destruct (pos <? TGID_OFFSET); [by destruct h|].
    destruct He1 as [_ ->]. by apply (base_not_number _ (pos - TGID_OFFSET)) in Hb.
Qed.

Lemma in_proc_pid_readdir_shows w :
  wlp hook_kept in_proc_pid_readdir (fun _ w' =>
    same_hook (match k_hook (mem w) with HookDummy => [] | HookModule f => [HookRun f] end) w w') w.
Proof.
  unfold in_proc_pid_readdir, dummy_in_proc_pid_readdir. kunfold. cbn [gets mbind prog_mbind pbind wlp].
  destruct (k_hook (mem w)) as [|f] eqn:Hk; [by split|]. intros x m Hm. split; [done|]. exact Hm.
Qed.

Lemma proc_pid_instantiate_shows dir dentry task : shows [] (proc_pid_instantiate dir dentry task).
Proof. exact (task_dir_instantiate_shows _ _ _ dir dentry task). Qed.

Lemma next_tgid_retry_shows ns : forall fuel n, shows [] (next_tgid_retry fuel ns n).
Proof. induction fuel as [|fuel IH]; intros n; cbn [next_tgid_retry]; kunfold; shows; apply IH. Qed.

Lemma next_tgid_shows fuel ns it : shows [] (next_tgid fuel ns it).
Proof. unfold next_tgid. kunfold. shows; apply next_tgid_retry_shows. Qed.

Lemma base_loop_shows filp reaper ps : forall w,
  wlp hook_kept (base_loop filp reaper ps) (fun _ w' => exists names,
    Forall (fun n => n ∈ pe_name <$> ps) names /\ same_hook (Entry <$> names) w w') w.
Proof.
  assert (Hsub : forall p ps names, Forall (fun n => n ∈ pe_name <$> ps) names ->
    Forall (fun n => n ∈ pe_name <$> p :: ps) (pe_name p :: names)).
  { intros p ps' names Hn. constructor; [by left|]. eapply Forall_impl; [exact Hn|]. intros n Hin. by right. }
  induction ps as [|p ps IH]; intros w; cbn [base_loop]; [by exists []|].
  apply wlp_bind. eapply wlp_mono; [exact (proc_fill_cache_shows filp _ _ (proc_base_instantiate p) reaper (proc_base_instantiate_shows p) w)|]. intros r w1 H1.
  destruct (r <? 0); [by exists [pe_name p]; split; [apply Hsub|]|]. apply wlp_bind. eapply wlp_mono; [apply shows_modify; by intros []|].
  intros u w2 H2. eapply wlp_mono; [apply IH|]. intros d w3 (names & Hn & H3). exists (pe_name p :: names). split; [by apply Hsub|].
  apply (same_hook_trans [_] _ _ _ _ H1). by apply (same_hook_trans [] _ _ w2).
Qed.

Lemma tgid_loop_shows filp ns : forall fuel it w,
  wlp hook_kept (tgid_loop fuel filp ns it) (fun _ w' =>
    exists procs, same_hook (flat_map (process_events (k_hook (mem w))) procs) w w') w.
Proof.
  induction fuel as [|fuel IH]; intros [t [task|]] w; cbn [tgid_loop it_task it_tgid]; try (by exists []).
  - done.
  - apply wlp_bind. eapply wlp_mono; [apply shows_modify; by intros []|]. intros u w1 H1.
    apply wlp_bind. eapply wlp_mono; [apply in_proc_pid_readdir_shows|]. intros v w2 H2.
    unfold proc_pid_fill_cache. assert (Hsplit : numeric_name t = ((numeric_name t).1, (numeric_name t).2)) by done.
    rewrite Hsplit. cbv beta iota. apply wlp_bind.
    eapply wlp_mono; [exact (proc_fill_cache_shows filp _ _ proc_pid_instantiate task proc_pid_instantiate_shows w2)|]. intros r w3 H3.
    assert (H03 : same_hook (process_events (k_hook (mem w)) t) w w3).
    { pose proof (same_hook_trans _ _ _ _ _ (same_hook_trans _ _ _ _ _ H1 H2) H3) as H13. destruct H1 as [_ Hk].
      rewrite Hk in H13. destruct (k_hook (mem w)); exact H13. }
    destruct (r <? 0).
    + apply wlp_bind. kunfold. eapply wlp_mono; [by apply (shows_call (PutTaskStruct task))|]. intros ? w4 H4.
      exists [t]. cbn [flat_map]. by apply (same_hook_trans _ [] _ w3).
    + apply wlp_bind. eapply wlp_mono; [apply next_tgid_shows|]. intros it' w4 H4.
      eapply wlp_mono; [apply IH|]. intros d w5 [procs H5]. exists (t :: procs).
      assert (Hk4 : k_hook (mem w4) = k_hook (mem w)) by (rewrite (proj2 H4); apply H03). rewrite Hk4 in H5.
      apply (same_hook_trans _ _ _ _ _ H03). by apply (same_hook_trans [] _ _ w4).
Qed.

Lemma proc_pid_readdir_shows fuel filp w :
  wlp hook_kept (proc_pid_readdir limit fuel filp) (fun _ w' => exists names procs, Forall (fun n => n ∈ base_names) names /\
    same_hook ((Entry <$> names) ++ flat_map (process_events (k_hook (mem w))) procs) w w') w.
Proof.
  assert (Hdi : forall d, shows [] (dentry_inode d)) by (intros; unfold dentry_inode; shows).
  unfold proc_pid_readdir, file_pos. kunfold.
  apply wlp_bind. cbn [gets wlp]. apply wlp_bind. cbn [gets wlp]. apply wlp_bind.
  eapply wlp_mono; [apply Hdi|]. intros inode w1 H1.
  apply wlp_bind. eapply wlp_mono; [by apply (shows_call (GetProcTask inode))|]. intros reaper w2 H2.
  pose proof (same_hook_trans [] [] _ _ _ H1 H2) as H02. cbn [app] in H02.
  destruct reaper as [reaper|]; [|by exists [], []].
  apply wlp_bind. eapply wlp_mono; [apply base_loop_shows|]. intros go w3 (names & Hbase & H3).
  assert (Hnames : Forall (fun n => n ∈ base_names) names).
  { eapply Forall_impl; [exact Hbase|]. intros n Hn. unfold zdrop in Hn. rewrite fmap_drop in Hn. by apply subseteq_drop in Hn. }
  pose proof (same_hook_trans [] _ _ _ _ H02 H3) as H03. cbn [app] in H03.
  assert (Hend : forall procs w4, same_hook (flat_map (process_events (k_hook (mem w))) procs) w3 w4 ->
    wlp hook_kept (call (PutTaskStruct reaper) ≫= fun _ => mret 0) (fun _ w' => exists names procs, Forall (fun n => n ∈ base_names) names /\
      same_hook ((Entry <$> names) ++ flat_map (process_events (k_hook (mem w))) procs) w w') w4).
  { intros procs w4 H4. apply wlp_bind. eapply wlp_mono; [by apply (shows_call (PutTaskStruct reaper))|]. intros u w5 H5.
    exists names, procs. split; [done|]. rewrite <- (app_nil_r (_ ++ _)). apply (same_hook_trans _ [] _ w4); [|done].
    by apply (same_hook_trans _ _ _ w3). }
  apply wlp_bind. destruct go; [|by apply (Hend [])].
  apply wlp_bind. cbn [gets wlp]. apply wlp_bind. cbn [gets wlp].
  apply wlp_bind. eapply wlp_mono; [apply next_tgid_shows|]. intros it w4 H4.
  apply wlp_bind. eapply wlp_mono; [apply tgid_loop_shows|]. intros d w5 [procs H5].
  assert (Hk : k_hook (mem w4) = k_hook (mem w)) by (rewrite (proj2 H4); apply H03). rewrite Hk in H5.
  pose proof (same_hook_trans [] _ _ _ _ H4 H5) as H35. cbn [app] in H35.
  destruct d; [|by apply (Hend procs)].
  unfold set_file_pos. eapply wlp_mono; [apply shows_modify; by intros []|]. intros u w6 H6. apply (Hend procs).
  rewrite <- (app_nil_r (flat_map _ _)). by apply (same_hook_trans _ _ _ w5).
Qed.
End Hook.

(** The reading of a namespace that stays as it is. *)
Lemma static_readdir_wp `{Arch} `{Config} (A : forall o, ans o) ns pids limit fuel filp dir pos w (Q : Z -> world -> Prop) :
  pid_space A ns pids limit -> 0 <= limit < 2 ^ 31 -> (length pids < fuel)%nat ->
  FIRST_PROCESS_ENTRY <= pos <= limit + TGID_OFFSET -> opened filp dir pos (mem w) -> d_ns (k_dentry (mem w) !!! dir) = ns ->
  (forall w', vanished dir w w' -> emitted [] w w' -> opened filp dir pos (mem w') -> Q 0 w') ->
  (forall l q w', emitted l w w' -> opened filp dir q (mem w') ->
     root_reading (static_view A ns pids) limit pos l q -> Q 0 w') ->
  wp (pid_kernel A) (proc_pid_readdir limit fuel filp) Q w.
Proof.
  intros Hs Hlim Hfuel Hpos Ho Hns Hgone HQ. apply (wp_contract (live_kernel ns (static_view A ns pids) limit)).
  { intros. by apply static_kernel. }
  apply (proc_pid_readdir_wp ns (static_view A ns pids) limit (static_live_view A ns pids limit Hs) (proj2 Hlim) fuel filp dir pos w); try done.
  - cbn [to_go static_view]. pose proof (remaining_all A ns pids). lia.
  - lia.
Qed.

(** C1: However the reading of /proc is cut up - any number of calls, the
    caller refusing entries wherever it likes - and whatever processes come
    and go meanwhile: after any number of calls the accepted entries are the
    fixed entries and then names of processes, in strictly ascending order and
    so each at most once, and every process that lives all the time and is
    below the offset is among them. The loops end for any [fuel] above the
    number of pids that can be met, and nothing is left held. *)
Theorem proc_lists_each_process_once `{Arch} `{Config} E ns V limit fuel filp dir n w :
  keeps E (live_kernel ns V limit) -> live_view V limit -> 0 <= limit < 2 ^ 31 -> (to_go V 0 < fuel)%nat ->
  opened filp dir FIRST_PROCESS_ENTRY (mem w) -> d_ns (k_dentry (mem w) !!! dir) = ns ->
  ends E (again n (proc_pid_readdir limit fuel filp)) w (fun _ w' =>
    exists l q, emitted l w w' /\ opened filp dir q (mem w') /\ FIRST_PROCESS_ENTRY <= q <= limit + TGID_OFFSET /\
      exists S, accepted l = ztake (q - FIRST_PROCESS_ENTRY) (pe_name <$> proc_base_stuff) ++ ((fun n => (numeric_name n).1) <$> S) /\
        StronglySorted Z.lt S /\ (forall n, n ∈ S -> 0 <= n < q - TGID_OFFSET /\ may_be V n) /\
        (forall n, stays V n -> n < q - TGID_OFFSET -> n ∈ S)).
Proof.
  intros HE Hv Hlim Hfuel Ho Hns. apply (wp_ends _ (live_kernel ns V limit)); [done|].
  assert (HO : TGID_OFFSET = FIRST_PROCESS_ENTRY + 1) by reflexivity.
  apply (again_root_wp ns V limit Hv (proj2 Hlim) fuel filp dir n) with (pos := FIRST_PROCESS_ENTRY); [done|lia|lia|done|done|].
  intros l q w' He Ho' Hq Hl. exists l, q. split; [done|]. split; [done|]. split; [lia|].
  destruct (Hl [] (root_names_start V)) as (S & (Hs & Hin & Hall) & Hacc). exists S. split_and!; try done.
  intros k Hk Hr. apply Hall; [done|]. pose proof (view_stays _ _ Hv k Hk). lia.
Qed.

(** C2: One reading of /proc, while no process comes or goes: it ends for any
    [fuel] above the number of pids; it offers the fixed entries and then every
    process of the namespace, exactly once and in ascending order of its
    number, from the offset it starts at to the new offset; every entry offered
    carries the offset of its own; only a refused entry stops it before all
    processes have been listed, and the new offset is then the one of the
    refused entry; or the task of the directory's own inode is gone, and it
    lists nothing and leaves the offset. No task reference or lock is left
    held. *)
Theorem proc_pid_readdir_spec `{Arch} `{Config} E A ns pids limit fuel filp dir pos w :
  keeps E (pid_kernel A) -> pid_space A ns pids limit -> 0 <= limit < 2 ^ 31 -> (length pids < fuel)%nat ->
  FIRST_PROCESS_ENTRY <= pos <= limit + TGID_OFFSET ->
  opened filp dir pos (mem w) -> d_ns (k_dentry (mem w) !!! dir) = ns ->
  ends E (proc_pid_readdir limit fuel filp) w (fun r w' => r = 0 /\
    exists l q, emitted l w w' /\ opened filp dir q (mem w') /\
      (vanished dir w w' /\ l = [] /\ q = pos \/ root_reading (static_view A ns pids) limit pos l q)).
Proof.
  intros HE Hs Hlim Hfuel Hpos Ho Hns. apply (wp_ends _ (pid_kernel A)); [done|].
  apply (static_readdir_wp A ns pids limit fuel filp dir pos); try done.
  - intros w' Hv He Ho'. split; [done|]. exists [], pos. split_and!; [done|done|by left].
  - intros l q w' He Ho' Hr. split; [done|]. exists l, q. split_and!; [done|done|by right].
Qed.

(** C26: The honeypot hook: while /proc is read the installed function runs
    exactly once for every process entry that is offered - an entry whose
    offset is that of a process - immediately before it is offered, and for
    nothing else; and the entries are those of the reading of the directory,
    none if its task is gone. The built-in dummy leaves no trace. *)
Theorem hook_runs_before_each_process `{Arch} `{Config} E A ns pids limit fuel filp dir pos w :
  keeps E (fun o tr m x m' => pid_kernel A o tr m x m' /\ hook_kept o tr m x m') ->
  pid_space A ns pids limit -> 0 <= limit < 2 ^ 31 -> (length pids < fuel)%nat ->
  FIRST_PROCESS_ENTRY <= pos <= limit + TGID_OFFSET ->
  opened filp dir pos (mem w) -> d_ns (k_dentry (mem w) !!! dir) = ns ->
  ends E (proc_pid_readdir limit fuel filp) w (fun _ w' => exists l q, emitted l w w' /\ opened filp dir q (mem w') /\
    (vanished dir w w' /\ l = [] /\ q = pos \/ root_reading (static_view A ns pids) limit pos l q) /\
    events (log w') = rev (flat_map (entry_events (k_hook (mem w))) l) ++ events (log w)).
Proof.
  intros HE Hs Hlim Hfuel Hpos Ho Hns. eapply wp_ends; [exact HE|]. eapply wp_mono.
  - apply wp_wlp.
    + eapply (wp_contract (pid_kernel A)); [by intros ? ? ? ? ? []|].
      apply (static_readdir_wp A ns pids limit fuel filp dir pos w (fun _ w' => exists l q, emitted l w w' /\
        opened filp dir q (mem w') /\ Forall (root_entry (static_view A ns pids) limit) l /\
        (vanished dir w w' /\ l = [] /\ q = pos \/ root_reading (static_view A ns pids) limit pos l q))); try done.
      * intros w' Hv He Ho'. exists [], pos. split_and!; [done|done|done|by left].
      * intros l q w' He Ho' Hr. exists l, q. split_and!; [done|done|apply Hr|by right].
    + eapply (wlp_contract hook_kept); [by intros ? ? ? ? ? []|]. apply proc_pid_readdir_shows.
  - intros r w' [(l & q & He & Ho' & Hent & Hr) (names & procs & Hbase & Hev & _)]. exists l, q.
    split_and!; [done|done|done|]. rewrite Hev. do 2 f_equal. symmetry. apply (entry_events_fit _ _ _ _ _ _ Hent Hbase).
    destruct He as [_ [Hd _]]. pose proof (events_dirents (log w')) as H1. rewrite Hev, Hd, omap_app, fmap_app, events_dirents in H1.
    apply app_inv_tail in H1. rewrite omap_rev, omap_app, omap_base_events, omap_process_events, (map_rev _ l : _ <$> rev l = _) in H1.
    by apply rev_inj in H1.
Qed.


(** ** Witnesses *)

(** Three pids, 10, 20 and 30; the second is a thread, not a process. *)
Definition pids_kernel (o : op) : ans o :=
  match o with
  | PidNrNs p _ => 10 * Z.of_nat p
  | PidTask p => Some p
  | HasGroupLeaderPid t => negb (t =? 2)%nat
  | FindGePid n _ => if n <=? 10 then Some 1%nat else if n <=? 20 then Some 2%nat else if n <=? 30 then Some 3%nat else None
  | o => dir_kernel o
  end.

Definition pids_mem (pos : Z) (h : hook) : kmem :=
  Kmem 1 ∅ ∅ ∅ ∅ {[ 4%nat := File pos 0 0 (Path 0%nat 5%nat) 0 PrivNone ]} {[ 6%nat := inhabitant ]}
    {[ 5%nat := Dentry [] (Some 6%nat) None 0 ]} ∅ ∅ ∅ ∅ ∅ ∅ ∅ h.

Lemma pids_kernel_stable : keeps (dcache_env pids_kernel) (pid_kernel pids_kernel).
Proof. intros o tr m. split; [by apply (dcache_env_stable pids_kernel)|]. by destruct o. Qed.

Lemma pids_kernel_hook : keeps (dcache_env pids_kernel) (fun o tr m x m' =>
  pid_kernel pids_kernel o tr m x m' /\ hook_kept o tr m x m').
Proof. intros o tr m. split; [apply pids_kernel_stable|]. by destruct o, m. Qed.

Lemma pids_kernel_space : pid_space pids_kernel 0%nat [1%nat; 2%nat; 3%nat] 100.
Proof.
  split.
  - repeat constructor; cbn; lia.
  - intros p q _ _. unfold nr. cbn. lia.
  - intros n Hn. cbn. unfold nr. cbn. destruct (Z.leb_spec n 10), (Z.leb_spec n 20), (Z.leb_spec n 30); try lia;
      repeat split; try lia; try (rewrite !elem_of_cons; by auto); intros q; rewrite !elem_of_cons, elem_of_nil; lia.
Qed.

Lemma pids_mem_opened pos h : opened 4%nat 5%nat pos (pids_mem pos h).
Proof. split; [done|]. split; [done|]. by exists 6%nat. Qed.

Lemma proc_pid_readdir_spec_witness :
  ends (dcache_env pids_kernel) (@proc_pid_readdir arch64 config_all 100 4 4%nat) (world0 (pids_mem 256 HookDummy))
    (fun r w' => r = 0 /\ exists l q, emitted l (world0 (pids_mem 256 HookDummy)) w' /\ opened 4%nat 5%nat q (mem w') /\
      (vanished 5%nat (world0 (pids_mem 256 HookDummy)) w' /\ l = [] /\ q = 256 \/ root_reading (static_view pids_kernel 0%nat [1%nat; 2%nat; 3%nat]) 100 256 l q)).
Proof.
  refine (@proc_pid_readdir_spec arch64 config_all _ pids_kernel 0%nat [1%nat; 2%nat; 3%nat] 100 4 4%nat 5%nat 256
    (world0 (pids_mem 256 HookDummy)) pids_kernel_stable pids_kernel_space _ _ _ (pids_mem_opened 256 HookDummy) eq_refl).
  - split; [discriminate|reflexivity].
  - cbn. lia.
  - split; discriminate.
Defined.

(** A namespace that changes: the processes 10 and 30 live all the time; as
    soon as 10 is listed, 15 exits and 20 is born. *)
Definition churn_number (p : pid_id) : Z := match p with 1%nat => 10 | 2%nat => 15 | 3%nat => 20 | _ => 30 end.
Definition churn_alive (tr : list obs) : list pid_id :=
  if decide (str "10" ∈ (fun e => e.1.1) <$> dirents tr) then [1%nat; 3%nat; 4%nat] else [1%nat; 2%nat; 4%nat].

Definition churn_kernel : env := fun o tr m =>
  match o return ans o * kmem with
  | FindGePid n _ => (find (fun p => n <=? churn_number p) (churn_alive tr), m)
  | PidNrNs p _ => (churn_number p, m)
  | PidTask p => (Some p, m)
  | HasGroupLeaderPid _ => (true, m)
  | o => dcache_env pids_kernel o tr m
  end.

Definition churn_view : pid_view :=
  PidView (fun p => p ∈ [1%nat; 2%nat; 3%nat; 4%nat]) churn_number (fun p t => p = t) (fun k => k = 10 \/ k = 30)
    (fun k => k = 10 \/ k = 15 \/ k = 20 \/ k = 30) (fun n => Z.to_nat (100 - n)).

Lemma churn_known p : p ∈ [1%nat; 2%nat; 3%nat; 4%nat] ->
  churn_number p = 10 \/ churn_number p = 15 \/ churn_number p = 20 \/ churn_number p = 30.
Proof. rewrite !elem_of_cons, elem_of_nil. by intros [->|[->|[->|[->|[]]]]]; cbn; auto. Qed.

Lemma churn_live_view : live_view churn_view 100.
Proof.
  split; cbn.
  - lia.
  - intros p n Hp Hn. pose proof (churn_known p Hp). lia.
  - lia.
Qed.

Lemma churn_live_kernel : keeps churn_kernel (live_kernel 0%nat churn_view 100).
Proof.
  intros o tr m. split.
  { destruct o; try (by apply (dcache_env_stable pids_kernel)); done. }
  destruct o; try done; cbn.
  - intros _. by split; [|intros t [= ->]].
  - intros _ Hn. unfold churn_alive. destruct (decide _); cbn [find churn_number];
      destruct (Z.leb_spec nr0 10), (Z.leb_spec nr0 15), (Z.leb_spec nr0 20), (Z.leb_spec nr0 30); try lia; cbn;
      try (intros k Hk; lia); (split; [rewrite !elem_of_cons; by auto|split; [lia|intros k Hk ?; lia]]).
  - intros p Hp ->. split; [|done]. intros _. by apply churn_known.
Qed.

Lemma proc_lists_each_process_once_witness :
  ends churn_kernel (again 2 (@proc_pid_readdir arch64 config_all 100 101 4%nat)) (world0 (pids_mem 256 HookDummy))
    (fun _ w' => exists l q, emitted l (world0 (pids_mem 256 HookDummy)) w' /\ opened 4%nat 5%nat q (mem w') /\
      256 <= q <= 357 /\ exists S, accepted l = ztake (q - 256) (pe_name <$> proc_base_stuff) ++ ((fun n => (numeric_name n).1) <$> S) /\
        StronglySorted Z.lt S /\ (forall n, n ∈ S -> 0 <= n < q - TGID_OFFSET /\ may_be churn_view n) /\
        (forall n, n = 10 \/ n = 30 -> n < q - TGID_OFFSET -> n ∈ S)).
Proof.
  refine (@proc_lists_each_process_once arch64 config_all churn_kernel 0%nat churn_view 100 101 4%nat 5%nat 2
    (world0 (pids_mem 256 HookDummy)) churn_live_kernel churn_live_view _ _ (pids_mem_opened 256 HookDummy) eq_refl).
  - split; [discriminate|reflexivity].
  - cbn. lia.
Defined.

(** Evaluated: 15 is missed and 20 is met. *)
Example churn_evaluates :
  let '(_, w') := run churn_kernel (@proc_pid_readdir arch64 config_all 100 101 4%nat) (world0 (pids_mem 256 HookDummy)) in
  rev (dirents (log w')) = [(str "self", 256, 0); (str "10", 267, 0); (str "20", 277, 0); (str "30", 287, 0)].
Proof. vm_compute. reflexivity. Qed.

Lemma hook_runs_before_each_process_witness :
  ends (dcache_env pids_kernel) (@proc_pid_readdir arch64 config_all 100 4 4%nat) (world0 (pids_mem 256 (HookModule 9)))
    (fun _ w' => exists l q, emitted l (world0 (pids_mem 256 (HookModule 9))) w' /\ opened 4%nat 5%nat q (mem w') /\
      (vanished 5%nat (world0 (pids_mem 256 (HookModule 9))) w' /\ l = [] /\ q = 256 \/
       root_reading (static_view pids_kernel 0%nat [1%nat; 2%nat; 3%nat]) 100 256 l q) /\
      events (log w') = rev (flat_map (entry_events (HookModule 9)) l) ++ []).
Proof.
  refine (@hook_runs_before_each_process arch64 config_all _ pids_kernel 0%nat [1%nat; 2%nat; 3%nat] 100 4 4%nat 5%nat 256
    (world0 (pids_mem 256 (HookModule 9))) pids_kernel_hook pids_kernel_space _ _ _ (pids_mem_opened 256 (HookModule 9)) eq_refl).
  - split; [discriminate|reflexivity].
  - cbn. lia.
  - split; discriminate.
Defined.

(** The whole reading, evaluated: "self" and the processes 10 and 30. *)
Example proc_pid_readdir_evaluates :
  let '(r, w') := run (dcache_env pids_kernel) (@proc_pid_readdir arch64 config_all 100 4 4%nat) (world0 (pids_mem 256 (HookModule 9))) in
  r = Done 0 /\ f_pos (k_file (mem w') !!! 4%nat) = 357 /\ held w' = [] /\ bad w' = [] /\
  rev (events (log w')) = [Entry (str "self"); HookRun 9; Entry (str "10"); HookRun 9; Entry (str "30")].
Proof. vm_compute. repeat split. Qed.
