(* ===== verification/Tasks.v ===== *)
(** * The threads of a process (fs/proc/base.c: /proc/<tgid>/task)

    [proc_task_lookup], [first_tid], [next_tid] and [proc_task_readdir], which
    remembers in [f_version] the thread that the last call could not list;
    and what all the lookups of the file system have in common. *)
From S2P Require Import Prelude Format Structs Kernel Access Names Tables Threads Links Inodes Dirs Procs.

Section Tasks.
Context `{Arch} `{Config}.

Definition proc_task_lookup (dir : inode_id) (dentry : dentry_id) : prog Z :=
  leader ← get_proc_task dir;
  match leader with
  | None => mret (- ENOENT)
  | Some leader =>
      name ← gets (fun m => d_name (k_dentry m !!! dentry));
      let tid := name_to_int name in
      result ← (if tid =? NO_NUMBER then mret (- ENOENT)
                else
                  ns ← gets (fun m => d_ns (k_dentry m !!! dentry));
                  rcu_read_lock;;
                  task ← find_task_by_pid_ns (s32 tid) ns;
                  match task with Some task => get_task_struct task | None => mret tt end;;
                  rcu_read_unlock;;
                  match task with
                  | None => mret (- ENOENT)
                  | Some task =>
                      same ← same_thread_group leader task;
                      result ← (if (same : bool) then proc_task_instantiate dir dentry task
                                else mret (- ENOENT));
                      put_task_struct task;;
                      mret result
                  end);
      put_task_struct leader;;
      mret result
  end.

(** The walk of [nr] threads from [pos]. *)
Fixpoint walk_threads (nr : nat) (leader pos : task_id) : prog (option task_id) :=
  match nr with
  | O => mret (Some pos)
  | S nr =>
      pos ← next_thread pos;
      if decide (pos = leader) then mret None else walk_threads nr leader pos
  end.

Definition first_tid (leader : task_id) (tid nr : Z) (ns : ns_id) : prog (option task_id) :=
  rcu_read_lock;;
  found ← (if negb (tid =? 0) && (0 <? nr) then
             pos ← find_task_by_pid_ns tid ns;
             match pos with
             | Some pos =>
                 gl ← gets (fun m => t_group_leader (k_task m !!! pos));
                 mret (if decide (gl = leader) then Some pos else None)
             | None => mret None
             end
           else mret None);
  pos ← match found with
        | Some pos => mret (Some pos)
        | None =>
            beyond ← (if nr =? 0 then mret false
                      else n ← get_nr_threads leader; mret (n <=? nr));
            if (beyond : bool) then mret None
            else walk_threads (Z.to_nat nr) leader leader
        end;
  match pos with Some pos => get_task_struct pos | None => mret tt end;;
  rcu_read_unlock;;
  mret pos.

Definition next_tid (start : task_id) : prog (option task_id) :=
  rcu_read_lock;;
  alive ← pid_alive start;
  pos ← (if (alive : bool) then
           pos ← next_thread start;
           leader ← thread_group_leader pos;
           if (leader : bool) then mret None
           else get_task_struct pos;; mret (Some pos)
         else mret None);
  rcu_read_unlock;;
  put_task_struct start;;
  mret pos.

Definition proc_task_fill_cache (filp : file_id) (task : task_id) (tid : Z) : prog Z :=
  let '(name, len) := numeric_name tid in
  proc_fill_cache filp name len proc_task_instantiate task.

(** The [for] loop, from its condition on; [fuel] bounds the threads. *)
Fixpoint tid_loop (fuel : nat) (filp : file_id) (ns : ns_id) (task : option task_id) : prog unit :=
  match task with
  | None => mret tt
  | Some task =>
      match fuel with
      | O => Halt OutOfFuel
      | S fuel =>
          tid ← task_pid_nr_ns task ns;
          r ← proc_task_fill_cache filp task tid;
          if r <? 0 then
            modify (upd_file filp (set_f_version (u64 tid)));;
            put_task_struct task
          else
            task ← next_tid task;
            f_pos_inc filp;;
            tid_loop fuel filp ns task
      end
  end.

(** The two dot entries; whether both were accepted or skipped. *)
Definition task_dots (filp : file_id) (dentry : dentry_id) (inode : inode_id) : prog bool :=
  pos ← file_pos filp;
  if ulong pos =? 0 then
    ino ← gets (fun m => i_ino (k_inode m !!! inode));
    ok ← emit_dot filp (str ".") pos ino;
    if negb ok then mret false
    else
      ino ← parent_ino dentry;
      pos ← file_pos filp;
      emit_dot filp (str "..") pos ino
  else if ulong pos =? 1 then
    ino ← parent_ino dentry;
    emit_dot filp (str "..") pos ino
  else mret true.

Definition proc_task_readdir (fuel : nat) (filp : file_id) : prog Z :=
  dentry ← gets (fun m => f_dentry (k_file m !!! filp));
  inode ← dentry_inode dentry;
  task ← get_proc_task inode;
  match task with
  | None => mret (- ENOENT)
  | Some task =>
      rcu_read_lock;;
      alive ← pid_alive task;
      leader ← (if (alive : bool) then
                  leader ← gets (fun m => t_group_leader (k_task m !!! task));
                  get_task_struct leader;;
                  mret (Some leader)
                else mret None);
      rcu_read_unlock;;
      put_task_struct task;;
      match leader with
      | None => mret (- ENOENT)
      | Some leader =>
          go ← task_dots filp dentry inode;
          (if (go : bool) then
             ns ← gets (fun m => d_ns (k_dentry m !!! f_dentry (k_file m !!! filp)));
             tid ← gets (fun m => s32 (f_version (k_file m !!! filp)));
             modify (upd_file filp (set_f_version 0));;
             pos ← file_pos filp;
             task ← first_tid leader tid (s32 (pos - 2)) ns;
             tid_loop fuel filp ns task
           else mret tt);;
          put_task_struct leader;;
          mret 0
      end
  end.


End Tasks.

(** ** Properties: the threads of a process *)

(** What a task directory lists of the threads [ts] with these numbers. *)
Definition thread_names (number : task_id -> Z) (ts : list task_id) : list bytes := (fun t => (numeric_name (number t)).1) <$> ts.
Definition threads (leader : task_id) (others : list task_id) : list task_id := leader :: others.
Definition task_listing (number : task_id -> Z) (leader : task_id) (others : list task_id) : list bytes :=
  dots ++ thread_names number (threads leader others).

Lemma len_task_listing number leader others : len (task_listing number leader others) = 2 + len (threads leader others).
Proof. unfold task_listing, thread_names. by rewrite len_app, len_fmap. Qed.

(** *** A group that grows while it is read

    [others] are all threads that ever join the group of [leader], in the order
    in which they join: [next_thread] visits them in this order. The first
    [must] of them, the leader included, are there all the time; how far the
    walk gets beyond them may be different at every call. *)
Section Group.
Context (ns : ns_id) (number : task_id -> Z) (leader : task_id) (others : list task_id) (must : nat).

Abbreviation threads := (threads leader others).
Abbreviation thread_names := (thread_names number).
Abbreviation task_listing := (task_listing number leader others).

Record growing_group : Prop := {
  group_NoDup : NoDup threads;
  group_tids : forall t, t ∈ threads -> 0 < number t < 2 ^ 31;
  group_must : (1 <= must <= length threads)%nat;
}.

(** What the store says of it: the accounting may count threads that the walk
    does not show yet. *)
Definition group_store (m : kmem) : Prop :=
  (forall t, t ∈ threads -> t_group_leader (k_task m !!! t) = leader) /\
  Z.of_nat must <= sig_count (k_signal m !!! t_signal (k_task m !!! leader)).

(** The kernel of the reading: no thread exits, new ones join at the end, and
    the pid hash finds a thread by its number or does not know it yet. *)
Definition growing_kernel : contract := fun o tr m x m' =>
  dir_stable o tr m x m' /\ (group_store m -> group_store m') /\
  match o return ans o -> Prop with
  | NextThread t => fun x => forall i, threads !! i = Some t ->
      threads !! S i = Some x \/ x = leader /\ (must <= S i)%nat
  | ThreadGroupLeader t => fun x => t ∈ threads -> x = bool_decide (t = leader)
  | PidAlive t => fun x => t ∈ threads -> x = true
  | TaskPidNrNs t ns' => fun x => ns' = ns -> t ∈ threads -> x = number t
  | FindTaskByPidNs n ns' => fun x => ns' = ns -> forall t, t ∈ threads -> n = number t -> x = Some t \/ x = None
  | LockTaskSighand t => fun x => t = leader -> x = true
  | GetProcTask _ => fun x => forall t, x = Some t -> t ∈ threads
  | _ => fun _ => True
  end x.

Lemma growing_kernel_stable o tr m x m' : growing_kernel o tr m x m' -> dir_stable o tr m x m'.
Proof. by intros []. Qed.

Context (Hgroup : growing_group).

(** A walk that was to reach index [k] has reached it, or has come to an end
    where all threads that have to be there are behind it. *)
Definition reached (k : nat) (x : option task_id) : Prop :=
  match x with Some t => threads !! k = Some t | None => (must <= k)%nat end.

Lemma next_not_leader i x : threads !! S i = Some x -> x <> leader.
Proof.
  intros Hx ->. pose proof (group_NoDup Hgroup) as Hnd. rewrite NoDup_alt in Hnd.
  specialize (Hnd (S i) 0%nat leader Hx eq_refl). done.
Qed.

Lemma reached_bound k t : reached k (Some t) -> (k < length threads)%nat.
Proof. apply lookup_lt_Some. Qed.

(** A stretch that leaves files as they are, and the group in order. *)
Definition steady (w w' : world) : Prop :=
  frame w w' /\ (group_store (mem w) -> group_store (mem w')) /\ bad w' = bad w.

Lemma steady_refl w : steady w w.
Proof. by split; [apply frame_refl|]. Qed.

Lemma steady_trans w1 w2 w3 : steady w1 w2 -> steady w2 w3 -> steady w1 w3.
Proof.
  intros (Hf & Hs & Hb) (Hf' & Hs' & Hb'). split; [by apply (frame_trans _ w2)|]. split; [by auto|congruence].
Qed.

Lemma steady_store w w' : steady w w' -> group_store (mem w) -> group_store (mem w').
Proof. intros (_ & Hs & _). exact Hs. Qed.

Lemma steady_call o x m w : match o with Filldir _ _ _ _ _ | SingleOpen _ _ _ => False | _ => True end ->
  misuses o (held w) = [] -> growing_kernel o (log w) (mem w) x m -> steady w (after o x m w).
Proof.
  intros Ho Hmis (Hst & Hsg & _). split; [by apply frame_call|]. split; [done|]. cbn [bad after]. by rewrite Hmis.
Qed.

(** One call of a search: what it answers, what is held after it. *)
Lemma group_step {B : Type} o (k : ans o -> prog B) Q w0 w :
  match o with Filldir _ _ _ _ _ | SingleOpen _ _ _ => False | _ => True end -> misuses o (held w) = [] -> steady w0 w ->
  (forall x m w', growing_kernel o (log w) (mem w) x m -> steady w0 w' ->
     held w' = acquires o x ++ fold_right release (held w) (releases o) -> wp growing_kernel (k x) Q w') ->
  wp growing_kernel (call o ≫= k) Q w.
Proof.
  intros Ho Hmis Hs Hk. apply wp_step. intros x m Hm. apply (Hk x m); [done| |done]. apply (steady_trans _ w); [done|].
  by apply steady_call.
Qed.

Lemma walk_threads_wp h n : forall i t w0 w (Q : option task_id -> world -> Prop),
  threads !! i = Some t -> held w = RLock Rcu :: h -> steady w0 w ->
  (forall x w', steady w0 w' -> held w' = RLock Rcu :: h -> reached (i + n) x -> Q x w') ->
  wp growing_kernel (walk_threads n leader t) Q w.
Proof.
  induction n as [|n IH]; intros i t w0 w Q Hi Hh Hs HQ; cbn [walk_threads]; kunfold.
  { apply HQ; [done|done|]. cbn. by rewrite Nat.add_0_r. }
  apply (group_step _ _ _ w0); [done|unfold misuses; by rewrite Hh|done|]. intros x m w1 (_ & _ & Hx) S1 H1.
  rewrite Hh in H1. destruct (Hx i Hi) as [Hy|[-> Hm]].
  - rewrite decide_False by (by eapply next_not_leader). apply (IH (S i) x w0); [done|done|done|].
    intros y w' S' H' Hr. apply HQ; [done|done|]. by replace (i + S n)%nat with (S i + n)%nat by lia.
  - rewrite decide_True by done. apply HQ; [done|done|]. cbn. lia.
Qed.

(** Where a reading that remembers thread number [v] and is past [n] threads
    may stand. *)
Definition consistent (v : Z) (n : Z) : Prop :=
  n = 0 \/ v = 0 \/ exists t, threads !! Z.to_nat n = Some t /\ v = number t.

(** What the open file remembers after the loop: nothing when it has come to an
    end, otherwise the number of the thread that was refused. *)
Definition remembers (d : bool) (q v : Z) : Prop :=
  if d then v = 0 else exists t, threads !! Z.to_nat (q - 2) = Some t /\ v = u64 (number t).

(** The end of [first_tid]. *)
Lemma first_tid_end n x w0 w (Q : option task_id -> world -> Prop) : steady w0 w -> held w = RLock Rcu :: held w0 -> reached n x ->
  (forall y w', steady w0 w' -> held w' = opt_res RTask y ++ held w0 -> reached n y -> Q y w') ->
  wp growing_kernel (match x with Some pos => call (GetTaskStruct pos) | None => mret tt end;; call (Unlock Rcu);; mret x) Q w.
Proof.
  intros S2 H2 Hr HQ. destruct x as [t|].
  - apply (group_step _ _ _ w0); [done|done|done|]. intros [] m3 w3 _ S3 H3. rewrite H2 in H3. cbn in H3.
    apply (group_step _ _ _ w0); [done| |done|].
    + unfold misuses. rewrite H3. cbn. by repeat kdec.
    + intros [] m4 w4 _ S4 H4. apply HQ; [done| |done]. rewrite H4, H3. cbn. by repeat kdec.
  - cbn [mret prog_mret mbind prog_mbind pbind]. apply (group_step _ _ _ w0); [done| |done|].
    + unfold misuses. rewrite H2. cbn. by repeat kdec.
    + intros [] m4 w4 _ S4 H4. apply HQ; [done| |done]. rewrite H4, H2. cbn. by repeat kdec.
Qed.

(** The walk from the leader, after the look at the number of threads. *)
Lemma first_tid_walk n w0 w (Q : option task_id -> world -> Prop) : 0 <= n -> group_store (mem w0) ->
  steady w0 w -> held w = RLock Rcu :: held w0 ->
  (forall x w', steady w0 w' -> held w' = RLock Rcu :: held w0 -> reached (Z.to_nat n) x -> Q x w') ->
  wp growing_kernel (beyond ← (if n =? 0 then mret false else n' ← get_nr_threads leader; mret (n' <=? n));
    if (beyond : bool) then mret None else walk_threads (Z.to_nat n) leader leader) Q w.
Proof.
  intros Hn Hst S2 H2 HQ. apply wp_bind.
  assert (Hgo : forall b w3, steady w0 w3 -> held w3 = RLock Rcu :: held w0 -> (b = true -> Z.of_nat must <= n) ->
    wp growing_kernel (if (b : bool) then mret None else walk_threads (Z.to_nat n) leader leader) Q w3).
  { intros [] w3 S3 H3 Hb.
    - apply HQ; [done|done|]. cbn. specialize (Hb eq_refl). lia.
    - by apply (walk_threads_wp (held w0) (Z.to_nat n) 0 leader w0). }
  unfold get_nr_threads. kunfold. destruct (Z.eqb_spec n 0) as [->|Hn0]; [by apply Hgo|]. apply wp_bind.
  apply (group_step _ _ _ w0); [done|unfold misuses; by rewrite H2|done|]. intros x m3 w3 (_ & _ & Hx) S3 H3.
  rewrite (Hx eq_refl) in *. cbv iota. cbn [gets mbind prog_mbind pbind wp].
  pose proof (steady_store _ _ S3 Hst) as [_ Hc]. rewrite H2 in H3. cbn in H3. revert Hc.
  generalize (sig_count (k_signal (mem w3) !!! t_signal (k_task (mem w3) !!! leader))). intros count Hc.
  apply (group_step _ _ _ w0); [done| |done|].
  { unfold misuses. rewrite H3. cbn. by repeat kdec. }
  intros [] m4 w4 _ S4 H4. rewrite H3 in H4. cbn in H4. revert H4. repeat kdec. intros H4.
  cbn [mret prog_mret pbind wp]. apply Hgo; [done|done|]. intros Hb. apply Z.leb_le in Hb. lia.
Qed.

Lemma first_tid_wp v n w (Q : option task_id -> world -> Prop) :
  0 <= n -> consistent v n -> group_store (mem w) ->
  (forall x w', steady w w' -> held w' = opt_res RTask x ++ held w -> reached (Z.to_nat n) x -> Q x w') ->
  wp growing_kernel (first_tid leader v n ns) Q w.
Proof.
  intros Hn Hv Hst HQ. unfold first_tid. kunfold.
  apply (group_step _ _ _ w); [done|done|apply steady_refl|]. intros [] m w1 _ S1 H1. cbn [acquires releases fold_right app] in H1.
  assert (Hend : forall x w2, reached (Z.to_nat n) x -> steady w w2 -> held w2 = RLock Rcu :: held w ->
    wp growing_kernel (match x with Some pos => call (GetTaskStruct pos) | None => mret tt end;; call (Unlock Rcu);; mret x) Q w2).
  { intros x w2 Hr S2 H2. by apply (first_tid_end (Z.to_nat n) x w). }
  assert (Hwalk : forall w2, steady w w2 -> held w2 = RLock Rcu :: held w -> wp growing_kernel
    (pos ← (beyond ← (if n =? 0 then mret false else n' ← get_nr_threads leader; mret (n' <=? n));
            if (beyond : bool) then mret None else walk_threads (Z.to_nat n) leader leader);
     match pos with Some pos => call (GetTaskStruct pos) | None => mret tt end;; call (Unlock Rcu);; mret pos) Q w2).
  { intros w2 S2 H2. apply wp_bind, (first_tid_walk n w w2); [done|done|done|done|]. intros x w3 S3 H3 Hr. by apply Hend. }
  apply wp_bind. destruct (Z.eqb_spec v 0) as [->|Hv0]; [by apply (Hwalk w1)|].
  destruct (Z.ltb_spec 0 n) as [Hn1|Hn1]; [|by apply (Hwalk w1)]. cbn [negb andb].
  destruct Hv as [?|[?|(t & Ht & ->)]]; [lia|done|].
  assert (Hin : t ∈ threads) by (by eapply list_elem_of_lookup_2).
  apply wp_bind. apply (group_step _ _ _ w); [done| |done|].
  { unfold misuses. rewrite H1. cbn. by repeat kdec. }
  intros x m2 w2 (_ & _ & Hx) S2 H2. rewrite H1 in H2.
  destruct (Hx eq_refl t Hin eq_refl) as [-> | ->]; [|by apply (Hwalk w2)].
  cbn [gets mbind prog_mbind pbind wp]. pose proof (steady_store _ _ S2 Hst) as [Hgl _]. rewrite (Hgl t Hin), decide_True by done.
  cbn [mret prog_mret pbind wp]. by apply Hend.
Qed.

(** The end of [next_tid]. *)
Lemma next_tid_end h i t x w0 w (Q : option task_id -> world -> Prop) : steady w0 w ->
  held w = opt_res RTask x ++ RLock Rcu :: RTask t :: h -> reached i x ->
  (forall y w', steady w0 w' -> held w' = opt_res RTask y ++ h -> reached i y -> Q y w') ->
  wp growing_kernel (call (Unlock Rcu);; call (PutTaskStruct t);; mret x) Q w.
Proof.
  intros S5 H5 Hr HQ. apply (group_step _ _ _ w0); [done| |done|].
  { unfold misuses. rewrite H5. destruct x; cbn; by repeat kdec. }
  intros [] m6 w6 _ S6 H6. rewrite H5 in H6.
  assert (H6' : held w6 = opt_res RTask x ++ RTask t :: h) by (destruct x; cbn in H6; revert H6; by repeat kdec).
  apply (group_step _ _ _ w0); [done| |done|].
  { unfold misuses. rewrite H6'. destruct x; cbn; repeat kdec; done. }
  intros [] m7 w7 _ S7 H7. apply HQ; [done| |done]. rewrite H7, H6'. destruct x as [y|]; cbn; repeat kdec; congruence.
Qed.

Lemma next_tid_wp h i t w (Q : option task_id -> world -> Prop) :
  threads !! i = Some t -> held w = RTask t :: h ->
  (forall x w', steady w w' -> held w' = opt_res RTask x ++ h -> reached (S i) x -> Q x w') ->
  wp growing_kernel (next_tid t) Q w.
Proof.
  intros Hi Hh HQ. unfold next_tid. kunfold. assert (Hin : t ∈ threads) by (by eapply list_elem_of_lookup_2).
  apply (group_step _ _ _ w); [done|done|apply steady_refl|]. intros [] m1 w1 _ S1 H1. rewrite Hh in H1. cbn in H1.
  apply (group_step _ _ _ w); [done|unfold misuses; by rewrite H1|done|]. intros al m2 w2 (_ & _ & Hal) S2 H2.
  rewrite H1 in H2. cbn in H2. rewrite (Hal Hin). apply wp_bind.
  apply (group_step _ _ _ w); [done|unfold misuses; by rewrite H2|done|]. intros x m3 w3 (_ & _ & Hx) S3 H3.
  rewrite H2 in H3. cbn in H3.
  apply (group_step _ _ _ w); [done|unfold misuses; by rewrite H3|done|]. intros g m4 w4 (_ & _ & Hg) S4 H4.
  rewrite H3 in H4. cbn in H4. destruct (Hx i Hi) as [Hy|[-> Hm]].
  - rewrite Hg, bool_decide_eq_false_2 by (by first [eapply next_not_leader | eapply list_elem_of_lookup_2]).
    apply wp_step. intros [] m5 Hm5. pose proof Hm5 as (Hst5 & Hs5 & _). apply (next_tid_end h (S i) t (Some x) w); [| |done|done].
    + apply (steady_trans _ w4); [done|]. split; [by apply frame_call|]. done.
    + cbn. by rewrite H4.
  - rewrite Hg, bool_decide_eq_true_2 by (done || left). by apply (next_tid_end h (S i) t None w).
Qed.

(** An open task directory: with the thread number it remembers. *)
Definition at_version filp dir pos v (m : kmem) : Prop := opened filp dir pos m /\ f_version (k_file m !!! filp) = v.

Lemma at_version_frame filp dir pos v w w' : frame w w' -> at_version filp dir pos v (mem w) -> at_version filp dir pos v (mem w').
Proof. intros Hf [Ho Hv]. split; [by apply (opened_frame _ _ _ w)|]. by rewrite (proj1 Hf). Qed.

Lemma tid_version t : t ∈ threads -> s32 (u64 (number t)) = number t.
Proof. intros Ht. pose proof (group_tids Hgroup t Ht). rewrite u64_small, s32_small; lia. Qed.

Lemma remembers_consistent d q v : remembers d q v -> consistent (s32 v) (q - 2).
Proof.
  unfold remembers. destruct d; [intros ->; right; by left|]. intros (t & Ht & ->). right; right. exists t. split; [done|].
  eapply tid_version, list_elem_of_lookup_2, Ht.
Qed.

Context `{Config}.

Lemma tid_loop_wp filp dir h : forall fuel i x w (Q : unit -> world -> Prop),
  (length threads <= i + fuel)%nat -> Z.of_nat i + 2 < 2 ^ 62 - Z.of_nat fuel -> reached i x ->
  held w = opt_res RTask x ++ h -> at_version filp dir (Z.of_nat i + 2) 0 (mem w) ->
  (forall l q v d k w', listed l w w' -> at_version filp dir q v (mem w') -> held w' = h -> bad w' = bad w ->
     lists (Z.of_nat i + 2) (thread_names (take k (drop i threads))) l q d -> (d = true -> must <= i + k)%nat ->
     remembers d q v -> Q tt w') ->
  wp growing_kernel (tid_loop fuel filp ns x) Q w.
Proof.
  induction fuel as [|fuel IH]; intros i [t|] w Q Hfuel Hmax Hi Hh Ha HQ; cbn [tid_loop].
  1: { apply reached_bound in Hi. lia. }
  1,3: eapply (HQ [] _ 0 true 0%nat); [done|exact Ha|exact Hh|done|constructor|cbn in Hi; lia|done].
  cbn [reached] in Hi. kunfold. assert (Hin : t ∈ threads) by (by eapply list_elem_of_lookup_2).
  apply (group_step _ _ _ w); [done|done|apply steady_refl|]. intros x m1 w1 (_ & _ & Hx) S1 H1. cbn in H1. rewrite Hh in H1. cbn in H1.
  rewrite (Hx eq_refl Hin). unfold proc_task_fill_cache.
  assert (Hsplit : numeric_name (number t) = ((numeric_name (number t)).1, (numeric_name (number t)).2)) by done.
  rewrite Hsplit. cbv beta iota. pose proof (at_version_frame _ _ _ _ _ _ (proj1 S1) Ha) as [Ho1 Hv1].
  apply wp_bind, (wp_contract dir_stable _ _ _ _ growing_kernel_stable).
  apply (proc_fill_cache_wp filp _ _ proc_task_instantiate t w1); [exact proc_task_instantiates|exact proc_task_attaches|by rewrite (proj1 (proj2 Ho1)); apply Ho1|].
  intros r w2 ([Hh2 Hb2] & Hf2 & Hd2 & Hat2 & Hn2).
  assert (Hl2 : listed [((numeric_name (number t)).1, Z.of_nat i + 2, r)] w w2).
  { apply (listed_trans [] _ _ w1); [split; apply S1|]. split; [|done]. by rewrite Hd2, (proj1 Ho1). }
  assert (Ho2 : at_version filp dir (Z.of_nat i + 2) 0 (mem w2)).
  { unfold at_version, opened. rewrite Hf2. split; [|done]. split; [apply Ho1|]. split; [apply Ho1|]. apply Hat2, Ho1. }
  rewrite H1 in Hh2. pose proof (proj2 (proj2 S1)) as Hb1.
  assert (Hnames : forall k, thread_names (take (S k) (drop i threads)) =
    (numeric_name (number t)).1 :: thread_names (take k (drop (S i) threads))).
  { intros k. by rewrite (drop_S _ _ _ Hi). }
  destruct (Z.ltb_spec r 0) as [Hr|Hr].
  - cbn [modify mbind prog_mbind pbind wp]. intros [] m3 Hm3. set (w3 := set_mem _ w2) in *.
    assert (L3 : listed [((numeric_name (number t)).1, Z.of_nat i + 2, r)] w w3).
    { rewrite <- (app_nil_r [_]). apply (listed_trans _ _ _ w2); [done|]. destruct w2. apply upd_file_emitted. }
    assert (O3 : at_version filp dir (Z.of_nat i + 2) (u64 (number t)) (mem w3)).
    { split; [apply (upd_file_opened _ _ (Z.of_nat i + 2)); [apply Ho2|by intros []]|]. cbn [mem w3 set_mem].
      rewrite k_file_upd_file, lookup_total_insert_eq. by destruct (k_file (mem w2) !!! filp). }
    assert (Hmis : misuses (PutTaskStruct t) (held w3) = []).
    { unfold misuses. cbn [w3 set_mem held]. rewrite Hh2. cbn. by repeat kdec. }
    pose proof (frame_call (PutTaskStruct t) I w3 tt m3 (proj1 Hm3)) as F3.
    eapply (HQ [((numeric_name (number t)).1, Z.of_nat i + 2, r)] (Z.of_nat i + 2) (u64 (number t)) false 1%nat).
    + rewrite <- (app_nil_r [_]). apply (listed_trans _ _ _ w3); [exact L3|]. split; apply F3.
    + by apply (at_version_frame _ _ _ _ w3).
    + cbn. rewrite Hh2. cbn. by repeat kdec.
    + cbn [after bad]. rewrite Hmis. cbn. congruence.
    + rewrite Hnames. by constructor.
    + done.
    + exists t. replace (Z.of_nat i + 2 - 2) with (Z.of_nat i) by lia. by rewrite Nat2Z.id.
  - apply wp_bind, (next_tid_wp h i); [done|exact Hh2|]. intros y w3 S3 H3 Hy. apply wp_bind.
    pose proof (at_version_frame _ _ _ _ _ _ (proj1 S3) Ho2) as [Ho3 Hv3].
    unfold f_pos_inc. cbn [modify mbind prog_mbind pbind wp]. set (w4 := set_mem _ w3).
    assert (O4 : at_version filp dir (Z.of_nat (S i) + 2) 0 (mem w4)).
    { split.
      - apply (upd_file_opened _ _ (Z.of_nat i + 2)); [done|]. intros [] Hp. cbn in *. subst. split; [|done].
        rewrite s64_small; lia.
      - cbn [mem w4 set_mem]. rewrite k_file_upd_file, lookup_total_insert_eq. by destruct (k_file (mem w3) !!! filp). }
    apply (IH (S i) y); [lia|lia|done|exact H3|done|]. intros l q v d k w5 Hl5 Ho5 Hh5 Hb5 Hlist Hmust Hcons.
    eapply (HQ (((numeric_name (number t)).1, Z.of_nat i + 2, r) :: l) q v d (S k)); [|exact Ho5|exact Hh5| | |intros Hd; specialize (Hmust Hd); lia|exact Hcons].
    + apply (listed_trans [_] _ _ w4); [|done]. rewrite <- (app_nil_r [_]). apply (listed_trans _ _ _ w2); [done|].
      apply (listed_trans [] [] _ w3); [split; apply S3|]. destruct w3. apply upd_file_emitted.
    + rewrite Hb5. cbn [w4 set_mem bad]. rewrite (proj2 (proj2 S3)). congruence.
    + rewrite Hnames. apply Lists_accepted; [done|]. by replace (Z.of_nat i + 2 + 1) with (Z.of_nat (S i) + 2) by lia.
Qed.

Context `{Arch}.

(** What the dot entries leave alone. *)
Definition calm {B : Type} (filp : file_id) (p : prog B) : Prop := forall w, wlp growing_kernel p (fun _ w' =>
  (group_store (mem w) -> group_store (mem w')) /\
  f_version (k_file (mem w') !!! filp) = f_version (k_file (mem w) !!! filp)) w.

Lemma calm_bind {B C : Type} filp (p : prog B) (f : B -> prog C) :
  calm filp p -> (forall b, calm filp (f b)) -> calm filp (p ≫= f).
Proof.
  intros Hp Hf w. apply wlp_bind. eapply wlp_mono; [apply Hp|]. intros b w1 (H1 & H2).
  eapply wlp_mono; [apply Hf|]. intros c w2 (H1' & H2'). split; [by auto|congruence].
Qed.

Lemma calm_ret {B : Type} filp (b : B) : calm filp (mret b).
Proof. by intros w. Qed.
Lemma calm_gets {B : Type} filp (f : kmem -> B) : calm filp (gets f).
Proof. by intros w. Qed.

Lemma calm_call filp o : calm filp (call o).
Proof.
  intros w x m (Hst & Hs & _). split; [done|]. cbn.
  destruct o; try (by rewrite (proj1 Hst)). destruct Hst as (_ & Hother & [p Hp]).
  destruct (decide (filp = f)) as [->|Hne]; [rewrite Hp; by destruct (k_file (mem w) !!! f)|by rewrite Hother].
Qed.

Lemma calm_f_pos_inc filp : calm filp (f_pos_inc filp).
Proof.
  intros w. cbn. split; [by destruct (mem w)|].
  rewrite k_file_upd_file, lookup_total_insert_eq. by destruct (k_file (mem w) !!! filp).
Qed.

Ltac calm := repeat first
  [ match goal with |- forall _, _ => intros ? end | apply calm_ret | apply calm_gets | apply calm_call | apply calm_f_pos_inc
  | apply calm_bind | match goal with |- calm _ (match ?x with _ => _ end) => destruct x end ].

Lemma task_dots_calm filp dir inode : calm filp (task_dots filp dir inode).
Proof. unfold task_dots, emit_dot, file_pos. kunfold. calm. Qed.

Lemma task_dots_lists filp dir inode pos w (Q : bool -> world -> Prop) :
  opened filp dir pos (mem w) -> 0 <= pos < 2 ^ 31 ->
  (forall d l q w', emitted l w w' -> opened filp dir q (mem w') -> lists pos (zdrop pos dots) l q d -> Q d w') ->
  wp dir_stable (task_dots filp dir inode) Q w.
Proof.
  intros Ho Hpos HQ. unfold task_dots, file_pos. kunfold. cbn [gets mbind prog_mbind pbind wp]. rewrite (proj1 Ho).
  pose proof ulong_pow. rewrite ulong_small by lia.
  destruct (Z.eqb_spec pos 0) as [->|Hp0]; [|destruct (Z.eqb_spec pos 1) as [->|Hp1]].
  - cbn [gets mbind prog_mbind pbind wp]. apply wp_bind, (emit_dot_wp filp dir 0); [done|lia| |].
    + intros x w1 Hx He Ho1. kcbn. eapply HQ; [done|done|by constructor].
    + intros x w1 Hx He Ho1. kcbn. intros ino m1 Hm1.
      pose proof (call_opened _ _ _ (ParentIno dir) w1 ino m1 I Ho1 Hm1) as Ho2. rewrite (proj1 Ho2).
      apply (emit_dot_wp filp dir 1); [done|lia| |]; intros y w2 Hy He2 Ho3;
        (apply (emitted_call (ParentIno dir) ino m1 w1) in He2; [|done..|exact Hm1]);
        (eapply HQ; [by eapply emitted_trans|done|]); cbn; constructor; try done.
      * by constructor.
      * constructor; [done|]. constructor.
  - apply wp_step. intros ino m1 Hm1.
    apply (emit_dot_wp filp dir 1); [by eapply (call_opened _ _ _ (ParentIno dir))|lia| |]; intros y w2 Hy He2 Ho3;
      (apply (emitted_call (ParentIno dir) ino m1 w) in He2; [|done..|exact Hm1]); (eapply HQ; [done|done|]); [by constructor|].
    constructor; [done|]. constructor.
  - apply (HQ true [] pos); [done|done|].
    replace (zdrop pos dots) with (@nil bytes) by (unfold zdrop; by rewrite drop_ge by (cbn; lia)). constructor.
Qed.

(** The state of an open task directory between two readings: its offset,
    and the thread number it may remember. *)
Definition resting filp dir pos (m : kmem) : Prop :=
  exists v, at_version filp dir pos v m /\ (pos <= 2 \/ consistent (s32 v) (pos - 2)).

(** What one reading leaves in [f_version]: a reading stopped before the
    threads leaves it alone. *)
Definition recalls filp (d : bool) (q : Z) (m : kmem) : Prop :=
  (d = true \/ 2 <= q) -> remembers d q (f_version (k_file m !!! filp)).

(** One call: it lists some of the threads, in order, all that have to be there
    if it is not stopped, and leaves the group in order. *)
Lemma proc_task_readdir_wp fuel filp dir pos w (Q : Z -> world -> Prop) :
  resting filp dir pos (mem w) -> 0 <= pos < 2 ^ 31 -> (length threads < fuel)%nat -> Z.of_nat fuel < 2 ^ 31 ->
  d_ns (k_dentry (mem w) !!! dir) = ns -> group_store (mem w) ->
  (forall w', vanished dir w w' -> emitted [] w w' -> resting filp dir pos (mem w') -> Q (- ENOENT) w') ->
  (forall l q d k w', emitted l w w' -> resting filp dir q (mem w') -> recalls filp d q (mem w') ->
     lists pos (zdrop pos dots ++ thread_names (take k (drop (Z.to_nat (pos - 2)) threads))) l q d ->
     (d = true -> must <= Z.to_nat (pos - 2) + k)%nat -> Q 0 w') ->
  wp growing_kernel (proc_task_readdir fuel filp) Q w.
Proof.
  intros (v & Ha & Hv) Hpos Hfuel Hmax Hns Hst Hgone HQ. pose proof Ha as [(Hp & Hd & [di Hdi]) _].
  unfold proc_task_readdir, dentry_inode. kunfold. cbn [gets mbind prog_mbind pbind wp]. rewrite Hd, Hdi.
  cbn [mret prog_mret pbind wp]. apply wp_step. intros task m1 Hm1. pose proof Hm1 as (_ & _ & Htask).
  assert (S1 : steady w (after (GetProcTask di) task m1 w)) by (by apply steady_call). set (w1 := after _ task m1 w) in *.
  assert (H1 : held w1 = opt_res RTask task ++ held w) by (by destruct task).
  assert (Hvan : task = None -> vanished dir w w1) by (intros ->; by exists di). clearbody w1.
  destruct task as [task|]; cbv iota.
  2: { cbn in H1. apply Hgone; [by apply Hvan| |exists v; split; [by apply (at_version_frame _ _ _ _ _ _ (proj1 S1))|done]].
       apply frame_emitted; [split; [done|apply S1]|apply S1]. }
  specialize (Htask task eq_refl). cbn in H1.
  apply (group_step _ _ _ w); [done|done|done|]. intros [] m2 w2 _ S2 H2. rewrite H1 in H2. cbn in H2.
  apply (group_step _ _ _ w); [done|done|done|]. intros al m3 w3 (_ & _ & Hal) S3 H3. rewrite H2 in H3. cbn in H3.
  rewrite (Hal Htask). cbn [gets mbind prog_mbind pbind wp].
  pose proof (steady_store _ _ S3 Hst) as [Hgl _]. rewrite (Hgl task Htask).
  apply (group_step _ _ _ w); [done|done|done|]. intros [] m4 w4 _ S4 H4. rewrite H3 in H4. cbn in H4.
  apply (group_step _ _ _ w); [done| |done|].
  { unfold misuses. rewrite H4. cbn. by repeat kdec. }
  intros [] m5 w5 _ S5 H5. rewrite H4 in H5. cbn in H5. revert H5. repeat kdec. intros H5.
  apply (group_step _ _ _ w); [done| |done|].
  { unfold misuses. rewrite H5. cbn. by repeat kdec. }
  intros [] m6 w6 _ S6 H6. rewrite H5 in H6. cbn in H6. assert (Hh6 : held w6 = RTask leader :: held w) by (rewrite H6; by repeat kdec).
  clear H6. pose proof (at_version_frame _ _ _ _ _ _ (proj1 S6) Ha) as Ha6. pose proof (steady_store _ _ S6 Hst) as Hst6.
  cbv iota. set (part := fun k => zdrop pos dots ++ thread_names (take k (drop (Z.to_nat (pos - 2)) threads))) in *.
  assert (Hout : forall l q d k w', emitted l w6 w' -> resting filp dir q (mem w') -> recalls filp d q (mem w') -> lists pos (part k) l q d ->
    (d = true -> must <= Z.to_nat (pos - 2) + k)%nat -> wp growing_kernel (call (PutTaskStruct leader);; mret 0) Q w').
  { intros l q d k w' He (v' & [Ho' Hv'] & Hr) Hrec Hl Hm.
    assert (Hfile : forall m', dir_stable (PutTaskStruct leader) (log w') (mem w') tt m' -> k_file m' = k_file (mem w')) by (by intros m' []).
    intros [] m7 Hm7. apply (HQ l q d k); [| | |done|done].
    - destruct He as [[Hh Hb] Hl']. split; [split|].
      + cbn. rewrite Hh, Hh6. cbn. by repeat kdec.
      + cbn [after bad]. unfold misuses. rewrite Hh, Hh6, Hb, (proj2 (proj2 S6)). cbn. by repeat kdec.
      + apply (listed_trans [] _ _ w6); [split; apply S6|]. rewrite <- (app_nil_r l). apply (listed_trans _ _ _ w'); [done|].
        by apply (listed_call (PutTaskStruct leader)); [|apply Hm7].
    - exists v'. split; [|done]. split; [eapply (call_opened _ _ _ (PutTaskStruct leader)); [done|exact Ho'|apply Hm7]|].
      cbn [mem after]. rewrite (Hfile m7); [done|apply Hm7].
    - unfold recalls. cbn [mem after]. rewrite (Hfile m7); [done|apply Hm7]. }
  apply wp_bind. eapply wp_mono.
  { apply wp_wlp; [|apply (task_dots_calm filp dir di)]. apply (wp_contract dir_stable _ _ _ _ growing_kernel_stable).
    apply (task_dots_lists filp dir di pos w6 (fun d w' => exists l q, emitted l w6 w' /\ opened filp dir q (mem w') /\
      lists pos (zdrop pos dots) l q d)); [apply Ha6|lia|]. intros d l q w' ? ? ?. by exists l, q. }
  intros go w7 [(l & q & He7 & Ho7 & Hl7) (Hk1 & Hk3)]. rewrite (proj2 Ha6) in Hk3.
  pose proof (lists_bounds _ _ _ _ _ Hl7) as (Hq & Hdone & _). rewrite len_zdrop_dots in Hq, Hdone by lia.
  destruct go; cbv iota.
  - destruct Hdone as [Hd2 _]. specialize (Hd2 eq_refl).
    assert (Hns7 : d_ns (k_dentry (mem w7) !!! f_dentry (k_file (mem w7) !!! filp)) = ns).
    { rewrite (proj1 (proj2 Ho7)). rewrite (proj1 (proj2 (proj2 He7) dir)). destruct S6 as ((_ & _ & _ & Hsn) & _). rewrite (proj1 (Hsn dir)). exact Hns. }
    unfold file_pos. cbn [gets modify mbind prog_mbind pbind wp]. rewrite Hns7.
    set (w8 := set_mem _ w7). assert (O8 : at_version filp dir q 0 (mem w8)).
    { split; [apply (upd_file_opened _ _ q); [done|by intros []]|]. cbn [mem w8 set_mem].
      rewrite k_file_upd_file, lookup_total_insert_eq. by destruct (k_file (mem w7) !!! filp). }
    assert (E8 : emitted l w6 w8).
    { rewrite <- (app_nil_r l). apply (emitted_trans _ _ _ w7); [done|]. destruct w7. apply upd_file_emitted. }
    rewrite (proj1 (proj1 O8)), Hk3, (s32_small (q - 2)) by lia.
    assert (G8 : group_store (mem w8)) by (specialize (Hk1 Hst6); by destruct w7 as [[]]).
    do 2 apply wp_bind. apply first_tid_wp; [lia| |done|].
    { destruct Hv as [Hv|Hv]; [left; lia|]. destruct (decide (pos <= 2)); [left; lia|]. by replace q with pos by lia. }
    intros x w9 S9 H9 Hx.
    apply (tid_loop_wp filp dir (held w8) fuel (Z.to_nat (q - 2)) x w9); [lia|lia|done|done| |].
    { replace (Z.of_nat (Z.to_nat (q - 2)) + 2) with q by lia. by apply (at_version_frame _ _ _ _ w8); [apply S9|]. }
    intros l2 q2 v2 d k w10 Hl10 Ho10 Hh10 Hb10 Hlist10 Hmust Hcons.
    replace (Z.of_nat (Z.to_nat (q - 2)) + 2) with q in Hlist10 by lia.
    assert (Hqp : Z.to_nat (q - 2) = Z.to_nat (pos - 2)) by lia. rewrite Hqp in *.
    apply (Hout (l ++ l2) q2 d k).
    + apply (emitted_trans _ _ _ w8); [done|]. split; [split; [done|]|].
      * rewrite Hb10. apply S9.
      * apply (listed_trans [] _ _ w9); [split; apply S9|done].
    + exists v2. split; [done|right]. by apply (remembers_consistent d).
    + intros _. by rewrite (proj2 Ho10).
    + by apply (lists_app _ _ _ q).
    + done.
  - assert (Hq2 : q < 2).
    { destruct (decide (q = Z.max pos 2)) as [e|]; [by destruct Hdone as [_ Hd2]; specialize (Hd2 e)|lia]. }
    apply (Hout l q false 0%nat); [done| |intros [|]; [done|lia]|by apply lists_cut|done].
    exists v. split; [by split|]. left. lia.
Qed.

(** A reading itself does not change the tasks. *)
Definition unmoved {B : Type} (p : prog B) : Prop := forall w, wlp growing_kernel p (fun _ w' =>
  group_store (mem w) -> group_store (mem w')) w.

Lemma unmoved_bind {B C : Type} (p : prog B) (f : B -> prog C) :
  unmoved p -> (forall b, unmoved (f b)) -> unmoved (p ≫= f).
Proof.
  intros Hp Hf w. apply wlp_bind. eapply wlp_mono; [apply Hp|]. intros b w1 H1.
  eapply wlp_mono; [apply Hf|]. intros c w2 H2. auto.
Qed.

Lemma unmoved_ret {B : Type} (b : B) : unmoved (mret b).
Proof. intros w. cbn. auto. Qed.
Lemma unmoved_halt {B : Type} y : unmoved (@Halt B y).
Proof. done. Qed.
Lemma unmoved_gets {B : Type} (f : kmem -> B) : unmoved (gets f).
Proof. intros w. cbn. auto. Qed.
Lemma unmoved_modify f : (forall m, k_task (f m) = k_task m /\ k_signal (f m) = k_signal m) -> unmoved (modify f).
Proof. intros Hf w. cbn. destruct (Hf (mem w)) as [Ht Hs]. unfold group_store. by rewrite Ht, Hs. Qed.
Lemma unmoved_call o : unmoved (call o).
Proof. by intros w x m (_ & Hs & _). Qed.

Ltac unmoved := repeat first
  [ match goal with |- forall _, _ => intros ? end | solve [auto with nocore]
  | apply unmoved_ret | apply unmoved_halt | apply unmoved_gets | apply unmoved_call
  | apply unmoved_modify; intros []; split; reflexivity | apply unmoved_bind
  | match goal with |- unmoved (match ?x with _ => _ end) => destruct x end ].

Lemma task_dir_instantiate_unmoved iop fop stuff dir dentry task : unmoved (task_dir_instantiate iop fop stuff dir dentry task).
Proof.
  unfold task_dir_instantiate, inode_sb, set_and_add, proc_pid_make_inode, pid_revalidate, dentry_inode, own_by_task,
    strip_ids, task_dumpable. kunfold. unmoved.
Qed.

Lemma proc_fill_cache_unmoved filp name n f task : (forall dir dentry t, unmoved (f dir dentry t)) ->
  unmoved (proc_fill_cache filp name n f task).
Proof.
  intros Hf. unfold proc_fill_cache, fill_cache_child, fill_cache_emit, dentry_inode. kunfold.
  apply unmoved_bind; [unmoved|]. intros dir. apply unmoved_bind; [unmoved|]. intros child.
  apply unmoved_bind; [unmoved|]. intros i. apply unmoved_bind; [destruct child, i; cbv beta iota; unmoved|]. intros [ino ty].
  unmoved.
Qed.

Lemma proc_task_fill_cache_unmoved filp task n : unmoved (proc_task_fill_cache filp task n).
Proof.
  unfold proc_task_fill_cache. destruct (numeric_name n) as [name k].
  refine (proc_fill_cache_unmoved filp name k proc_task_instantiate task _). intros.
  exact (task_dir_instantiate_unmoved _ _ _ dir dentry t).
Qed.

Lemma walk_threads_unmoved l n : forall t, unmoved (walk_threads n l t).
Proof. induction n as [|n IH]; intros t; cbn [walk_threads]; kunfold; unmoved. Qed.

Lemma tid_loop_unmoved filp ns' : forall fuel t, unmoved (tid_loop fuel filp ns' t).
Proof.
  pose proof proc_task_fill_cache_unmoved as Hf.
  induction fuel as [|fuel IH]; intros [t|]; cbn [tid_loop]; unfold next_tid, f_pos_inc; kunfold; unmoved.
Qed.

Lemma proc_task_readdir_unmoved fuel filp : unmoved (proc_task_readdir fuel filp).
Proof.
  pose proof walk_threads_unmoved as Hw. pose proof tid_loop_unmoved as Ht.
  unfold proc_task_readdir, task_dots, emit_dot, f_pos_inc, file_pos, first_tid, get_nr_threads, dentry_inode. kunfold. unmoved.
Qed.

(** What one call lists is a stretch of the listing of all threads. *)
Lemma lists_stretch pos k l q d : 0 <= pos <= len task_listing ->
  lists pos (zdrop pos dots ++ thread_names (take k (drop (Z.to_nat (pos - 2)) threads))) l q d ->
  pos <= q <= len task_listing /\ accepted l = ztake (q - pos) (zdrop pos task_listing) /\
  (d = true -> (must <= Z.to_nat (pos - 2) + k)%nat -> 2 + Z.of_nat must <= q) /\
  Forall (fun e : bytes * Z * Z => task_listing !! Z.to_nat e.1.2 = Some e.1.1) l.
Proof.
  intros Hpos Hl. pose proof (lists_bounds _ _ _ _ _ Hl) as (Hq & Hd & Hacc).
  set (i := Z.to_nat (pos - 2)) in *. set (part := zdrop pos dots ++ _) in *.
  assert (Hlen : pos + len part = Z.max pos 2 + Z.of_nat (k `min` (length threads - i))).
  { unfold part. rewrite len_app, Z.add_assoc, len_zdrop_dots by lia. f_equal.
    unfold len, Tasks.thread_names. by rewrite length_fmap, length_take, length_drop. }
  assert (Hall : zdrop pos task_listing = part ++ thread_names (drop k (drop i threads))).
  { unfold part, Tasks.task_listing. rewrite zdrop_app, <- app_assoc. f_equal. unfold Tasks.thread_names.
    rewrite <- fmap_app, take_drop. unfold zdrop, i. by rewrite fmap_drop. }
  pose proof (len_task_listing number leader others) as Htl. pose proof (group_must Hgroup) as [_ Hm]. unfold len in Htl at 2.
  split_and!.
  - lia.
  - unfold i in *. lia.
  - rewrite Hacc, Hall. unfold ztake. rewrite take_app_le; [done|]. unfold len in Hq. lia.
  - intros Hdt Hk. apply Hd in Hdt. unfold i in *. lia.
  - eapply Forall_impl; [exact (lists_entries _ _ _ _ _ Hl)|]. intros [[name p] x] [Hp Hn]. cbn [fst snd] in *.
    replace (Z.to_nat p) with (Z.to_nat pos + Z.to_nat (p - pos))%nat by lia. rewrite <- lookup_drop. fold (zdrop pos task_listing).
    rewrite Hall. by apply lookup_app_l_Some.
Qed.

Lemma again_task_wp fuel filp dir n : (length threads < fuel)%nat -> Z.of_nat fuel < 2 ^ 31 - 2 ->
  forall pos w (Q : unit -> world -> Prop),
  resting filp dir pos (mem w) -> 0 <= pos <= len task_listing ->
  d_ns (k_dentry (mem w) !!! dir) = ns -> group_store (mem w) ->
  (forall l q w', emitted l w w' -> resting filp dir q (mem w') -> pos <= q <= len task_listing -> group_store (mem w') ->
     ztake q task_listing = ztake pos task_listing ++ accepted l -> Q tt w') ->
  wp growing_kernel (again n (proc_task_readdir fuel filp)) Q w.
Proof.
  intros Hfuel Hmax. induction n as [|n IH]; intros pos w Q Ho Hpos Hns Hst HQ; cbn [again].
  { apply (HQ [] pos); [done|done|lia|done|by rewrite app_nil_r]. }
  assert (Hlen : len task_listing < 2 ^ 31) by (rewrite len_task_listing; unfold len; lia).
  assert (Hnext : forall l q w1, emitted l w w1 -> resting filp dir q (mem w1) -> pos <= q <= len task_listing ->
    ztake q task_listing = ztake pos task_listing ++ accepted l -> group_store (mem w1) ->
    wp growing_kernel (again n (proc_task_readdir fuel filp)) (fun a w' => Q a w') w1).
  { intros l q w1 He Ho1 Hq Hl Hst1. apply (IH q); [done|lia| |done|].
    { by rewrite (proj1 (proj2 (proj2 He) dir)). }
    intros l2 q2 w2 He2 Ho2 Hq2 Hst2 Hl2. eapply HQ; [by eapply emitted_trans|exact Ho2|lia|done|]. by rewrite Hl2, Hl, accepted_app, app_assoc. }
  apply wp_bind. eapply wp_mono.
  - apply wp_wlp; [|apply proc_task_readdir_unmoved].
    apply (proc_task_readdir_wp fuel filp dir pos w (fun r w1 => exists l q, emitted l w w1 /\ resting filp dir q (mem w1) /\
      pos <= q <= len task_listing /\ ztake q task_listing = ztake pos task_listing ++ accepted l)); [done|lia|done|lia|done|done| |].
    + intros w1 _ He Ho1. exists [], pos. split; [done|]. split; [done|]. split; [lia|by rewrite app_nil_r].
    + intros l q d k w1 He Ho1 _ Hl _. destruct (lists_stretch _ _ _ _ _ Hpos Hl) as (Hq & Hacc & _).
      exists l, q. split; [done|]. split; [done|]. split; [lia|]. rewrite Hacc. apply ztake_step. lia.
  - intros r w1 [(l & q & He & Ho1 & Hq & Hl) Hk]. by apply (Hnext l q); [| | | |apply Hk].
Qed.

(** One more call after a reading up to offset [q1]: what it offers has the
    offset of its own in the listing, and it goes on where the reading stood.
    Unless the process is gone it ends with all threads that have to be there,
    or at an entry that it refused itself; [f_version] then names the thread. *)
Definition task_reading filp dir (q1 : Z) (w1 : world) (r : Z) (l2 : list (bytes * Z * Z)) (q2 : Z) (w2 : world) : Prop :=
  q1 <= q2 <= len task_listing /\ accepted l2 = ztake (q2 - q1) (zdrop q1 task_listing) /\
  Forall (fun e : bytes * Z * Z => task_listing !! Z.to_nat e.1.2 = Some e.1.1) l2 /\
  let version := f_version (k_file (mem w2) !!! filp) in
  (r = - ENOENT /\ vanished dir w1 w2 /\ l2 = [] /\ q2 = q1 \/
   r = 0 /\ all_accepted l2 = true /\ 2 + Z.of_nat must <= q2 /\ version = 0 \/
   r = 0 /\ stopped_at q2 l2 /\
     (2 <= q2 -> exists t, threads !! Z.to_nat (q2 - 2) = Some t /\ version = u64 (number t))).

Lemma next_task_reading_wp fuel filp dir q1 w1 : (length threads < fuel)%nat -> Z.of_nat fuel < 2 ^ 31 - 2 ->
  resting filp dir q1 (mem w1) -> 0 <= q1 <= len task_listing ->
  d_ns (k_dentry (mem w1) !!! dir) = ns -> group_store (mem w1) ->
  wp growing_kernel (proc_task_readdir fuel filp) (fun r w2 =>
    exists l2 q2, emitted l2 w1 w2 /\ opened filp dir q2 (mem w2) /\ task_reading filp dir q1 w1 r l2 q2 w2) w1.
Proof.
  intros Hfuel Hmax Hrest Hq1 Hns Hst.
  assert (Hlen : len task_listing < 2 ^ 31) by (rewrite len_task_listing; unfold len; lia).
  apply (proc_task_readdir_wp fuel filp dir q1 w1); [done|lia|done|lia|done|done| |].
  - intros w2 Hv He2 (v & [Ho2 _] & _). exists [], q1. split; [done|]. split; [done|].
    split; [lia|]. rewrite Z.sub_diag. split; [done|]. split; [constructor|]. by left.
  - intros l2 q2 d k w2 He2 (v & [Ho2 _] & _) Hrec Hl2 Hk. destruct (lists_stretch q1 k l2 q2 d Hq1 Hl2) as (Hq2 & Hacc & Hm & Hent).
    exists l2, q2. split; [done|]. split; [done|]. split; [done|]. split; [done|]. split; [done|]. right.
    pose proof (lists_end _ _ _ _ _ Hl2) as Hend. destruct d; [left|right].
    + split_and!; [done|done|by apply Hm, Hk|]. apply Hrec. by left.
    + split_and!; [done|done|]. intros H2. apply Hrec. by right.
Qed.

End Group.

(** *** A group that stays as it is *)

Section Static.
Context (A : forall o, ans o) (ns : ns_id) (leader : task_id) (others : list task_id).

Definition tid (t : task_id) : Z := A (TaskPidNrNs t ns).

(** The ring that [next_thread] walks, with the numbers of the threads in the
    namespace of the mount. *)
Record thread_group : Prop := {
  ring_of_group : ring A leader leader others;
  leader_leads : A (ThreadGroupLeader leader) = true;
  others_follow : forall t, t ∈ others -> A (ThreadGroupLeader t) = false;
  threads_alive : forall t, t ∈ threads leader others -> A (PidAlive t) = true;
  threads_numbered : forall t, t ∈ threads leader others -> 0 < tid t < 2 ^ 31;
  threads_found : forall t, t ∈ threads leader others -> A (FindTaskByPidNs (tid t) ns) = Some t;
  leader_sighand : A (LockTaskSighand leader) = true;
}.

(** The kernel of the reading: it changes nothing of the group. *)
Definition group_kernel : contract := fun o tr m x m' =>
  dir_stable o tr m x m' /\ (k_task m' = k_task m /\ k_signal m' = k_signal m) /\
  match o return ans o -> Prop with
  | NextThread _ as o | ThreadGroupLeader _ as o | PidAlive _ as o | TaskPidNrNs _ _ as o
  | FindTaskByPidNs _ _ as o | LockTaskSighand _ as o => fun x => x = A o
  | GetProcTask _ => fun x => forall t, x = Some t -> t ∈ threads leader others
  | _ => fun _ => True
  end x.

Definition all_threads : nat := length (threads leader others).

Context (Hgroup : thread_group).

Lemma ring_nth : forall ts t i, ring A leader t ts -> (i < length ts)%nat ->
  exists x : task_id, ts !! i = Some x /\ A (NextThread ((t :: ts) !!! i)) = x.
Proof.
  induction ts as [|y ts IH]; intros t i Hr Hi; cbn in Hi; [lia|]. destruct Hr as (Hn & Hne & Hr).
  destruct i as [|i]; [by exists y|]. destruct (IH y i Hr ltac:(lia)) as (x & Hx & HA). by exists x.
Qed.

Lemma ring_last ts t : ring A leader t ts -> A (NextThread ((t :: ts) !!! length ts)) = leader.
Proof.
  revert t. induction ts as [|y ts IH]; intros t Hr; [exact Hr|]. destruct Hr as (_ & _ & Hr). exact (IH y Hr).
Qed.

Lemma next_of_index i t : threads leader others !! i = Some t ->
  threads leader others !! S i = Some (A (NextThread t)) \/ A (NextThread t) = leader /\ (all_threads <= S i)%nat.
Proof.
  intros Hi. pose proof (ring_of_group Hgroup) as Hr.
  assert (Ht : t = threads leader others !!! i) by (by rewrite (list_lookup_total_correct _ _ _ Hi)).
  change (threads leader others !! S i) with (others !! i). destruct (others !! i) as [x|] eqn:Hx.
  - left. pose proof (lookup_lt_Some _ _ _ Hx) as Hlt. destruct (ring_nth others leader i Hr Hlt) as (x' & Hx' & HA).
    rewrite Ht. change (threads leader others !!! i) with ((leader :: others) !!! i). rewrite HA. assert (x = x') as -> by congruence. done.
  - right. apply lookup_ge_None in Hx. apply lookup_lt_Some in Hi as Hlt. cbn in Hlt.
    assert (i = length others) as -> by lia. rewrite Ht. split; [by apply ring_last|done].
Qed.

(** Such a group is one that grows, by no thread. *)
Lemma static_group : growing_group tid leader others all_threads.
Proof.
  split.
  - constructor; [apply (ring_first_notin A _ leader), Hgroup|apply (ring_NoDup A leader leader), Hgroup].
  - apply Hgroup.
  - split; [cbn; lia|done].
Qed.

Lemma static_group_kernel o tr m x m' : group_kernel o tr m x m' -> growing_kernel ns tid leader others all_threads o tr m x m'.
Proof.
  intros (Hst & [Ht Hs] & Hx). split; [done|]. split; [unfold group_store; by rewrite Ht, Hs|]. destruct o; try done.
  all: try subst x.
  - intros ->. apply Hgroup.
  - intros -> u Hin ->. left. by apply (threads_found Hgroup).
  - by intros -> _.
  - intros [->|Hin]%elem_of_cons; [by rewrite (leader_leads Hgroup), bool_decide_eq_true_2|].
    rewrite (others_follow Hgroup), bool_decide_eq_false_2; [done| |done]. intros ->.
    by eapply (ring_first_notin A leader leader); [apply Hgroup|].
  - by intros Hin%(threads_alive Hgroup).
  - intros i Hi. by apply next_of_index.
Qed.

(** A reading of it, in any number of calls. *)
Lemma static_task_reading `{Config} `{Arch} E fuel filp dir n w : keeps E group_kernel ->
  (length (threads leader others) < fuel)%nat -> Z.of_nat fuel < 2 ^ 31 - 2 ->
  opened filp dir 0 (mem w) -> d_ns (k_dentry (mem w) !!! dir) = ns -> group_store leader others all_threads (mem w) ->
  ends E (again n (proc_task_readdir fuel filp)) w (fun _ w' =>
    exists l q, emitted l w w' /\ opened filp dir q (mem w') /\ 0 <= q <= len (task_listing tid leader others) /\
      accepted l = ztake q (task_listing tid leader others)).
Proof.
  intros HE Hfuel Hmax Ho Hns Hst. apply (wp_ends _ group_kernel _ _ _ HE), (wp_contract _ _ _ _ _ static_group_kernel).
  apply (again_task_wp ns tid leader others all_threads static_group fuel filp dir n Hfuel Hmax 0);
    [|split; [lia|apply len_nonneg]|done|done|].
  { eexists. split; [split; [exact Ho|reflexivity]|]. left. lia. }
  intros l q w' He (v & [Ho' _] & _) Hq _ Hl. exists l, q. split; [done|]. split; [done|]. split; [lia|]. by rewrite Hl.
Qed.
End Static.

(** C3: However the reading of /proc/<tgid>/task is cut up, and whatever
    threads join the group meanwhile: after any number of calls the accepted
    entries are the first [f_pos] of ".", ".." and the threads in the order in
    which they joined, each exactly once; and the next call goes on from there
    with the same listing. Unless the process is gone, the next call either has
    all its entries accepted, has then listed all threads that were there from
    the start, and leaves [f_version] zero; or it stops at an entry that it has
    offered itself and the caller refused: [f_pos] is the offset of that entry
    and, when it is a thread, [f_version] its number. The walk needs no more
    fuel than there are threads, and no task, lock or signal handler is left
    held. *)
Theorem task_directory_lists_each_thread_once `{Config} `{Arch} E ns number leader others must fuel filp dir n w :
  keeps E (growing_kernel ns number leader others must) -> growing_group number leader others must ->
  (length (threads leader others) < fuel)%nat -> Z.of_nat fuel < 2 ^ 31 - 2 ->
  opened filp dir 0 (mem w) -> d_ns (k_dentry (mem w) !!! dir) = ns -> group_store leader others must (mem w) ->
  ends E (again n (proc_task_readdir fuel filp)) w (fun _ w1 =>
    exists l1 q1, emitted l1 w w1 /\ opened filp dir q1 (mem w1) /\ 0 <= q1 <= len (task_listing number leader others) /\
      accepted l1 = ztake q1 (task_listing number leader others) /\
      ends E (proc_task_readdir fuel filp) w1 (fun r w2 =>
        exists l2 q2, emitted l2 w1 w2 /\ opened filp dir q2 (mem w2) /\
          accepted (l1 ++ l2) = ztake q2 (task_listing number leader others) /\
          task_reading number leader others must filp dir q1 w1 r l2 q2 w2)).
Proof.
  intros HE Hg Hfuel Hmax Ho Hns Hst. apply (wp_ends _ _ _ _ _ HE).
  apply (again_task_wp ns number leader others must Hg fuel filp dir n Hfuel Hmax 0); [|split; [lia|apply len_nonneg]|done|done|].
  { eexists. split; [split; [exact Ho|reflexivity]|]. left. lia. }
  intros l1 q1 w1 He1 Ho1 Hq1 Hst1 Hl1. exists l1, q1. split; [done|]. pose proof Ho1 as (v & [Ho1' _] & _). split; [done|].
  split; [lia|]. split; [by rewrite Hl1|]. apply (wp_ends _ _ _ _ _ HE). eapply wp_mono.
  - apply (next_task_reading_wp ns number leader others must Hg fuel filp dir q1 w1); [done|done|done|lia| |done].
    by rewrite (proj1 (proj2 (proj2 He1) dir)).
  - intros r w2 (l2 & q2 & He2 & Ho2 & Hread). exists l2, q2. split; [done|]. split; [done|]. split; [|done].
    destruct Hread as (Hq2 & Hacc & _). rewrite accepted_app, Hacc. change (ztake 0 _) with (@nil bytes) in Hl1. cbn [app] in Hl1.
    rewrite <- Hl1. symmetry. apply ztake_step. lia.
Qed.

(** ** Properties: lookups *)

Lemma proc_base_lookup_wp dir dentry w (Q : Z -> world -> Prop) :
  (forall r w', balanced w w' -> (r = 0 \/ r = - ENOENT \/ r = - ENOMEM) -> Q r w') ->
  wp dcache (proc_base_lookup dir dentry) Q w.
Proof.
  intros HQ. destruct w as [m h b l]. unfold proc_base_lookup. kunfold. kcbn. intros [task|] m1 _; kcbn; [|apply HQ; [done|by auto]].
  destruct (find_entry _ proc_base_stuff) as [p|]; kcbn.
  - apply wp_bind. apply (proc_base_instantiates p). intros r [m2 h2 b2 l2] [Hh Hb] Hr. cbn [held bad] in *. subst h2 b2.
    kcbn. intros [] m3 _. repeat (kdec; kcbn). by apply HQ.
  - intros [] m2 _. repeat (kdec; kcbn). apply HQ; [done|by auto].
Qed.

Lemma proc_pident_lookup_wp ents dir dentry w (Q : Z -> world -> Prop) :
  (forall r w', balanced w w' -> (r = 0 \/ r = - ENOENT \/ r = - ENOMEM) -> Q r w') ->
  wp dcache (proc_pident_lookup dir dentry ents) Q w.
Proof.
  intros HQ. destruct w as [m h b l]. unfold proc_pident_lookup. kunfold. kcbn. intros [task|] m1 _; kcbn; [|apply HQ; [done|by auto]].
  destruct (find_entry _ ents) as [p|]; kcbn.
  - apply wp_bind. apply (proc_pident_instantiates p). intros r [m2 h2 b2 l2] [Hh Hb] Hr. cbn [held bad] in *. subst h2 b2.
    kcbn. intros [] m3 _. repeat (kdec; kcbn). by apply HQ.
  - intros [] m2 _. repeat (kdec; kcbn). apply HQ; [done|by auto].
Qed.

Lemma proc_lookupfd_common_wp f dir dentry w (Q : Z -> world -> Prop) : (forall fd, Instantiates (f fd)) ->
  (forall r w', balanced w w' -> (r = 0 \/ r = - ENOENT \/ r = - ENOMEM) -> Q r w') ->
  wp dcache (proc_lookupfd_common dir dentry f) Q w.
Proof.
  intros Hi HQ. destruct w as [m h b l]. unfold proc_lookupfd_common. kunfold. kcbn. intros [task|] m1 _; kcbn; [|apply HQ; [done|by auto]].
  destruct (_ =? NO_NUMBER); kcbn.
  - intros [] m2 _. repeat (kdec; kcbn). apply HQ; [done|by auto].
  - apply wp_bind. apply Hi. intros r [m2 h2 b2 l2] [Hh Hb] Hr. cbn [held bad] in *. subst h2 b2.
    kcbn. intros [] m3 _. repeat (kdec; kcbn). by apply HQ.
Qed.

Lemma proc_pid_lookup_wp `{Config} dir dentry w (Q : Z -> world -> Prop) :
  (forall r w', balanced w w' -> (r = 0 \/ r = - ENOENT \/ r = - ENOMEM) -> Q r w') ->
  wp dcache (proc_pid_lookup dir dentry) Q w.
Proof.
  intros HQ. unfold proc_pid_lookup. apply wp_bind, proc_base_lookup_wp. intros r [m h b l] Hb Hr.
  destruct (negb (r <? 0) || negb (r =? - ENOENT)); [by apply HQ|]. kunfold. kcbn.
  destruct (_ =? NO_NUMBER); kcbn; [by apply HQ|]. intros [] m1 _. kcbn. repeat (kdec; kcbn).
  intros [task|] m2 _; kcbn; repeat (kdec; kcbn).
  - intros [] m3 _ [] m4 _. repeat (kdec; kcbn). apply wp_bind. apply proc_pid_instantiates.
    intros r' [m5 h5 b5 l5] [Hh5 Hb5] Hr'. cbn [held bad] in *. subst h5 b5. kcbn. intros [] m6 _. repeat (kdec; kcbn).
    by apply HQ.
  - intros [] m3 _. repeat (kdec; kcbn). by apply HQ.
Qed.

Lemma proc_task_lookup_wp `{Config} dir dentry w (Q : Z -> world -> Prop) :
  (forall r w', balanced w w' -> (r = 0 \/ r = - ENOENT \/ r = - ENOMEM) -> Q r w') ->
  wp dcache (proc_task_lookup dir dentry) Q w.
Proof.
  intros HQ. destruct w as [m h b l]. unfold proc_task_lookup. kunfold. kcbn. intros [leader|] m0 _; kcbn; [|apply HQ; [done|by auto]].
  destruct (_ =? NO_NUMBER); kcbn; [intros [] m1 _; repeat (kdec; kcbn); apply HQ; [done|by auto]|].
  intros [] m1 _. kcbn. repeat (kdec; kcbn).
  intros [task|] m2 _; kcbn; repeat (kdec; kcbn).
  - intros [] m3 _ [] m4 _. repeat (kdec; kcbn). intros [] m5 _; kcbn.
    + apply wp_bind. apply wp_bind. apply proc_task_instantiates.
      intros r' [m6 h6 b6 l6] [Hh6 Hb6] Hr'. cbn [held bad] in *. subst h6 b6. kcbn. intros [] m7 _. repeat (kdec; kcbn).
      intros [] m8 _. repeat (kdec; kcbn). by apply HQ.
    + intros [] m6 _. repeat (kdec; kcbn). intros [] m7 _. repeat (kdec; kcbn). apply HQ; [done|by auto].
  - intros [] m3 _. repeat (kdec; kcbn). intros [] m4 _. repeat (kdec; kcbn). apply HQ; [done|by auto].
Qed.

(** Every lookup of the file system ends in a found entry, -ENOENT or
    -ENOMEM, calls the pid hash only under RCU, and holds nothing afterwards,
    whatever the rest of the kernel answers. *)
Theorem lookups_hold_nothing `{Config} E (lookup : inode_id -> dentry_id -> prog Z) dir dentry w : keeps E dcache ->
  In lookup [proc_pid_lookup; proc_task_lookup; proc_base_lookup; proc_lookupfd; proc_lookupfdinfo;
             proc_attr_dir_lookup; proc_tgid_base_lookup; proc_tid_base_lookup] ->
  ends E (lookup dir dentry) w (fun r w' => balanced w w' /\ (r = 0 \/ r = - ENOENT \/ r = - ENOMEM)).
Proof.
  intros HE Hin. apply (wp_ends _ dcache); [done|].
  destruct Hin as [<-|[<-|[<-|[<-|[<-|[<-|[<-|[<-|[]]]]]]]]].
  - by apply proc_pid_lookup_wp.
  - by apply proc_task_lookup_wp.
  - by apply proc_base_lookup_wp.
  - apply proc_lookupfd_common_wp; [exact proc_fd_instantiates|done].
  - apply proc_lookupfd_common_wp; [exact proc_fdinfo_instantiates|done].
  - by apply (proc_pident_lookup_wp attr_dir_stuff).
  - by apply (proc_pident_lookup_wp tgid_base_stuff).
  - by apply (proc_pident_lookup_wp tid_base_stuff).
Qed.

(** /proc/<tgid>/task shows the threads of its own process only: a number
    that belongs to no task, or to a task of another thread group, is -ENOENT
    and leaves the dcache as it was. *)
Theorem proc_task_lookup_only_own_threads `{Config} (A : forall o, ans o) dir dentry leader w :
  let tid := name_to_int (d_name (k_dentry (mem w) !!! dentry)) in
  let ns := d_ns (k_dentry (mem w) !!! dentry) in
  A (GetProcTask dir) = Some leader ->
  (forall task, A (FindTaskByPidNs (s32 tid) ns) = Some task -> A (SameThreadGroup leader task) = false) ->
  ends (dcache_env A) (proc_task_lookup dir dentry) w (fun r w' => r = - ENOENT /\ mem w' = mem w /\ balanced w w').
Proof.
  intros tid ns HA Hno. apply (wp_ends _ (dcache_answers A)); [apply keeps_dcache_env|].
  destruct w as [m h b l]. cbn [mem] in *. unfold proc_task_lookup. kunfold. kcbn.
  intros x m1 [-> ->]. rewrite HA. kcbn. cbn [dcache_step]. fold tid ns.
  destruct (tid =? NO_NUMBER); kcbn; [intros [] m2 [_ ->]; cbn [dcache_step]; by repeat (kdec; kcbn)|].
  intros [] m2 [_ ->]. cbn [dcache_step]. repeat (kdec; kcbn). fold ns. intros x m3 [-> ->]. cbn [dcache_step].
  destruct (A (FindTaskByPidNs (s32 tid) ns)) as [task|] eqn:Hf; kcbn; repeat (kdec; kcbn).
  - intros [] m4 [_ ->] [] m5 [_ ->]. cbn [dcache_step]. repeat (kdec; kcbn). intros x m6 [-> ->].
    rewrite (Hno task eq_refl). kcbn. intros [] m7 [_ ->]. cbn [dcache_step]. repeat (kdec; kcbn).
    intros [] m8 [_ ->]. cbn [dcache_step]. by repeat (kdec; kcbn).
  - intros [] m4 [_ ->]. cbn [dcache_step]. repeat (kdec; kcbn). intros [] m5 [_ ->]. cbn [dcache_step]. by repeat (kdec; kcbn).
Qed.


(** ** Witnesses *)

(** A process with three threads, 10, 20 and 30. *)
Definition group_answers (o : op) : ans o :=
  match o with
  | NextThread t => if (t =? 3)%nat then 1%nat else S t
  | ThreadGroupLeader t => (t =? 1)%nat
  | PidAlive _ => true
  | TaskPidNrNs t _ => 10 * Z.of_nat t
  | FindTaskByPidNs n _ => Some (Z.to_nat (n / 10))
  | LockTaskSighand _ => true
  | o => dir_kernel o
  end.

Definition group_mem : kmem :=
  let t := Task 0 [] 0 None None 8 1 0 0 0 false 0 inhabitant 0 0 0 [] 0 [] in
  Kmem 1 {[ 1%nat := t; 2%nat := t; 3%nat := t ]} {[ 8%nat := Signal 3 [] inhabitant ]} ∅ ∅
    {[ 4%nat := File 0 0 0 (Path 0%nat 5%nat) 0 PrivNone ]} {[ 6%nat := inhabitant ]}
    {[ 5%nat := Dentry [] (Some 6%nat) None 0 ]} ∅ ∅ ∅ ∅ ∅ ∅ ∅ HookDummy.

Lemma group_answers_group : thread_group group_answers 0%nat 1%nat [2%nat; 3%nat].
Proof.
  split; try done; intros t Ht; repeat (apply elem_of_cons in Ht as [->|Ht]; [try done; vm_compute; done|]);
    by apply elem_of_nil in Ht.
Qed.

Lemma group_answers_kernel : keeps (dcache_env group_answers) (group_kernel group_answers 1%nat [2%nat; 3%nat]).
Proof.
  intros o tr m. split; [by apply (dcache_env_stable group_answers)|]. split; [by destruct o, m|]. destruct o; try done.
  intros t [= <-]. by left.
Qed.

Lemma group_mem_store must : (must <= 3)%nat -> group_store 1%nat [2%nat; 3%nat] must group_mem.
Proof.
  intros Hm. split; [|replace (sig_count _) with 3 by reflexivity; lia]. intros t Ht. repeat (apply elem_of_cons in Ht as [->|Ht]; [reflexivity|]). by apply elem_of_nil in Ht.
Qed.

(** Thread 30 joins the group when thread 10 has been listed. *)
Definition joined (tr : list obs) : bool := (3 <=? length (dirents tr))%nat.

Definition join_kernel : env := fun o tr m =>
  (match o return ans o with
   | NextThread t => if (t =? 2)%nat then if joined tr then 3%nat else 1%nat else group_answers (NextThread t)
   | FindTaskByPidNs n ns => if (n =? 30) && negb (joined tr) then None else group_answers (FindTaskByPidNs n ns)
   | o => group_answers o
   end, dcache_step o m).

Lemma join_group : growing_group (fun t => 10 * Z.of_nat t) 1%nat [2%nat; 3%nat] 2.
Proof.
  split; [apply (bool_decide_unpack _); vm_compute; exact I| |cbn; lia].
  intros t Ht. repeat (apply elem_of_cons in Ht as [->|Ht]; [done|]). by apply elem_of_nil in Ht.
Qed.

Lemma join_threads i t : threads 1%nat [2%nat; 3%nat] !! i = Some t -> t = S i /\ (i < 3)%nat.
Proof. destruct i as [|[|[|i]]]; cbn; intros [= <-]; (split; [done|lia]). Qed.

Lemma join_kernel_grows : keeps join_kernel (growing_kernel 0%nat (fun t => 10 * Z.of_nat t) 1%nat [2%nat; 3%nat] 2).
Proof.
  intros o tr m. split; [pose proof (dcache_env_stable group_answers (fun _ _ => eq_refl) o tr m) as H; by destruct o|].
  split; [by destruct o, m|]. destruct o; try done.
  - by intros t [= <-]; left.
  - intros _ t Ht ->. apply list_elem_of_lookup_1 in Ht as [i [-> Hi]%join_threads].
    destruct i as [|[|[|i]]]; [by left|by left| |lia]. change (10 * Z.of_nat 3) with 30. unfold join_kernel. cbn [fst Z.eqb Pos.eqb andb].
    destruct (joined tr); [by left|by right].
  - intros Ht. apply list_elem_of_lookup_1 in Ht as [i [-> Hi]%join_threads]. destruct i as [|[|[|i]]]; [reflexivity|reflexivity|reflexivity|lia].
  - intros i [-> Hi]%join_threads. destruct i as [|[|[|i]]]; cbn -[joined]; [by left| |right; split; [done|lia]|lia].
    destruct (joined tr); [by left|right; split; [done|lia]].
Qed.

Lemma task_directory_lists_each_thread_once_witness :
  ends join_kernel (again 1 (@proc_task_readdir arch64 config_all 4 4%nat)) (world0 group_mem) (fun _ w1 =>
    exists l1 q1, emitted l1 (world0 group_mem) w1 /\ opened 4%nat 5%nat q1 (mem w1) /\ 0 <= q1 <= 5 /\
      accepted l1 = ztake q1 [str "."; str ".."; str "10"; str "20"; str "30"] /\
      ends join_kernel (@proc_task_readdir arch64 config_all 4 4%nat) w1 (fun r w2 =>
        exists l2 q2, emitted l2 w1 w2 /\ opened 4%nat 5%nat q2 (mem w2) /\
          accepted (l1 ++ l2) = ztake q2 [str "."; str ".."; str "10"; str "20"; str "30"] /\
          task_reading (fun t => 10 * Z.of_nat t) 1%nat [2%nat; 3%nat] 2 4%nat 5%nat q1 w1 r l2 q2 w2)).
Proof.
  refine (@task_directory_lists_each_thread_once config_all arch64 _ 0%nat (fun t => 10 * Z.of_nat t) 1%nat [2%nat; 3%nat] 2 4 4%nat 5%nat 1
    (world0 group_mem) join_kernel_grows join_group _ _ _ eq_refl (group_mem_store 2 _)).
  - cbn. lia.
  - reflexivity.
  - split; [reflexivity|]. split; [reflexivity|]. exists 6%nat. reflexivity.
  - lia.
Defined.

(** The thread that joins is listed. *)
Example join_evaluates :
  rev (dirents (log (run join_kernel (@proc_task_readdir arch64 config_all 4 4%nat) (world0 group_mem)).2)) =
    [(str ".", 0, 0); (str "..", 1, 0); (str "10", 2, 0); (str "20", 3, 0); (str "30", 4, 0)].
Proof. vm_compute. reflexivity. Qed.

(** Thread 20 exits when it has been listed. *)
Definition exited (tr : list obs) : bool := (4 <=? length (dirents tr))%nat.

Definition exit_kernel : env := fun o tr m =>
  (match o return ans o with
   | NextThread t => if (t =? 1)%nat && exited tr then 3%nat else group_answers (NextThread t)
   | PidAlive t => negb ((t =? 2)%nat && exited tr)
   | FindTaskByPidNs n ns => if (n =? 20) && exited tr then None else group_answers (FindTaskByPidNs n ns)
   | o => group_answers o
   end,
   match o with
   | Filldir _ _ 3 _ _ =>
       Kmem (k_current m) (k_task m) (<[8%nat := Signal 2 [] inhabitant]> (k_signal m)) (k_mm m) (k_fs m) (k_file m) (k_inode m)
         (k_dentry m) (k_pid m) (k_ns m) (k_mnt_root m) (k_nsproxy m) (k_mntns_event m) (k_mounts m) (k_seq_private m) (k_hook m)
   | o => dcache_step o m
   end).

(** A thread that exits takes the rest of the list with it: [next_tid] does not
    go on from a thread that is dead, so the call ends as at the end of the
    directory; and the next calls count the threads from the leader, of which
    there is now one less. Thread 30, which is alive all the time, is never
    listed. *)
Theorem exit_hides_surviving_thread :
  rev (dirents (log (run exit_kernel (again 5 (@proc_task_readdir arch64 config_all 4 4%nat)) (world0 group_mem)).2)) =
    [(str ".", 0, 0); (str "..", 1, 0); (str "10", 2, 0); (str "20", 3, 0)] /\
  forall tr m, (exit_kernel (PidAlive 3%nat) tr m).1 = true /\ (exit_kernel (FindTaskByPidNs 30 0%nat) tr m).1 = Some 3%nat /\
    ((exit_kernel (NextThread 1%nat) tr m).1 = 3%nat \/
     (exit_kernel (NextThread 1%nat) tr m).1 = 2%nat /\ (exit_kernel (NextThread 2%nat) tr m).1 = 3%nat).
Proof.
  split; [vm_compute; reflexivity|]. intros tr m. split; [done|]. split; [done|]. cbn -[exited].
  destruct (exited tr); cbn; [by left|by right].
Qed.

Lemma lookups_hold_nothing_witness :
  keeps (dcache_env group_answers) dcache /\
  ends (dcache_env group_answers) (@proc_task_lookup config_all 6%nat 5%nat) (world0 group_mem)
    (fun r w' => balanced (world0 group_mem) w' /\ (r = 0 \/ r = - ENOENT \/ r = - ENOMEM)).
Proof.
  split; [exact (dcache_env_dcache group_answers)|].
  refine (@lookups_hold_nothing config_all _ (@proc_task_lookup config_all) 6%nat 5%nat (world0 group_mem)
    (dcache_env_dcache group_answers) _).
  right; left. reflexivity.
Defined.

Lemma proc_task_lookup_only_own_threads_witness :
  ends (dcache_env group_answers) (@proc_task_lookup config_all 6%nat 5%nat) (world0 group_mem)
    (fun r w' => r = - ENOENT /\ mem w' = group_mem /\ balanced (world0 group_mem) w').
Proof.
  refine (@proc_task_lookup_only_own_threads config_all group_answers 6%nat 5%nat 1%nat (world0 group_mem) eq_refl _).
  intros task _. reflexivity.
Defined.
