(* ===== verification/CharDev.v ===== *)
(** * The character device module (chardev/chardev.c)

    A device that one process at a time may open; every successful open
    prints a message with a counter into [msg], and reads deliver it piece by
    piece. [put_user] ignores a fault, as the code does: what a read hands to
    it is the result of the model. *)
From S2P Require Import Prelude Format.

Definition BUF_LEN := 80.

(** The static variables, and the module's reference count. [msg_Ptr] is an
    offset into [msg]; it is NULL before the first open. *)
Record chardev := CharDevState {
  Device_Open : Z;
  counter : Z;
  msg : bytes;
  msg_Ptr : option Z;
  module_refs : Z;
}.

Definition chardev0 : chardev := CharDevState 0 0 (replicate (Z.to_nat BUF_LEN) 0) None 0.

(** [sprintf] into an array: nothing checks that the text and its NUL fit. *)
Definition sprintf (buf text : bytes) : option bytes :=
  if len text + 1 <=? len buf then Some (text ++ [0] ++ zdrop (len text + 1) buf) else None.

Definition message (n : Z) : bytes :=
  str "I already told you " ++ fmt_d n ++ str " times Hello world!" ++ [NL].

(** The operations answer [None] when they leave their array. *)
Definition device_open_busy (s : chardev) : bool := negb (Device_Open s =? 0).

Definition device_open_enter (s : chardev) : option (Z * chardev) :=
  let n := counter s in
  let s := CharDevState (s32 (Device_Open s + 1)) (s32 (counter s + 1)) (msg s) (msg_Ptr s) (module_refs s) in
  m ← sprintf (msg s) (message n);
  Some (0, CharDevState (Device_Open s) (counter s) m (Some 0) (module_refs s + 1)).

Definition device_open (s : chardev) : option (Z * chardev) :=
  if device_open_busy s then Some (- EBUSY, s) else device_open_enter s.

(** One caller of [device_open] among several: no lock keeps another one out
    between the test and the increment. *)
Inductive opener := Asking | Entering | Answered (r : Z).

Inductive open_step : chardev -> opener -> chardev -> opener -> Prop :=
  | Open_tests s : open_step s Asking s (if device_open_busy s then Answered (- EBUSY) else Entering)
  | Open_enters s r s' : device_open_enter s = Some (r, s') -> open_step s Entering s' (Answered r).

Definition device_release (s : chardev) : Z * chardev :=
  (0, CharDevState (s32 (Device_Open s - 1)) (counter s) (msg s) (msg_Ptr s) (module_refs s - 1)).

(** The [while] loop, over what follows [msg_Ptr]: the bytes put, and how far
    it went. *)
Fixpoint read_loop (length : Z) (rest : bytes) : option bytes :=
  if length =? 0 then Some []
  else
    match rest with
    | [] => None
    | c :: rest => if c =? 0 then Some [] else l ← read_loop (length - 1) rest; Some (c :: l)
    end.

Definition device_read (s : chardev) (length : Z) : option (Z * bytes * chardev) :=
  p ← msg_Ptr s;
  let rest := zdrop p (msg s) in
  c ← head rest;
  if c =? 0 then Some (0, [], s)
  else
    data ← read_loop length rest;
    Some (len data, data,
          CharDevState (Device_Open s) (counter s) (msg s) (Some (p + len data)) (module_refs s)).

Definition device_write (s : chardev) (data : bytes) : Z * chardev := (- EINVAL, s).

(** [init_module] and [cleanup_module]: what [register_chrdev] answers is
    kept in [Major], and given to [unregister_chrdev]. *)
Definition init_module (register_chrdev : Z) : Z * Z :=
  let Major := register_chrdev in
  if Major <? 0 then (Major, Major) else (0, Major).

Definition cleanup_module (Major : Z) : Z := Major.

(** ** The device in use

    The VFS calls read, write and release on files that an open returned. The
    calls are taken to be made one after the other. *)
Inductive cd_step : chardev -> chardev -> Prop :=
  | Cd_open s r s' : device_open s = Some (r, s') -> cd_step s s'
  | Cd_release s r s' : 0 < module_refs s -> device_release s = (r, s') -> cd_step s s'
  | Cd_read s n r data s' : 0 < module_refs s -> 0 <= n -> device_read s n = Some (r, data, s') -> cd_step s s'
  | Cd_write s data r s' : 0 < module_refs s -> device_write s data = (r, s') -> cd_step s s'.

Definition cd_reachable : chardev -> Prop := rtc cd_step chardev0.

(** [msg] holds the rest of a message at [p], NUL-terminated inside it. *)
Definition holds_text (s : chardev) (p : Z) (text : bytes) : Prop :=
  Forall (fun c => c <> 0) text /\ 0 <= p /\ exists tail, zdrop p (msg s) = text ++ 0 :: tail.

(** The device at rest or open, between two operations. *)
Record cd_ok (s : chardev) : Prop := {
  ok_open : Device_Open s = 0 \/ Device_Open s = 1;
  ok_refs : module_refs s = Device_Open s;
  ok_counter : - 2 ^ 31 <= counter s < 2 ^ 31;
  ok_buf : len (msg s) = BUF_LEN;
  ok_ptr : Device_Open s = 1 -> exists p text, msg_Ptr s = Some p /\ holds_text s p text;
}.

Lemma message_nonul n : - 2 ^ 31 <= n < 2 ^ 31 -> Forall (fun c => c <> 0) (message n).
Proof.
  intros Hn. unfold message. rewrite !Forall_app. split_and!; try (repeat constructor; done).
  unfold fmt_d. destruct (Z.ltb_spec n 0).
  - constructor; [done|]. eapply Forall_impl; [apply digits10_chars; lia|]. cbn. lia.
  - eapply Forall_impl; [apply digits10_chars; lia|]. cbn. lia.
Qed.

Lemma len_message n : - 2 ^ 31 <= n < 2 ^ 31 -> len (message n) + 1 <= BUF_LEN.
Proof.
  intros Hn. unfold message. rewrite !len_app. pose proof (len_fmt_d32 n Hn).
  change (len (str "I already told you ")) with 19. change (len (str " times Hello world!")) with 19.
  rewrite len_cons, len_nil. unfold BUF_LEN. lia.
Qed.

Lemma sprintf_message buf n : - 2 ^ 31 <= n < 2 ^ 31 -> len buf = BUF_LEN ->
  exists m tail, sprintf buf (message n) = Some m /\ m = message n ++ 0 :: tail /\ len m = BUF_LEN.
Proof.
  intros Hn Hb. pose proof (len_message n Hn). unfold sprintf. destruct (Z.leb_spec (len (message n) + 1) (len buf)); [|lia].
  do 2 eexists. split; [done|]. split; [done|]. pose proof (len_nonneg (message n)).
  rewrite !len_app, len_cons, len_nil, len_zdrop by lia. lia.
Qed.

(** What the loop delivers from a text. *)
Lemma read_loop_text n text tail : 0 <= n -> Forall (fun c => c <> 0) text ->
  read_loop n (text ++ 0 :: tail) = Some (ztake n text).
Proof.
  intros Hn Ht. revert n Hn. induction Ht as [|c text Hc _ IH]; intros n Hn; cbn [app read_loop].
  - unfold ztake. destruct (n =? 0); by destruct (Z.to_nat n).
  - destruct (Z.eqb_spec n 0) as [->|Hn0]; [done|]. destruct (Z.eqb_spec c 0); [done|]. rewrite IH by lia. cbn.
    unfold ztake. by replace (Z.to_nat n) with (S (Z.to_nat (n - 1))) by lia.
Qed.

Lemma device_open_ok s : cd_ok s ->
  if Device_Open s =? 0 then
    exists s', device_open s = Some (0, s') /\ cd_ok s' /\ Device_Open s' = 1 /\ counter s' = s32 (counter s + 1) /\
      msg_Ptr s' = Some 0 /\ holds_text s' 0 (message (counter s))
  else device_open s = Some (- EBUSY, s).
Proof.
  intros [Ho Hr Hc Hb Hp]. unfold device_open, device_open_busy, device_open_enter. destruct (Z.eqb_spec (Device_Open s) 0) as [H0|H0]; cbn [negb]; [|done]. cbn [Device_Open counter msg module_refs].
  destruct (sprintf_message (msg s) (counter s) Hc Hb) as (m & tail & -> & Hm & Hlen). rewrite H0.
  assert (Ht : forall s', msg s' = m -> holds_text s' 0 (message (counter s))).
  { intros s' Hs'. split; [by apply message_nonul|]. split; [lia|]. exists tail. by rewrite Hs'. }
  eexists. split; [done|]. cbn. split; [|split; [done|split; [done|split; [done|by apply Ht]]]].
  split; cbn; [by right|by rewrite Hr, H0|apply s32_range|done|]. intros _. exists 0, (message (counter s)).
  split; [done|]. by apply Ht.
Qed.

Lemma device_read_ok s n p text : msg_Ptr s = Some p -> holds_text s p text -> 0 <= n ->
  exists s', device_read s n = Some (len (ztake n text), ztake n text, s') /\
    msg_Ptr s' = Some (p + len (ztake n text)) /\ holds_text s' (p + len (ztake n text)) (zdrop n text) /\
    Device_Open s' = Device_Open s /\ counter s' = counter s /\ msg s' = msg s /\ module_refs s' = module_refs s.
Proof.
  intros Hp (Ht & Hp0 & tail & Hz) Hn. unfold device_read. rewrite Hp. cbn [mbind option_bind]. rewrite Hz.
  assert (Hrest : forall s', msg s' = msg s -> holds_text s' (p + len (ztake n text)) (zdrop n text)).
  { intros s' Hm. split; [by apply Forall_drop|]. pose proof (len_nonneg (ztake n text)). split; [lia|].
    exists tail. rewrite Hm. unfold zdrop in *. rewrite Z2Nat.inj_add, <- drop_drop, Hz by lia.
    rewrite drop_app_le by (unfold len, ztake; rewrite length_take; lia). f_equal. unfold len, ztake.
    rewrite Nat2Z.id, length_take. destruct (decide (Z.to_nat n <= length text)%nat); [by rewrite Nat.min_l by done|].
    by rewrite !drop_ge by lia. }
  destruct text as [|c text]; cbn [app head mbind option_bind].
  - change (0 =? 0) with true. cbv iota.
    replace (ztake n []) with (@nil Z) in * by (unfold ztake; by rewrite take_nil). rewrite (@len_nil Z), Z.add_0_r in *.
    exists s. split; [done|]. split; [done|]. split; [by apply Hrest|done].
  - apply Forall_cons in Ht as Hc. destruct Hc as [Hc _]. destruct (Z.eqb_spec c 0); [done|].
    change (c :: text ++ 0 :: tail) with ((c :: text) ++ 0 :: tail). rewrite read_loop_text by done. cbn [option_bind].
    eexists. split; [done|]. cbn. split; [done|]. split; [by apply Hrest|done].
Qed.

Lemma cd_step_ok s s' : cd_ok s -> cd_step s s' -> cd_ok s'.
Proof.
  intros Hok Hs. destruct Hs as [s r s' H|s r s' Href H|s n r data s' Href Hn H|s data r s' Href H].
  - pose proof (device_open_ok s Hok) as Ho. destruct (Device_Open s =? 0).
    + destruct Ho as (s2 & H2 & Hok2 & _). by simplify_eq.
    + rewrite Ho in H. by injection H as <- <-.
  - injection H as <- <-. destruct Hok as [Ho Hr Hc Hb Hp]. assert (Device_Open s = 1) as H1 by lia.
    split; cbn; rewrite ?H1; [by left|rewrite Hr, H1; done|done|done|done].
  - pose proof Hok as [Ho Hr Hc Hb Hp]. destruct Hp as (p & text & Hp & Ht); [lia|].
    destruct (device_read_ok s n p text Hp Ht Hn) as (s2 & H2 & Hp2 & Ht2 & Ho2 & Hc2 & Hm2 & Hr2). rewrite H in H2.
    injection H2 as _ _ <-. split; rewrite ?Ho2, ?Hc2, ?Hm2, ?Hr2; try done. intros _. by eexists _, _.
  - by injection H as <- <-.
Qed.

Lemma cd_reachable_ok s : cd_reachable s -> cd_ok s.
Proof.
  intros Hr. unfold cd_reachable in Hr. remember chardev0 as s0 eqn:E.
  assert (Hs0 : cd_ok s0) by (subst; split; [by left|done|done|done|done]). clear E.
  induction Hr as [s|s s1 s2 H _ IH]; [done|]. apply IH. by eapply cd_step_ok.
Qed.

(** ** Properties *)

(** In every reachable state of the device at most one process has it
    open and the module's reference count counts it, so that the module
    cannot be unloaded under it; an open succeeds exactly when nobody has the
    device, and is -EBUSY without any effect otherwise; no operation leaves
    [msg]. *)
Theorem device_open_exclusive s : cd_reachable s ->
  (Device_Open s = 0 \/ Device_Open s = 1) /\ module_refs s = Device_Open s /\
  exists r s', device_open s = Some (r, s') /\
    (Device_Open s = 0 /\ r = 0 /\ Device_Open s' = 1 \/ Device_Open s = 1 /\ r = - EBUSY /\ s' = s).
Proof.
  intros Hr. pose proof (cd_reachable_ok s Hr) as Hok. split; [apply Hok|]. split; [apply Hok|].
  pose proof (device_open_ok s Hok) as Ho. destruct (ok_open s Hok) as [H0|H0]; rewrite H0 in Ho.
  - destruct Ho as (s' & H & _ & H1 & _). exists 0, s'. split; [done|]. by left.
  - exists (- EBUSY), s. split; [done|]. by right.
Qed.

(** Consecutive reads of the given lengths: the bytes they deliver. *)
Fixpoint device_reads (s : chardev) (ns : list Z) : option (list bytes * chardev) :=
  match ns with
  | [] => Some ([], s)
  | n :: ns =>
      '(r, data, s) ← device_read s n;
      '(l, s) ← device_reads s ns;
      Some (data :: l, s)
  end.

Lemma device_reads_ok ns : forall s p text, msg_Ptr s = Some p -> holds_text s p text -> Forall (fun n => 0 <= n) ns ->
  exists l s', device_reads s ns = Some (l, s') /\ concat l = take (sum_list (Z.to_nat <$> ns)) text.
Proof.
  induction ns as [|n ns IH]; intros s p text Hp Ht Hns; [by exists [], s|]. apply Forall_cons in Hns as [Hn Hns].
  destruct (device_read_ok s n p text Hp Ht Hn) as (s1 & H1 & Hp1 & Ht1 & _). cbn [device_reads]. rewrite H1. cbn [mbind option_bind].
  destruct (IH s1 _ _ Hp1 Ht1 Hns) as (l & s2 & -> & Hl). cbn. exists (ztake n text :: l), s2. split; [done|]. cbn.
  rewrite Hl. unfold ztake, zdrop. by rewrite take_take_drop.
Qed.

(** What a process reads after it has opened the device, in pieces of
    any size, is the message with the number of earlier opens, byte for byte,
    and nothing after its end; the message fits [msg] for every value of the
    counter. *)
Theorem device_reads_message s ns : cd_reachable s -> Device_Open s = 0 -> Forall (fun n => 0 <= n) ns ->
  exists s1 l s2, device_open s = Some (0, s1) /\ counter s1 = s32 (counter s + 1) /\
    device_reads s1 ns = Some (l, s2) /\
    concat l = take (sum_list (Z.to_nat <$> ns)) (message (counter s)).
Proof.
  intros Hr H0 Hns. pose proof (device_open_ok s (cd_reachable_ok s Hr)) as Ho. rewrite H0 in Ho.
  destruct Ho as (s1 & H1 & _ & _ & Hc & Hp & Ht). destruct (device_reads_ok ns s1 0 _ Hp Ht Hns) as (l & s2 & H2 & Hl).
  exists s1, l, s2. split; [done|]. split; [done|]. done.
Qed.

(** ** The device as its users see it

    The module's events, and what it is meant to be: a number that is
    registered while it is loaded, a count of the opens, and the text that the
    process which has it open has still to read. *)
Inductive cd_event :=
  | Ev_init (register_chrdev result : Z) | Ev_cleanup (unregistered : Z)
  | Ev_open (result : Z) | Ev_release | Ev_read (length result : Z) (data : bytes) | Ev_write (data : bytes) (result : Z).

(** The module: not loaded, or loaded with fresh variables. *)
Definition cd_module := option (Z * chardev).

Inductive cd_does : cd_module -> cd_event -> cd_module -> Prop :=
  | Does_init_fails n r M : init_module n = (r, M) -> r < 0 -> cd_does None (Ev_init n r) None
  | Does_init n r M : init_module n = (r, M) -> 0 <= r -> cd_does None (Ev_init n r) (Some (M, chardev0))
  | Does_cleanup M s : module_refs s = 0 -> cd_does (Some (M, s)) (Ev_cleanup (cleanup_module M)) None
  | Does_open M s r s' : device_open s = Some (r, s') -> cd_does (Some (M, s)) (Ev_open r) (Some (M, s'))
  | Does_release M s r s' : 0 < module_refs s -> device_release s = (r, s') -> cd_does (Some (M, s)) Ev_release (Some (M, s'))
  | Does_read M s n r data s' : 0 < module_refs s -> 0 <= n -> device_read s n = Some (r, data, s') ->
      cd_does (Some (M, s)) (Ev_read n r data) (Some (M, s'))
  | Does_write M s data r s' : 0 < module_refs s -> device_write s data = (r, s') ->
      cd_does (Some (M, s)) (Ev_write data r) (Some (M, s')).

(** The abstract device. *)
Record session := Session { registered : Z; opens : Z; unread : option bytes }.

Inductive cd_spec : option session -> cd_event -> option session -> Prop :=
  | Spec_init_fails n : n < 0 -> cd_spec None (Ev_init n n) None
  | Spec_init n : 0 <= n -> cd_spec None (Ev_init n 0) (Some (Session n 0 None))
  | Spec_cleanup M k : cd_spec (Some (Session M k None)) (Ev_cleanup M) None
  | Spec_open M k : cd_spec (Some (Session M k None)) (Ev_open 0) (Some (Session M (k + 1) (Some (message (s32 k)))))
  | Spec_busy M k text : cd_spec (Some (Session M k (Some text))) (Ev_open (- EBUSY)) (Some (Session M k (Some text)))
  | Spec_release M k text : cd_spec (Some (Session M k (Some text))) Ev_release (Some (Session M k None))
  | Spec_read M k text n : 0 <= n ->
      cd_spec (Some (Session M k (Some text))) (Ev_read n (len (ztake n text)) (ztake n text)) (Some (Session M k (Some (zdrop n text))))
  | Spec_write M k text data :
      cd_spec (Some (Session M k (Some text))) (Ev_write data (- EINVAL)) (Some (Session M k (Some text))).

(** Traces of a labelled transition system. *)
Inductive traces {S E : Type} (step : S -> E -> S -> Prop) : S -> list E -> S -> Prop :=
  | Traces_nil s : traces step s [] s
  | Traces_cons s e s1 es s2 : step s e s1 -> traces step s1 es s2 -> traces step s (e :: es) s2.

Lemma traces_simulation {S T E : Type} (step1 : S -> E -> S -> Prop) (step2 : T -> E -> T -> Prop) (sim : S -> T -> Prop) :
  (forall s t e s', sim s t -> step1 s e s' -> exists t', step2 t e t' /\ sim s' t') ->
  forall s t es s', sim s t -> traces step1 s es s' -> exists t', traces step2 t es t' /\ sim s' t'.
Proof.
  intros Hstep s t es s' Hsim Hs. revert t Hsim. induction Hs as [s|s e s1 es s2 Hs1 _ IH]; intros t Hsim; [by exists t; split; [constructor|]|].
  destruct (Hstep _ _ _ _ Hsim Hs1) as (t1 & Ht1 & Hsim1). destruct (IH t1 Hsim1) as (t2 & Ht2 & Hsim2).
  exists t2. split; [by econstructor|done].
Qed.

(** The device implements the session. *)
Definition implements (c : cd_module) (a : option session) : Prop :=
  match c, a with
  | None, None => True
  | Some (M, s), Some a => registered a = M /\ cd_ok s /\ counter s = s32 (opens a) /\
      match unread a with
      | None => Device_Open s = 0
      | Some text => Device_Open s = 1 /\ exists p, msg_Ptr s = Some p /\ holds_text s p text
      end
  | _, _ => False
  end.

Lemma chardev0_ok : cd_ok chardev0.
Proof. split; [by left|done|done|done|done]. Qed.

Lemma s32_s32_succ k : s32 (s32 k + 1) = s32 (k + 1).
Proof. unfold s32. replace ((k + 2 ^ 31) mod 2 ^ 32 - 2 ^ 31 + 1 + 2 ^ 31) with ((k + 2 ^ 31) mod 2 ^ 32 + 1) by lia.
  rewrite Zplus_mod_idemp_l. do 2 f_equal. lia. Qed.

(** The four operations against the session that the state implements. *)
Lemma open_implements M s a : implements (Some (M, s)) (Some a) -> exists r s', device_open s = Some (r, s') /\
  exists a', cd_spec (Some a) (Ev_open r) (Some a') /\ implements (Some (M, s')) (Some a').
Proof.
  intros (HM & Hok & Hc & Hu). destruct a as [M' k [text|]]; cbn in *; subst M'; pose proof (device_open_ok s Hok) as Ho.
  - destruct Hu as [H1 Hp]. rewrite H1 in Ho. do 2 eexists. split; [exact Ho|]. eexists. split; [constructor|]. by split_and!.
  - rewrite Hu in Ho. destruct Ho as (s' & H & Hok' & H1 & Hc' & Hp & Ht). do 2 eexists. split; [exact H|].
    eexists. split; [constructor|]. split; [done|]. split; [done|]. cbn. rewrite Hc', Hc, s32_s32_succ. split; [done|].
    split; [done|]. exists 0. split; [done|]. by rewrite <- Hc.
Qed.

Lemma read_implements M s k text n : implements (Some (M, s)) (Some (Session M k (Some text))) -> 0 <= n ->
  exists s', device_read s n = Some (len (ztake n text), ztake n text, s') /\
    implements (Some (M, s')) (Some (Session M k (Some (zdrop n text)))).
Proof.
  intros (_ & Hok & Hc & H1 & p & Hp & Ht) Hn. cbn in *.
  destruct (device_read_ok s n p text Hp Ht Hn) as (s' & Hr & Hp' & Ht' & Ho' & Hc' & Hm' & Hr').
  exists s'. split; [done|]. split; [done|]. split; [|by rewrite Hc', Ho'; eauto].
  eapply (cd_step_ok s); [done|]. eapply Cd_read; [|exact Hn|exact Hr]. rewrite (ok_refs s Hok), H1. done.
Qed.

Lemma release_implements M s k text : implements (Some (M, s)) (Some (Session M k (Some text))) ->
  implements (Some (M, (device_release s).2)) (Some (Session M k None)).
Proof.
  intros (_ & Hok & Hc & H1 & _). cbn in *. split; [done|]. split; [|cbn; by rewrite H1].
  eapply (cd_step_ok s); [done|]. eapply Cd_release; [|reflexivity]. rewrite (ok_refs s Hok), H1. done.
Qed.

(** A session in which somebody has the device open. *)
Lemma in_use M s a : implements (Some (M, s)) (Some a) -> 0 < module_refs s ->
  exists k text, a = Session M k (Some text).
Proof.
  intros (HM & Hok & _ & Hu) Hr. rewrite (ok_refs s Hok) in Hr. destruct a as [M' k [text|]]; cbn in *; subst; [eauto|lia].
Qed.

(** Calls that overlap: two processes that both find the device free both open
    it; the device counts two users, and the message of the first is
    overwritten. *)
Theorem device_open_races s : cd_reachable s -> Device_Open s = 0 -> exists s1 s2,
  open_step s Asking s Entering /\ open_step s Entering s1 (Answered 0) /\ open_step s1 Entering s2 (Answered 0) /\
  Device_Open s2 = 2 /\ module_refs s2 = 2 /\ holds_text s1 0 (message (counter s)) /\ holds_text s2 0 (message (counter s1)).
Proof.
  intros Hr H0. pose proof (cd_reachable_ok s Hr) as Hok. pose proof (device_open_ok s Hok) as Ho. rewrite H0 in Ho.
  destruct Ho as (s1 & Ho & Hok1 & H1 & Hc1 & _ & Ht). exists s1.
  assert (Hfree : device_open_busy s = false) by (unfold device_open_busy; by rewrite H0).
  unfold device_open in Ho. rewrite Hfree in Ho.
  pose proof (sprintf_message (msg s1) (counter s1) (ok_counter s1 Hok1) (ok_buf s1 Hok1)) as (m & tail & Hp & Hm & _).
  exists (CharDevState 2 (s32 (counter s1 + 1)) m (Some 0) 2). split; [|split; [by constructor|split]].
  - pose proof (Open_tests s) as Hs. by rewrite Hfree in Hs.
  - constructor. unfold device_open_enter. cbn [msg counter]. rewrite Hp. cbn. by rewrite H1, (ok_refs s1 Hok1), H1.
  - split; [done|]. split; [done|]. split; [done|]. split; [by apply message_nonul, Hok1|]. split; [lia|]. by exists tail.
Qed.

Lemma device_simulated c a e c' : implements c a -> cd_does c e c' -> exists a', cd_spec a e a' /\ implements c' a'.
Proof.
  intros Hi Hd. destruct Hd as [n r M H Hr|n r M H Hr|M s Href|M s r s' H|M s r s' Href H|M s n r data s' Href Hn H|M s data r s' Href H];
    destruct a as [a|]; try done.
  - unfold init_module in H. destruct (Z.ltb_spec n 0) as [Hn|Hn]; injection H as <- <-; [|lia]. exists None. by split; [constructor|].
  - unfold init_module in H. destruct (Z.ltb_spec n 0) as [Hn|Hn]; injection H as <- <-; [lia|]. eexists. split; [by constructor|].
    split; [done|]. split; [apply chardev0_ok|done].
  - destruct Hi as (HM & Hok & Hc & Hu). rewrite (ok_refs s Hok) in Href. destruct a as [M' k [text|]]; cbn in *; [lia|].
    subst. exists None. by split; [constructor|].
  - destruct (open_implements M s a Hi) as (r1 & s1 & H1 & a1 & Hs & Hi1). rewrite H in H1. injection H1 as <- <-. by eexists.
  - destruct (in_use M s a Hi Href) as (k & text & ->). injection H as _ <-. eexists. split; [constructor|].
    exact (release_implements M s k text Hi).
  - destruct (in_use M s a Hi Href) as (k & text & ->). destruct (read_implements M s _ _ n Hi Hn) as (s1 & H1 & Hi1).
    rewrite H in H1. injection H1 as -> -> <-. eexists. split; [by constructor|done].
  - destruct (in_use M s a Hi Href) as (k & text & ->). injection H as <- <-. eexists. split; [constructor|done].
Qed.

Lemma device_simulates c a e a' : implements c a -> cd_spec a e a' -> exists c', cd_does c e c' /\ implements c' a'.
Proof.
  intros Hi Hs.
  assert (Hopen : forall M s k text, implements (Some (M, s)) (Some (Session M k (Some text))) -> 0 < module_refs s).
  { intros M s k text (_ & Hok & _ & H1 & _). rewrite (ok_refs s Hok), H1. done. }
  destruct Hs as [n Hn|n Hn|M k|M k|M k text|M k text|M k text n Hn|M k text data]; destruct c as [[M' s]|]; try done;
    try (assert (M' = M) as -> by (symmetry; apply Hi)).
  - exists None. split; [|done]. eapply (Does_init_fails _ _ n); [|done]. unfold init_module. by destruct (Z.ltb_spec n 0); [|lia].
  - exists (Some (n, chardev0)). split; [|by split; [|split; [apply chardev0_ok|]]].
    eapply Does_init; [|done]. unfold init_module. by destruct (Z.ltb_spec n 0); [lia|].
  - exists None. split; [|done]. destruct Hi as (_ & Hok & _ & Hu). eapply (Does_cleanup M s). by rewrite (ok_refs s Hok).
  - destruct (open_implements M s _ Hi) as (r & s' & H & a1 & Hs & Hi'). inversion Hs; subst. exists (Some (M, s')).
    split; [by constructor|done].
  - destruct (open_implements M s _ Hi) as (r & s' & H & a1 & Hs & Hi'). inversion Hs; subst. exists (Some (M, s')).
    split; [by constructor|done].
  - exists (Some (M, (device_release s).2)). split; [econstructor; [by eapply Hopen|reflexivity]|].
    exact (release_implements M s k text Hi).
  - destruct (read_implements M s k text n Hi Hn) as (s' & H & Hi'). exists (Some (M, s')). split; [|done].
    constructor; [by eapply Hopen|done|done].
  - exists (Some (M, s)). split; [|done]. econstructor; [by eapply Hopen|reflexivity].
Qed.

(** C32: The device implements its specification: what its users can see of
    the module, from loading it to unloading it and again, is exactly what the
    abstract device allows - one session at a time, every session reading the
    message with the number of sessions before it, in pieces of any size and
    nothing after it, no write, and the number unregistered that was
    registered. The calls are made one after the other. *)
Theorem device_refines_session es :
  (exists c, traces cd_does None es c) <-> (exists a, traces cd_spec None es a).
Proof.
  split; intros [x Hx].
  - destruct (traces_simulation cd_does cd_spec implements (fun s t e s' => device_simulated s t e s') None None es x I Hx) as (a & Ha & _).
    by exists a.
  - destruct (traces_simulation cd_spec cd_does (fun a c => implements c a) (fun a c e a' => device_simulates c a e a') None None es x I Hx)
      as (c & Hc & _). by exists c.
Qed.

(** ** Witnesses *)

Lemma device_open_exclusive_witness :
  cd_reachable chardev0 /\ (Device_Open chardev0 = 0 \/ Device_Open chardev0 = 1).
Proof.
  split; [apply rtc_refl|]. exact (proj1 (device_open_exclusive chardev0 (rtc_refl cd_step chardev0))).
Defined.

Lemma device_open_races_witness : exists s1 s2, open_step chardev0 Entering s1 (Answered 0) /\ open_step s1 Entering s2 (Answered 0) /\ Device_Open s2 = 2.
Proof.
  destruct (device_open_races chardev0 (rtc_refl cd_step chardev0) eq_refl) as (s1 & s2 & _ & H1 & H2 & H3 & _).
  exists s1, s2. split; [exact H1|]. split; [exact H2|exact H3].
Defined.

Lemma device_reads_message_witness :
  exists s1 l s2, device_open chardev0 = Some (0, s1) /\ counter s1 = s32 (counter chardev0 + 1) /\
    device_reads s1 [10; 60] = Some (l, s2) /\ concat l = take 70 (message 0).
Proof.
  refine (device_reads_message chardev0 [10; 60] (rtc_refl cd_step chardev0) eq_refl _).
  constructor; [lia|]. constructor; [lia|]. constructor.
Defined.

(** The second process that opens the device, and the second message. *)
Example device_evaluates :
  (s1 ← device_open chardev0; s2 ← device_open s1.2; Some s2.1) = Some (- EBUSY) /\
  (s1 ← device_open chardev0; s2 ← device_open (device_release s1.2).2; r ← device_read s2.2 80; Some r.1.2) =
    Some (str "I already told you 1 times Hello world!" ++ [NL]).
Proof. vm_compute. done. Qed.
