(* ===== verification/UserPath.v ===== *)
(** * Path names in user memory (home_hack/home_hack.c, syscall/syscall.c)

    [replace_path_if_necessary], which moves the home directories of a
    honeypot node below /j/<node> by writing a prefix in front of the string
    the process passed, and [restore_path], which undoes it; and the spying
    [our_sys_open], which prints the name before it calls the original. Each byte
    of user memory may be mapped or not, and writable or not. *)
From S2P Require Import Prelude Format Names.

Section UserPath.
Context `{Arch}.

(** User memory: the mapped bytes, and whether the process may write them.
    Addresses are of type [unsigned long]. A faulting [get_user] yields 0, a
    faulting [put_user] does nothing; the code looks at neither's result. *)
Abbreviation umem := (gmap Z (Z * bool)).

Definition get_user (m : umem) (a : Z) : Z := match m !! ulong a with Some (c, _) => c | None => 0 end.
Definition put_user (m : umem) (a v : Z) : umem :=
  match m !! ulong a with Some (_, true) => <[ulong a := (v, true)]> m | _ => m end.

Fixpoint get_users (m : umem) (a : Z) (n : nat) : bytes :=
  match n with O => [] | S n => get_user m a :: get_users m (a + 1) n end.
Fixpoint put_users (m : umem) (a : Z) (l : bytes) : umem :=
  match l with [] => m | c :: l => put_users (put_user m a c) (a + 1) l end.

(** [strncmp(a, b, n) == 0]; a missing byte stands for the final NUL. *)
Fixpoint strncmp_eq (a b : bytes) (n : nat) : bool :=
  match n with
  | O => true
  | S n =>
      let x := hd 0 a in let y := hd 0 b in
      if negb (x =? y) then false else if x =? 0 then true else strncmp_eq (tl a) (tl b) n
  end.

Definition HOMEDIR_PREFIX : bytes := str "/home/".
Definition BACKUP_LEN : nat := 8.

(** What the code keeps in the current task. *)
Record hp_task := HpTask { hp_node : Z; hp_buf : bytes }.

(** [snprintf(tmp_buf, 12, "/j/%05ld", current->hp_node)]. *)
Definition node_text (node : Z) : bytes := (snprintf 12 (str "/j/" ++ fmt_0d 5 node)).1.

Definition replace_path_if_necessary (m : umem) (current : hp_task) (filename : Z) : option Z * hp_task * umem :=
  let filename_prefix := get_users m filename 12 in
  if negb (strncmp_eq filename_prefix HOMEDIR_PREFIX (length HOMEDIR_PREFIX)) then (None, current, m)
  else
    let current := HpTask (hp_node current) (get_users m (filename - 8) BACKUP_LEN) in
    let tmp_buf := node_text (hp_node current) in
    (Some (ulong (filename - 8)), current, put_users m (filename - 8) (take BACKUP_LEN tmp_buf)).

Definition restore_path (m : umem) (current : hp_task) (filename : Z) : umem :=
  put_users m (filename - 8) (take BACKUP_LEN (hp_buf current)).

(** [our_sys_open] of syscall.c: the characters printed by the loop; [fuel]
    bounds its rounds. *)
Fixpoint print_name (fuel : nat) (m : umem) (filename i : Z) : option bytes :=
  match fuel with
  | O => None
  | S fuel =>
      let ch := get_user m (filename + i) in
      if ch =? 0 then Some [ch] else l ← print_name fuel m filename (s32 (i + 1)); Some (ch :: l)
  end.

(** What is printed, and the result. [original_call] is the function that was
    in the table before; [label] is how the line starts. *)
Definition spying_open (label : bytes) (original_call : Z -> Z -> Z -> Z) (uid cred_uid : Z) (fuel : nat) (m : umem)
    (filename flags mode : Z) : option (bytes * Z) :=
  text ← (if uid =? cred_uid then
            l ← print_name fuel m filename 0;
            Some (label ++ fmt_d uid ++ str ": " ++ l ++ [NL])
          else Some []);
  Some (text, original_call filename flags mode).

(** [our_sys_open] of syscall.c, which looks at [current->cred->uid], and of
    kmap.c, which looks at [current->uid]. *)
Definition our_sys_open := spying_open (str "1: Opened file by ").
Definition kmap_our_sys_open := spying_open (str "Opened file by ").

(** ** Lemmas: user memory *)

Lemma ulong_apart a b : 0 < a - b < 2 ^ BITS_PER_LONG -> ulong a <> ulong b.
Proof.
  unfold ulong. intros Hab He. assert (Hm : (a - b) mod 2 ^ BITS_PER_LONG = 0) by (rewrite Zminus_mod, He, Z.sub_diag; done).
  rewrite Z.mod_small in Hm; lia.
Qed.

Lemma word_size : 2 ^ 32 <= 2 ^ BITS_PER_LONG.
Proof. by destruct bits_per_long_ok as [-> | ->]. Qed.

(** What a write leaves at an address. *)
Definition written (v : Z) (c : option (Z * bool)) : option (Z * bool) :=
  match c with Some (_, true) => Some (v, true) | c => c end.

Lemma put_user_same m a v : put_user m a v !! ulong a = written v (m !! ulong a).
Proof. unfold put_user. destruct (m !! ulong a) as [[c []]|] eqn:E; cbn; [by rewrite lookup_insert_eq|done..]. Qed.

Lemma put_user_other m a v b : b <> ulong a -> put_user m a v !! b = m !! b.
Proof. intros Hb. unfold put_user. destruct (m !! ulong a) as [[c []]|]; [by rewrite lookup_insert_ne by congruence|done..]. Qed.

Lemma put_users_other l : forall m a b, (forall i, 0 <= i < len l -> b <> ulong (a + i)) -> put_users m a l !! b = m !! b.
Proof.
  induction l as [|c l IH]; intros m a b Hb; cbn [put_users]; [done|]. rewrite len_cons in Hb. pose proof (len_nonneg l).
  rewrite IH; [apply put_user_other|].
  - intros He. apply (Hb 0); [lia|]. by rewrite Z.add_0_r.
  - intros i Hi He. apply (Hb (i + 1)); [lia|]. rewrite He. f_equal. lia.
Qed.

Lemma put_users_same l : forall m a i c, len l <= 2 ^ BITS_PER_LONG -> l !! i = Some c ->
  put_users m a l !! ulong (a + Z.of_nat i) = written c (m !! ulong (a + Z.of_nat i)).
Proof.
  induction l as [|d l IH]; intros m a i c Hl Hi; [done|]. cbn [put_users]. rewrite len_cons in Hl. pose proof (len_nonneg l).
  destruct i as [|i]; cbn [lookup list_lookup] in Hi.
  - injection Hi as ->. rewrite put_users_other, Z.add_0_r; [apply put_user_same|].
    intros j Hj He. symmetry in He. revert He. apply ulong_apart. lia.
  - replace (a + Z.of_nat (S i)) with (a + 1 + Z.of_nat i) by lia. rewrite (IH _ (a + 1) i c) by (done || lia).
    pose proof (lookup_lt_Some _ _ _ Hi). rewrite put_user_other; [done|]. apply ulong_apart. unfold len in Hl. lia.
Qed.

Lemma length_get_users m n : forall a, length (get_users m a n) = n.
Proof. induction n as [|n IH]; intros a; cbn; [done|]. by rewrite IH. Qed.

Lemma get_users_lookup m n : forall a i, (i < n)%nat -> get_users m a n !! i = Some (get_user m (a + Z.of_nat i)).
Proof.
  induction n as [|n IH]; intros a i Hi; [lia|]. cbn [get_users]. destruct i as [|i].
  - cbn. by rewrite Z.add_0_r.
  - change ((get_user m a :: get_users m (a + 1) n) !! S i) with (get_users m (a + 1) n !! i). rewrite IH by lia. do 2 f_equal. lia.
Qed.

Lemma take_get_users m a n k : (n <= k)%nat -> take n (get_users m a k) = get_users m a n.
Proof.
  revert a k. induction n as [|n IH]; intros a k Hk; [done|]. destruct k as [|k]; [lia|]. cbn. f_equal. apply IH. lia.
Qed.

Lemma get_users_app m a n k : get_users m a (n + k) = get_users m a n ++ get_users m (a + Z.of_nat n) k.
Proof.
  revert a. induction n as [|n IH]; intros a; cbn [Nat.add get_users app].
  - by rewrite Z.add_0_r.
  - f_equal. rewrite IH. do 2 f_equal. lia.
Qed.

(** What was backed up comes back, whatever can be read or written. *)
Lemma written_back v m b : written (match m !! b with Some (c, _) => c | None => 0 end) (written v (m !! b)) = (m : umem) !! b.
Proof. by destruct (m !! b) as [[c []]|]. Qed.

Lemma put_users_restore l m a : len l <= 2 ^ BITS_PER_LONG -> put_users (put_users m a l) a (get_users m a (length l)) = m.
Proof.
  intros Hl. apply map_eq. intros b. assert (Hg : len (get_users m a (length l)) = len l) by (unfold len; by rewrite length_get_users).
  destruct (decide (Exists (fun i => b = ulong (a + Z.of_nat i)) (seq 0 (length l)))) as [Hin|Hno].
  - apply Exists_exists in Hin as (i & Hi%elem_of_seq & ->). destruct (lookup_lt_is_Some_2 l i ltac:(lia)) as [c Hc].
    rewrite (put_users_same _ _ _ i (get_user m (a + Z.of_nat i))); [|by rewrite Hg|apply get_users_lookup; lia].
    rewrite (put_users_same l m a i c Hl Hc). apply written_back.
  - assert (Hout : forall i, 0 <= i < len l -> b <> ulong (a + i)).
    { intros i Hi ->. apply Hno, Exists_exists. exists (Z.to_nat i). unfold len in Hi. rewrite elem_of_seq, Z2Nat.id by lia. split; [lia|done]. }
    rewrite put_users_other by (by rewrite Hg). by apply put_users_other.
Qed.

(** Reading over what was written where everything can be written, and on. *)
Definition writable (m : umem) (a : Z) : Prop := exists c, m !! ulong a = Some (c, true).

Lemma get_users_put_users l m a : len l <= 2 ^ BITS_PER_LONG -> (forall i, 0 <= i < len l -> writable m (a + i)) ->
  get_users (put_users m a l) a (length l) = l.
Proof.
  intros Hl Hm. apply list_eq. intros i. destruct (l !! i) as [c|] eqn:Hc.
  - pose proof (lookup_lt_Some _ _ _ Hc). rewrite get_users_lookup by done. unfold get_user.
    rewrite (put_users_same l m a i c Hl Hc). destruct (Hm (Z.of_nat i)) as [x ->]; [unfold len; lia|done].
  - apply lookup_ge_None in Hc. apply lookup_ge_None. by rewrite length_get_users.
Qed.

Lemma get_users_put_users_after l m a k : len l + Z.of_nat k <= 2 ^ BITS_PER_LONG ->
  get_users (put_users m a l) (a + len l) k = get_users m (a + len l) k.
Proof.
  intros Hk. apply list_eq. intros i. destruct (decide (i < k)%nat) as [Hi|Hi].
  - rewrite !get_users_lookup by done. unfold get_user. rewrite put_users_other; [done|]. intros j Hj. apply ulong_apart. lia.
  - rewrite !lookup_ge_None_2; [done|rewrite length_get_users; lia..].
Qed.

(** ** Lemmas: texts *)

(** Against a string of [n] bytes other than NUL, [strncmp] compares the first
    [n] bytes. *)
Lemma strncmp_prefix b : Forall (fun c => c <> 0) b -> forall a, strncmp_eq a b (length b) = true <-> take (length b) a = b.
Proof.
  induction 1 as [|y b Hy _ IH]; intros a; [done|]. cbn [strncmp_eq length hd tl]. destruct a as [|x a]; cbn [hd tl take].
  - destruct (Z.eqb_spec 0 y); [congruence|]. done.
  - destruct (Z.eqb_spec x y) as [->|Hne]; cbn [negb].
    + destruct (Z.eqb_spec y 0); [done|]. rewrite IH. split; [by intros ->|by intros [= ->]].
    + split; [done|]. by intros [= ].
Qed.

Lemma home_test m filename :
  strncmp_eq (get_users m filename 12) HOMEDIR_PREFIX (length HOMEDIR_PREFIX) = true <-> get_users m filename 6 = str "/home/".
Proof.
  rewrite strncmp_prefix by (repeat constructor; discriminate). change (length HOMEDIR_PREFIX) with 6%nat.
  by rewrite take_get_users by lia.
Qed.

Lemma dec_value_zero_pad w n : 0 <= n -> dec_value (zero_pad w (digits 10 n)) = n.
Proof.
  intros Hn. unfold zero_pad, dec_value. rewrite fold_left_app.
  assert (Hz : forall k, fold_left (fun n c => n * 10 + digit_value c) (replicate k 48) 0 = 0) by (by induction k).
  rewrite Hz. by apply dec_value_digits.
Qed.

Lemma len_digits_pad n : 0 <= n < 100000 -> len (zero_pad 5 (digits 10 n)) = 5.
Proof.
  intros Hn. rewrite len_zero_pad. pose proof (len_digits_bound 10 n 5 ltac:(lia) ltac:(lia) ltac:(lia)). lia.
Qed.

(** What is written in front of a path: the first eight bytes of the text, which
    is never shorter. *)
Definition directory (node : Z) : bytes := take 8 (str "/j/" ++ fmt_0d 5 node).

Lemma directory_text node : take BACKUP_LEN (node_text node) = directory node.
Proof. unfold node_text, snprintf, directory, ztake. cbn [fst]. by rewrite take_take. Qed.

Lemma length_directory node : length (directory node) = 8%nat.
Proof.
  unfold directory. rewrite length_take, length_app. change (length (str "/j/")) with 3%nat.
  assert (5 <= length (fmt_0d 5 node))%nat; [|lia]. unfold fmt_0d.
  pose proof (len_zero_pad (5 - 1) (digits 10 (- node))) as H1. pose proof (len_zero_pad 5 (digits 10 node)) as H2.
  destruct (node <? 0); cbn [length]; unfold len in *; lia.
Qed.

(** For a node number of up to five digits it is the whole text. *)
Lemma directory_small n : 0 <= n < 100000 -> directory n = str "/j/" ++ zero_pad 5 (digits 10 n).
Proof.
  intros Hn. pose proof (len_digits_pad n Hn) as Hl. unfold directory, fmt_0d. destruct (Z.ltb_spec n 0); [lia|].
  apply take_ge. rewrite length_app. change (length (str "/j/")) with 3%nat. unfold len in Hl. lia.
Qed.

(** ** Properties *)

(** C33: A path is rewritten exactly when it starts with "/home/". Then the
    answer is the address eight bytes earlier; the eight bytes there are saved
    in the task, a byte that is not mapped as NUL; each of them that is mapped
    and writable, and no other byte of memory, is replaced by that of the
    node's directory, the first eight bytes of "/j/%05ld". If all eight are
    writable, the new string is the directory followed by the old path byte for
    byte; and for the nodes from 0 to 99999 the directory is "/j/" and five
    digits. *)
Theorem replace_path_spec m current filename :
  let '(r, current', m') := replace_path_if_necessary m current filename in
  if decide (get_users m filename 6 = str "/home/") then
    r = Some (ulong (filename - 8)) /\
    hp_buf current' = get_users m (filename - 8) 8 /\ hp_node current' = hp_node current /\
    (forall i c, directory (hp_node current) !! i = Some c ->
       m' !! ulong (filename - 8 + Z.of_nat i) = written c (m !! ulong (filename - 8 + Z.of_nat i))) /\
    (forall b, (forall i, 0 <= i < 8 -> b <> ulong (filename - 8 + i)) -> m' !! b = m !! b) /\
    (forall k, 8 + Z.of_nat k <= 2 ^ BITS_PER_LONG -> (forall i, 0 <= i < 8 -> writable m (filename - 8 + i)) ->
       get_users m' (filename - 8) (8 + k) = directory (hp_node current) ++ get_users m filename k) /\
    length (directory (hp_node current)) = 8%nat /\
    (0 <= hp_node current < 100000 -> directory (hp_node current) = str "/j/" ++ zero_pad 5 (digits 10 (hp_node current)))
  else r = None /\ current' = current /\ m' = m.
Proof.
  unfold replace_path_if_necessary. pose proof (home_test m filename) as Ht. pose proof word_size.
  destruct (strncmp_eq _ _ _), (decide (get_users m filename 6 = str "/home/")) as [e|e]; cbn [negb]; try tauto;
    [|by apply Ht in e].
  clear Ht e. cbn [hp_buf hp_node]. rewrite directory_text. set (l := directory (hp_node current)).
  assert (Hlen : length l = 8%nat) by apply length_directory. assert (Hl : len l = 8) by (unfold len; lia).
  split_and!; try done.
  - intros i c Hc. apply put_users_same; [lia|done].
  - intros b Hb. apply put_users_other. by rewrite Hl.
  - intros k Hk Hm. rewrite <- Hlen, get_users_app, get_users_put_users by (rewrite ?Hl; done || lia). rewrite Hlen.
    f_equal. pose proof (get_users_put_users_after l m (filename - 8) k) as Ha. rewrite Hl in Ha.
    change (Z.of_nat 8) with 8. rewrite Ha by lia. f_equal. lia.
  - apply directory_small.
Qed.

(** C34: [restore_path] undoes [replace_path_if_necessary] exactly: whatever
    the task's node is - a task without a node has -1 - and whichever of the
    eight bytes in front of the path are mapped or writable. *)
Theorem restore_path_undoes_replace m current filename :
  let '(r, current', m') := replace_path_if_necessary m current filename in
  r <> None -> restore_path m' current' filename = m.
Proof.
  unfold replace_path_if_necessary. destruct (negb _); [done|]. intros _. unfold restore_path. cbn [hp_buf hp_node].
  rewrite directory_text, take_get_users by lia. pose proof (length_directory (hp_node current)) as Hl. unfold BACKUP_LEN.
  rewrite <- Hl. apply put_users_restore. unfold len. rewrite Hl. pose proof word_size. lia.
Qed.

(** Two nodes with more than five digits share a directory. *)
Lemma node_text_collision : take BACKUP_LEN (node_text 123456) = take BACKUP_LEN (node_text 12345).
Proof. vm_compute. reflexivity. Qed.

(** Up to 99999 every node has a directory of its own; from six digits on
    the eight bytes that are written cut the number, and the node gets the
    directory of another one. *)
Theorem node_directories_distinct :
  (forall n n', 0 <= n < 100000 -> 0 <= n' < 100000 ->
     take BACKUP_LEN (node_text n) = take BACKUP_LEN (node_text n') -> n = n') /\
  take BACKUP_LEN (node_text 123456) = take BACKUP_LEN (node_text 12345).
Proof.
  split; [|exact node_text_collision]. intros n n' Hn Hn'.
  rewrite !directory_text, !directory_small by done. intros He%app_inv_head.
  by rewrite <- (dec_value_zero_pad 5 n), <- (dec_value_zero_pad 5 n'), He by lia.
Qed.

Lemma print_name_spec m filename s : forall fuel i, Forall (fun c => c <> 0) s -> 0 <= i -> i + len s < 2 ^ 31 ->
  get_users m (filename + i) (S (length s)) = s ++ [0] -> (length s < fuel)%nat ->
  print_name fuel m filename i = Some (s ++ [0]).
Proof.
  induction s as [|c s IH]; intros [|fuel] i Hs Hi Hl Hm Hf; try lia; cbn [length get_users app] in Hm;
    cbn [print_name]; [by injection Hm as ->|]. injection Hm as Hc Hr. rewrite Hc.
  apply Forall_cons in Hs as [Hc0 Hs]. rewrite len_cons in Hl. pose proof (len_nonneg s).
  destruct (Z.eqb_spec c 0); [done|]. rewrite s32_small by lia.
  rewrite (IH fuel (i + 1)); [done|done|lia|lia| |cbn in Hf; lia]. rewrite <- Hr. cbn [get_users]. by rewrite Z.add_assoc.
Qed.

(** The spying [open] is transparent: for every user it calls the
    original with the arguments it was given and returns its result; and when
    the user is the one spied on it first prints the whole name the process
    passed, reading no further than its NUL. *)
Lemma spying_open_transparent label original_call uid cred_uid fuel m filename flags mode s :
  Forall (fun c => c <> 0) s -> len s < 2 ^ 31 -> get_users m filename (S (length s)) = s ++ [0] -> (length s < fuel)%nat ->
  spying_open label original_call uid cred_uid fuel m filename flags mode =
    Some (if uid =? cred_uid then label ++ fmt_d uid ++ str ": " ++ s ++ [0; NL] else [],
          original_call filename flags mode).
Proof.
  intros Hs Hl Hm Hf. unfold spying_open. destruct (uid =? cred_uid); [|done].
  rewrite (print_name_spec m filename s); [|done|lia|lia|by rewrite Z.add_0_r|done]. cbn. by rewrite <- !app_assoc.
Qed.

(** In both modules. *)
Theorem our_sys_open_transparent original_call uid cred_uid fuel m filename flags mode s :
  Forall (fun c => c <> 0) s -> len s < 2 ^ 31 -> get_users m filename (S (length s)) = s ++ [0] -> (length s < fuel)%nat ->
  let text label := if uid =? cred_uid then label ++ fmt_d uid ++ str ": " ++ s ++ [0; NL] else [] in
  our_sys_open original_call uid cred_uid fuel m filename flags mode =
    Some (text (str "1: Opened file by "), original_call filename flags mode) /\
  kmap_our_sys_open original_call uid cred_uid fuel m filename flags mode =
    Some (text (str "Opened file by "), original_call filename flags mode).
Proof. intros Hs Hl Hm Hf text. by split; apply spying_open_transparent. Qed.

End UserPath.

(** ** Witnesses *)

(** "/home/u" at address 100, with mapped memory around it, which can be written
    from address [from] on. *)
Definition path_mem (from : Z) : gmap Z (Z * bool) :=
  list_to_map ((fun e : Z * Z => (e.1, (e.2, from <=? e.1))) <$>
    zip ((fun i => Z.of_nat i) <$> seq 80 40) (replicate 20 1 ++ str "/home/u" ++ replicate 13 0)).

Lemma path_mem_writable i : 0 <= i < 8 -> @writable arch32 (path_mem 80) (100 - 8 + i).
Proof.
  intros Hi. assert (Hin : In i [0; 1; 2; 3; 4; 5; 6; 7]) by (cbn; lia).
  repeat (destruct Hin as [<-|Hin]; [eexists; vm_compute; reflexivity|]). destruct Hin.
Qed.

Example replace_path_evaluates :
  @get_users arch32 (@replace_path_if_necessary arch32 (path_mem 80) (HpTask 12 []) 100).2 92 15 = str "/j/00012/home/u" /\
  @get_users arch32 (@replace_path_if_necessary arch32 (path_mem 80) (HpTask (-1) []) 100).2 92 15 = str "/j/-0001/home/u" /\
  @get_users arch32 (@replace_path_if_necessary arch32 (path_mem 96) (HpTask 12 []) 100).2 92 15 = [1; 1; 1; 1] ++ str "0012/home/u".
Proof. vm_compute. repeat split. Qed.

Lemma replace_path_spec_witness :
  let m' := (@replace_path_if_necessary arch32 (path_mem 80) (HpTask 12 []) 100).2 in
  @get_users arch32 m' 92 15 = str "/j/00012/home/u" /\ m' !! 91 = Some (1, true) /\ m' !! 99 = Some (50, true).
Proof.
  pose proof (@replace_path_spec arch32 (path_mem 80) (HpTask 12 []) 100) as H.
  destruct (@replace_path_if_necessary arch32 (path_mem 80) (HpTask 12 []) 100) as [[r c'] m'].
  rewrite decide_True in H by (vm_compute; reflexivity). destruct H as (_ & _ & _ & Hin & Hout & Hget & _ & Hdir). cbn [snd hp_node] in *.
  split; [|split].
  - specialize (Hget 7%nat ltac:(discriminate) path_mem_writable). rewrite Hdir in Hget by (split; [discriminate|reflexivity]). exact Hget.
  - rewrite Hout; [vm_compute; reflexivity|]. intros i Hi. replace (@ulong arch32 (100 - 8 + i)) with (92 + i); [lia|].
    symmetry. apply (@ulong_small arch32). change (@BITS_PER_LONG arch32) with 32. lia.
  - specialize (Hin 7%nat 50 ltac:(vm_compute; reflexivity)). exact Hin.
Defined.

Lemma restore_path_undoes_replace_witness :
  let '(r, current', m') := @replace_path_if_necessary arch32 (path_mem 96) (HpTask (-1) []) 100 in
  @restore_path arch32 m' current' 100 = path_mem 96.
Proof.
  refine (@restore_path_undoes_replace arch32 (path_mem 96) (HpTask (-1) []) 100 _). vm_compute. discriminate.
Defined.

Lemma our_sys_open_transparent_witness :
  @our_sys_open arch32 (fun f _ _ => f + 1) 7 7 20 (path_mem 80) 100 0 0 =
    Some (str "1: Opened file by 7: /home/u" ++ [0; NL], 101).
Proof.
  refine (proj1 (@our_sys_open_transparent arch32 (fun f _ _ => f + 1) 7 7 20 (path_mem 80) 100 0 0 (str "/home/u") _ _ _ _)).
  - repeat constructor; discriminate.
  - reflexivity.
  - vm_compute. reflexivity.
  - cbn. lia.
Defined.
