(* ===== verification/CallTable.v ===== *)
(** * Replacing functions (home_hack, syscall, proc_hack, kmap)

    The modules store a function of their own in a slot - an entry of the
    system call table, or [honeypot_hooks.in_proc_pid_readdir] -, remember what
    was there, and put it back when they are removed, unless somebody else has
    replaced it in the meantime. [home_hack] does this for seven system calls,
    generated by the macros MAKE_REPLACE_SYSCALL, ADD_HOOK_SYS and
    CLEANUP_SYSCALL; [kmap] finds the table by its symbol and writes through a
    second mapping of a page: its memory is words by page and offset, seen
    through a page table. *)
From S2P Require Import Prelude.

(** The system call table: the address stored at every number. *)
Notation table := (gmap Z Z).

(** ** home_hack/home_hack.c *)

Inductive hacked := open | chdir | stat | stat64 | lstat64 | unlink | ioctl.

#[export] Instance hacked_eq_dec : EqDecision hacked.
Proof. solve_decision. Defined.

Section HomeHack.
(** [__NR_##call] of the architecture, and the addresses of the wrappers. *)
Context (NR : hacked -> Z) (wrapper : hacked -> Z).

Record home := Home { sys_call_table : table; original : hacked -> Z }.

(** MAKE_REPLACE_SYSCALL(call). *)
Definition add_hook_sys (call : hacked) (s : home) : Z * home :=
  let s := Home (sys_call_table s) (fun c => if decide (c = call) then sys_call_table s !!! NR call else original s c) in
  let s := Home (<[NR call := wrapper call]> (sys_call_table s)) (original s) in
  if negb (sys_call_table s !!! NR call =? wrapper call) then (-1, s) else (0, s).

(** The ADD_HOOK_SYS lines of [init_module], in order. *)
Fixpoint add_hooks (calls : list hacked) (s : home) : Z * home :=
  match calls with
  | [] => (0, s)
  | call :: calls =>
      let '(r, s) := add_hook_sys call s in
      if negb (r =? 0) then (-1, s) else add_hooks calls s
  end.

(** CLEANUP_SYSCALL(call). *)
Definition cleanup_syscall (call : hacked) (s : home) : home :=
  if negb (sys_call_table s !!! NR call =? wrapper call) then s
  else Home (<[NR call := original s call]> (sys_call_table s)) (original s).

Definition the_calls : list hacked := [open; chdir; stat; stat64; lstat64; unlink; ioctl].

(** The end of [init_module], and [cleanup_module]. *)
Definition hook_all (s : home) : Z * home := add_hooks the_calls s.
Definition cleanup_all (s : home) : home := foldl (fun s call => cleanup_syscall call s) s the_calls.

Lemma hook_all_table (HNR : Inj (=) (=) NR) calls : NoDup calls -> forall s,
  let '(r, s') := add_hooks calls s in
  r = 0 /\ (forall c, c ∈ calls -> sys_call_table s' !!! NR c = wrapper c /\ original s' c = sys_call_table s !!! NR c) /\
  (forall c, c ∉ calls -> original s' c = original s c) /\
  (forall k, (forall c, c ∈ calls -> k <> NR c) -> sys_call_table s' !!! k = sys_call_table s !!! k).
Proof.
  induction 1 as [|call calls Hnin Hnd IH]; intros s; cbn [add_hooks]; [by split_and!; [|intros c ?%elem_of_nil| |]|].
  unfold add_hook_sys. cbn [sys_call_table original]. rewrite lookup_total_insert_eq, Z.eqb_refl. cbn [negb].
  set (s1 := Home _ _). specialize (IH s1). destruct (add_hooks calls s1) as [r s2]. destruct IH as (Hr & Hin & Hout & Hk).
  split; [done|]. split_and!.
  - intros c [->|Hc]%elem_of_cons.
    + rewrite Hk, Hout by (done || intros c Hc Heq%HNR; congruence). cbn. by rewrite lookup_total_insert_eq, decide_True.
    + destruct (Hin c Hc) as [H1 H2]. split; [done|]. rewrite H2. cbn.
      rewrite lookup_total_insert_ne; [done|]. intros Heq%HNR. congruence.
  - intros c [Hne Hc]%not_elem_of_cons. rewrite Hout by done. cbn. by rewrite decide_False.
  - intros k Hkk. rewrite Hk by (intros c Hc; apply Hkk; by right). cbn. rewrite lookup_total_insert_ne; [done|].
    intros Heq. by apply (Hkk call); [left|].
Qed.

Lemma cleanup_all_table (HNR : Inj (=) (=) NR) calls : NoDup calls -> forall s,
  let s' := foldl (fun s call => cleanup_syscall call s) s calls in
  original s' = original s /\
  (forall c, c ∈ calls -> sys_call_table s' !!! NR c =
     if sys_call_table s !!! NR c =? wrapper c then original s c else sys_call_table s !!! NR c) /\
  (forall k, (forall c, c ∈ calls -> k <> NR c) -> sys_call_table s' !!! k = sys_call_table s !!! k).
Proof.
  induction 1 as [|call calls Hnin Hnd IH]; intros s; cbn [foldl]; [by split_and!; [|intros c ?%elem_of_nil|]|].
  specialize (IH (cleanup_syscall call s)). cbv zeta in IH. destruct IH as (Ho & Hin & Hk).
  assert (Ho1 : original (cleanup_syscall call s) = original s) by (unfold cleanup_syscall; by destruct (negb _)).
  assert (Hother : forall k, k <> NR call -> sys_call_table (cleanup_syscall call s) !!! k = sys_call_table s !!! k).
  { intros k Hne. unfold cleanup_syscall. destruct (negb _); [done|]. cbn. by rewrite lookup_total_insert_ne. }
  split; [congruence|]. split.
  - intros c [->|Hc]%elem_of_cons.
    + rewrite Hk by (intros c Hc Heq%HNR; congruence). unfold cleanup_syscall.
      destruct (_ =? _) eqn:E; cbn [negb]; [cbn; by rewrite lookup_total_insert_eq|done].
    + rewrite (Hin c Hc), Ho1. assert (Hne : NR c <> NR call) by (intros Heq%HNR; congruence). by rewrite (Hother _ Hne).
  - intros k Hkk. rewrite Hk by (intros c Hc; apply Hkk; by right). apply Hother. apply Hkk. by left.
Qed.

Lemma the_calls_nodup : NoDup the_calls.
Proof. apply (bool_decide_unpack _). vm_compute. done. Qed.

Lemma the_calls_all c : c ∈ the_calls.
Proof. apply (bool_decide_unpack _). by destruct c; vm_compute. Qed.

(** C29: Loading and removing home_hack: loading succeeds and puts a wrapper
    in each of the seven entries and nowhere else; if others have changed the
    table to [t] in between, removing restores the entries that still hold
    the wrapper to what they were before loading and keeps every entry that
    somebody else has replaced. In particular an undisturbed table comes back
    as it was. *)
Theorem home_hack_restores_table (s : home) (t : table) : Inj (=) (=) NR ->
  let '(r, s1) := hook_all s in
  let s2 := cleanup_all (Home t (original s1)) in
  r = 0 /\
  (forall c, sys_call_table s1 !!! NR c = wrapper c) /\
  (forall k, (forall c, k <> NR c) -> sys_call_table s1 !!! k = sys_call_table s !!! k) /\
  (forall c, sys_call_table s2 !!! NR c =
     if t !!! NR c =? wrapper c then sys_call_table s !!! NR c else t !!! NR c) /\
  (forall k, (forall c, k <> NR c) -> sys_call_table s2 !!! k = t !!! k).
Proof.
  intros HNR. pose proof (hook_all_table HNR the_calls the_calls_nodup s) as H1. unfold hook_all.
  destruct (add_hooks the_calls s) as [r s1]. destruct H1 as (Hr & Hin & _ & Hk).
  pose proof (cleanup_all_table HNR the_calls the_calls_nodup (Home t (original s1))) as (_ & Hin2 & Hk2).
  fold (cleanup_all (Home t (original s1))) in Hin2, Hk2. cbn [sys_call_table original] in Hin2, Hk2.
  split; [done|]. split; [intros c; apply Hin, the_calls_all|]. split; [intros k H; apply Hk; auto|].
  split; [|intros k H; apply Hk2; auto]. intros c. rewrite Hin2 by apply the_calls_all.
  by rewrite (proj2 (Hin c (the_calls_all c))).
Qed.
End HomeHack.

(** ** syscall/syscall.c and proc_hack/proc_hack.c: one slot

    The slot, and what each loaded module remembers. In syscall.c the slot is
    [sys_call_table[__NR_open]] and the function [our_sys_open]; in
    proc_hack.c it is [honeypot_hooks.in_proc_pid_readdir] and the function
    [func_proc_pid_readdir]. *)
Record slot := Slot { installed : Z; saved : gmap Z Z }.

(** [init_module] of the module whose function is [f]. *)
Definition install (f : Z) (s : slot) : slot := Slot f (<[f := installed s]> (saved s)).

(** [cleanup_module]. *)
Definition uninstall (f : Z) (s : slot) : slot :=
  if negb (installed s =? f) then s else Slot (saved s !!! f) (saved s).

(** What [installed] is after a module with function [f] and any number of
    other modules, loaded and removed on top of it, are gone: [nested fs] are
    the functions of those modules, all different. *)
Fixpoint nested (fs : list Z) (s : slot) : slot :=
  match fs with
  | [] => s
  | f :: fs => uninstall f (nested fs (install f s))
  end.

Lemma saved_nested fs : forall s g, g ∉ fs -> saved (nested fs s) !!! g = saved s !!! g.
Proof.
  induction fs as [|f fs IH]; intros s g; cbn [nested]; [done|]. intros [Hne Hg]%not_elem_of_cons. unfold uninstall.
  assert (H : saved (nested fs (install f s)) !!! g = saved s !!! g).
  { rewrite IH by done. cbn. by rewrite lookup_total_insert_ne. }
  by destruct (negb _).
Qed.

(** Modules that share a slot and are removed in the reverse order of
    their loading leave it as they found it; but if the one loaded first is
    removed first, it does not notice that its function was already saved by
    the second: the slot ends up with the function of a module that is gone. *)
Theorem modules_restore_slot_in_reverse_order fs s :
  NoDup fs -> installed (nested fs s) = installed s /\
  forall f g, f <> g -> installed (uninstall g (uninstall f (install g (install f s)))) = f.
Proof.
  intros Hnd. split.
  - revert s. induction Hnd as [|f fs Hf Hnd IH]; intros s; cbn [nested]; [done|]. unfold uninstall. rewrite IH. cbn [install installed].
    rewrite Z.eqb_refl. cbn [negb installed]. rewrite saved_nested by done. cbn. by rewrite lookup_total_insert_eq.
  - intros f g Hne. unfold uninstall, install. cbn [installed saved]. destruct (Z.eqb_spec g f); [congruence|]. cbn [negb installed saved].
    rewrite Z.eqb_refl. cbn [negb installed]. by rewrite lookup_total_insert_eq.
Qed.

(** ** kmap/kmap.c *)

Section Kmap.
Context `{Arch}.
(** [kallsyms_lookup_name("sys_call_table")] and [__NR_open], the address of
    [our_sys_open]; [virt_to_page], the page that is computed from an address,
    whether or not the address is one of the kernel's direct mapping; and
    [vmap(&pg, 1, VM_MAP, PAGE_KERNEL)] and [vunmap], on the kernel's page
    table. *)
Context (symbol NR_open our_sys_open : Z) (virt_to_page : Z -> Z).
Context (vmap : gmap Z Z -> Z -> Z * gmap Z Z) (vunmap : gmap Z Z -> Z -> gmap Z Z).

(** The words of memory, by page and offset; the page table, which gives the
    page that each page of addresses shows; and the variables of the module. *)
Record kmap := Kmap { memory : gmap (Z * Z) Z; pages : gmap Z Z; sct : Z; original_call : Z }.

Definition entry_addr (t n : Z) : Z := ulong (t + BITS_PER_LONG / 8 * n).

(** An access to an address; [None] is a fault. *)
Definition word_at (s : kmap) (addr : Z) : option (Z * Z) :=
  pg ← pages s !! (addr / 4096); Some (pg, addr mod 4096).
Definition load (s : kmap) (addr : Z) : option Z := k ← word_at s addr; memory s !! k.
Definition store (addr v : Z) (s : kmap) : option kmap :=
  k ← word_at s addr; _ ← memory s !! k;
  Some (Kmap (<[k := v]> (memory s)) (pages s) (sct s) (original_call s)).

Definition set_pages (ps : gmap Z Z) (s : kmap) : kmap := Kmap (memory s) ps (sct s) (original_call s).

(** The page of [addr] mapped a second time: where, the address of the word
    there, and the state afterwards; that [vmap] may have failed is not looked
    at. *)
Definition through_page (addr : Z) (s : kmap) : Z * Z * kmap :=
  let pg := virt_to_page addr in
  let '(init_target, ps) := vmap (pages s) pg in
  (init_target, ulong (init_target + Z.land addr 4095), set_pages ps s).

Definition kmap_init (s : kmap) : option (Z * kmap) :=
  let open_addr := entry_addr (sct s) NR_open in
  let s := Kmap (memory s) (pages s) symbol (original_call s) in
  if sct s =? 0 then Some (1, s)
  else
    let '(init_target, target, s) := through_page open_addr s in
    original ← load s (entry_addr (sct s) NR_open);
    let s := Kmap (memory s) (pages s) (sct s) original in
    _ ← load s target;
    s ← store target our_sys_open s;
    _ ← load s (entry_addr (sct s) NR_open);
    _ ← load s target;
    let s := set_pages (vunmap (pages s) init_target) s in
    _ ← load s (entry_addr (sct s) NR_open);
    Some (0, s).

Definition kmap_cleanup (s : kmap) : option kmap :=
  let open_addr := entry_addr (sct s) NR_open in
  let '(init_target, target, s) := through_page open_addr s in
  _ ← load s open_addr;
  current ← load s target;
  s ← (if negb (current =? our_sys_open) then Some s else store target (original_call s) s);
  Some (set_pages (vunmap (pages s) init_target) s).

(** *** Lemmas *)

(** What [vmap] may answer: a page of addresses where nothing was. *)
Definition fresh (vm : Z) (ps : gmap Z Z) : Prop :=
  vm <> 0 /\ 0 <= vm /\ vm mod 4096 = 0 /\ vm + 4096 <= 2 ^ BITS_PER_LONG /\ ps !! (vm / 4096) = None.

(** It fails with NULL and maps nothing, or maps the page there; and [vunmap]
    undoes it. *)
Definition vmap_contract : Prop := forall ps pg, let '(vm, ps') := vmap ps pg in
  vm = 0 /\ ps' = ps \/ fresh vm ps /\ ps' = <[vm / 4096 := pg]> ps /\ vunmap ps' vm = ps.

Definition place (addr : Z) : Z * Z := (virt_to_page addr, addr mod 4096).

Lemma load_place s addr pg : pages s !! (addr / 4096) = Some pg -> load s addr = memory s !! (pg, addr mod 4096).
Proof. intros Hp. unfold load, word_at. by rewrite Hp. Qed.

Lemma load_fault s addr : pages s !! (addr / 4096) = None -> load s addr = None.
Proof. intros Hp. unfold load, word_at. by rewrite Hp. Qed.

Lemma store_place s addr v pg x : pages s !! (addr / 4096) = Some pg -> memory s !! (pg, addr mod 4096) = Some x ->
  store addr v s = Some (Kmap (<[(pg, addr mod 4096) := v]> (memory s)) (pages s) (sct s) (original_call s)).
Proof. intros Hp Hm. unfold store, word_at. rewrite Hp. cbn [mbind option_bind]. by rewrite Hm. Qed.

(** The second mapping: where it is, and what it shows. *)
Lemma target_place vm addr (ps : gmap Z Z) : fresh vm ps -> let target := ulong (vm + Z.land addr 4095) in
  target / 4096 = vm / 4096 /\ target mod 4096 = addr mod 4096.
Proof.
  intros (_ & Hvm & Hal & Hmax & _) target. change 4095 with (Z.ones 12) in target. subst target.
  rewrite Z.land_ones by lia. change (2 ^ 12) with 4096. pose proof (Z.mod_pos_bound addr 4096 ltac:(lia)).
  rewrite ulong_small by lia. pose proof (Z.div_mod vm 4096 ltac:(lia)).
  assert (Hv : vm + addr mod 4096 = addr mod 4096 + vm / 4096 * 4096) by lia. rewrite Hv.
  rewrite Z.div_add, Z.mod_add by lia. rewrite Z.mod_mod, (Z.div_small (addr mod 4096)) by lia. lia.
Qed.

(** Which case of the contract it is. *)
Lemma vmap_cases ps pg : vmap_contract ->
  vmap ps pg = (0, ps) \/ exists vm, fresh vm ps /\ vmap ps pg = (vm, <[vm / 4096 := pg]> ps) /\ vunmap (<[vm / 4096 := pg]> ps) vm = ps.
Proof.
  intros Hv. specialize (Hv ps pg). destruct (vmap ps pg) as [vm ps']. destruct Hv as [[-> ->]|(Hf & -> & Hu)]; [by left|].
  right. by exists vm.
Qed.

(** Without a second mapping the target is an address of page 0. *)
Lemma null_target addr (ps : gmap Z Z) : ps !! 0 = None -> ps !! (ulong (0 + Z.land addr 4095) / 4096) = None.
Proof.
  intros Hnull. change 4095 with (Z.ones 12). rewrite Z.land_ones, Z.add_0_l by lia. change (2 ^ 12) with 4096.
  pose proof (Z.mod_pos_bound addr 4096 ltac:(lia)). rewrite ulong_small by (pose proof ulong_pow; lia).
  by rewrite Z.div_small by done.
Qed.

(** [init_module] when the table is mapped and the word it writes to exists;
    [addr] is where the variable pointed. *)
Lemma kmap_init_writes s pg f x : vmap_contract -> symbol <> 0 -> pages s !! 0 = None ->
  let T := entry_addr symbol NR_open in let addr := entry_addr (sct s) NR_open in
  pages s !! (T / 4096) = Some pg -> memory s !! (pg, T mod 4096) = Some f -> memory s !! place addr = Some x ->
  kmap_init s = if (vmap (pages s) (virt_to_page addr)).1 =? 0 then None
    else Some (0, Kmap (<[place addr := our_sys_open]> (memory s)) (pages s) symbol f).
Proof.
  intros Hv Hs Hnull T addr Hpg Hf Hx. unfold kmap_init. fold addr. cbn [sct].
  destruct (Z.eqb_spec symbol 0); [done|]. unfold through_page. cbn [pages].
  destruct (vmap_cases (pages s) (virt_to_page addr) Hv) as [Hm|(vm & Hfresh & Hm & Hu)]; rewrite Hm; unfold set_pages; cbn [fst memory pages sct original_call].
  { rewrite Z.eqb_refl. fold T. rewrite (load_place _ T pg) by done. cbn [memory]. rewrite Hf. cbn [mbind option_bind].
    by rewrite (load_fault _ (ulong _)) by (cbn [pages]; by apply null_target). }
  destruct (target_place vm addr (pages s) Hfresh) as [Hd Hmod]. pose proof Hfresh as (Hv0 & _ & _ & _ & Hnew).
  assert (Hne : vm / 4096 <> T / 4096) by congruence. destruct (Z.eqb_spec vm 0); [done|].
  set (target := ulong _) in *. fold T.
  rewrite (load_place _ T pg) by (cbn [pages]; by rewrite lookup_insert_ne). cbn [memory]. rewrite Hf. cbn [mbind option_bind].
  rewrite (load_place _ target (virt_to_page addr)) by (cbn [pages]; by rewrite Hd, lookup_insert_eq). cbn [memory].
  rewrite Hmod. fold (place addr). rewrite Hx. cbn [mbind option_bind].
  rewrite (store_place _ target _ (virt_to_page addr) x) by (cbn [pages memory]; rewrite ?Hd, ?Hmod; by rewrite ?lookup_insert_eq).
  cbn [mbind option_bind memory pages sct original_call]. rewrite Hmod. fold (place addr).
  set (mem' := <[place addr := our_sys_open]> (memory s)).
  assert (Hsome : is_Some (mem' !! (pg, T mod 4096))) by (apply lookup_insert_is_Some'; right; by exists f).
  destruct Hsome as [y Hy].
  set (s2 := Kmap mem' (<[vm / 4096 := virt_to_page addr]> (pages s)) _ _).
  assert (HT : load s2 T = Some y) by (rewrite (load_place s2 T pg); [done|cbn [s2 pages]; by rewrite lookup_insert_ne]).
  fold T. rewrite HT. cbn [mbind option_bind].
  rewrite (load_place s2 target (virt_to_page addr)) by (cbn [s2 pages]; by rewrite Hd, lookup_insert_eq). cbn [s2 memory].
  rewrite Hmod. fold (place addr). replace (mem' !! place addr) with (Some our_sys_open) by (symmetry; apply lookup_insert_eq).
  cbn [mbind option_bind s2 set_pages memory pages sct original_call]. rewrite Hu. fold T.
  rewrite (load_place _ T pg) by done. cbn [memory]. by rewrite Hy.
Qed.

(** [cleanup_module], likewise. *)
Lemma kmap_cleanup_writes s pg f x : vmap_contract -> pages s !! 0 = None ->
  let addr := entry_addr (sct s) NR_open in
  pages s !! (addr / 4096) = Some pg -> memory s !! (pg, addr mod 4096) = Some f -> memory s !! place addr = Some x ->
  kmap_cleanup s = if (vmap (pages s) (virt_to_page addr)).1 =? 0 then None
    else Some (if x =? our_sys_open then Kmap (<[place addr := original_call s]> (memory s)) (pages s) (sct s) (original_call s) else s).
Proof.
  intros Hv Hnull addr Hpg Hf Hx. destruct s as [mem0 pages0 sct0 oc]. cbn [memory pages sct original_call] in *.
  unfold kmap_cleanup, through_page. cbn [sct pages]. fold addr.
  destruct (vmap_cases pages0 (virt_to_page addr) Hv) as [Hm|(vm & Hfresh & Hm & Hu)]; rewrite Hm; unfold set_pages; cbn [fst memory pages sct original_call].
  { rewrite Z.eqb_refl, (load_place _ addr pg) by done. cbn [memory]. rewrite Hf. cbn [mbind option_bind].
    by rewrite (load_fault _ (ulong _)) by (cbn [pages]; by apply null_target). }
  destruct (target_place vm addr pages0 Hfresh) as [Hd Hmod]. pose proof Hfresh as (Hv0 & _ & _ & _ & Hnew).
  assert (Hne : vm / 4096 <> addr / 4096) by congruence. destruct (Z.eqb_spec vm 0); [done|].
  set (target := ulong _) in *.
  rewrite (load_place _ addr pg) by (cbn [pages]; by rewrite lookup_insert_ne). cbn [memory]. rewrite Hf. cbn [mbind option_bind].
  rewrite (load_place _ target (virt_to_page addr)) by (cbn [pages]; by rewrite Hd, lookup_insert_eq). cbn [memory].
  rewrite Hmod. fold (place addr). rewrite Hx. cbn [mbind option_bind]. destruct (Z.eqb_spec x our_sys_open); cbn [negb].
  - rewrite (store_place _ target _ (virt_to_page addr) x) by (cbn [pages memory]; rewrite ?Hd, ?Hmod; by rewrite ?lookup_insert_eq).
    cbn [mbind option_bind memory pages sct original_call]. rewrite Hmod. fold (place addr).
    unfold set_pages. cbn [memory pages sct original_call]. by rewrite Hu.
  - cbn [mbind option_bind]. unfold set_pages. cbn [memory pages sct original_call]. by rewrite Hu.
Qed.

(** C31: [open_addr] is computed from [sys_call_table] before the symbol is
    looked up. On the first load, with the variable still NULL, the entry of
    [open] in the real table is not replaced; instead exactly one other word is
    overwritten, in the page that [virt_to_page] makes of the address of entry
    [__NR_open] of a table at NULL, and removing the module does not repair it.
    Only a module whose variable already held the table would hook the entry,
    and removing it then restores all memory. And [vmap] is not checked: when it
    fails, loading or removing the module faults. The table is taken to lie in
    the direct mapping, where [virt_to_page] is right, and pages of addresses to
    have pages of their own; the other word to exist, and page 0 not to be
    mapped. *)
Theorem kmap_first_load_misses_table mem0 pages0 oc f x :
  let T := entry_addr symbol NR_open in let wrong := entry_addr 0 NR_open in
  let vmap_fails addr := (vmap pages0 (virt_to_page addr)).1 =? 0 in
  vmap_contract -> symbol <> 0 -> 0 <= symbol -> 0 <= NR_open -> symbol + BITS_PER_LONG / 8 * NR_open < 2 ^ BITS_PER_LONG ->
  (forall a b, 0 <= a < 2 ^ BITS_PER_LONG -> 0 <= b < 2 ^ BITS_PER_LONG -> virt_to_page a = virt_to_page b -> a / 4096 = b / 4096) ->
  pages0 !! (T / 4096) = Some (virt_to_page T) -> pages0 !! 0 = None ->
  mem0 !! place T = Some f -> f <> our_sys_open -> mem0 !! place wrong = Some x ->
  let missed := Kmap (<[place wrong := our_sys_open]> mem0) pages0 symbol f in
  let hooked := Kmap (<[place T := our_sys_open]> mem0) pages0 symbol f in
  kmap_init (Kmap mem0 pages0 0 oc) = (if vmap_fails wrong then None else Some (0, missed)) /\
  memory missed !! place T = Some f /\
  kmap_cleanup missed = (if vmap_fails T then None else Some missed) /\
  kmap_init (Kmap mem0 pages0 symbol oc) = (if vmap_fails T then None else Some (0, hooked)) /\
  kmap_cleanup hooked = (if vmap_fails T then None else Some (Kmap mem0 pages0 symbol f)).
Proof.
  intros T wrong fails Hv Hs Hs0 HNR Hmax Hinj Hpg Hnull Hf Hnot Hx missed hooked.
  assert (Hptr : 0 < BITS_PER_LONG / 8) by (by destruct bits_per_long_ok as [-> | ->]).
  assert (HT : T = symbol + BITS_PER_LONG / 8 * NR_open) by (unfold T, entry_addr; by rewrite ulong_small by nia).
  assert (H0 : wrong = BITS_PER_LONG / 8 * NR_open) by (unfold wrong, entry_addr; by rewrite ulong_small by nia).
  assert (Hne : place wrong <> place T).
  { unfold place. intros [= Hp Hm]. apply Hinj in Hp; [|rewrite H0; nia|nia].
    pose proof (Z.div_mod wrong 4096 ltac:(lia)). pose proof (Z.div_mod T 4096 ltac:(lia)). lia. }
  assert (Hkeep : <[place wrong := our_sys_open]> mem0 !! place T = Some f) by (by rewrite lookup_insert_ne).
  assert (Hnew : <[place T := our_sys_open]> mem0 !! place T = Some our_sys_open) by apply lookup_insert_eq.
  split_and!.
  - exact (kmap_init_writes (Kmap mem0 pages0 0 oc) _ f x Hv Hs Hnull Hpg Hf Hx).
  - exact Hkeep.
  - rewrite (kmap_cleanup_writes missed _ f f Hv Hnull Hpg Hkeep Hkeep). by destruct (Z.eqb_spec f our_sys_open).
  - exact (kmap_init_writes (Kmap mem0 pages0 symbol oc) _ f f Hv Hs Hnull Hpg Hf Hf).
  - rewrite (kmap_cleanup_writes hooked _ _ _ Hv Hnull Hpg Hnew Hnew), Z.eqb_refl. cbn [hooked memory pages sct original_call].
    fold T. by rewrite insert_insert_eq, insert_id.
Qed.
End Kmap.

(** ** Witnesses *)

(** The numbers of the x86 32-bit table. *)
Definition nr_x86 (c : hacked) : Z :=
  match c with open => 5 | chdir => 12 | stat => 18 | stat64 => 195 | lstat64 => 196 | unlink => 10 | ioctl => 54 end.

Lemma nr_x86_inj : Inj (=) (=) nr_x86.
Proof. intros [] []; (reflexivity || discriminate). Qed.

Definition home_before : home := Home {[ 5 := 1000; 12 := 1001 ]} (fun _ => 0).
Definition home_loaded : home := (hook_all nr_x86 (fun c => 2000 + nr_x86 c) home_before).2.

Lemma home_hack_restores_table_witness :
  sys_call_table home_loaded !!! 5 = 2005 /\
  sys_call_table (cleanup_all nr_x86 (fun c => 2000 + nr_x86 c) (Home (sys_call_table home_loaded) (original home_loaded))) !!! 5 = 1000.
Proof.
  pose proof (home_hack_restores_table nr_x86 (fun c => 2000 + nr_x86 c) home_before (sys_call_table home_loaded) nr_x86_inj) as H.
  unfold home_loaded in *. destruct (hook_all nr_x86 (fun c => 2000 + nr_x86 c) home_before) as [r s1].
  destruct H as (_ & Hw & _ & H & _). specialize (Hw open). specialize (H open). cbn [snd nr_x86] in *.
  split; [exact Hw|]. rewrite H, Hw. reflexivity.
Defined.

Lemma modules_restore_slot_in_reverse_order_witness :
  installed (nested [1; 2; 3] (Slot 9 ∅)) = 9.
Proof.
  refine (proj1 (modules_restore_slot_in_reverse_order [1; 2; 3] (Slot 9 ∅) _)).
  apply (bool_decide_unpack _). vm_compute. exact I.
Defined.

(** The 32-bit kernel: its direct mapping starts at 3 GB, the table is at
    0xc0130000 and the word at 0x14 is one of page 0x40000. *)
Definition page_x86 (addr : Z) : Z := u32 (addr - 3221225472) / 4096.

Lemma page_x86_inj a b : 0 <= a < 2 ^ 32 -> 0 <= b < 2 ^ 32 -> page_x86 a = page_x86 b -> a / 4096 = b / 4096.
Proof.
  unfold page_x86, u32. change (2 ^ 32) with 4294967296. intros. Z.div_mod_to_equations. lia.
Qed.

(** Mappings are made at 0xfe000000 when there is room. *)
Definition vmap_x86 (ps : gmap Z Z) (pg : Z) : Z * gmap Z Z :=
  match ps !! 1040384 with None => (4261412864, <[1040384 := pg]> ps) | Some _ => (0, ps) end.
Definition vunmap_x86 (ps : gmap Z Z) (vm : Z) : gmap Z Z := delete (vm / 4096) ps.

Lemma vmap_x86_contract : @vmap_contract arch32 vmap_x86 vunmap_x86.
Proof.
  intros ps pg. unfold vmap_x86. destruct (ps !! 1040384) eqn:E; [by left|right]. change (4261412864 / 4096) with 1040384.
  split; [|split; [done|unfold vunmap_x86; by apply delete_insert_id]].
  split; [discriminate|]. split; [discriminate|]. split; [reflexivity|]. split; [discriminate|exact E].
Qed.

Definition kmap_mem : gmap (Z * Z) Z := {[ (304, 20) := 42; (262144, 20) := 1 ]}.

Lemma kmap_first_load_misses_table_witness :
  let s1 := Kmap (<[(262144, 20) := 77]> kmap_mem) {[ 786736 := 304 ]} 3222470656 42 in
  @kmap_init arch32 3222470656 5 77 page_x86 vmap_x86 vunmap_x86 (Kmap kmap_mem {[ 786736 := 304 ]} 0 0) = Some (0, s1) /\
  memory s1 !! (304, 20) = Some 42 /\ @kmap_cleanup arch32 5 77 page_x86 vmap_x86 vunmap_x86 s1 = Some s1.
Proof.
  destruct (@kmap_first_load_misses_table arch32 3222470656 5 77 page_x86 vmap_x86 vunmap_x86 kmap_mem {[ 786736 := 304 ]} 0 42 1)
    as (Hr & Hk & Hc & _); try lazymatch goal with
    | |- forall a b, _ => exact page_x86_inj
    | |- vmap_contract _ _ => exact vmap_x86_contract
    | |- let _ := _ in _ => idtac
    | |- _ => vm_compute; first [reflexivity | discriminate]
    end.
  split; [exact Hr|]. split; [exact Hk|exact Hc].
Defined.
