(* ===== verification/Spies.v ===== *)
(** * The module syscall, and its interplay with home_hack

    [init_module] and [cleanup_module] of syscall/syscall.c as a whole, with
    what they print. The module is an instance of the slot of [CallTable], and
    so is the [open] entry of home_hack: both store their function in the same
    entry of one call table. *)
From S2P Require Import Prelude Format CallTable.

(** A line of the kernel log: the format and its arguments. *)
Record line := Printk { fmt : bytes; args : list Z }.

Section Syscall.
(** The addresses of [sys_call_table] and of [our_sys_open], [__NR_open], and
    the parameter of the module. *)
Context (table_addr NR_open our_sys_open uid : Z).

Record spy := Spy { spy_table : table; spy_original : Z; klog : list line }.

Definition printk (fmt : bytes) (args : list Z) (s : spy) : spy :=
  Spy (spy_table s) (spy_original s) (klog s ++ [Printk fmt args]).

Definition set_original (v : Z) (s : spy) : spy := Spy (spy_table s) v (klog s).
Definition set_entry (n v : Z) (s : spy) : spy := Spy (<[n := v]> (spy_table s)) (spy_original s) (klog s).

Definition line_nl (s : string) : bytes := str s ++ [NL].

(** The warning at the start of [init_module]. *)
Definition warning (s : spy) : spy :=
  let s := printk (str "I'm dangerous. I hope you did a ") [] s in
  let s := printk (line_nl "sync before you insmod'ed me.") [] s in
  let s := printk (str "My counterpart, cleanup_module(), is even") [] s in
  let s := printk (line_nl "more dangerous. If") [] s in
  let s := printk (str "you value your file system, it will ") [] s in
  let s := printk (str "be " ++ [34] ++ str "sync; rmmod" ++ [34; 32; NL]) [] s in
  printk (line_nl "when you remove this module.") [] s.

Definition syscall_init (s : spy) : Z * spy :=
  let s := warning s in
  if table_addr =? 0 then (1, s)
  else
    let s := printk (line_nl "sys_call_table is %p") [table_addr] s in
    let s := printk (line_nl "assumed open is %p") [spy_table s !!! NR_open] s in
    let s := set_original (spy_table s !!! NR_open) s in
    let s := set_entry NR_open our_sys_open s in
    let s := printk (line_nl "Spying on UID:%d") [uid] s in
    (0, s).

Definition syscall_cleanup (s : spy) : spy :=
  let s := printk (line_nl "sys_call_table: %p") [table_addr] s in
  let s := printk (line_nl "current open  : %p") [spy_table s !!! NR_open] s in
  let s := printk (line_nl "our open      : %p") [our_sys_open] s in
  let s :=
    if negb (spy_table s !!! NR_open =? our_sys_open) then
      let s := printk (str "Somebody else also played with the ") [] s in
      let s := printk (line_nl "open system call") [] s in
      let s := printk (str "The system may be left in ") [] s in
      printk (line_nl "an unstable state.") [] s
    else set_entry NR_open (spy_original s) s in
  printk (line_nl "Ended spying on UID: %d") [uid] s.

(** The slot that the module replaces, and what it remembers of it. *)
Definition spy_slot (s : spy) : slot := Slot (spy_table s !!! NR_open) {[our_sys_open := spy_original s]}.

(** Loading and removing the module is installing and uninstalling its
    function in the slot; the other entries stay as they are. *)
Lemma syscall_init_slot s : table_addr <> 0 ->
  (syscall_init s).1 = 0 /\ spy_slot (syscall_init s).2 = install our_sys_open (spy_slot s) /\
  spy_table (syscall_init s).2 = <[NR_open := our_sys_open]> (spy_table s) /\
  spy_original (syscall_init s).2 = spy_table s !!! NR_open.
Proof.
  intros Ha. unfold syscall_init. destruct (Z.eqb_spec table_addr 0); [done|]. split; [done|]. split; [|done].
  unfold spy_slot, install. cbn [spy_table spy_original printk set_entry set_original fst snd warning installed saved].
  by rewrite lookup_total_insert_eq, insert_singleton_eq.
Qed.

Lemma syscall_cleanup_slot s :
  spy_slot (syscall_cleanup s) = uninstall our_sys_open (spy_slot s) /\
  spy_table (syscall_cleanup s) =
    if spy_table s !!! NR_open =? our_sys_open then <[NR_open := spy_original s]> (spy_table s) else spy_table s.
Proof.
  unfold syscall_cleanup, spy_slot, uninstall. cbn [spy_table printk installed saved].
  destruct (_ =? our_sys_open); cbn [negb spy_table spy_original printk set_entry installed saved]; [|done].
  by rewrite lookup_total_insert_eq, lookup_total_singleton, decide_True.
Qed.
End Syscall.

(** ** Two modules, one table *)

Section Together.
Context (table_addr our_sys_open uid : Z) (NR wrapper : hacked -> Z).

Definition with_table (t : table) (s : spy) : spy := Spy t (spy_original s) (klog s).

(** syscall is loaded, then home_hack. *)
Definition both_loaded (s : spy) (o : hacked -> Z) : spy * home :=
  let s := (syscall_init table_addr (NR open) our_sys_open uid s).2 in
  let h := (hook_all NR wrapper (Home (spy_table s) o)).2 in
  (with_table (sys_call_table h) s, h).

(** They are removed, the one loaded last first, or the one loaded first
    first. *)
Definition removed_in_reverse (s : spy) (o : hacked -> Z) : spy :=
  let '(s, h) := both_loaded s o in
  syscall_cleanup table_addr (NR open) our_sys_open uid (with_table (sys_call_table (cleanup_all NR wrapper h)) s).

Definition removed_in_order (s : spy) (o : hacked -> Z) : spy :=
  let '(s, h) := both_loaded s o in
  let s := syscall_cleanup table_addr (NR open) our_sys_open uid s in
  with_table (sys_call_table (cleanup_all NR wrapper (Home (spy_table s) (original h)))) s.

(** What loading both does to the table. *)
Lemma both_loaded_table s o : Inj (=) (=) NR -> table_addr <> 0 ->
  let '(s', h) := both_loaded s o in
  spy_table s' = sys_call_table h /\ spy_original s' = spy_table s !!! NR open /\
  (forall c, sys_call_table h !!! NR c = wrapper c) /\
  (forall c, original h c = if decide (c = open) then our_sys_open else spy_table s !!! NR c) /\
  forall k, (forall c, k <> NR c) -> sys_call_table h !!! k = spy_table s !!! k.
Proof.
  intros HNR Ha. unfold both_loaded. destruct (syscall_init_slot table_addr (NR open) our_sys_open uid s Ha) as (_ & _ & Ht & Ho).
  set (s1 := (syscall_init _ _ _ _ s).2) in *.
  pose proof (hook_all_table NR wrapper HNR the_calls the_calls_nodup (Home (spy_table s1) o)) as H.
  unfold hook_all. destruct (add_hooks NR wrapper the_calls (Home (spy_table s1) o)) as [r h].
  destruct H as (_ & Hin & _ & Hk). cbn [snd with_table spy_table spy_original sys_call_table] in *.
  split; [done|]. split; [done|]. split; [intros c; apply Hin, the_calls_all|]. split.
  - intros c. rewrite (proj2 (Hin c (the_calls_all c))), Ht. destruct (decide (c = open)) as [->|Hne].
    + by rewrite lookup_total_insert_eq.
    + rewrite lookup_total_insert_ne; [done|]. intros Heq%HNR. congruence.
  - intros k Hne. rewrite Hk by auto. rewrite Ht, lookup_total_insert_ne; [done|]. intros Heq. by apply (Hne open).
Qed.

(** An entry of home_hack, or another one. *)
Lemma entry_cases k : (exists c, k = NR c) \/ forall c, k <> NR c.
Proof.
  destruct (decide (Exists (fun c => k = NR c) the_calls)) as [He|He].
  - left. apply Exists_exists in He as (c & _ & ->). by exists c.
  - right. intros c ->. apply He, Exists_exists. exists c. split; [apply the_calls_all|done].
Qed.

(** C30: Two modules that replace the same entry. syscall and home_hack, loaded
    one after the other and removed in the reverse order, leave every entry of
    the call table as it was before. Removed in the order of their loading,
    they leave the entry of [open] pointing to [our_sys_open] of the module
    that is gone - after telling the log that somebody else played with it -,
    and all other entries as they were. *)
Theorem spies_leave_dangling_open s o : Inj (=) (=) NR -> table_addr <> 0 -> our_sys_open <> wrapper open ->
  (forall k, spy_table (removed_in_reverse s o) !!! k = spy_table s !!! k) /\
  spy_table (removed_in_order s o) !!! NR open = our_sys_open /\
  (forall k, k <> NR open -> spy_table (removed_in_order s o) !!! k = spy_table s !!! k) /\
  Printk (line_nl "open system call") [] ∈ klog (removed_in_order s o).
Proof.
  intros HNR Ha Hw. pose proof (both_loaded_table s o HNR Ha) as Hb. unfold removed_in_reverse, removed_in_order.
  destruct (both_loaded s o) as [s1 h]. destruct Hb as (Ht & Ho & Hwr & Horig & Hk).
  pose proof (cleanup_all_table NR wrapper HNR the_calls the_calls_nodup h) as (_ & Hin & Hout).
  fold (cleanup_all NR wrapper h) in Hin, Hout.
  assert (Hsome : forall t, spy_table (syscall_cleanup table_addr (NR open) our_sys_open uid (with_table t s1)) =
    if t !!! NR open =? our_sys_open then <[NR open := spy_original s1]> t else t).
  { intros t. apply syscall_cleanup_slot. }
  assert (Hafter : forall c, sys_call_table (cleanup_all NR wrapper h) !!! NR c = original h c).
  { intros c. by rewrite (Hin c (the_calls_all c)), Hwr, Z.eqb_refl. }
  assert (Hrest : forall k, (forall c, k <> NR c) -> sys_call_table (cleanup_all NR wrapper h) !!! k = spy_table s !!! k).
  { intros k Hne. rewrite Hout by auto. by apply Hk. }
  assert (Hsame : spy_table (syscall_cleanup table_addr (NR open) our_sys_open uid s1) = sys_call_table h).
  { rewrite (proj2 (syscall_cleanup_slot table_addr (NR open) our_sys_open uid s1)), Ht, Hwr.
    destruct (Z.eqb_spec (wrapper open) our_sys_open); [congruence|done]. }
  assert (Hh : Home (sys_call_table h) (original h) = h) by (by destruct h).
  cbn [with_table spy_table klog]. rewrite Hsame, Hh. split; [|split; [|split]].
  - intros k. rewrite Hsome, (Hafter open), Horig, decide_True, Z.eqb_refl by done.
    destruct (decide (k = NR open)) as [->|Hne]; [by rewrite lookup_total_insert_eq|].
    rewrite lookup_total_insert_ne by done. destruct (entry_cases k) as [[c ->]|Hno]; [|by apply Hrest].
    rewrite Hafter, Horig. rewrite decide_False; [done|]. intros ->. done.
  - by rewrite Hafter, Horig, decide_True.
  - intros k Hne. destruct (entry_cases k) as [[c ->]|Hno]; [|by apply Hrest].
    rewrite Hafter, Horig. rewrite decide_False; [done|]. intros ->. done.
  - unfold syscall_cleanup. cbn [spy_table printk]. rewrite Ht, Hwr.
    destruct (Z.eqb_spec (wrapper open) our_sys_open); [congruence|]. cbn [negb printk klog].
    rewrite !elem_of_app, !list_elem_of_singleton. tauto.
Qed.
End Together.

(** ** Witness *)
Lemma spies_leave_dangling_open_witness :
  spy_table (removed_in_reverse 3000 777 500 nr_x86 (fun c => 2000 + nr_x86 c) (Spy {[ 5 := 1000 ]} 0 []) (fun _ => 0)) !!! 5 = 1000 /\
  spy_table (removed_in_order 3000 777 500 nr_x86 (fun c => 2000 + nr_x86 c) (Spy {[ 5 := 1000 ]} 0 []) (fun _ => 0)) !!! 5 = 777.
Proof.
  assert (Ha : 3000 <> 0) by discriminate. assert (Hw : 777 <> 2000 + nr_x86 open) by discriminate.
  destruct (spies_leave_dangling_open 3000 777 500 nr_x86 (fun c => 2000 + nr_x86 c) (Spy {[ 5 := 1000 ]} 0 []) (fun _ => 0)
    nr_x86_inj Ha Hw) as (H1 & H2 & _).
  split; [exact (H1 5)|exact H2].
Defined.
