(* ===== verification/NodeMarks.v ===== *)
(** * Honeypot nodes (home_hack, proc_hack, module_param, process)

    The modules take two arrays, process ids and node numbers, mark every task
    of the system with its node in [hp_node], and compare the nodes when /proc
    is listed. *)
From S2P Require Import Prelude Format Structs Kernel Access Names Tables Threads Links Inodes Dirs Procs.

Definition PID_ARRAY_MAX := 16.

(** The arrays, as [module_param_array] fills them: it stores at most as many
    values as an array has elements. *)
Record node_map := NodeMap {
  pid_array : list Z; pid_array_count : Z;
  node_array : list Z; node_array_count : Z;
}.

(** The loop of [is_target_proc] over the entries from [i] on. *)
Fixpoint target_loop (entries : list Z) (i count p_i : Z) : Z :=
  match entries with
  | [] => -1
  | pid :: entries =>
      if negb (i <? count) then -1
      else if pid <? 0 then -1
      else if pid =? p_i then i
      else target_loop entries (i + 1) count p_i
  end.

Definition is_target_proc (c : node_map) (candidate_pid : Z) : Z :=
  target_loop (pid_array c) 0 (pid_array_count c) candidate_pid.

(** The first loop of [check_args], from index [i] on. *)
Fixpoint fill_unused (fuel : nat) (i : Z) (c : node_map) : node_map :=
  match fuel with
  | O => c
  | S fuel =>
      if i <? PID_ARRAY_MAX then
        fill_unused fuel (i + 1)
          (NodeMap (<[Z.to_nat i := -1]> (pid_array c)) (pid_array_count c)
             (<[Z.to_nat i := -1]> (node_array c)) (node_array_count c))
      else c
  end.

(** [check_args] of home_hack.c. *)
Definition check_args (c : node_map) : Z * node_map :=
  if pid_array_count c =? 0 then (-1, c)
  else if negb (pid_array_count c =? node_array_count c) then (-1, c)
  else (0, fill_unused (Z.to_nat PID_ARRAY_MAX) (pid_array_count c) c).

(** The tests of [init_module] of module_param.c. *)
Definition module_param_init (c : node_map) : Z :=
  if pid_array_count c =? 0 then -1
  else if negb (pid_array_count c =? node_array_count c) then -1
  else 0.

(** [hp_node] of a task with process id [p]. *)
Definition node_of (c : node_map) (p : Z) : Z :=
  let node_index := is_target_proc c p in
  if 0 <=? node_index then node_array c !!! Z.to_nat node_index else -1.

Section Marks.
(** [next_task] walks the circular list of all tasks; [fuel] bounds it. *)
Context (next_task : task_id -> task_id) (init_task : task_id).

Fixpoint mark_loop (fuel : nat) (c : node_map) (task : task_id) (m : kmem) : option kmem :=
  match fuel with
  | O => None
  | S fuel =>
      let m := upd_task task (set_hp_node (node_of c (t_pid (k_task m !!! task)))) m in
      let task := next_task task in
      if decide (task = init_task) then Some m else mark_loop fuel c task m
  end.

Definition mark_process (fuel : nat) (c : node_map) (m : kmem) : option kmem := mark_loop fuel c init_task m.

(** [init_module] of process/proc_trav.c: the pids it prints, in order. *)
Fixpoint trav_loop (fuel : nat) (task : task_id) (m : kmem) : option (list Z) :=
  match fuel with
  | O => None
  | S fuel =>
      let pid := t_pid (k_task m !!! task) in
      let task := next_task task in
      if decide (task = init_task) then Some [pid] else l ← trav_loop fuel task m; Some (pid :: l)
  end.

(** The task list: from [t] on it visits [ts] and returns to [init_task]. *)
Fixpoint task_list (t : task_id) (ts : list task_id) : Prop :=
  match ts with
  | [] => next_task t = init_task
  | x :: ts => next_task t = x /\ x <> init_task /\ task_list x ts
  end.
End Marks.

(** [func_proc_pid_readdir] of proc_hack.c: 1 where it reports "skipped". *)
Definition func_proc_pid_readdir (m : kmem) (iter_task : task_id) : Z :=
  let mine := t_hp_node (k_task m !!! k_current m) in
  if (0 <=? mine) && negb (t_hp_node (k_task m !!! iter_task) =? mine) then 1 else 0.

(** ** Lemmas *)

Lemma target_loop_spec entries : forall i count p, 0 <= i ->
  let r := target_loop entries i count p in
  r = -1 \/ i <= r < count /\ entries !! Z.to_nat (r - i) = Some p /\
     forall j, (j < Z.to_nat (r - i))%nat -> entries !! j <> Some p.
Proof.
  induction entries as [|x entries IH]; intros i count p Hi; cbn [target_loop]; [by left|].
  destruct (Z.ltb_spec i count); cbn [negb]; [|by left]. destruct (Z.ltb_spec x 0); [by left|].
  destruct (Z.eqb_spec x p) as [->|Hx].
  - right. rewrite Z.sub_diag. split; [lia|]. split; [done|]. intros j Hj. lia.
  - destruct (IH (i + 1) count p ltac:(lia)) as [Hr|(Hr & Hp & Hmin)]; [by left|right].
    set (r := target_loop entries (i + 1) count p) in *. split; [lia|].
    replace (Z.to_nat (r - i)) with (S (Z.to_nat (r - (i + 1)))) by lia. split; [exact Hp|].
    intros [|j] Hj; cbn; [congruence|]. apply Hmin. lia.
Qed.

Lemma target_loop_complete entries : forall i count p j, entries !! j = Some p -> 0 <= p -> i + Z.of_nat j < count ->
  (forall k x, (k < j)%nat -> entries !! k = Some x -> 0 <= x /\ x <> p) -> target_loop entries i count p = i + Z.of_nat j.
Proof.
  induction entries as [|x entries IH]; intros i count p j Hj Hp Hc Hmin; [done|]. cbn [target_loop].
  destruct (Z.ltb_spec i count); [|lia]. cbn [negb]. destruct j as [|j]; cbn in Hj.
  - injection Hj as ->. destruct (Z.ltb_spec p 0); [lia|]. rewrite Z.eqb_refl. lia.
  - destruct (Hmin 0%nat x ltac:(lia) eq_refl) as [Hx Hne]. destruct (Z.ltb_spec x 0); [lia|].
    destruct (Z.eqb_spec x p); [done|]. rewrite (IH (i + 1) count p j); [lia|done|done|lia|].
    intros k y Hk Hy. apply (Hmin (S k)); [lia|done].
Qed.

Lemma mark_loop_spec next init c ts : forall t m fuel, task_list next init t ts -> NoDup (t :: ts) -> (length ts < fuel)%nat ->
  exists m', mark_loop next init fuel c t m = Some m' /\
    (forall x, x ∈ t :: ts -> k_task m' !!! x = set_hp_node (node_of c (t_pid (k_task m !!! x))) (k_task m !!! x)) /\
    (forall x, x ∉ t :: ts -> k_task m' !!! x = k_task m !!! x).
Proof.
  induction ts as [|y ts IH]; intros t m [|fuel] Hl Hnd Hf; cbn in Hf; try lia; cbn [mark_loop].
  - cbn in Hl. rewrite Hl, decide_True by done. eexists. split; [done|]. rewrite k_task_upd_task. split.
    + intros x ->%list_elem_of_singleton. by rewrite lookup_total_insert_eq.
    + intros x Hx%not_elem_of_cons. rewrite lookup_total_insert_ne; [done|]. intros ->. by destruct Hx.
  - destruct Hl as (-> & Hne & Hl). rewrite decide_False by done. apply NoDup_cons in Hnd as [Hnin Hnd].
    destruct (IH y (upd_task t (set_hp_node (node_of c (t_pid (k_task m !!! t)))) m) fuel Hl Hnd ltac:(lia)) as (m' & -> & Hin & Hout).
    exists m'. split; [done|]. split.
    + intros x [->|Hx]%elem_of_cons.
      * rewrite Hout, k_task_upd_task by done. by rewrite lookup_total_insert_eq.
      * rewrite Hin, k_task_upd_task by done. rewrite lookup_total_insert_ne by (intros ->; done). done.
    + intros x [Hxt Hx]%not_elem_of_cons. rewrite Hout, k_task_upd_task by done. by rewrite lookup_total_insert_ne.
Qed.

(** The node that the user gave to process [p]: the first pair counts. *)
Fixpoint assigned (l : list (Z * Z)) (p : Z) : option Z :=
  match l with
  | [] => None
  | (pid, node) :: l => if pid =? p then Some node else assigned l p
  end.

Lemma target_loop_assigned entries : forall nodes i count p, 0 <= i -> (length entries = length nodes)%nat ->
  Forall (fun x => 0 <= x) (take (Z.to_nat (count - i)) entries) ->
  let r := target_loop entries i count p in
  (if 0 <=? r then nodes !!! Z.to_nat (r - i) else -1) =
    default (-1) (assigned (zip (take (Z.to_nat (count - i)) entries) (take (Z.to_nat (count - i)) nodes)) p).
Proof.
  induction entries as [|x entries IH]; intros [|y nodes] i count p Hi Hlen Hpos; cbn in Hlen; try lia; cbn [target_loop].
  { by rewrite !take_nil. }
  destruct (Z.ltb_spec i count) as [Hc|Hc]; cbn [negb].
  2: { by replace (Z.to_nat (count - i)) with 0%nat by lia. }
  replace (Z.to_nat (count - i)) with (S (Z.to_nat (count - (i + 1)))) in * by lia. cbn [take zip_with assigned] in *.
  apply Forall_cons in Hpos as [Hx Hpos]. destruct (Z.ltb_spec x 0); [lia|]. destruct (Z.eqb_spec x p).
  - destruct (Z.leb_spec 0 i); [|lia]. by rewrite Z.sub_diag.
  - specialize (IH nodes (i + 1) count p ltac:(lia) ltac:(lia) Hpos). cbv zeta in IH. rewrite <- IH.
    pose proof (target_loop_spec entries (i + 1) count p ltac:(lia)) as Hr. cbv zeta in Hr.
    set (r := target_loop entries (i + 1) count p) in *. destruct (Z.leb_spec 0 r); [|done].
    replace (Z.to_nat (r - i)) with (S (Z.to_nat (r - (i + 1)))) by lia. done.
Qed.

(** The pairs of a node map. *)
Definition pairs (c : node_map) : list (Z * Z) :=
  zip (take (Z.to_nat (pid_array_count c)) (pid_array c)) (take (Z.to_nat (pid_array_count c)) (node_array c)).

Lemma take_fill_unused fuel : forall i c, 0 <= i ->
  let c' := fill_unused fuel i c in
  pid_array_count c' = pid_array_count c /\ node_array_count c' = node_array_count c /\
  take (Z.to_nat i) (pid_array c') = take (Z.to_nat i) (pid_array c) /\
  take (Z.to_nat i) (node_array c') = take (Z.to_nat i) (node_array c) /\
  length (pid_array c') = length (pid_array c) /\ length (node_array c') = length (node_array c).
Proof.
  induction fuel as [|fuel IH]; intros i c Hi; cbn [fill_unused]; [done|]. destruct (i <? PID_ARRAY_MAX); [|done].
  set (c1 := NodeMap _ _ _ _). destruct (IH (i + 1) c1 ltac:(lia)) as (H1 & H2 & H3 & H4 & H5 & H6). cbv zeta in *.
  rewrite H5, H6. cbn [c1 pid_array node_array]. rewrite !length_insert. split; [done|]. split; [done|].
  assert (Hcut : forall l k : list Z, take (Z.to_nat (i + 1)) l = take (Z.to_nat (i + 1)) k -> take (Z.to_nat i) l = take (Z.to_nat i) k).
  { intros l k H. apply (f_equal (take (Z.to_nat i))) in H. rewrite !take_take in H. by replace (Z.to_nat i `min` Z.to_nat (i + 1))%nat with (Z.to_nat i) in H by lia. }
  apply Hcut in H3, H4. rewrite H3, H4. cbn [c1 pid_array node_array]. by rewrite !take_insert_ge by lia.
Qed.

Lemma check_args_pairs c c' : 0 <= pid_array_count c -> (check_args c).2 = c' ->
  pairs c' = pairs c /\ pid_array_count c' = pid_array_count c /\
  take (Z.to_nat (pid_array_count c)) (pid_array c') = take (Z.to_nat (pid_array_count c)) (pid_array c) /\
  length (pid_array c') = length (pid_array c) /\ length (node_array c') = length (node_array c).
Proof.
  intros Hc. unfold check_args. destruct (_ =? 0); [by intros <-|]. destruct (negb _); [by intros <-|]. cbn [snd]. intros H. subst c'.
  destruct (take_fill_unused (Z.to_nat PID_ARRAY_MAX) (pid_array_count c) c Hc) as (H1 & H2 & H3 & H4 & H5 & H6).
  cbv zeta in *. unfold pairs. by rewrite H1, H3, H4.
Qed.

(** ** Properties *)

(** C35: home_hack refuses to load unless as many nodes as processes are
    given, and at least one; otherwise it marks every task of the system,
    walking the task list once: the task gets the node given for its process
    id, the first one if there are several, or -1; the rest of every task,
    and every object that is no task of the list, is left alone. *)
Theorem home_hack_marks_tasks c m next init ts fuel :
  (length (pid_array c) = length (node_array c))%nat -> 0 <= pid_array_count c ->
  Forall (fun x => 0 <= x) (take (Z.to_nat (pid_array_count c)) (pid_array c)) ->
  task_list next init init ts -> NoDup (init :: ts) -> (length ts < fuel)%nat ->
  let '(r, c') := check_args c in
  if (pid_array_count c =? 0) || negb (pid_array_count c =? node_array_count c) then r = -1
  else r = 0 /\ exists m', mark_process next init fuel c' m = Some m' /\
    (forall x, x ∈ init :: ts ->
       k_task m' !!! x = set_hp_node (default (-1) (assigned (pairs c) (t_pid (k_task m !!! x)))) (k_task m !!! x)) /\
    (forall x, x ∉ init :: ts -> k_task m' !!! x = k_task m !!! x).
Proof.
  intros Hlen Hc Hpos Hl Hnd Hf. destruct (check_args c) as [r c'] eqn:E. pose proof (f_equal snd E) as E''. cbn [snd] in E''. unfold check_args in E.
  destruct (pid_array_count c =? 0); [by apply (f_equal fst) in E|]. destruct (negb _); cbn [orb]; [by apply (f_equal fst) in E|].
  apply (f_equal fst) in E. cbn [fst] in E. split; [done|]. clear E.
  destruct (check_args_pairs c c' Hc E'') as (Hpairs & Hcount & Htake & Hl1 & Hl2).
  destruct (mark_loop_spec next init c' ts init m fuel Hl Hnd Hf) as (m' & Hm & Hin & Hout).
  exists m'. split; [exact Hm|]. split; [|exact Hout]. intros x Hx. rewrite (Hin x Hx). f_equal. unfold node_of, is_target_proc.
  pose proof (target_loop_assigned (pid_array c') (node_array c') 0 (pid_array_count c') (t_pid (k_task m !!! x)) ltac:(lia)) as H.
  rewrite Z.sub_0_r, Hcount, Htake in H. specialize (H ltac:(congruence) Hpos). cbv zeta in H. rewrite <- Hpairs.
  unfold pairs. rewrite Hcount, Htake, <- H. destruct (_ <=? _); [|done]. by rewrite Z.sub_0_r.
Qed.

(** The hook of proc_hack cannot hide a process: [proc_pid_readdir] calls
    it without the iterator and ignores what it returns, so a process of
    another node, for which the module reports "skipped", is listed when the
    reading is complete. *)
Theorem hook_cannot_hide_processes `{Arch} `{Config} E A ns pids limit fuel filp dir w p t :
  keeps E (pid_kernel A) -> pid_space A ns pids limit -> 0 <= limit < 2 ^ 31 -> (length pids < fuel)%nat ->
  opened filp dir FIRST_PROCESS_ENTRY (mem w) -> d_ns (k_dentry (mem w) !!! dir) = ns ->
  p ∈ pids -> A (PidTask p) = Some t -> A (HasGroupLeaderPid t) = true -> func_proc_pid_readdir (mem w) t = 1 ->
  ends E (proc_pid_readdir limit fuel filp) w (fun _ w' => exists l, emitted l w w' /\
    (l <> [] -> all_accepted l = true -> (numeric_name (A (PidNrNs p ns))).1 ∈ accepted l)).
Proof.
  intros HE Hs Hlim Hfuel Ho Hns Hp Ht Hlead _. apply (wp_ends _ (pid_kernel A)); [done|].
  assert (HF : FIRST_PROCESS_ENTRY = 256) by reflexivity. assert (HO : TGID_OFFSET = 257) by reflexivity.
  apply (static_readdir_wp A ns pids limit fuel filp dir FIRST_PROCESS_ENTRY); [done|done|done|lia|done|done| |].
  - intros w' _ He _. by exists [].
  - intros l q w' He _ (_ & _ & (S & HS0 & Hacc) & Hq). pose proof (static_tgids _ _ _ _ _ _ HS0) as HS. exists l. split; [done|]. intros _ Hall. rewrite Hacc, elem_of_app. right.
    apply (list_elem_of_fmap_2 (fun n => (numeric_name n).1)). apply HS.
    destruct Hq as [[_ ->]|(l0 & name & x & -> & _ & Hx)]; [|by rewrite all_accepted_app, (andb_comm (all_accepted l0)) in Hall; cbn in Hall; destruct (Z.leb_spec 0 x); [lia|]].
    pose proof (proj1 (Forall_forall _ _) (space_range _ _ _ _ Hs) p Hp) as Hr. cbv beta in Hr. unfold nr in Hr.
    split; [lia|]. exists p. unfold nr, leads. by rewrite Ht, Hlead.
Qed.

(** ** Witnesses *)

(** Two nodes for the processes 10 and 20; the list of tasks is 1, 2, 3. *)
Definition two_nodes : node_map :=
  NodeMap ([10; 20] ++ replicate 14 0) 2 ([7; 8] ++ replicate 14 0) 2.

Definition ring_of_three (t : task_id) : task_id := if (t =? 3)%nat then 1%nat else S t.

Definition task_of (pid node : Z) : task_struct :=
  Task pid [] 0 None None 0 0 0 0 0 false 0 inhabitant 0 0 0 [] node [].

Definition marks_mem : kmem :=
  Kmem 1 {[ 1%nat := task_of 10 0; 2%nat := task_of 15 0; 3%nat := task_of 20 0 ]} ∅ ∅ ∅ ∅ ∅ ∅ ∅ ∅ ∅ ∅ ∅ ∅ ∅ HookDummy.

Lemma home_hack_marks_tasks_witness :
  exists m', mark_process ring_of_three 1%nat 3 (check_args two_nodes).2 marks_mem = Some m' /\
    t_hp_node (k_task m' !!! 1%nat) = 7 /\ t_hp_node (k_task m' !!! 2%nat) = -1 /\ t_hp_node (k_task m' !!! 3%nat) = 8.
Proof.
  destruct (home_hack_marks_tasks two_nodes marks_mem ring_of_three 1%nat [2%nat; 3%nat] 3) as (_ & m' & Hm & Hin & _).
  - reflexivity.
  - discriminate.
  - repeat constructor; discriminate.
  - repeat split; discriminate.
  - apply (bool_decide_unpack _). vm_compute. exact I.
  - cbn. lia.
  - exists m'. split; [exact Hm|].
    assert (H1 : 1%nat ∈ [1%nat; 2%nat; 3%nat]) by (rewrite !elem_of_cons; auto).
    assert (H2 : 2%nat ∈ [1%nat; 2%nat; 3%nat]) by (rewrite !elem_of_cons; auto).
    assert (H3 : 3%nat ∈ [1%nat; 2%nat; 3%nat]) by (rewrite !elem_of_cons; auto).
    rewrite (Hin _ H1), (Hin _ H2), (Hin _ H3). vm_compute. auto.
Defined.

(** The reader belongs to node 1, process 30 to node 2. *)
Definition hide_mem : kmem :=
  Kmem 1 {[ 1%nat := task_of 10 1; 3%nat := task_of 30 2 ]} ∅ ∅ ∅
    {[ 4%nat := File 256 0 0 (Path 0%nat 5%nat) 0 PrivNone ]} {[ 6%nat := inhabitant ]}
    {[ 5%nat := Dentry [] (Some 6%nat) None 0 ]} ∅ ∅ ∅ ∅ ∅ ∅ ∅ (HookModule 9).

Lemma hook_cannot_hide_processes_witness :
  func_proc_pid_readdir hide_mem 3%nat = 1 /\
  ends (dcache_env pids_kernel) (@proc_pid_readdir arch64 config_all 100 4 4%nat) (world0 hide_mem) (fun _ w' =>
    exists l, emitted l (world0 hide_mem) w' /\ (l <> [] -> all_accepted l = true -> str "30" ∈ accepted l)).
Proof.
  assert (Hf : func_proc_pid_readdir hide_mem 3%nat = 1) by (vm_compute; reflexivity). split; [exact Hf|].
  refine (@hook_cannot_hide_processes arch64 config_all _ pids_kernel 0%nat [1%nat; 2%nat; 3%nat] 100 4 4%nat 5%nat
    (world0 hide_mem) 3%nat 3%nat pids_kernel_stable pids_kernel_space _ _ _ eq_refl _ eq_refl eq_refl Hf).
  - split; [discriminate|reflexivity].
  - cbn. lia.
  - split; [reflexivity|]. split; [reflexivity|]. exists 6%nat. reflexivity.
  - rewrite !elem_of_cons. auto.
Defined.
