(* ===== verification/Modules.v ===== *)
(** * Whole modules (home_hack, proc_hack, list, secfs, mmap)

    [init_module] and [cleanup_module] of the modules whose parts are in
    [NodeMarks] and [CallTable]; the list module, against the interface of the
    kernel's lists; the module that makes a securityfs directory; and the
    addresses of the program that looks at the call table through /dev/mem. *)
From S2P Require Import Prelude Format Structs Kernel CallTable NodeMarks.

(** ** home_hack/home_hack.c *)

Section HomeHack.
(** [__NR_##call], the wrappers, and the list of all tasks. *)
Context (NR wrapper : hacked -> Z) (next_task : task_id -> task_id) (init_task : task_id).

Record home_hack := HomeHack { hh_args : node_map; hh_mem : kmem; hh_home : home }.

Definition home_hack_init (fuel : nat) (s : home_hack) : option (Z * home_hack) :=
  let '(r, args) := check_args (hh_args s) in
  if r <? 0 then Some (-1, HomeHack args (hh_mem s) (hh_home s))
  else
    m ← mark_process next_task init_task fuel args (hh_mem s);
    let '(r, h) := hook_all NR wrapper (hh_home s) in
    Some (r, HomeHack args m h).

Definition home_hack_cleanup (s : home_hack) : home_hack :=
  HomeHack (hh_args s) (hh_mem s) (cleanup_all NR wrapper (hh_home s)).

(** The arguments with which the module loads. *)
Definition args_ok (c : node_map) : bool :=
  negb (pid_array_count c =? 0) && (pid_array_count c =? node_array_count c).

Lemma check_args_result c : (check_args c).1 = if args_ok c then 0 else -1.
Proof.
  unfold check_args, args_ok. destruct (_ =? 0); [done|]. by destruct (pid_array_count c =? node_array_count c).
Qed.

Lemma check_args_refused c : args_ok c = false -> check_args c = (-1, c).
Proof.
  unfold check_args, args_ok. destruct (_ =? 0); [done|]. by destruct (pid_array_count c =? node_array_count c).
Qed.

(** C27: home_hack loads all or nothing, and its removal undoes the half of it
    that it can: with arguments it refuses, the load is -1 and neither a task
    nor the call table is touched; otherwise it is 0, every task of the list
    has its node, exactly the seven entries of the table are replaced, and an
    undisturbed removal brings the table back while the tasks keep their
    nodes. *)
Theorem home_hack_all_or_nothing s ts fuel : Inj (=) (=) NR ->
  task_list next_task init_task init_task ts -> NoDup (init_task :: ts) -> (length ts < fuel)%nat ->
  exists r s', home_hack_init fuel s = Some (r, s') /\
    if args_ok (hh_args s) then
      r = 0 /\
      (forall x, x ∈ init_task :: ts -> t_hp_node (k_task (hh_mem s') !!! x) = node_of (hh_args s') (t_pid (k_task (hh_mem s) !!! x))) /\
      (forall c, sys_call_table (hh_home s') !!! NR c = wrapper c) /\
      (forall k, (forall c, k <> NR c) -> sys_call_table (hh_home s') !!! k = sys_call_table (hh_home s) !!! k) /\
      (forall k, sys_call_table (hh_home (home_hack_cleanup s')) !!! k = sys_call_table (hh_home s) !!! k) /\
      hh_mem (home_hack_cleanup s') = hh_mem s'
    else r = -1 /\ s' = s.
Proof.
  intros HNR Hl Hnd Hf. unfold home_hack_init. destruct (args_ok (hh_args s)) eqn:Hok.
  2: { rewrite (check_args_refused _ Hok). do 2 eexists. split; [done|]. split; [done|]. by destruct s. }
  pose proof (check_args_result (hh_args s)) as Hr. rewrite Hok in Hr. destruct (check_args (hh_args s)) as [r c]. cbn [fst] in Hr.
  subst r. change (0 <? 0) with false. cbv iota.
  destruct (mark_loop_spec next_task init_task c ts init_task (hh_mem s) fuel Hl Hnd Hf) as (m & Hm & Hin & _).
  unfold mark_process. rewrite Hm. cbn [mbind option_bind].
  pose proof (hook_all_table NR wrapper HNR the_calls the_calls_nodup (hh_home s)) as H1. fold (hook_all NR wrapper (hh_home s)) in H1.
  destruct (hook_all NR wrapper (hh_home s)) as [r h]. destruct H1 as (-> & Hh & _ & Hk). do 2 eexists. split; [done|].
  cbn [hh_args hh_mem hh_home home_hack_cleanup]. split; [done|]. split; [intros x Hx; rewrite (Hin x Hx); by destruct (k_task (hh_mem s) !!! x)|].
  split; [intros c0; apply Hh, the_calls_all|]. split; [intros k Hne; by apply Hk|]. split; [|done].
  pose proof (cleanup_all_table NR wrapper HNR the_calls the_calls_nodup h) as (_ & Hin2 & Hk2).
  fold (cleanup_all NR wrapper h) in Hin2, Hk2. intros k. destruct (decide (Exists (fun c0 => k = NR c0) the_calls)) as [He|He].
  - apply Exists_exists in He as (c0 & Hc0 & ->). destruct (Hh c0 Hc0) as [Hw Ho]. rewrite (Hin2 c0 Hc0), Hw, Z.eqb_refl. exact Ho.
  - rewrite Hk2, Hk; [done| |]; intros c0 Hc0 ->; apply He, Exists_exists; by exists c0.
Qed.
End HomeHack.

(** ** proc_hack/proc_hack.c *)

#[export] Instance hook_eq_dec : EqDecision hook.
Proof. solve_decision. Defined.

Section ProcHack.
Context (next_task : task_id -> task_id) (init_task : task_id) (func : nat).

(** The module's variable and the kernel, whose hook is in the store. *)
Record proc_hack := ProcHack { ph_args : node_map; ph_original : hook; ph_mem : kmem }.

Definition set_hook (h : hook) (m : kmem) : kmem :=
  Kmem (k_current m) (k_task m) (k_signal m) (k_mm m) (k_fs m) (k_file m) (k_inode m) (k_dentry m) (k_pid m)
    (k_ns m) (k_mnt_root m) (k_nsproxy m) (k_mntns_event m) (k_mounts m) (k_seq_private m) h.

(** Its copies of the functions of home_hack.c; there is no [check_args]. *)
Definition ph_is_target_proc (c : node_map) (candidate_pid : Z) : Z := is_target_proc c candidate_pid.
Definition ph_mark_process (fuel : nat) (c : node_map) (m : kmem) : option kmem := mark_process next_task init_task fuel c m.

Definition proc_hack_init (fuel : nat) (s : proc_hack) : option (Z * proc_hack) :=
  m ← ph_mark_process fuel (ph_args s) (ph_mem s);
  let original := k_hook m in
  Some (0, ProcHack (ph_args s) original (set_hook (HookModule func) m)).

Definition proc_hack_cleanup (s : proc_hack) : proc_hack :=
  if decide (k_hook (ph_mem s) = HookModule func) then
    ProcHack (ph_args s) (ph_original s) (set_hook (ph_original s) (ph_mem s))
  else s.

Lemma mark_loop_hook c fuel : forall t m m', mark_loop next_task init_task fuel c t m = Some m' -> k_hook m' = k_hook m.
Proof.
  induction fuel as [|fuel IH]; intros t m m'; cbn [mark_loop]; [done|].
  destruct (decide _); [intros [= <-]; by destruct m|]. intros Hm. rewrite (IH _ _ _ Hm). by destruct m.
Qed.

(** Loading and removing proc_hack: the load never fails; the hook of /proc is
    the module's while it is loaded, and after an undisturbed removal what it
    was before; a removal that finds another module's hook leaves everything
    as it is. *)
Theorem proc_hack_restores_hook s ts fuel :
  task_list next_task init_task init_task ts -> NoDup (init_task :: ts) -> (length ts < fuel)%nat ->
  exists s', proc_hack_init fuel s = Some (0, s') /\ k_hook (ph_mem s') = HookModule func /\
    k_hook (ph_mem (proc_hack_cleanup s')) = k_hook (ph_mem s) /\
    (forall x, x ∈ init_task :: ts -> t_hp_node (k_task (ph_mem s') !!! x) = node_of (ph_args s) (t_pid (k_task (ph_mem s) !!! x))) /\
    forall h, h <> HookModule func ->
      let other := ProcHack (ph_args s') (ph_original s') (set_hook h (ph_mem s')) in proc_hack_cleanup other = other.
Proof.
  intros Hl Hnd Hf. unfold proc_hack_init, ph_mark_process, mark_process.
  destruct (mark_loop_spec next_task init_task (ph_args s) ts init_task (ph_mem s) fuel Hl Hnd Hf) as (m & Hm & Hin & _).
  rewrite Hm. cbn [mbind option_bind]. eexists. split; [done|]. split; [done|]. split.
  - unfold proc_hack_cleanup. cbn. rewrite decide_True by done. cbn. by apply (mark_loop_hook (ph_args s) fuel init_task).
  - split; [intros x Hx; cbn; rewrite (Hin x Hx); by destruct (k_task (ph_mem s) !!! x)|].
    intros h Hh. cbn zeta. unfold proc_hack_cleanup. cbn. by rewrite decide_False.
Qed.

(** Without [check_args] a process that is given without a node is not refused
    and not left alone: the element of [node_array] that was never written
    makes it a process of node 0. *)
Theorem proc_hack_gives_node_zero s ts fuel p j :
  task_list next_task init_task init_task ts -> NoDup (init_task :: ts) -> (length ts < fuel)%nat ->
  pid_array (ph_args s) !! j = Some p -> 0 <= p -> node_array_count (ph_args s) <= Z.of_nat j < pid_array_count (ph_args s) ->
  (forall k x, (k < j)%nat -> pid_array (ph_args s) !! k = Some x -> 0 <= x /\ x <> p) ->
  node_array (ph_args s) !! j = Some 0 ->
  (check_args (ph_args s)).1 = -1 /\
  exists s', proc_hack_init fuel s = Some (0, s') /\
    forall x, x ∈ init_task :: ts -> t_pid (k_task (ph_mem s) !!! x) = p -> t_hp_node (k_task (ph_mem s') !!! x) = 0.
Proof.
  intros Hl Hnd Hf Hj Hp Hc Hmin Hn. split.
  { rewrite check_args_result. unfold args_ok. destruct (Z.eqb_spec (pid_array_count (ph_args s)) (node_array_count (ph_args s))); [lia|].
    by rewrite andb_false_r. }
  destruct (mark_loop_spec next_task init_task (ph_args s) ts init_task (ph_mem s) fuel Hl Hnd Hf) as (m & Hm & Hin & _).
  unfold proc_hack_init, ph_mark_process, mark_process. rewrite Hm. cbn [mbind option_bind]. eexists. split; [done|].
  intros x Hx Hpid. cbn. rewrite (Hin x Hx), Hpid. assert (Hnode : node_of (ph_args s) p = 0).
  { unfold node_of, is_target_proc. rewrite (target_loop_complete (pid_array (ph_args s)) 0 (pid_array_count (ph_args s)) p j Hj Hp ltac:(lia) Hmin).
    destruct (Z.leb_spec 0 (0 + Z.of_nat j)); [|lia]. rewrite Z.add_0_l, Nat2Z.id. by apply list_lookup_total_correct. }
  rewrite Hnode. by destruct (k_task (ph_mem s) !!! x).
Qed.
End ProcHack.

(** ** list/list.c

    The kernel's lists, of which the module uses six operations on one list
    head: [chain] is what [list_for_each] visits. *)
Class KernelList (L : Type) := {
  list_head : L;
  list_add_tail : ptr -> L -> L;
  list_del : ptr -> L -> L;
  list_empty : L -> bool;
  list_next : L -> ptr;              (* the entry after the head *)
  list_for_each : L -> list ptr;
}.

(** What linux/list.h promises of them. *)
Class KernelListLaws (L : Type) `{KernelList L} : Prop := {
  chain_head : list_for_each list_head = [];
  chain_add : forall p l, p ∉ list_for_each l -> list_for_each (list_add_tail p l) = list_for_each l ++ [p];
  chain_del : forall p l, p ∈ list_for_each l -> NoDup (list_for_each l) ->
    list_for_each (list_del p l) = filter (fun q => q <> p) (list_for_each l);
  chain_empty : forall l, list_empty l = true <-> list_for_each l = [];
  chain_next : forall l p ps, list_for_each l = p :: ps -> list_next l = p;
}.

Lemma filter_absent (p : ptr) (ps : list ptr) : p ∉ ps -> filter (fun q => q <> p) ps = ps.
Proof.
  induction ps as [|q ps IH]; [done|]. intros [Hne Hp]%not_elem_of_cons. rewrite filter_cons, decide_True by congruence.
  by rewrite IH.
Qed.

Record my_object := MyObject { sec : Z; tty_name : bytes }.

(** [strncpy]: at most [n] bytes, padded with NULs to [n]. *)
Definition strncpy (dst src : bytes) (n : Z) : bytes :=
  ztake n (src ++ replicate (Z.to_nat n) 0) ++ zdrop n dst.

(** What "%s" prints of an array. *)
Fixpoint c_string (s : bytes) : bytes :=
  match s with [] => [] | c :: s => if c =? 0 then [] else c :: c_string s end.

Definition OBJECTS := 10000.

Section ListDemo.
Context {L : Type} `{KernelList L}.
(** The answer of the [i]th [kmalloc], with what the memory holds. *)
Context (kmalloc : Z -> option (ptr * my_object)).

Record list_demo := ListState {
  objects : gmap ptr my_object;
  my_object_list : L;
  printed : list (bytes * Z);
  freed : list ptr;
}.

(** The first loop of [init_module], [n] rounds from [i] on. A failed
    [kmalloc] is not looked at: [None] is the write through NULL. *)
Fixpoint append_loop (n : nat) (i : Z) (s : list_demo) : option list_demo :=
  match n with
  | O => Some s
  | S n =>
      '(myobj, garbage) ← kmalloc i;
      let o := MyObject i (strncpy (tty_name garbage) (str "tty") 5) in
      append_loop n (i + 1)
        (ListState (<[myobj := o]> (objects s)) (list_add_tail myobj (my_object_list s)) (printed s) (freed s))
  end.

(** The second loop, over the entries that are visited. *)
Fixpoint print_loop (ps : list ptr) (s : list_demo) : option list_demo :=
  match ps with
  | [] => Some s
  | p :: ps =>
      o ← objects s !! p;
      print_loop ps (ListState (objects s) (my_object_list s) (printed s ++ [(c_string (tty_name o), sec o)]) (freed s))
  end.

Definition list_init (s : list_demo) : option (Z * list_demo) :=
  s ← append_loop (Z.to_nat OBJECTS) 0 s;
  s ← print_loop (list_for_each (my_object_list s)) s;
  Some (0, s).

(** The loop of [cleanup_module]; [fuel] bounds its rounds. *)
Fixpoint delete_loop (fuel : nat) (s : list_demo) : option list_demo :=
  if list_empty (my_object_list s) then Some s
  else
    match fuel with
    | O => None
    | S fuel =>
        let myobj := list_next (my_object_list s) in
        delete_loop fuel
          (ListState (delete myobj (objects s)) (list_del myobj (my_object_list s)) (printed s) (freed s ++ [myobj]))
    end.

Definition list_cleanup (fuel : nat) (s : list_demo) : option list_demo := delete_loop fuel s.

Context `{!KernelListLaws L}.

(** The entries that the first [n] calls from [i] on return. *)
Fixpoint allocated (n : nat) (i : Z) : option (list ptr) :=
  match n with
  | O => Some []
  | S n => '(p, _) ← kmalloc i; ps ← allocated n (i + 1); Some (p :: ps)
  end.

(** The objects [ps] hold the numbers from [i] on. *)
Fixpoint numbered (os : gmap ptr my_object) (i : Z) (ps : list ptr) : Prop :=
  match ps with
  | [] => True
  | p :: ps => (exists o, os !! p = Some o /\ sec o = i /\ c_string (tty_name o) = str "tty") /\ numbered os (i + 1) ps
  end.

Lemma numbered_insert os p o ps : p ∉ ps -> forall i, numbered os i ps -> numbered (<[p := o]> os) i ps.
Proof.
  induction ps as [|q ps IH]; intros Hp i; cbn [numbered]; [done|]. apply not_elem_of_cons in Hp as [Hne Hp].
  intros [(x & Hx & Hr) Hn]. split; [|by apply IH]. exists x. split; [|done]. by rewrite lookup_insert_ne.
Qed.

Lemma numbered_app os ps : forall i qs, numbered os i ps -> numbered os (i + len ps) qs -> numbered os i (ps ++ qs).
Proof.
  induction ps as [|p ps IH]; intros i qs; cbn [numbered app]; [by rewrite len_nil, Z.add_0_r|].
  rewrite len_cons, Z.add_assoc. intros [Ho Hn] Hq. split; [done|]. by apply IH.
Qed.

Lemma c_string_tty dst : c_string (strncpy dst (str "tty") 5) = str "tty".
Proof. reflexivity. Qed.

Lemma append_loop_fails n : forall i s, allocated n i = None -> append_loop n i s = None.
Proof.
  induction n as [|n IH]; intros i s; cbn [allocated append_loop]; [done|]. destruct (kmalloc i) as [[p o]|]; [|done].
  cbn [mbind option_bind]. destruct (allocated n (i + 1)) eqn:Ha; [done|]. intros _. by apply IH.
Qed.

Lemma append_loop_spec n : forall i s ps0 ps,
  list_for_each (my_object_list s) = ps0 -> numbered (objects s) 0 ps0 -> i = len ps0 ->
  allocated n i = Some ps -> NoDup (ps0 ++ ps) ->
  exists s', append_loop n i s = Some s' /\ list_for_each (my_object_list s') = ps0 ++ ps /\
    numbered (objects s') 0 (ps0 ++ ps) /\ printed s' = printed s /\ freed s' = freed s /\
    forall q, q ∉ ps -> objects s' !! q = objects s !! q.
Proof.
  induction n as [|n IH]; intros i s ps0 ps Hl Hn Hi; cbn [allocated append_loop].
  { intros [= <-]. rewrite app_nil_r. by exists s. }
  destruct (kmalloc i) as [[p o]|]; [|done]. cbn [mbind option_bind]. destruct (allocated n (i + 1)) as [qs|] eqn:Ha; [|done].
  intros [= <-] Hnd. assert (Hp : p ∉ ps0).
  { intros Hin. apply NoDup_app in Hnd as (_ & Hd & _). apply (Hd p Hin). left. }
  set (s1 := ListState _ _ _ _). destruct (IH (i + 1) s1 (ps0 ++ [p]) qs) as (s' & Hs & Hl' & Hn' & Hp' & Hf' & Ho').
  - cbn. by rewrite chain_add, Hl by (by rewrite Hl).
  - cbn. apply numbered_app; [by apply numbered_insert|]. split; [|done]. eexists. split; [by rewrite lookup_insert_eq|].
    split; [cbn; lia|apply c_string_tty].
  - rewrite len_app, len_cons, len_nil. lia.
  - done.
  - by rewrite <- app_assoc.
  - rewrite <- app_assoc in Hl', Hn'. exists s'. split; [done|]. split; [done|]. split; [done|]. split; [done|]. split; [done|].
    intros q [Hne Hq]%not_elem_of_cons. rewrite Ho' by done. cbn. by rewrite lookup_insert_ne.
Qed.

Lemma print_loop_spec ps : forall i s, numbered (objects s) i ps ->
  print_loop ps s = Some (ListState (objects s) (my_object_list s)
    (printed s ++ ((fun n => (str "tty", n)) <$> seqZ i (len ps))) (freed s)).
Proof.
  induction ps as [|p ps IH]; intros i s; cbn [print_loop numbered].
  { rewrite len_nil, seqZ_nil by lia. intros _. cbn. rewrite app_nil_r. by destruct s. }
  intros [(o & Ho & <- & Hc) Hn]. rewrite Ho. cbn [mbind option_bind]. rewrite (IH (sec o + 1)) by done. cbn [objects my_object_list printed freed].
  pose proof (len_nonneg ps). rewrite len_cons, (seqZ_cons (sec o)) by lia. rewrite fmap_cons, <- app_assoc, Hc.
  replace (Z.pred (1 + len ps)) with (len ps) by lia. replace (Z.succ (sec o)) with (sec o + 1) by lia. done.
Qed.

Lemma delete_loop_spec ps : forall fuel s, list_for_each (my_object_list s) = ps -> NoDup ps -> (length ps <= fuel)%nat ->
  exists s', delete_loop fuel s = Some s' /\ list_for_each (my_object_list s') = [] /\ freed s' = freed s ++ ps /\
    forall q, objects s' !! q = if decide (q ∈ ps) then None else objects s !! q.
Proof.
  induction ps as [|p ps IH]; intros fuel s Hl Hnd Hf.
  - exists s. assert (He : list_empty (my_object_list s) = true) by (by apply chain_empty).
    destruct fuel; cbn [delete_loop]; rewrite He, app_nil_r; split_and!; done.
  - destruct fuel as [|fuel]; cbn in Hf; [lia|]. cbn [delete_loop]. destruct (list_empty (my_object_list s)) eqn:He.
    { apply chain_empty in He. congruence. }
    rewrite (chain_next _ _ _ Hl). set (s1 := ListState _ _ _ _).
    assert (Hl1 : list_for_each (my_object_list s1) = ps).
    { cbn. rewrite chain_del; rewrite Hl; [|left|done]. rewrite filter_cons, decide_False by (intros Hne; by apply Hne).
      apply NoDup_cons in Hnd as [Hp _]. by apply filter_absent. }
    apply NoDup_cons in Hnd as [Hp Hnd]. destruct (IH fuel s1 Hl1 Hnd ltac:(lia)) as (s' & Hs & Hl' & Hf' & Ho').
    exists s'. split; [done|]. split; [done|]. split; [rewrite Hf'; cbn; by rewrite <- app_assoc|].
    intros q. rewrite Ho'. cbn. destruct (decide (q ∈ ps)) as [Hq|Hq].
    + by rewrite decide_True by (by right).
    + destruct (decide (q = p)) as [->|Hne].
      * rewrite decide_True by left. apply lookup_delete_eq.
      * rewrite decide_False by (by intros [?|?]%elem_of_cons). by rewrite lookup_delete_ne.
Qed.

Lemma delete_loop_more f : forall g s s', (f <= g)%nat -> delete_loop f s = Some s' -> delete_loop g s = Some s'.
Proof.
  induction f as [|f IH]; intros [|g] s s' Hle; cbn [delete_loop]; try (destruct (list_empty _); (done || lia)).
  destruct (list_empty _); [done|]. apply IH. lia.
Qed.

(** C28: The list module. When every [kmalloc] answers and the pointers are
    different, loading links 10000 objects and prints them in the order in
    which they were made, and removing the module unlinks every object from
    the front, frees it exactly once, leaves the list empty and all other
    memory as it was; the loop ends. The first [kmalloc] that fails is not
    noticed: the module writes through the null pointer. *)
Theorem list_module_frees_what_it_links s : list_for_each (my_object_list s) = [] ->
  match allocated (Z.to_nat OBJECTS) 0 with
  | None => list_init s = None
  | Some ps => NoDup ps ->
      exists s1 s2, list_init s = Some (0, s1) /\ list_for_each (my_object_list s1) = ps /\
        printed s1 = printed s ++ ((fun n => (str "tty", n)) <$> seqZ 0 (len ps)) /\
        (forall fuel, (length ps <= fuel)%nat -> list_cleanup fuel s1 = Some s2) /\
        list_for_each (my_object_list s2) = [] /\ freed s2 = freed s ++ ps /\
        forall q, objects s2 !! q = if decide (q ∈ ps) then None else objects s !! q
  end.
Proof.
  intros Hl. unfold list_init. generalize (Z.to_nat OBJECTS) as n. intros n.
  destruct (allocated n 0) as [ps|] eqn:Ha; [|by rewrite append_loop_fails]. intros Hnd.
  destruct (append_loop_spec n 0 s [] ps Hl I eq_refl Ha Hnd) as (s1 & Hs & Hl1 & Hn1 & Hp1 & Hf1 & Ho1).
  rewrite Hs. cbn [mbind option_bind app] in *. rewrite Hl1, (print_loop_spec ps 0 s1 Hn1). cbn [mbind option_bind].
  set (s1' := ListState _ _ _ _). unfold list_cleanup.
  destruct (delete_loop_spec ps (length ps) s1' Hl1 Hnd ltac:(lia)) as (s2 & H2 & Hl2 & Hf2 & Ho2).
  exists s1', s2. split; [done|]. split; [done|]. split; [cbn; by rewrite Hp1|]. split.
  - intros fuel Hf. by apply (delete_loop_more (length ps)).
  - split; [done|]. split; [rewrite Hf2; cbn; by rewrite Hf1|]. intros q. rewrite Ho2. cbn. destruct (decide (q ∈ ps)); [done|].
    by rewrite Ho1.
Qed.
End ListDemo.

(** ** secfs/secfs.c

    [securityfs_create_dir] answers a pointer or, cast to [int], [-ENODEV];
    what the module keeps, and whether it removes it. *)
Definition secfs_init (securityfs_create_dir : Z) : Z * Z :=
  let hp_dir_entry := securityfs_create_dir in
  let hp_dir_entry := if s32 hp_dir_entry =? - ENODEV then 0 else hp_dir_entry in
  (0, hp_dir_entry).

(** The argument of [securityfs_remove], if it is called. *)
Definition secfs_cleanup (hp_dir_entry : Z) : option Z :=
  if hp_dir_entry =? 0 then None else Some hp_dir_entry.

(** The module gives back what it got, and nothing when it got no directory:
    no memory (NULL) or no securityfs ([-ENODEV]). *)
Theorem secfs_removes_what_it_made dir :
  secfs_cleanup (secfs_init dir).2 = (if (dir =? 0) || (s32 dir =? - ENODEV) then None else Some dir) /\ (secfs_init dir).1 = 0.
Proof.
  unfold secfs_init, secfs_cleanup. cbn [fst snd]. destruct (s32 dir =? - ENODEV); [by rewrite orb_true_r|].
  by rewrite orb_false_r.
Qed.

(** ** mmap/kill_syscalltable.c

    The program maps one page of physical memory, at [vaddr_dm], and reads the
    entry of [open] in it. The addresses are those of a 32-bit machine. *)
Definition PAGE := 4096.
Definition sys_call_table_addr := 3225602560.     (* 0xc042ca00 *)

(** The offset that is given to [mmap]. *)
Definition sys_call_table_offset : Z := Z.land (sys_call_table_addr - 3221225472) (Z.lnot (PAGE - 1)).

(** The address of [another_sys_table[__NR_open]]. *)
Definition open_entry (NR_open vaddr_dm : Z) : Z := u32 (u32 (vaddr_dm + sys_call_table_offset) + 4 * NR_open).

(** What the program does: its system calls, what it prints, and its reads of
    the mapping. *)
Inductive act :=
  | Open_dev_mem
  | Printf (fmt : bytes) (args : list Z)
  | Perror (s : bytes)
  | Mmap (len fd offset : Z)
  | Read_word (addr : Z)
  | Munmap (addr len : Z)
  | Close (fd : Z).

Definition print_line (fmt : string) (arg : Z) : act := Printf (str fmt ++ [NL]) [arg].

(** [main], with the answers of [open] and [mmap] and the words in memory. *)
Definition kill_main (NR_open fd vaddr_dm : Z) (word : Z -> Z) : list act :=
  let memsize := PAGE in
  [Open_dev_mem; print_line "%x" memsize; print_line "%x" sys_call_table_addr; print_line "%x" sys_call_table_offset] ++
  if fd <? 0 then [Perror (str "fd")]
  else
    Mmap memsize fd sys_call_table_offset ::
    if s32 vaddr_dm =? -1 then [Perror (str "mmap")]
    else
      let bkup := open_entry NR_open vaddr_dm in
      [print_line "vaddr_dm %p" vaddr_dm; print_line "syscall_offset %x" sys_call_table_offset; print_line "open %p" bkup;
       Read_word bkup; print_line "open %p" (word bkup);
       Munmap vaddr_dm memsize; Close fd].

(** The addresses of the mapping. *)
Definition in_mapping (vaddr_dm addr : Z) : Prop := 0 <= u32 (addr - vaddr_dm) < PAGE.

(** The program adds the offset of the page, not the offset in the page: for
    every call number below 256 it reads outside of its mapping, wherever that
    is; the entry itself is in the mapped page, at the table's offset in it. *)
Theorem open_entry_outside_mapping NR_open vaddr_dm : 0 <= NR_open < 256 -> 0 <= vaddr_dm < 2 ^ 32 ->
  ~ in_mapping vaddr_dm (open_entry NR_open vaddr_dm) /\
  in_mapping vaddr_dm (vaddr_dm + (sys_call_table_addr - 3221225472 - sys_call_table_offset) + 4 * NR_open).
Proof.
  intros HNR Hv. unfold in_mapping, open_entry. change sys_call_table_offset with 4374528.
  change (sys_call_table_addr - 3221225472 - 4374528) with 2560. unfold PAGE, u32. split.
  - Z.to_euclidean_division_equations. lia.
  - replace (vaddr_dm + 2560 + 4 * NR_open - vaddr_dm) with (2560 + 4 * NR_open) by lia. rewrite Z.mod_small by lia. lia.
Qed.

(** Whatever [open] and [mmap] answer: the program maps the page of the table
    or stops with a message, gives back the mapping and the file that it was
    given, and its only read, of the page it has mapped, is outside of it. *)
Theorem kill_main_reads_outside NR_open fd vaddr_dm word : 0 <= NR_open < 256 -> 0 <= vaddr_dm < 2 ^ 32 ->
  let acts := kill_main NR_open fd vaddr_dm word in
  (forall n f o, Mmap n f o ∈ acts -> n = PAGE /\ f = fd /\ 0 <= fd /\
     o <= sys_call_table_addr - 3221225472 < o + PAGE /\
     (s32 vaddr_dm <> -1 -> Munmap vaddr_dm PAGE ∈ acts /\ Close fd ∈ acts)) /\
  (forall a, Read_word a ∈ acts -> Mmap PAGE fd sys_call_table_offset ∈ acts /\ ~ in_mapping vaddr_dm a).
Proof.
  intros HNR Hv acts. pose proof (open_entry_outside_mapping NR_open vaddr_dm HNR Hv) as [Hout _].
  assert (Hpage : sys_call_table_offset <= sys_call_table_addr - 3221225472 < sys_call_table_offset + PAGE) by (vm_compute; split; [discriminate|reflexivity]).
  unfold acts, kill_main. destruct (Z.ltb_spec fd 0).
  - split; intros *; cbn [app]; rewrite !elem_of_cons, elem_of_nil; intros H0; exfalso; naive_solver.
  - destruct (Z.eqb_spec (s32 vaddr_dm) (-1)) as [He|He].
    + split; intros *; cbn [app]; rewrite !elem_of_cons, elem_of_nil; intros H0.
      * assert (n = PAGE /\ f = fd /\ o = sys_call_table_offset) as (-> & -> & ->) by naive_solver. by split_and!.
      * exfalso. naive_solver.
    + split; intros *; cbn [app]; rewrite !elem_of_cons, elem_of_nil; intros H0.
      * assert (n = PAGE /\ f = fd /\ o = sys_call_table_offset) as (-> & -> & ->) by naive_solver.
        split_and!; try done; try apply Hpage; tauto.
      * assert (a = open_entry NR_open vaddr_dm) as -> by naive_solver. split; [tauto|done].
Qed.

Lemma open_entry_outside_mapping_witness : ~ in_mapping 3086077952 (open_entry 5 3086077952).
Proof. refine (proj1 (open_entry_outside_mapping 5 3086077952 _ _)); split; (discriminate || reflexivity). Defined.

(** ** Witnesses *)

Lemma marks_list : task_list ring_of_three 1%nat 1%nat [2%nat; 3%nat].
Proof. repeat split; discriminate. Qed.

Lemma marks_nodup : NoDup [1%nat; 2%nat; 3%nat].
Proof. apply (bool_decide_unpack _). vm_compute. exact I. Qed.

Lemma home_hack_all_or_nothing_witness :
  exists s', home_hack_init nr_x86 (fun c => 2000 + nr_x86 c) ring_of_three 1%nat 3 (HomeHack two_nodes marks_mem home_before) = Some (0, s') /\
    sys_call_table (hh_home s') !!! 5 = 2005 /\
    sys_call_table (hh_home (home_hack_cleanup nr_x86 (fun c => 2000 + nr_x86 c) s')) !!! 5 = 1000.
Proof.
  destruct (home_hack_all_or_nothing nr_x86 (fun c => 2000 + nr_x86 c) ring_of_three 1%nat
    (HomeHack two_nodes marks_mem home_before) [2%nat; 3%nat] 3 nr_x86_inj marks_list marks_nodup ltac:(cbn; lia)) as (r & s' & Hs & Hr).
  change (args_ok (hh_args (HomeHack two_nodes marks_mem home_before))) with true in Hr. cbv iota in Hr.
  destruct Hr as (-> & _ & Hw & _ & Hk & _). exists s'. split; [exact Hs|]. split; [exact (Hw open)|]. rewrite (Hk 5). reflexivity.
Defined.

Lemma proc_hack_restores_hook_witness :
  exists s', proc_hack_init ring_of_three 1%nat 9%nat 3 (ProcHack two_nodes HookDummy marks_mem) = Some (0, s') /\
    k_hook (ph_mem s') = HookModule 9 /\ k_hook (ph_mem (proc_hack_cleanup 9%nat s')) = HookDummy.
Proof.
  destruct (proc_hack_restores_hook ring_of_three 1%nat 9%nat (ProcHack two_nodes HookDummy marks_mem) [2%nat; 3%nat] 3
    marks_list marks_nodup ltac:(cbn; lia)) as (s' & Hs & Hh & Hc & _).
  exists s'. split; [exact Hs|]. split; [exact Hh|exact Hc].
Defined.

(** The list as the sequence of its entries. *)
#[export] Instance sequence_list : KernelList (list ptr) := {
  list_head := [];
  list_add_tail p l := l ++ [p];
  list_del p l := filter (fun q => q <> p) l;
  list_empty l := match l with [] => true | _ => false end;
  list_next l := default 0%nat (head l);
  list_for_each l := l;
}.

#[export] Instance sequence_list_laws : KernelListLaws (list ptr).
Proof. split; cbn; [done|done|done|by intros [|]|by intros [|q l] p ps; cbn; [|intros [= -> _]]]. Qed.

(** A kernel that never runs out of memory. *)
Definition plenty (i : Z) : option (ptr * my_object) := Some (S (Z.to_nat i), MyObject 0 (replicate 6 255)).

Lemma plenty_allocated n : forall i, 0 <= i -> allocated plenty n i = Some (seq (S (Z.to_nat i)) n).
Proof.
  induction n as [|n IH]; intros i Hi; cbn [allocated plenty mbind option_bind seq]; [done|].
  rewrite IH by lia. cbn. by replace (Z.to_nat (i + 1)) with (S (Z.to_nat i)) by lia.
Qed.

Lemma list_module_frees_what_it_links_witness :
  exists s1 s2, list_init plenty (ListState ∅ (list_head (L := list ptr)) [] []) = Some (0, s1) /\
    list_cleanup (Z.to_nat OBJECTS) s1 = Some s2 /\ freed s2 = seq 1 (Z.to_nat OBJECTS).
Proof.
  pose proof (list_module_frees_what_it_links plenty (ListState ∅ (list_head (L := list ptr)) [] []) eq_refl) as Hl.
  rewrite (plenty_allocated (Z.to_nat OBJECTS) 0 ltac:(lia)) in Hl.
  destruct (Hl (NoDup_seq _ _)) as (s1 & s2 & H1 & _ & _ & Hc & _ & Hf & _).
  exists s1, s2. split; [exact H1|]. split; [apply Hc; by rewrite length_seq|exact Hf].
Defined.
