(* ===== verification/Demos.v ===== *)
(** * Modules that print (hello-1, hello-5, multifile, security_ops_hack, process, module_param)

    The modules whose work is the text they print, and what the parameters of
    hello-5 can change of it. *)
From S2P Require Import Prelude Format Structs Spies.

(** A call of [printk], with or without [KERN_INFO]. *)
Inductive line := Info (text : bytes) | Plain (text : bytes).

(** ** hello-1 and multifile *)

Definition hello_1_init : list line * Z := ([Info (line_nl "Hello world!")], 0).
Definition hello_1_cleanup : list line := [Info (line_nl "Goodbye world.")].

(** multifile is one module of three files. *)
Definition print_hello : list line := [Info (line_nl "Hello World!!!!!!!")].
Definition multifile_init : list line * Z := (print_hello, 0).
Definition multifile_cleanup : list line := [Info (line_nl "Goodbye world.")].

(** ** security_ops_hack, process, module_param

    [init_module] of security_ops_hack reads the pointer [security_ops] and does
    nothing with it. The removal of the three modules prints the same text. *)
Definition security_ops_hack_init (security_ops : Z) : list line * Z :=
  let sec_ops := security_ops in ([], 0).
Definition security_ops_hack_cleanup : list line := [Plain (line_nl "ended process module")].
Definition process_cleanup : list line := [Plain (line_nl "ended process module")].
Definition module_param_cleanup : list line := [Plain (line_nl "ended process module")].

(** ** hello-5/hello-5.c *)

Section Hello5.
Context `{Arch}.

(** The variables of the module, and their initial values. *)
Record hello_5 := Hello5 {
  myshort : Z;
  myint : Z;
  mylong : Z;
  mystring : bytes;
  myintArray : list Z;
  arr_argc : Z;
}.

Definition hello_5_0 : hello_5 := Hello5 1 420 9999 (str "blah") [-1; -1] 0.

(** [module_param] makes a variable known under its name, with its type and the
    permissions of its file in sysfs. *)
Inductive variable :=
  | ParamShort (set : Z -> hello_5 -> hello_5)
  | ParamInt (set : Z -> hello_5 -> hello_5)
  | ParamLong (set : Z -> hello_5 -> hello_5)
  | ParamCharp (set : bytes -> hello_5 -> hello_5).

Record kernel_param := KernelParam { kp_name : bytes; kp_var : variable; kp_perm : Z }.

Definition set_myshort (v : Z) (s : hello_5) := Hello5 v (myint s) (mylong s) (mystring s) (myintArray s) (arr_argc s).
Definition set_myint (v : Z) (s : hello_5) := Hello5 (myshort s) v (mylong s) (mystring s) (myintArray s) (arr_argc s).
Definition set_mylong (v : Z) (s : hello_5) := Hello5 (myshort s) (myint s) v (mystring s) (myintArray s) (arr_argc s).
Definition set_mystring (v : bytes) (s : hello_5) := Hello5 (myshort s) (myint s) (mylong s) v (myintArray s) (arr_argc s).

(** The other bits of linux/stat.h. *)
Definition S_IRGRP := 32.
Definition S_IWGRP := 16.
Definition S_IROTH := 4.
Definition S_IWOTH := 2.

Definition hello_5_params : list kernel_param := [
  KernelParam (str "myshort") (ParamShort set_myshort) (Z.lor (Z.lor (Z.lor S_IRUSR S_IWUSR) S_IRGRP) S_IWGRP);
  KernelParam (str "myint") (ParamInt set_myint) (Z.lor (Z.lor (Z.lor S_IRUSR S_IWUSR) S_IRGRP) S_IROTH);
  KernelParam (str "mylong") (ParamLong set_mylong) S_IRUSR;
  KernelParam (str "mystring") (ParamCharp set_mystring) 0 ].

(** The loop over [myintArray]. *)
Fixpoint array_lines (i : Z) (l : list Z) : list line :=
  match l with
  | [] => []
  | x :: l => Info (str "myintArray[" ++ fmt_d i ++ str "] = " ++ fmt_d x ++ [NL]) :: array_lines (i + 1) l
  end.

Definition hello_5_init (s : hello_5) : list line * Z :=
  ([ Info (line_nl "Hello, World 5" ++ line_nl "==============");
     Info (str "myshort is a short integer:: " ++ fmt_d (myshort s) ++ [NL]);
     Info (str "myint is a integer: " ++ fmt_d (myint s) ++ [NL]);
     Info (str "mylong is a long integer: " ++ fmt_d (mylong s) ++ [NL]);
     Info (str "mystring is a string: " ++ mystring s ++ [NL]) ] ++
   array_lines 0 (myintArray s) ++
   [ Info (str "got " ++ fmt_d (arr_argc s) ++ str " arguments for myintArray." ++ [NL]) ], 0).

Definition hello_5_exit (s : hello_5) : list line :=
  [Info (str "Goodbye, world 5 myint " ++ fmt_d (myint s) ++ [NL])].

(** What the kernel stores through a parameter: a value of its type. *)
Inductive stored : variable -> hello_5 -> hello_5 -> Prop :=
  | S_short set s v : - 2 ^ 15 <= v < 2 ^ 15 -> stored (ParamShort set) s (set v s)
  | S_int set s v : - 2 ^ 31 <= v < 2 ^ 31 -> stored (ParamInt set) s (set v s)
  | S_long set s v : - 2 ^ (BITS_PER_LONG - 1) <= v < 2 ^ (BITS_PER_LONG - 1) -> stored (ParamLong set) s (set v s)
  | S_charp set s v : stored (ParamCharp set) s (set v s).

(** On the command line of insmod every parameter can be set; afterwards those
    whose file in sysfs somebody may write. *)
Definition set_at_load (s s' : hello_5) : Prop := exists k, k ∈ hello_5_params /\ stored (kp_var k) s s'.
Definition writable (k : kernel_param) : bool := negb (Z.land (kp_perm k) (Z.lor (Z.lor S_IWUSR S_IWGRP) S_IWOTH) =? 0).
Definition set_later (s s' : hello_5) : Prop := exists k, k ∈ hello_5_params /\ writable k = true /\ stored (kp_var k) s s'.

Definition typed (s : hello_5) : Prop :=
  - 2 ^ 15 <= myshort s < 2 ^ 15 /\ - 2 ^ 31 <= myint s < 2 ^ 31 /\
  - 2 ^ (BITS_PER_LONG - 1) <= mylong s < 2 ^ (BITS_PER_LONG - 1) /\
  myintArray s = [-1; -1] /\ arr_argc s = 0.

Ltac params := repeat match goal with
  | H : _ ∈ [] |- _ => by apply elem_of_nil in H
  | H : _ ∈ hello_5_params |- _ => unfold hello_5_params in H
  | H : _ ∈ _ :: _ |- _ => apply elem_of_cons in H as [->|H]
  end.

Lemma set_at_load_typed s s' : set_at_load s s' -> typed s -> typed s'.
Proof. intros (k & Hk & Hs) (H1 & H2 & H3 & H4 & H5). params; inversion Hs; subst; unfold typed; cbn; auto. Qed.

Lemma hello_5_0_typed : typed hello_5_0.
Proof. unfold typed. cbn. destruct bits_per_long_ok as [->| ->]; split_and!; lia || done. Qed.

(** The lengths of the texts in a goal. *)
Ltac text_lengths := repeat match goal with
  | |- context [len (str ?x)] => let n := eval vm_compute in (len (str x)) in change (len (str x)) with n
  | |- context [len [?x]] => change (len [x]) with 1
  end.

(** With whatever parameters the module is loaded, and whatever is written to
    their files: the load succeeds, the numbers it prints are those of the
    parameters, of their width; the array and its count, which no parameter
    reaches, are always printed as -1, -1 and 0; and only [myshort] and [myint]
    can have changed at the exit. *)
Theorem hello_5_prints_its_parameters s s' : rtc set_at_load hello_5_0 s -> rtc set_later s s' ->
  typed s /\ (hello_5_init s).2 = 0 /\
  (exists l, (hello_5_init s).1 = l ++ [
     Info (line_nl "myintArray[0] = -1"); Info (line_nl "myintArray[1] = -1");
     Info (line_nl "got 0 arguments for myintArray.")] /\ length l = 5%nat) /\
  Forall (fun x => match x with Info t => len t <= 51 + len (mystring s) | Plain _ => False end) (hello_5_init s).1 /\
  mylong s' = mylong s /\ mystring s' = mystring s /\
  hello_5_exit s' = [Info (str "Goodbye, world 5 myint " ++ fmt_d (myint s') ++ [NL])].
Proof.
  intros Hl Hw. assert (Ht : typed s).
  { pose proof hello_5_0_typed as H0. induction Hl; eauto using set_at_load_typed. }
  assert (Hk : mylong s' = mylong s /\ mystring s' = mystring s).
  { clear Hl Ht. induction Hw as [|s s1 s' (k & Hk & Hwr & Hs) _ [-> ->]]; [done|]. params; inversion Hs; subst; done. }
  destruct Ht as (H1 & H2 & H3 & H4 & H5). destruct Hk. split; [done|]. split; [done|]. split.
  { eexists (_ :: _ :: _ :: _ :: _ :: []). unfold hello_5_init. rewrite H4, H5. split; reflexivity. }
  split; [|done]. unfold hello_5_init. rewrite H4, H5.
  pose proof (len_fmt_d32 (myshort s) ltac:(lia)). pose proof (len_fmt_d32 (myint s) ltac:(lia)). pose proof (len_nonneg (mystring s)).
  pose proof (len_fmt_d32 (-1) ltac:(lia)). pose proof (len_fmt_d32 0 ltac:(lia)). pose proof (len_fmt_d32 (0 + 1) ltac:(lia)).
  assert (len (fmt_d (mylong s)) <= 20).
  { apply len_fmt_d64. destruct bits_per_long_ok as [E|E]; rewrite E in H3; lia. }
  cbn [array_lines app fst]. repeat (apply Forall_cons_2; [|]); try apply Forall_nil_2; unfold line_nl; rewrite ?len_app; text_lengths; lia.
Qed.
End Hello5.
