(* ===== verification/Ifconf.v ===== *)
(** * Listing network interfaces (home_hack/siocgifconf.c, miniifconf.c)

    Two user programs. [socket] and [ioctl] are the kernel's: what they answer
    is an argument; the programs look at neither answer. Their memory is the
    bytes of the structures on the stack, which nothing has initialised. *)
From S2P Require Import Prelude Format Modules.

(** ** The layout of [struct ifreq]: the name, then a [struct sockaddr] (two bytes
    of family, fourteen of data). *)
Definition IFNAMSIZ := 16.
Definition AF_INET := 2.
Definition ifr_addr := IFNAMSIZ.
Definition sa_data := ifr_addr + 2.

(** [printf "%s"] of the bytes from [a] on: [None] where no NUL ends them within
    the memory. *)
Definition string_at (m : bytes) (a : Z) : option bytes :=
  let s := zdrop a m in if existsb (Z.eqb 0) s then Some (c_string s) else None.

(** [printf "%02x"] of a byte. *)
Definition hex2 (c : Z) : bytes := zero_pad 2 (fmt_x (Z.land c 255)).

(** ** siocgifconf.c *)

Section Siocgifconf.
Context `{Arch} (sizeof_ifreq : Z).
(** [ioctl fd SIOCGIFCONF] with [ifc_len] and the buffer: its answer and what it
    leaves of the two. *)
Context (socket : Z) (ioctl : Z -> Z -> bytes -> Z * Z * bytes).

(** The loop over [sa_data], [n] bytes from [a] on. *)
Fixpoint data_loop (n : nat) (ifr : bytes) (a : Z) : option bytes :=
  match n with
  | O => Some []
  | S n => c ← ifr !! Z.to_nat a; out ← data_loop n ifr (a + 1); Some (hex2 c ++ out)
  end.

(** The loop over the entries, [n] of them from [i] on. *)
Fixpoint entry_loop (n : nat) (ifr : bytes) (i : Z) : option bytes :=
  match n with
  | O => Some []
  | S n =>
      name ← string_at ifr (i * sizeof_ifreq);
      data ← data_loop 14 ifr (i * sizeof_ifreq + sa_data);
      out ← entry_loop n ifr (i + 1);
      Some (name ++ [NL] ++ data ++ [NL] ++ out)
  end.

(** What [main] prints and returns, on a stack with [ifr]. *)
Definition siocgifconf_main (ifr : bytes) : option (bytes * Z) :=
  let fd := socket in
  let '(_, ifc_len, ifr) := ioctl fd (s32 (10 * sizeof_ifreq)) ifr in
  let nifs := s32 (ulong ifc_len / sizeof_ifreq) in
  out ← entry_loop (Z.to_nat nifs) ifr 0;
  Some (out, 0).

(** An interface, and the entry that shows it. *)
Record interface := Interface { if_name : bytes; if_family : bytes; if_data : bytes; if_rest : bytes }.

Definition ifreq (x : interface) : bytes :=
  if_name x ++ replicate (Z.to_nat (IFNAMSIZ - len (if_name x))) 0 ++ if_family x ++ if_data x ++ if_rest x.

Definition interface_ok (x : interface) : Prop :=
  len (if_name x) < IFNAMSIZ /\ Forall (fun c => c <> 0) (if_name x) /\ len (if_family x) = 2 /\ len (if_data x) = 14 /\
  IFNAMSIZ + 16 + len (if_rest x) = sizeof_ifreq.

(** Its two lines. *)
Definition shown (x : interface) : bytes := if_name x ++ [NL] ++ flat_map hex2 (if_data x) ++ [NL].

Lemma len_ifreq x : interface_ok x -> len (ifreq x) = sizeof_ifreq.
Proof.
  intros (H1 & _ & H2 & H3 & H4). unfold ifreq, IFNAMSIZ in *. rewrite !len_app, H2, H3.
  pose proof (len_nonneg (if_name x)). unfold len at 2. rewrite length_replicate. lia.
Qed.

Lemma string_ends s pad rest : Forall (fun c => c <> 0) s -> 0 < pad ->
  existsb (Z.eqb 0) (s ++ replicate (Z.to_nat pad) 0 ++ rest) = true /\ c_string (s ++ replicate (Z.to_nat pad) 0 ++ rest) = s.
Proof.
  intros Hs Hp. destruct (Z.to_nat pad) as [|n] eqn:E; [lia|]. induction Hs as [|c s Hc Hs [IH1 IH2]]; [done|].
  cbn [app existsb c_string]. rewrite IH1, IH2, orb_true_r. by destruct (Z.eqb_spec c 0).
Qed.

Lemma string_at_entry x pre post : len (if_name x) < IFNAMSIZ -> Forall (fun c => c <> 0) (if_name x) ->
  string_at (pre ++ ifreq x ++ post) (len pre) = Some (if_name x).
Proof.
  intros H1 H2. unfold string_at.
  replace (zdrop (len pre) (pre ++ ifreq x ++ post)) with (ifreq x ++ post) by (unfold zdrop, len; by rewrite Nat2Z.id, drop_app_length).
  unfold ifreq. rewrite <- !app_assoc.
  destruct (string_ends (if_name x) (IFNAMSIZ - len (if_name x)) (if_family x ++ if_data x ++ if_rest x ++ post) H2) as [-> ->]; [lia|done].
Qed.

Lemma data_loop_spec l : forall pre post, data_loop (length l) (pre ++ l ++ post) (len pre) = Some (flat_map hex2 l).
Proof.
  induction l as [|c l IH]; intros pre post; cbn [data_loop length flat_map]; [done|].
  rewrite lookup_app_r by (unfold len; lia). replace (Z.to_nat (len pre) - length pre)%nat with 0%nat by (unfold len; lia).
  cbn. specialize (IH (pre ++ [c]) post). rewrite len_app, len_cons, len_nil, Z.add_0_r, <- app_assoc in IH. cbn in IH. by rewrite IH.
Qed.

(** A memory that holds entries prints them. *)
Lemma entry_loop_spec xs : Forall interface_ok xs -> forall pre post i, len pre = i * sizeof_ifreq -> 0 <= i ->
  entry_loop (length xs) (pre ++ flat_map ifreq xs ++ post) i = Some (flat_map shown xs).
Proof.
  induction 1 as [|x xs Hx Hxs IH]; intros pre post i Hpre Hi; cbn [entry_loop length flat_map]; [done|].
  pose proof Hx as (H1 & H2 & H3 & H4 & H5). rewrite <- Hpre.
  rewrite <- app_assoc, (string_at_entry x pre _ H1 H2). cbn [mbind option_bind].
  set (p1 := pre ++ if_name x ++ replicate (Z.to_nat (IFNAMSIZ - len (if_name x))) 0 ++ if_family x).
  replace (len pre + sa_data) with (len p1).
  2: { unfold p1, sa_data, ifr_addr, IFNAMSIZ in *. rewrite !len_app, H3. unfold len at 3. rewrite length_replicate. lia. }
  replace (pre ++ ifreq x ++ flat_map ifreq xs ++ post) with (p1 ++ if_data x ++ if_rest x ++ flat_map ifreq xs ++ post)
    by (unfold p1, ifreq; by rewrite <- !app_assoc).
  replace 14%nat with (length (if_data x)) by (unfold len in H4; lia). rewrite data_loop_spec. cbn [mbind option_bind].
  replace (p1 ++ if_data x ++ if_rest x ++ flat_map ifreq xs ++ post) with ((pre ++ ifreq x) ++ flat_map ifreq xs ++ post)
    by (unfold p1, ifreq; by rewrite <- !app_assoc).
  rewrite (IH _ _ (i + 1)); [cbn; f_equal; unfold shown; by rewrite <- !app_assoc| |lia].
  rewrite len_app, len_ifreq by done. lia.
Qed.

(** The lines printed are those of the entries in the memory that [ioctl] leaves:
    of the interfaces, where it has stored them - at most ten -; and where it
    fails, leaving buffer and length alone, of ten entries that nothing but the
    stack has written. *)
Theorem siocgifconf_prints_entries ifr xs post r : 32 <= sizeof_ifreq <= 4096 -> Forall interface_ok xs -> len xs <= 10 ->
  ioctl socket (10 * sizeof_ifreq) ifr = (r, len xs * sizeof_ifreq, flat_map ifreq xs ++ post) ->
  siocgifconf_main ifr = Some (flat_map shown xs, 0).
Proof.
  intros Hs Hxs Hn Hioctl. unfold siocgifconf_main. assert (H0 := len_nonneg xs).
  replace (s32 (10 * sizeof_ifreq)) with (10 * sizeof_ifreq) by (symmetry; apply s32_small; lia). rewrite Hioctl.
  assert (0 <= len xs * sizeof_ifreq < 2 ^ 31) by nia.
  assert (ulong (len xs * sizeof_ifreq) = len xs * sizeof_ifreq) as ->.
  { unfold ulong. apply Z.mod_small. destruct bits_per_long_ok as [E|E]; rewrite E; lia. }
  rewrite Z.div_mul by lia. rewrite s32_small by lia. replace (Z.to_nat (len xs)) with (length xs) by (unfold len; lia).
  pose proof (entry_loop_spec xs Hxs [] post 0 ltac:(done) ltac:(lia)) as E. cbn [app] in E. by rewrite E.
Qed.

Corollary siocgifconf_prints_the_stack ifr xs : 32 <= sizeof_ifreq <= 4096 -> Forall interface_ok xs -> len xs = 10 ->
  ifr = flat_map ifreq xs -> ioctl socket (10 * sizeof_ifreq) ifr = (-1, 10 * sizeof_ifreq, ifr) ->
  siocgifconf_main ifr = Some (flat_map shown xs, 0).
Proof.
  intros Hs Hxs Hn -> Hioctl. apply (siocgifconf_prints_entries _ xs [] (-1)); [done..|lia|]. by rewrite Hn, app_nil_r.
Qed.
End Siocgifconf.

(** ** miniifconf.c *)

Section Miniifconf.
(** [ioctl fd SIOCGIFADDR] with the structure: its answer and what it leaves. *)
Context (socket : Z) (ioctl : Z -> bytes -> Z * bytes).

(** Stores bytes in a structure. *)
Definition store_at (a : Z) (s m : bytes) : bytes := ztake a m ++ s ++ zdrop (a + len s) m.

Definition inet_ntoa (m : bytes) (a : Z) : bytes :=
  fmt_u (zbyte m a) ++ str "." ++ fmt_u (zbyte m (a + 1)) ++ str "." ++ fmt_u (zbyte m (a + 2)) ++ str "." ++ fmt_u (zbyte m (a + 3)).

(** The family is a little-endian number; the address lies behind the port. *)
Definition mini_request (ifr : bytes) : bytes :=
  let ifr := store_at ifr_addr [AF_INET; 0] ifr in
  strncpy ifr (str "eth2") (IFNAMSIZ - 1).

Definition miniifconf_main (ifr : bytes) : bytes * Z :=
  let fd := socket in
  let '(_, ifr) := ioctl fd (mini_request ifr) in
  (inet_ntoa ifr (sa_data + 2) ++ [NL], 0).

Lemma split_at (l : bytes) n : Z.of_nat n <= len l -> exists h t, l = h ++ t /\ length h = n.
Proof.
  intros Hn. exists (take n l), (drop n l). split; [by rewrite take_drop|]. rewrite length_take. unfold len in Hn. lia.
Qed.

(** The request names eth2 and the family and leaves the rest of the stack's
    bytes, the address among them, as they are. *)
Lemma mini_request_spec ifr : 32 <= len ifr ->
  c_string (mini_request ifr) = str "eth2" /\ zbyte (mini_request ifr) ifr_addr = AF_INET /\
  len (mini_request ifr) = len ifr /\ forall a, sa_data <= a -> zbyte (mini_request ifr) a = zbyte ifr a.
Proof.
  intros Hl. destruct (split_at ifr 18 ltac:(lia)) as (h & t & -> & Hh).
  do 18 (destruct h as [|? h]; [discriminate Hh|]). destruct h; [|discriminate Hh].
  split_and!; [reflexivity|reflexivity|unfold len; reflexivity|].
  intros a Ha. unfold zbyte, sa_data, ifr_addr, IFNAMSIZ in *. destruct (Z.ltb_spec a 0); [lia|].
  replace (Z.to_nat a) with (18 + Z.to_nat (a - 18))%nat by lia. reflexivity.
Qed.

(** It prints the address that the kernel has stored; and where there is no eth2
    the four bytes that happened to be on the stack. *)
Theorem miniifconf_prints_address ifr r ifr' : 32 <= len ifr -> ioctl socket (mini_request ifr) = (r, ifr') ->
  miniifconf_main ifr = (inet_ntoa ifr' (sa_data + 2) ++ [NL], 0) /\
  (ifr' = mini_request ifr -> miniifconf_main ifr = (inet_ntoa ifr (sa_data + 2) ++ [NL], 0)).
Proof.
  intros Hl Hio. unfold miniifconf_main. rewrite Hio. split; [done|]. intros ->.
  destruct (mini_request_spec ifr Hl) as (_ & _ & _ & Hz). unfold inet_ntoa. by rewrite !Hz by lia.
Qed.
End Miniifconf.
