(* ===== verification/Agree.v ===== *)
(** * Listing and lookup agree (fs/proc/base.c)

    readdir and lookup of /proc, of /proc/<tgid>/task, of fd and fdinfo and of
    the directories made from tables go different ways: one walks the pids, the
    threads, the file table or the entries, the other parses a name and asks the
    pid hash or the file table, or searches the entries. Here the two are run one
    after the other: what a complete reading has listed is what lookup finds. *)
From S2P Require Import Prelude Format Structs Kernel Access Names Tables Threads Links Inodes Dirs Procs Tasks.

(** ** A kernel with memory to spare: what a found task needs *)

Record can_make (A : forall o, ans o) (task : task_id) : Prop := {
  makes_inode : forall sb, exists ino, A (NewInode sb) = Some ino /\ is_Some (A (GetProcTask ino));
  has_pid : is_Some (A (GetTaskPid task));
}.

Section Made.
Context (A : forall o, ans o) (task : task_id) (Hmake : can_make A task).

(** The inode is made and its dentry passes revalidation. *)
Lemma made_wp {B : Type} sb w (f : option inode_id -> prog B) (Q : B -> world -> Prop) :
  (forall ino w', keeps_only [RInode ino] w w' -> is_Some (A (GetProcTask ino)) -> wp (dcache_answers A) (f (Some ino)) Q w') ->
  wp (dcache_answers A) (proc_pid_make_inode sb task ≫= f) Q w.
Proof.
  intros HQ. apply wp_bind, wp_adds_nothing; [apply proc_pid_make_inode_adds_nothing|].
  apply proc_pid_make_inode_answers. intros r w1 Hr. destruct (makes_inode _ _ Hmake sb) as (ino & Hi & Ht).
  destruct (has_pid _ _ Hmake) as [pid Hp]. rewrite Hi, Hp in Hr. destruct Hr as [-> (Hk & _)]. by apply HQ.
Qed.

Lemma added_wp {B : Type} dentry ops ino w0 w (k : prog B) (Q : B -> world -> Prop) : keeps_only [RInode ino] w0 w ->
  (forall w', balanced w0 w' -> d_inode (k_dentry (mem w') !!! dentry) = Some ino -> wp (dcache_answers A) k Q w') ->
  wp (dcache_answers A) (set_and_add dentry ops ino;; k) Q w.
Proof.
  intros [Hh Hb] HQ. destruct w as [m h b l]. cbn [held bad] in *. subst h b. unfold set_and_add. kunfold. kcbn.
  intros [] m1 [_ ->]. cbn [dcache_step]. repeat (kdec; kcbn). apply HQ; [done|]. cbn [mem].
  rewrite k_dentry_upd_dentry, lookup_total_insert_eq. by destruct (k_dentry _ !!! dentry).
Qed.

Lemma task_dir_instantiate_finds iop fop stuff dir dentry w :
  wp (dcache_answers A) (task_dir_instantiate iop fop stuff dir dentry task) (fun r w' => r = 0 /\ balanced w w') w.
Proof.
  unfold task_dir_instantiate, inode_sb. cbn [gets mbind prog_mbind pbind wp]. apply made_wp. intros ino [m h b l] Hk Ht.
  kcbn. apply (added_wp _ _ _ w); [done|]. intros w2 Hb Hd. apply wp_bind, wp_adds_nothing; [apply pid_revalidate_adds_nothing|].
  eapply wp_mono; [by apply pid_revalidate_answers|]. intros ok w3 (Hb3 & _ & _ & Hr). destruct Ht as [t Ht].
  rewrite Ht in Hr. destruct Hr as [-> _]. kcbn. split; [done|]. by apply (balanced_trans _ w2).
Qed.

Lemma proc_base_instantiate_finds p dir dentry w :
  wp (dcache_answers A) (proc_base_instantiate p dir dentry task) (fun r w' => r = 0 /\ balanced w w') w.
Proof.
  destruct w as [m h b l]. unfold proc_base_instantiate, inode_sb. kunfold. kcbn. intros x m1 [-> ->].
  destruct (makes_inode _ _ Hmake (i_sb (k_inode m !!! dir))) as (ino & -> & _). kcbn. intros now m1 [_ ->]. kcbn.
  intros y m1 [-> ->]. destruct (has_pid _ _ Hmake) as [pid ->]. kcbn. unfold apply_entry.
  destruct (S_ISDIR (pe_mode p)), (S_ISLNK (pe_mode p)), (pe_iop p), (pe_fop p); kcbn;
    apply (added_wp _ _ _ (World m h b l)); try done; intros w2 Hb Hd; by kcbn.
Qed.
End Made.

(** ** /proc *)

Lemma proc_base_lookup_finds (A : forall o, ans o) dir dentry reaper w : A (GetProcTask dir) = Some reaper -> can_make A reaper ->
  wp (dcache_answers A) (proc_base_lookup dir dentry) (fun r w' => balanced w w' /\
    (if decide (d_name (k_dentry (mem w) !!! dentry) ∈ base_names) then r = 0 else r = - ENOENT /\ mem w' = mem w)) w.
Proof.
  intros Hr Hm. destruct w as [m h b l]. cbn [mem]. unfold proc_base_lookup. kunfold. kcbn. intros x m1 [-> ->].
  rewrite Hr. kcbn. cbn [dcache_step]. set (name := d_name _).
  pose proof (find_entry_spec name proc_base_stuff (proj1 (proj2 (proj2 (proj2 (@tables_searchable config_all)))))) as Hs.
  destruct (find_entry name proc_base_stuff) as [p|]; kcbn.
  - destruct Hs as [Hp Hn]. apply wp_bind.
    eapply wp_mono; [by apply proc_base_instantiate_finds|]. intros r [m2 h2 b2 l2] [-> [Hh Hb]]. cbn [held bad] in *. subst.
    kcbn. intros [] m3 [_ ->]. repeat (kdec; kcbn). split; [done|]. rewrite decide_True; [done|].
    rewrite <- Hn. by apply list_elem_of_fmap_2.
  - intros [] m3 [_ ->]. cbn [dcache_step]. repeat (kdec; kcbn). split; [done|]. by rewrite decide_False.
Qed.

Section Root.
Context (A : forall o, ans o) (ns : ns_id) (pids : list pid_id) (limit : Z).
Context (Hspace : pid_space A ns pids limit) (Hlimit : limit < 2 ^ 31).

(** The pid hash holds the pids that the walk meets. *)
Record pid_hash : Prop := {
  hash_find : forall n t, A (FindTaskByPidNs n ns) = Some t <-> exists p, p ∈ pids /\ nr A ns p = n /\ A (PidTask p) = Some t;
  hash_pos : forall p, p ∈ pids -> 0 < nr A ns p;
  hash_make : forall p t, p ∈ pids -> A (PidTask p) = Some t -> can_make A t;
}.

(** The number of a task in the namespace, be it a process or a thread. *)
Definition task_number (n : Z) : Prop := exists p, p ∈ pids /\ nr A ns p = n /\ is_Some (A (PidTask p)).

Context (Hhash : pid_hash).

Lemma task_number_range n : task_number n -> 0 < n < 2 ^ 31.
Proof.
  intros (p & Hp & <- & _). pose proof (hash_pos Hhash p Hp).
  pose proof (proj1 (Forall_forall _ _) (space_range _ _ _ _ Hspace) p Hp) as Hr. cbv beta in Hr. lia.
Qed.

Lemma is_tgid_task_number n : is_tgid A ns pids n -> task_number n.
Proof.
  intros (p & Hp & Hn & Hl). exists p. split; [done|]. split; [done|]. unfold leads in Hl. by destruct (A (PidTask p)).
Qed.

(** What the hash answers to a name. *)
Lemma find_by_name name : is_bytes name ->
  match A (FindTaskByPidNs (s32 (name_to_int name)) ns) with
  | Some t => can_make A t /\ name_to_int name <> NO_NUMBER /\ exists n, task_number n /\ name = (numeric_name n).1
  | None => forall n, task_number n -> name <> (numeric_name n).1
  end.
Proof.
  intros Hb. destruct (A _) as [t|] eqn:Hf.
  - apply (hash_find Hhash) in Hf as (p & Hp & Hn & Ht). split; [by eapply hash_make|].
    assert (Htn : task_number (nr A ns p)) by (exists p; by rewrite Ht).
    pose proof (task_number_range _ Htn) as Hr.
    assert (Hv : name_to_int name = nr A ns p) by (apply name_to_int_s32; [done|by symmetry|lia]).
    split; [rewrite Hv; unfold NO_NUMBER; lia|]. exists (nr A ns p). split; [done|].
    by apply numeric_name_of_read; [|congruence|lia].
  - intros n Hn ->. pose proof (task_number_range n Hn). destruct Hn as (p & Hp & Hn & [t Ht]).
    rewrite (proj1 (numeric_name_read n ltac:(lia))), s32_small in Hf by lia.
    assert (A (FindTaskByPidNs n ns) = Some t) by (apply (hash_find Hhash); eauto). congruence.
Qed.

Lemma proc_pid_lookup_finds `{Config} dir dentry reaper w :
  let name := d_name (k_dentry (mem w) !!! dentry) in
  A (GetProcTask dir) = Some reaper -> can_make A reaper -> is_bytes name -> d_ns (k_dentry (mem w) !!! dentry) = ns ->
  wp (dcache_answers A) (proc_pid_lookup dir dentry) (fun r w' => balanced w w' /\
    (r = 0 <-> name ∈ base_names \/ exists n, task_number n /\ name = (numeric_name n).1)) w.
Proof.
  intros name Hr Hm Hb Hns. unfold proc_pid_lookup. apply wp_bind. eapply wp_mono; [by apply (proc_base_lookup_finds A dir dentry reaper)|].
  fold name. intros r [m h b l] [Hbal Hd]. destruct (decide (name ∈ base_names)) as [Hin|Hni].
  { subst r. cbn [Z.ltb Z.compare negb orb]. split; [done|]. split; [by left|done]. }
  destruct Hd as [-> Hmem]. cbn [mem] in Hmem. subst m. change (negb (- ENOENT <? 0) || negb (- ENOENT =? - ENOENT)) with false. cbv iota.
  kunfold. kcbn. fold name. pose proof (find_by_name name Hb) as Hf.
  destruct (Z.eqb_spec (name_to_int name) NO_NUMBER) as [Hno|Hno]; kcbn.
  { split; [done|]. split; [done|]. intros [?|(n & Hn & He)]; [done|]. exfalso. pose proof (task_number_range n Hn).
    rewrite He, (proj1 (numeric_name_read n ltac:(lia))) in Hno. unfold NO_NUMBER in Hno. lia. }
  rewrite Hns. intros [] m1 [_ ->]. cbn [dcache_step]. repeat (kdec; kcbn). intros t m1 [-> ->]. cbn [dcache_step].
  destruct (A (FindTaskByPidNs _ ns)) as [t|]; kcbn; repeat (kdec; kcbn).
  - destruct Hf as (Hmt & _ & n & Hn). intros [] m1 [_ ->] [] m2 [_ ->]. cbn [dcache_step]. repeat (kdec; kcbn). apply wp_bind.
    eapply wp_mono; [exact (task_dir_instantiate_finds A t Hmt _ _ _ dir dentry _)|]. intros r [m3 h3 b3 l3] [-> [Hh3 Hb3]]. cbn [held bad] in *. subst.
    kcbn. intros [] m4 [_ ->]. repeat (kdec; kcbn). split; [done|]. split; [|done]. intros _. right. by exists n.
  - intros [] m2 [_ ->]. cbn [dcache_step]. repeat (kdec; kcbn). split; [done|]. split; [done|]. intros [?|(n & Hn & He)]; [done|].
    by apply (Hf n) in Hn.
Qed.
End Root.

(** ** One after the other *)

Lemma lookup_framed (lookup : inode_id -> dentry_id -> prog Z) `{Config} dir dentry :
  In lookup [proc_pid_lookup; proc_task_lookup] -> framed (lookup dir dentry).
Proof.
  assert (Hi : forall t, framed (proc_pid_instantiate dir dentry t)) by exact (attaches_framed (Attaches := proc_pid_attaches) dir dentry).
  assert (Ht : forall t, framed (proc_task_instantiate dir dentry t)) by exact (attaches_framed (Attaches := proc_task_attaches) dir dentry).
  assert (Hp : forall p t, framed (proc_base_instantiate p dir dentry t)) by exact (fun p => attaches_framed (Attaches := proc_base_attaches p) dir dentry).
  intros [<-|[<-|[]]].
  - unfold proc_pid_lookup, proc_base_lookup. kunfold. framed; auto.
  - unfold proc_task_lookup. kunfold. framed; auto.
Qed.

(** A program whose answers and whose frame are known. *)
Lemma ends_framed (A : forall o, ans o) {B : Type} (p : prog B) (Q : B -> world -> Prop) w :
  (forall dir name, A (DLookup dir name) = None) -> framed p -> wp (dcache_answers A) p Q w ->
  ends (dcache_env A) p w (fun r w' => Q r w' /\ frame w w').
Proof.
  intros HA Hf Hp. apply (wp_ends _ (fun o tr m x m' => dcache_answers A o tr m x m' /\ dir_stable o tr m x m')).
  { intros o tr m. split; [done|]. by apply (dcache_env_stable A). }
  apply wp_wlp; [eapply wp_contract; [|exact Hp]|eapply wlp_contract; [|apply Hf]]; by intros ? ? ? ? ? [].
Qed.

Lemma root_kernel (A : forall o, ans o) : (forall dir name, A (DLookup dir name) = None) -> keeps (dcache_env A) (pid_kernel A).
Proof. intros HA o tr m. split; [by apply (dcache_env_stable A)|]. by destruct o. Qed.

(** What a complete reading of /proc has listed. *)
Lemma complete_root_reading (A : forall o, ans o) ns pids limit l : 0 <= limit -> pid_space A ns pids limit ->
  root_reading (static_view A ns pids) limit FIRST_PROCESS_ENTRY l (limit + TGID_OFFSET) ->
  forall name, name ∈ accepted l <-> name ∈ base_names \/ exists n, is_tgid A ns pids n /\ name = (numeric_name n).1.
Proof.
  intros Hlim Hspace (_ & _ & (S & HS0 & ->) & _) name. pose proof (static_tgids _ _ _ _ _ _ HS0) as HS. rewrite elem_of_app, list_elem_of_fmap.
  assert (HO : TGID_OFFSET = FIRST_PROCESS_ENTRY + 1) by reflexivity. assert (Hl : len base_names = 1) by reflexivity.
  rewrite Z.sub_diag. unfold zdrop, ztake. change (drop (Z.to_nat 0) base_names) with base_names.
  rewrite take_ge by (unfold len in Hl; lia). apply or_iff_compat_l. split.
  - intros (n & Hn & Hin). exists n. split; [|done]. by apply HS in Hin as [_ Hin].
  - intros (n & Hn & He). exists n. split; [done|]. apply HS. split; [|done]. destruct Hn as (p & Hp & <- & _).
    pose proof (proj1 (Forall_forall _ _) (space_range _ _ _ _ Hspace) p Hp) as Hr. cbv beta in Hr. lia.
Qed.

(** C4: Listing /proc and then looking a name up: when the reading has gone
    through to its end, every name it has listed is found, and what is found
    without having been listed is the number of a thread that is no process -
    the code hides threads from readdir but lets their number be opened. *)
Theorem proc_finds_what_it_lists `{Arch} `{Config} (A : forall o, ans o) ns pids limit fuel filp dir dir_inode dentry reaper w :
  pid_space A ns pids limit -> pid_hash A ns pids -> 0 <= limit < 2 ^ 31 -> (length pids < fuel)%nat ->
  (forall dir name, A (DLookup dir name) = None) -> A (GetProcTask dir_inode) = Some reaper -> can_make A reaper ->
  opened filp dir FIRST_PROCESS_ENTRY (mem w) -> d_ns (k_dentry (mem w) !!! dir) = ns ->
  d_ns (k_dentry (mem w) !!! dentry) = ns -> is_bytes (d_name (k_dentry (mem w) !!! dentry)) ->
  let name := d_name (k_dentry (mem w) !!! dentry) in
  ends (dcache_env A) (proc_pid_readdir limit fuel filp;; proc_pid_lookup dir_inode dentry) w (fun r w' => balanced w w' /\
    exists l, dirents (log w') = rev l ++ dirents (log w) /\
      (f_pos (k_file (mem w') !!! filp) = limit + TGID_OFFSET ->
        (name ∈ accepted l -> r = 0) /\
        (r = 0 -> name ∈ accepted l \/
           exists p, p ∈ pids /\ name = (numeric_name (nr A ns p)).1 /\ leads A p = false))).
Proof.
  intros Hs Hh Hlim Hfuel HA Hr Hm Ho Hns Hnsd Hb name. apply ends_bind.
  assert (HO : TGID_OFFSET = FIRST_PROCESS_ENTRY + 1) by reflexivity.
  eapply ends_mono with (Q := fun r w1 => exists l q, emitted l w w1 /\ opened filp dir q (mem w1) /\
    (q = limit + TGID_OFFSET -> root_reading (static_view A ns pids) limit FIRST_PROCESS_ENTRY l q)).
  { apply (wp_ends _ _ _ _ _ (root_kernel A HA)), (static_readdir_wp A ns pids limit fuel filp dir FIRST_PROCESS_ENTRY);
      [done|done|done|lia|done|done| |].
    - intros w' _ He Ho'. exists [], FIRST_PROCESS_ENTRY. split; [done|]. split; [done|]. lia.
    - intros l q w' He Ho' Hread. by exists l, q. }
  intros _ w1 (l & q & [Hbal [Hl Hp]] & Ho1 & Hread). destruct (Hp dentry) as [Hpn Hpd].
  eapply ends_mono; [apply (ends_framed A); [done|by refine (lookup_framed proc_pid_lookup dir_inode dentry _); left|]|].
  - apply (proc_pid_lookup_finds A ns pids limit Hs (proj2 Hlim) Hh dir_inode dentry reaper); [done|done|by rewrite Hpd|by rewrite Hpn].
  - intros r w2 [[Hbal2 Hfound] (Hf & _ & Hd & _)]. split; [by apply (balanced_trans _ w1)|]. exists l. split; [by rewrite Hd|].
    destruct Ho1 as (Hpos & _). rewrite Hf, Hpos. intros ->. rewrite Hpd in Hfound. fold name in Hfound.
    pose proof (complete_root_reading A ns pids limit l (proj1 Hlim) Hs (Hread eq_refl) name) as Hacc. split.
    + intros [Hin|(n & Hn & He)]%Hacc; apply Hfound; [by left|right]. exists n. split; [|done]. by apply is_tgid_task_number.
    + intros [Hin|(n & (p & Hp1 & Hn & Ht) & He)]%Hfound; [left; apply Hacc; by left|].
      destruct (leads A p) eqn:Hlead; [left; apply Hacc|right].
      * right. exists n. split; [by exists p|done].
      * exists p. by subst n.
Qed.

(** ** The directories made from tables *)

(** The three pairs of readdir and lookup, with their table. *)
Definition table_directories `{Config} : list ((file_id -> prog Z) * (inode_id -> dentry_id -> prog Z) * list pid_entry) :=
  [(proc_tgid_base_readdir, proc_tgid_base_lookup, tgid_base_stuff);
   (proc_tid_base_readdir, proc_tid_base_lookup, tid_base_stuff);
   (proc_attr_dir_readdir, proc_attr_dir_lookup, attr_dir_stuff)].

Lemma table_directory `{Config} readdir lookup ents : In (readdir, lookup, ents) table_directories ->
  (forall filp, readdir filp = proc_pident_readdir filp ents) /\
  (forall dir dentry, lookup dir dentry = proc_pident_lookup dir dentry ents) /\
  searchable ents /\ len ents + 2 < 2 ^ 31.
Proof.
  pose proof tables_searchable as (H1 & H2 & H3 & _).
  assert (Hlen : forall l : list (bool * pid_entry), len l + 2 < 2 ^ 31 -> len (enabled l) + 2 < 2 ^ 31).
  { intros l Hl. pose proof (len_enabled l). lia. }
  by intros [[= <- <- <-]|[[= <- <- <-]|[[= <- <- <-]|[]]]]; split_and!; try done; apply Hlen.
Qed.

(** C14: Listing a directory made from a table - /proc/<tgid>,
    /proc/<tgid>/task/<tid>, attr - in as many calls as the caller likes and
    then looking a name up: whatever the configuration, a name that was listed,
    "." and ".." apart, is found, and the dentry gets an inode that stands for
    the table's entry of this name; and when the listing is complete, a name
    that was not listed is -ENOENT and leaves the kernel's memory as it was. *)
Theorem table_directory_finds_what_it_lists `{Config} (A : forall o, ans o) readdir lookup ents filp dir dir_inode dentry task n w :
  In (readdir, lookup, ents) table_directories -> (forall dir name, A (DLookup dir name) = None) ->
  A (GetProcTask dir_inode) = Some task -> can_make A task -> opened filp dir 0 (mem w) ->
  let name := d_name (k_dentry (mem w) !!! dentry) in
  ends (dcache_env A) (again n (readdir filp)) w (fun _ w1 =>
    exists l q, emitted l w w1 /\ opened filp dir q (mem w1) /\ accepted l = ztake q (listing ents) /\
      ends (dcache_env A) (lookup dir_inode dentry) w1 (fun r w2 => balanced w1 w2 /\
        (name ∈ accepted l -> name ∉ dots -> r = 0 /\ exists p pid ino, p ∈ ents /\ pe_name p = name /\
           A (GetTaskPid task) = Some pid /\ d_inode (k_dentry (mem w2) !!! dentry) = Some ino /\
           shows_entry p pid (k_inode (mem w2) !!! ino)) /\
        (q = len (listing ents) -> name ∉ accepted l -> r = - ENOENT /\ mem w2 = mem w1))).
Proof.
  intros Hin HA Ht Hm Ho name. destruct (table_directory _ _ _ Hin) as (Hrd & Hlk & Hs & Hmax). rewrite Hrd.
  pose proof (len_nonneg (listing ents)). apply (wp_ends _ dir_stable); [by apply dcache_env_stable|].
  apply (again_wp filp dir ents n Hmax 0); [done|lia|]. intros l q w1 He Ho1 Hq Hl. exists l, q.
  split; [done|]. split; [done|]. split; [by rewrite Hl|]. rewrite Hlk.
  assert (Hname : d_name (k_dentry (mem w1) !!! dentry) = name) by apply (proj2 (proj2 He) dentry).
  eapply ends_mono; [by apply (proc_pident_lookup_finds A ents dir_inode dentry task w1)|]. cbv beta zeta. rewrite Hname.
  intros r w2 (Hbal & Hfound & Hnone). split; [done|]. change (ztake 0 (listing ents)) with (@nil bytes) in Hl. cbn [app] in Hl.
  rewrite <- Hl. unfold listing in *. split.
  - intros Hacc Hdot. assert (Hent : name ∈ pe_name <$> ents).
    { assert (Hlist : name ∈ dots ++ (pe_name <$> ents)).
      { rewrite <- (ztake_zdrop q (dots ++ _)). apply elem_of_app. by left. }
      by apply elem_of_app in Hlist as [?|?]. }
    destruct (Hfound Hent) as (p & Hp & Hn & Hmade). destruct (makes_inode _ _ Hm (i_sb (k_inode (mem w1) !!! dir_inode))) as (ino & Hi & t & Hit).
    destruct (has_pid _ _ Hm) as [pid Hpid]. destruct (Hmade ino pid t Hi Hpid Hit) as (Hr & Hsh & Hd). split; [done|]. by exists p, pid, ino.
  - intros -> Hni. apply Hnone. intros Hent. apply Hni. unfold ztake. rewrite take_ge by (unfold len; lia).
    apply elem_of_app. by right.
Qed.

(** ** /proc/<tgid>/task *)

Section Group.
Context (A : forall o, ans o) (ns : ns_id) (leader : task_id) (others : list task_id).
Context (Hgroup : thread_group A ns leader others).

(** The pid hash and the thread groups, seen from this group. *)
Record group_hash : Prop := {
  own_number : forall n t, A (FindTaskByPidNs n ns) = Some t -> 0 < n < 2 ^ 31 /\ (t ∈ threads leader others -> tid A ns t = n);
  own_group : forall t, A (SameThreadGroup leader t) = true <-> t ∈ threads leader others;
  own_make : forall t, t ∈ threads leader others -> can_make A t;
}.

Context (Hhash : group_hash).

Lemma thread_by_name name : is_bytes name ->
  name ∈ thread_names (tid A ns) (threads leader others) <->
  exists t, A (FindTaskByPidNs (s32 (name_to_int name)) ns) = Some t /\ t ∈ threads leader others.
Proof.
  intros Hb. unfold thread_names. rewrite list_elem_of_fmap. split.
  - intros (t & -> & Ht). pose proof (threads_numbered _ _ _ _ Hgroup t Ht). exists t. split; [|done].
    rewrite (proj1 (numeric_name_read (tid A ns t) ltac:(lia))), s32_small by lia. by apply (threads_found _ _ _ _ Hgroup).
  - intros (t & Hf & Ht). exists t. split; [|done]. destruct (own_number Hhash _ t Hf) as [Hr Hn]. rewrite (Hn Ht).
    apply numeric_name_of_read; [done| |lia]. apply name_to_int_s32; [done|done|lia].
Qed.

Lemma thread_names_no_dots name : name ∈ thread_names (tid A ns) (threads leader others) -> name ∉ dots.
Proof.
  unfold thread_names. rewrite list_elem_of_fmap. intros (t & -> & Ht). pose proof (threads_numbered _ _ _ _ Hgroup t Ht).
  destruct (numeric_name_head (tid A ns t) ltac:(lia)) as (c & s & -> & Hc).
  unfold dots. rewrite !elem_of_cons, elem_of_nil. change (str ".") with [46]. change (str "..") with [46; 46].
  intros [Hin|[Hin|[]]]; injection Hin; lia.
Qed.

Lemma proc_task_lookup_finds `{Config} dir dentry w :
  let name := d_name (k_dentry (mem w) !!! dentry) in
  A (GetProcTask dir) = Some leader -> is_bytes name -> d_ns (k_dentry (mem w) !!! dentry) = ns ->
  wp (dcache_answers A) (proc_task_lookup dir dentry) (fun r w' => balanced w w' /\
    (r = 0 <-> name ∈ thread_names (tid A ns) (threads leader others))) w.
Proof.
  intros name Hl Hb Hns. pose proof (thread_by_name name Hb) as Hname. destruct w as [m h b l]. cbn [mem] in *.
  unfold proc_task_lookup. kunfold. kcbn. intros x m1 [-> ->]. rewrite Hl. kcbn. cbn [dcache_step]. fold name.
  destruct (Z.eqb_spec (name_to_int name) NO_NUMBER) as [Hno|Hno]; kcbn.
  { intros [] m1 [_ ->]. repeat (kdec; kcbn). split; [done|]. rewrite Hname. split; [done|]. intros (t & Hf & _). exfalso.
    destruct (own_number Hhash _ t Hf) as [Hr _]. rewrite Hno in Hr. change (s32 NO_NUMBER) with (-1) in Hr. lia. }
  rewrite Hns. intros [] m1 [_ ->]. cbn [dcache_step]. repeat (kdec; kcbn). intros t m1 [-> ->]. cbn [dcache_step].
  destruct (A (FindTaskByPidNs _ ns)) as [t|] eqn:Hf; kcbn; repeat (kdec; kcbn).
  - intros [] m1 [_ ->] [] m2 [_ ->]. cbn [dcache_step]. repeat (kdec; kcbn). intros same m2 [-> ->]. cbn [dcache_step].
    pose proof (own_group Hhash t) as Hg. destruct (A (SameThreadGroup leader t)); kcbn.
    + destruct Hg as [Hg _]. specialize (Hg eq_refl). do 2 apply wp_bind.
      eapply wp_mono; [exact (task_dir_instantiate_finds A t (own_make Hhash t Hg) _ _ _ dir dentry _)|].
      intros r [m3 h3 b3 l3] [-> [Hh3 Hb3]]. cbn [held bad] in *. subst. kcbn. intros [] m4 [_ ->]. cbn [dcache_step].
      repeat (kdec; kcbn). intros [] m5 [_ ->]. repeat (kdec; kcbn). split; [done|]. rewrite Hname. split; [|done]. intros _. by exists t.
    + intros [] m3 [_ ->]. cbn [dcache_step]. repeat (kdec; kcbn). intros [] m4 [_ ->]. repeat (kdec; kcbn). split; [done|].
      rewrite Hname. split; [done|]. intros (t' & [= <-] & Ht). destruct Hg as [_ Hg]. by specialize (Hg Ht).
  - intros [] m2 [_ ->]. cbn [dcache_step]. repeat (kdec; kcbn). intros [] m3 [_ ->]. repeat (kdec; kcbn). split; [done|].
    rewrite Hname. split; [done|]. by intros (t & ? & _).
Qed.
End Group.

(** C5: Listing /proc/<tgid>/task, in as many calls as the caller likes, and
    then looking a name up: once the listing is complete, the names that are
    found are exactly those that were listed, "." and ".." apart. *)
Theorem task_directory_finds_what_it_lists `{Config} `{Arch} (A : forall o, ans o) ns leader others fuel filp dir dir_inode dentry n w :
  keeps (dcache_env A) (group_kernel A leader others) -> thread_group A ns leader others -> group_hash A ns leader others ->
  (length (threads leader others) < fuel)%nat -> Z.of_nat fuel < 2 ^ 31 - 2 -> (forall dir name, A (DLookup dir name) = None) ->
  opened filp dir 0 (mem w) -> d_ns (k_dentry (mem w) !!! dir) = ns -> group_store leader others (all_threads leader others) (mem w) ->
  A (GetProcTask dir_inode) = Some leader -> d_ns (k_dentry (mem w) !!! dentry) = ns -> is_bytes (d_name (k_dentry (mem w) !!! dentry)) ->
  let name := d_name (k_dentry (mem w) !!! dentry) in
  ends (dcache_env A) (again n (proc_task_readdir fuel filp);; proc_task_lookup dir_inode dentry) w (fun r w' => balanced w w' /\
    exists l, dirents (log w') = rev l ++ dirents (log w) /\
      (f_pos (k_file (mem w') !!! filp) = 2 + len (threads leader others) ->
        accepted l = task_listing (tid A ns) leader others /\ (r = 0 <-> name ∈ accepted l /\ name ∉ dots))).
Proof.
  intros HE Hg Hh Hfuel Hmax HA Ho Hns Hst Hl Hnsd Hb name. apply ends_bind.
  eapply ends_mono with (Q := fun _ w1 => exists l q, emitted l w w1 /\ opened filp dir q (mem w1) /\
    0 <= q <= len (task_listing (tid A ns) leader others) /\ accepted l = ztake q (task_listing (tid A ns) leader others)).
  { by apply static_task_reading. }
  intros _ w1 (l & q & [Hbal [Hd1 Hp]] & Ho1 & Hq & Hacc). destruct (Hp dentry) as [Hpn Hpd].
  eapply ends_mono; [apply (ends_framed A); [done|by refine (lookup_framed proc_task_lookup dir_inode dentry _); right; left|]|].
  - apply (proc_task_lookup_finds A ns leader others Hg Hh dir_inode dentry); [done|by rewrite Hpd|by rewrite Hpn].
  - intros r w2 [[Hbal2 Hfound] (Hf & _ & Hd & _)]. split; [by apply (balanced_trans _ w1)|]. exists l. split; [by rewrite Hd|].
    destruct Ho1 as (Hpos & _). rewrite Hf, Hpos. intros ->. rewrite Hpd in Hfound. fold name in Hfound.
    assert (Hall : accepted l = task_listing (tid A ns) leader others).
    { rewrite Hacc. unfold ztake. apply take_ge. pose proof (len_task_listing (tid A ns) leader others) as Hlen. unfold len in *. lia. }
    split; [done|]. rewrite Hfound, Hall. unfold task_listing. rewrite elem_of_app. split; [|tauto]. intros Hin. split; [by right|].
    by apply (thread_names_no_dots A ns leader others).
Qed.

(** ** fd and fdinfo *)

Section Files.
Context (V : fd_view).

(** The kernel in which the descriptors of a living process are looked up,
    with memory to spare: its files come and go as in [live_files], and the
    number kept in an inode, which [proc_fd] reads, is the code's own. *)
Definition fd_kernel : contract := fun o tr m x m' =>
  live_files V o tr m x m' /\
  (match o with NewInode _ => True | _ => forall i, ei_fd (k_inode m' !!! i) = ei_fd (k_inode m !!! i) end) /\
  match o return ans o -> Prop with
  | ProcFd i => fun x => x = ei_fd (k_inode m !!! i)
  | NewInode _ | GetTaskPid _ | GetProcTask _ => fun x => is_Some x
  | _ => fun _ => True
  end x.

Lemma fd_kernel_files o tr m x m' : fd_kernel o tr m x m' -> live_files V o tr m x m'.
Proof. by intros []. Qed.

Lemma fd_inode_wp {B : Type} sb task w (f : option inode_id -> prog B) (Q : B -> world -> Prop) :
  (forall ino w', keeps_only [RInode ino] w w' -> wp fd_kernel (f (Some ino)) Q w') ->
  wp fd_kernel (proc_pid_make_inode sb task ≫= f) Q w.
Proof.
  intros HQ. apply wp_bind. destruct w as [m h b l]. unfold proc_pid_make_inode, own_by_task, task_dumpable. kunfold. kcbn.
  intros x m1 (_ & _ & [ino ->]). kcbn. intros now m2 _. kcbn. intros y m3 (_ & _ & [pid ->]). kcbn. ksteps; by apply HQ.
Qed.

Lemma fd_revalidate_wp dentry ino w (Q : bool -> world -> Prop) : d_inode (k_dentry (mem w) !!! dentry) = Some ino ->
  (forall r w', balanced w w' -> let fd := ei_fd (k_inode (mem w) !!! ino) in
     (stays_open V fd -> r = true) -> (r = true -> may_open V fd) -> Q r w') ->
  wp fd_kernel (tid_fd_revalidate dentry) Q w.
Proof.
  intros Hd HQ. destruct w as [m h b l]. cbn [mem] in *. unfold tid_fd_revalidate, dentry_inode. kunfold. kcbn. rewrite Hd. kcbn.
  intros x m1 (_ & Hi1 & [t ->]). kcbn. intros fd m2 (_ & Hi2 & ->). rewrite Hi1. kcbn. intros y m3 ([_ [files ->]] & _). kcbn.
  intros [] m4 _. repeat (kdec; kcbn). intros f m5 ([_ [Hstay Hmay]] & _). destruct f as [f|]; kcbn.
  - unfold own_by_task, strip_ids, task_dumpable. ksteps; (apply HQ; [done|done|]; intros _; by apply Hmay; eexists).
  - ksteps. apply HQ; [done| |done]. intros Hs. by destruct (Hstay Hs).
Qed.

Lemma fd_added_wp {B : Type} dentry ops ino w0 w (k : prog B) (Q : B -> world -> Prop) : keeps_only [RInode ino] w0 w ->
  (forall w', balanced w0 w' -> d_inode (k_dentry (mem w') !!! dentry) = Some ino ->
     ei_fd (k_inode (mem w') !!! ino) = ei_fd (k_inode (mem w) !!! ino) -> wp fd_kernel k Q w') ->
  wp fd_kernel (set_and_add dentry ops ino;; k) Q w.
Proof.
  intros [Hh Hb] HQ. destruct w as [m h b l]. cbn [held bad] in *. subst h b. unfold set_and_add. kunfold. kcbn.
  intros [] m1 ([[_ Hd] _] & Hi & _). repeat (kdec; kcbn). apply HQ; [done| |cbn [mem]; by rewrite Hi, k_inode_upd_dentry].
  cbn [mem]. rewrite Hd. cbn [dcache_step].
  rewrite k_dentry_upd_dentry, lookup_total_insert_eq. by destruct (k_dentry _ !!! dentry).
Qed.

(** What both ways of making the entry of a descriptor promise. *)
Definition finds_open (f : Z -> instantiate_t) : Prop := forall fd dir dentry task w (Q : Z -> world -> Prop),
  0 <= fd < 2 ^ 32 -> (stays_open V fd -> fd < 2 ^ 31) ->
  (forall r w', balanced w w' -> (stays_open V fd -> r = 0) -> (r = 0 -> may_open V (s32 fd)) -> Q r w') ->
  wp fd_kernel (f fd dir dentry task) Q w.

(** From the point where the number is in the inode. *)
Lemma fd_finish_wp fd dentry ops ino w0 w (Q : Z -> world -> Prop) : keeps_only [RInode ino] w0 w ->
  ei_fd (k_inode (mem w) !!! ino) = s32 fd -> 0 <= fd < 2 ^ 32 -> (stays_open V fd -> fd < 2 ^ 31) ->
  (forall r w', balanced w0 w' -> (stays_open V fd -> r = 0) -> (r = 0 -> may_open V (s32 fd)) -> Q r w') ->
  wp fd_kernel (set_and_add dentry ops ino;; ok ← tid_fd_revalidate dentry; mret (if (ok : bool) then 0 else - ENOENT)) Q w.
Proof.
  intros Hk Hfd Hr Hs HQ. apply (fd_added_wp dentry ops ino w0); [done|]. intros w1 Hb Hd He. rewrite Hfd in He.
  apply wp_bind, (fd_revalidate_wp dentry ino); [done|]. intros r w2 Hb2. cbn zeta. rewrite He. intros Hstay Hmay.
  apply HQ; [by apply (balanced_trans _ w1)| |].
  - intros Hst. rewrite s32_small in Hstay by (specialize (Hs Hst); lia). by rewrite Hstay.
  - intros Hz. apply Hmay. by destruct r.
Qed.

Lemma proc_fdinfo_finds_open : finds_open proc_fdinfo_instantiate.
Proof.
  intros fd dir dentry task w Q Hr Hs HQ. unfold proc_fdinfo_instantiate, inode_sb. cbn [gets mbind prog_mbind pbind wp].
  apply fd_inode_wp. intros ino [m h b l] Hk. kcbn. apply (fd_finish_wp fd dentry _ ino w); try done.
  cbn [mem]. rewrite !k_inode_upd_inode, !lookup_total_insert_eq. by destruct (k_inode m !!! ino).
Qed.

(** Later writes to the inode keep the number. *)
Lemma fd_kept ino g m n : (forall i, ei_fd (g i) = ei_fd i) -> ei_fd (k_inode m !!! ino) = n ->
  ei_fd (k_inode (upd_inode ino g m) !!! ino) = n.
Proof. intros Hg Hn. by rewrite k_inode_upd_inode, lookup_total_insert_eq, Hg. Qed.

Lemma proc_fd_finds_open : finds_open proc_fd_instantiate.
Proof.
  intros fd dir dentry task w Q Hr Hs HQ. unfold proc_fd_instantiate, inode_sb. cbn [gets mbind prog_mbind pbind wp].
  apply fd_inode_wp. intros ino [m h b l] [Hh Hb]. cbn [held bad app] in *. subst h b. kunfold. kcbn.
  set (m0 := upd_inode ino _ m). assert (H0 : ei_fd (k_inode m0 !!! ino) = s32 fd).
  { unfold m0. rewrite k_inode_upd_inode, lookup_total_insert_eq. by destruct (k_inode m !!! ino). }
  intros x m1 ([_ [files ->]] & Hi1 & _). rewrite <- Hi1 in H0. clear Hi1. kcbn.
  apply (fd_kept ino (set_i_mode S_IFLNK)) in H0; [|by intros []]. intros [] m2 (_ & Hi2 & _). rewrite <- Hi2 in H0. clear Hi2.
  repeat (kdec; kcbn). intros f m3 ([_ [Hstay Hmay]] & Hi3 & _). rewrite <- Hi3 in H0. clear Hi3. destruct f as [f|]; kcbn.
  2: { ksteps. apply HQ; [done| |done]. intros Hst. by destruct (Hstay Hst). }
  destruct (Z.land _ FMODE_READ =? 0), (Z.land _ FMODE_WRITE =? 0); kcbn; intros [] m5 (_ & Hi5 & _);
    (assert (H5 : ei_fd (k_inode m5 !!! ino) = s32 fd) by (rewrite Hi5; repeat (apply fd_kept; [by intros []|]); exact H0));
    clear Hi5; repeat (kdec; kcbn); intros [] m6 (_ & Hi6 & _); rewrite <- Hi6 in H5; clear Hi6; repeat (kdec; kcbn);
    (apply (fd_finish_wp fd dentry _ ino w); [done| |done|done|done]; cbn [mem]; by do 3 (apply fd_kept; [by intros []|])).
Qed.

(** Lookup in fd or fdinfo: every descriptor that stays open is found under its
    number, and what is found is one that was open. *)
Lemma proc_lookupfd_common_finds f dir dentry w : finds_open f -> (forall k, stays_open V k -> 0 <= k < 2 ^ 31) ->
  (forall k, may_open V k -> 0 <= k) -> let name := d_name (k_dentry (mem w) !!! dentry) in is_bytes name -> name <> [] ->
  wp fd_kernel (proc_lookupfd_common dir dentry f) (fun r w' => balanced w w' /\
    (forall k, stays_open V k -> name = (numeric_name k).1 -> r = 0) /\
    (r = 0 -> exists k, may_open V k /\ name = (numeric_name k).1)) w.
Proof.
  intros Hf Hstay Hmay name Hb Hne. destruct w as [m h b l]. unfold proc_lookupfd_common. kunfold. kcbn.
  intros x m1 ([Hst _] & _ & [task ->]). kcbn.
  assert (Hname : d_name (k_dentry m1 !!! dentry) = name) by (by destruct Hst as [_ ->]). rewrite Hname.
  pose proof (name_to_int_range name Hb) as Hr. apply wp_bind. destruct (Z.eqb_spec (name_to_int name) NO_NUMBER) as [Hno|Hno]; kcbn.
  { intros [] m2 _. repeat (kdec; kcbn). split; [done|]. split; [|done]. intros k Hk He. exfalso. specialize (Hstay k Hk).
    rewrite He, (proj1 (numeric_name_read k Hstay)) in Hno. unfold NO_NUMBER in Hno. lia. }
  apply Hf; [done|intros Hk%Hstay; lia|]. intros r [m2 h2 b2 l2] [Hh2 Hb2] Hs2 Hm2. cbn [held bad] in *. subst. kcbn.
  intros [] m3 _. repeat (kdec; kcbn). split; [done|]. split.
  - intros k Hk He. apply Hs2. by rewrite He, (proj1 (numeric_name_read k (Hstay k Hk))).
  - intros Hz. specialize (Hm2 Hz). exists (s32 (name_to_int name)). split; [done|]. pose proof (Hmay _ Hm2) as Hpos.
    pose proof (name_to_int_s32 name _ Hb eq_refl Hpos) as He. apply printed_of_read; [done|done|done|].
    pose proof (s32_range (name_to_int name)). lia.
Qed.

End Files.

Lemma proc_lookupfd_framed f dir dentry : (forall fd, Attaches (f fd)) -> framed (proc_lookupfd_common dir dentry f).
Proof.
  intros Hf. assert (Hi : forall fd t, framed (f fd dir dentry t)) by exact (fun fd => attaches_framed (Attaches := Hf fd) dir dentry).
  unfold proc_lookupfd_common. kunfold. framed; auto.
Qed.

Lemma lookupfd_finds (lookup : inode_id -> dentry_id -> prog Z) dir dentry : In lookup [proc_lookupfd; proc_lookupfdinfo] ->
  framed (lookup dir dentry) /\ exists f, lookup dir dentry = proc_lookupfd_common dir dentry f /\ forall V, finds_open V f.
Proof.
  intros [<-|[<-|[]]]; (split; [apply proc_lookupfd_framed|]).
  - exact proc_fd_attaches.
  - exists proc_fd_instantiate. split; [done|exact proc_fd_finds_open].
  - exact proc_fdinfo_attaches.
  - exists proc_fdinfo_instantiate. split; [done|exact proc_fdinfo_finds_open].
Qed.

(** C6: Listing fd or fdinfo in as many calls as the caller likes and then
    looking a name up, while the process opens and closes files: the name of a
    descriptor that stays open, and that the reading has come past, has been
    listed and is found; and only names of descriptors that were open are
    listed, "." and ".." apart, or found. *)
Theorem fd_directory_finds_what_it_lists E V bound fuel filp dir dir_inode dentry n w
    (readfd : nat -> file_id -> prog Z) (lookup : inode_id -> dentry_id -> prog Z) :
  keeps E (fd_kernel V) -> live_table V bound -> 0 <= bound < 2 ^ 31 - 2 -> bound <= Z.of_nat fuel ->
  (forall k, stays_open V k -> 0 <= k < bound) -> (forall k, may_open V k -> 0 <= k) ->
  opened filp dir 0 (mem w) -> In readfd [proc_readfd; proc_readfdinfo] -> In lookup [proc_lookupfd; proc_lookupfdinfo] ->
  let name := d_name (k_dentry (mem w) !!! dentry) in is_bytes name -> name <> [] ->
  ends E (again n (readfd fuel filp);; lookup dir_inode dentry) w (fun r w' => balanced w w' /\
    exists l, dirents (log w') = rev l ++ dirents (log w) /\
      (forall k, stays_open V k -> k + 2 < f_pos (k_file (mem w') !!! filp) -> name = (numeric_name k).1 ->
        name ∈ accepted l /\ r = 0) /\
      (name ∈ accepted l \/ r = 0 -> name ∈ dots \/ exists k, may_open V k /\ name = (numeric_name k).1)).
Proof.
  intros HE Hview Hmax Hfuel Hstay Hmay Ho Hr Hl name Hb Hne. apply (wp_ends _ (fd_kernel V)); [done|].
  destruct (readfd_instantiates readfd fuel filp Hr) as (g & -> & Hi & Ha).
  destruct (lookupfd_finds lookup dir_inode dentry Hl) as (Hfr & f & Heq & Hf).
  apply wp_bind, (wp_contract (live_files V)); [apply fd_kernel_files|].
  apply (again_fd_wp V bound fuel filp dir g n Hi Ha Hview Hmax Hfuel 0); [lia|done|].
  intros l q w1 [Hbal [Hd1 Hp]] Ho1 Hq Hlist. destruct (Hp dentry) as [Hpn Hpd].
  assert (Hlook : wp (fd_kernel V) (lookup dir_inode dentry) (fun r w' => balanced w1 w' /\
    (forall k, stays_open V k -> name = (numeric_name k).1 -> r = 0) /\
    (r = 0 -> exists k, may_open V k /\ name = (numeric_name k).1)) w1).
  { rewrite Heq. pose proof (proc_lookupfd_common_finds V f dir_inode dentry w1 (Hf V)) as H. rewrite Hpd in H.
    apply H; [intros k Hk%Hstay; lia|done|done|done]. }
  eapply wp_mono; [apply wp_wlp; [exact Hlook|eapply wlp_contract; [|apply Hfr]; by intros ? ? ? ? ? [[] _]]|].
  intros r w2 [(Hbal2 & Hfound & Hopen) (Hfile & _ & Hd2 & _)]. split; [by apply (balanced_trans _ w1)|].
  exists l. split; [by rewrite Hd2|]. destruct Ho1 as (Hpos & _). rewrite Hfile, Hpos.
  destruct (Hlist [] (fd_names_start V)) as (S & (_ & Hin & Hall) & Hacc). cbn [app] in Hacc. rewrite Hacc. split.
  - intros k Hk Hkq He. split; [|by apply (Hfound k)]. rewrite elem_of_app. right. apply list_elem_of_fmap.
    exists k. split; [done|]. apply Hall; [done|]. specialize (Hstay k Hk). lia.
  - intros [[Hdot|(k & He & Hk)%list_elem_of_fmap]%elem_of_app|Hz]; [|right; exists k; split; [by apply Hin|done]|right; by apply Hopen].
    left. rewrite <- (ztake_zdrop q dots), elem_of_app. by left.
Qed.

(** ** Witnesses *)

(** The pids of [pids_kernel] - 10 and 30 are processes, 20 a thread - in a
    kernel that can make inodes; dentry 8 asks for "20". *)
Definition agree_kernel (o : op) : ans o :=
  match o with
  | FindTaskByPidNs n _ =>
      if n =? 10 then Some 1%nat else if n =? 20 then Some 2%nat else if n =? 30 then Some 3%nat else None
  | o => pids_kernel o
  end.

Lemma agree_can_make t : can_make agree_kernel t.
Proof. split; [|by eexists]. intros sb. exists 9%nat. split; [done|]. by eexists. Qed.

Lemma agree_space : pid_space agree_kernel 0%nat [1%nat; 2%nat; 3%nat] 100.
Proof. destruct pids_kernel_space as [Ha Hb Hc]. split; [exact Ha|exact Hb|exact Hc]. Qed.

Lemma agree_hash : pid_hash agree_kernel 0%nat [1%nat; 2%nat; 3%nat].
Proof.
  split.
  - intros n t. cbn. unfold nr. cbn. split.
    + destruct (Z.eqb_spec n 10) as [->|]; [intros [= <-]; exists 1%nat; split; [left|done]|].
      destruct (Z.eqb_spec n 20) as [->|]; [intros [= <-]; exists 2%nat; split; [right; left|done]|].
      destruct (Z.eqb_spec n 30) as [->|]; [|done]. intros [= <-]. exists 3%nat. split; [right; right; left|done].
    + intros (p & Hp & <- & [= <-]). rewrite !elem_of_cons, elem_of_nil in Hp. by destruct Hp as [->|[->|[->|[]]]].
  - intros p Hp. rewrite !elem_of_cons, elem_of_nil in Hp. unfold nr. cbn. destruct Hp as [->|[->|[->|[]]]]; lia.
  - intros p t _ _. apply agree_can_make.
Qed.

Definition agree_mem (name : bytes) : kmem :=
  Kmem 1 ∅ ∅ ∅ ∅ {[ 4%nat := File 256 0 0 (Path 0%nat 5%nat) 0 PrivNone ]} {[ 6%nat := inhabitant ]}
    {[ 5%nat := Dentry [] (Some 6%nat) None 0; 8%nat := Dentry name None None 0 ]} ∅ ∅ ∅ ∅ ∅ ∅ ∅ HookDummy.

Lemma proc_finds_what_it_lists_witness :
  ends (dcache_env agree_kernel) (@proc_pid_readdir arch64 config_all 100 4 4%nat;; @proc_pid_lookup config_all 6%nat 8%nat)
    (world0 (agree_mem (str "20"))) (fun r w' => balanced (world0 (agree_mem (str "20"))) w' /\
    exists l, dirents (log w') = rev l ++ [] /\
      (f_pos (k_file (mem w') !!! 4%nat) = 100 + TGID_OFFSET ->
        (str "20" ∈ accepted l -> r = 0) /\
        (r = 0 -> str "20" ∈ accepted l \/
           exists p, p ∈ [1%nat; 2%nat; 3%nat] /\ str "20" = (numeric_name (nr agree_kernel 0%nat p)).1 /\ leads agree_kernel p = false))).
Proof.
  refine (@proc_finds_what_it_lists arch64 config_all agree_kernel 0%nat [1%nat; 2%nat; 3%nat] 100 4 4%nat 5%nat 6%nat 8%nat 1%nat
    (world0 (agree_mem (str "20"))) agree_space agree_hash _ _ (fun _ _ => eq_refl) eq_refl (agree_can_make 1%nat) _ eq_refl eq_refl _).
  - split; [discriminate|reflexivity].
  - cbn. lia.
  - split; [reflexivity|]. split; [reflexivity|]. exists 6%nat. reflexivity.
  - repeat constructor; discriminate.
Defined.

(** The thread 20 is found and not listed; 15 is nobody's number. *)
Example proc_agreement_evaluates :
  let go name := run (dcache_env agree_kernel) (@proc_pid_readdir arch64 config_all 100 4 4%nat;; @proc_pid_lookup config_all 6%nat 8%nat)
    (world0 (agree_mem (str name))) in
  rev (dirents (log (go "20").2)) = [(str "self", 256, 0); (str "10", 267, 0); (str "30", 287, 0)] /\
  (go "20").1 = Done 0 /\ (go "10").1 = Done 0 /\ (go "self").1 = Done 0 /\ (go "15").1 = Done (- ENOENT) /\ (go "010").1 = Done (- ENOENT).
Proof. vm_compute. repeat split. Qed.

(** A process directory that is read from the start. *)
Definition table_mem (name : bytes) : kmem := upd_file 4%nat (set_f_pos 0) (agree_mem name).

Lemma table_directory_finds_what_it_lists_witness :
  ends (dcache_env agree_kernel) (again 2 (@proc_tgid_base_readdir config_all 4%nat)) (world0 (table_mem (str "status"))) (fun _ w1 =>
    exists l q, emitted l (world0 (table_mem (str "status"))) w1 /\ opened 4%nat 5%nat q (mem w1) /\
      accepted l = ztake q (listing (@tgid_base_stuff config_all)) /\
      ends (dcache_env agree_kernel) (@proc_tgid_base_lookup config_all 6%nat 8%nat) w1 (fun r w2 => balanced w1 w2 /\
        (str "status" ∈ accepted l -> str "status" ∉ dots -> r = 0 /\ exists p pid ino, p ∈ @tgid_base_stuff config_all /\
           pe_name p = str "status" /\ agree_kernel (GetTaskPid 1%nat) = Some pid /\
           d_inode (k_dentry (mem w2) !!! 8%nat) = Some ino /\ shows_entry p pid (k_inode (mem w2) !!! ino)) /\
        (q = len (listing (@tgid_base_stuff config_all)) -> str "status" ∉ accepted l -> r = - ENOENT /\ mem w2 = mem w1))).
Proof.
  assert (Hin : In (@proc_tgid_base_readdir config_all, @proc_tgid_base_lookup config_all, @tgid_base_stuff config_all)
    (@table_directories config_all)) by (left; reflexivity).
  assert (Hopen : opened 4%nat 5%nat 0 (table_mem (str "status"))).
  { split; [reflexivity|]. split; [reflexivity|]. exists 6%nat. reflexivity. }
  assert (Hname : d_name (k_dentry (table_mem (str "status")) !!! 8%nat) = str "status") by reflexivity.
  pose proof (@table_directory_finds_what_it_lists config_all agree_kernel _ _ _ 4%nat 5%nat 6%nat 8%nat 1%nat 2
    (world0 (table_mem (str "status"))) Hin (fun _ _ => eq_refl) eq_refl (agree_can_make 1%nat) Hopen) as H.
  cbn [mem world0] in H. rewrite Hname in H. exact H.
Defined.

(** Listed and found, and not listed and not found. *)
Example table_agreement_evaluates :
  let go name := run (dcache_env agree_kernel) (r ← @proc_tgid_base_readdir config_all 4%nat; x ← @proc_tgid_base_lookup config_all 6%nat 8%nat; mret (r, x))
    (world0 (table_mem (str name))) in
  (go "status").1 = Done (1, 0) /\ (go "statu").1 = Done (1, - ENOENT) /\
  bool_decide (str "status" ∈ (fun e => e.1.1) <$> dirents (log (go "status").2)) = true.
Proof. vm_compute. repeat split. Qed.

(** The group of [group_answers], threads 10, 20 and 30. *)
Definition crew_answers (o : op) : ans o :=
  match o with
  | FindTaskByPidNs n _ =>
      if n =? 10 then Some 1%nat else if n =? 20 then Some 2%nat else if n =? 30 then Some 3%nat
      else if n =? 40 then Some 4%nat else None
  | SameThreadGroup _ t => bool_decide (t ∈ [1%nat; 2%nat; 3%nat])
  | o => group_answers o
  end.

Lemma crew_kernel : keeps (dcache_env crew_answers) (group_kernel crew_answers 1%nat [2%nat; 3%nat]).
Proof.
  intros o tr m. split; [by apply (dcache_env_stable crew_answers)|]. split; [by destruct o, m|]. destruct o; try done.
  intros t [= <-]. by left.
Qed.

Lemma crew_group : thread_group crew_answers 0%nat 1%nat [2%nat; 3%nat].
Proof.
  split; try done; intros t Ht; repeat (apply elem_of_cons in Ht as [->|Ht]; [try done; vm_compute; done|]);
    by apply elem_of_nil in Ht.
Qed.

Lemma crew_hash : group_hash crew_answers 0%nat 1%nat [2%nat; 3%nat].
Proof.
  split.
  - intros n t. unfold tid, threads. cbn.
    destruct (Z.eqb_spec n 10), (Z.eqb_spec n 20), (Z.eqb_spec n 30), (Z.eqb_spec n 40); intros [= <-]; subst; split; try lia; done.
  - intros t. cbn. apply bool_decide_eq_true.
  - intros t _. split; [|by eexists]. intros sb. exists 9%nat. split; [done|]. by eexists.
Qed.

Definition crew_mem (name : bytes) : kmem :=
  let t := Task 0 [] 0 None None 8 1 0 0 0 false 0 inhabitant 0 0 0 [] 0 [] in
  Kmem 1 {[ 1%nat := t; 2%nat := t; 3%nat := t ]} {[ 8%nat := Signal 3 [] inhabitant ]} ∅ ∅
    {[ 4%nat := File 0 0 0 (Path 0%nat 5%nat) 0 PrivNone ]} {[ 6%nat := inhabitant ]}
    {[ 5%nat := Dentry [] (Some 6%nat) None 0; 8%nat := Dentry name None None 0 ]} ∅ ∅ ∅ ∅ ∅ ∅ ∅ HookDummy.

Lemma crew_store name : group_store 1%nat [2%nat; 3%nat] (all_threads 1%nat [2%nat; 3%nat]) (crew_mem name).
Proof.
  split; [|reflexivity]. intros t Ht. repeat (apply elem_of_cons in Ht as [->|Ht]; [reflexivity|]). by apply elem_of_nil in Ht.
Qed.

Lemma task_directory_finds_what_it_lists_witness :
  ends (dcache_env crew_answers) (again 2 (@proc_task_readdir arch64 config_all 4 4%nat);; @proc_task_lookup config_all 6%nat 8%nat)
    (world0 (crew_mem (str "30"))) (fun r w' => balanced (world0 (crew_mem (str "30"))) w' /\
    exists l, dirents (log w') = rev l ++ [] /\
      (f_pos (k_file (mem w') !!! 4%nat) = 5 ->
        accepted l = task_listing (tid crew_answers 0%nat) 1%nat [2%nat; 3%nat] /\ (r = 0 <-> str "30" ∈ accepted l /\ str "30" ∉ dots))).
Proof.
  refine (@task_directory_finds_what_it_lists config_all arch64 crew_answers 0%nat 1%nat [2%nat; 3%nat] 4 4%nat 5%nat 6%nat 8%nat 2
    (world0 (crew_mem (str "30"))) crew_kernel crew_group crew_hash _ _ (fun _ _ => eq_refl) _ eq_refl (crew_store _) eq_refl eq_refl _).
  - cbn. lia.
  - reflexivity.
  - split; [reflexivity|]. split; [reflexivity|]. exists 6%nat. reflexivity.
  - repeat constructor; discriminate.
Defined.

(** The changing table of [moving_kernel]: 0 and 2 stay open; as soon as "0"
    is listed, 1 is closed and 4 is opened. Inodes keep their numbers. *)
Definition sliding_kernel : env := fun o tr m =>
  match o return ans o * kmem with
  | ProcFd i => (ei_fd (k_inode m !!! i), m)
  | o => moving_kernel o tr m
  end.

Lemma sliding_fd_kernel : keeps sliding_kernel (fd_kernel moving_view).
Proof.
  intros o tr m. split; [|split; [by destruct o, m|by destruct o; try done; eexists]].
  pose proof (moving_files o tr m) as [Hst Hx]. split; [by destruct o|by destruct o].
Qed.

Lemma fd_directory_finds_what_it_lists_witness :
  ends sliding_kernel (again 2 (proc_readfd 5 4%nat);; proc_lookupfd 6%nat 8%nat) (world0 (crew_mem (str "2"))) (fun r w' =>
    balanced (world0 (crew_mem (str "2"))) w' /\
    exists l, dirents (log w') = rev l ++ [] /\
      (forall k, k = 0 \/ k = 2 -> k + 2 < f_pos (k_file (mem w') !!! 4%nat) -> str "2" = (numeric_name k).1 ->
        str "2" ∈ accepted l /\ r = 0) /\
      (str "2" ∈ accepted l \/ r = 0 -> str "2" ∈ dots \/ exists k, may_open moving_view k /\ str "2" = (numeric_name k).1)).
Proof.
  refine (fd_directory_finds_what_it_lists sliding_kernel moving_view 5 5 4%nat 5%nat 6%nat 8%nat 2 (world0 (crew_mem (str "2")))
    proc_readfd proc_lookupfd sliding_fd_kernel moving_table _ _ _ _ _ _ _ _ _).
  - split; [discriminate|reflexivity].
  - discriminate.
  - intros k [->| ->]; split; try discriminate; reflexivity.
  - intros k [->|[->|[->| ->]]]; discriminate.
  - split; [reflexivity|]. split; [reflexivity|]. exists 6%nat. reflexivity.
  - left. reflexivity.
  - left. reflexivity.
  - repeat constructor; discriminate.
  - discriminate.
Defined.

(** "1" was listed nowhere and is not found, "4" is listed and found, "02" is no name. *)
Example fd_agreement_evaluates :
  let go name := run sliding_kernel (proc_readfd 5 4%nat;; proc_lookupfd 6%nat 8%nat) (world0 (crew_mem (str name))) in
  rev (dirents (log (go "2").2)) = [(str ".", 0, 0); (str "..", 1, 0); (str "0", 2, 0); (str "2", 4, 0); (str "4", 6, 0)] /\
  (go "0").1 = Done 0 /\ (go "2").1 = Done 0 /\ (go "4").1 = Done 0 /\ (go "1").1 = Done (- ENOENT) /\ (go "02").1 = Done (- ENOENT).
Proof. vm_compute. repeat split. Qed.
