(* ===== verification/Ops.v ===== *)
(** * The operation tables (fs/proc/base.c), and the union in an inode

    The static tables of function pointers that an inode's [i_op] and
    [i_fop] point to, with the functions of base.c they hold, and the calls
    the rest of the kernel makes through them. Every call through
    [union proc_op] must read the member that was stored: the generic
    functions [proc_info_read], [proc_single_show], [proc_pid_readlink] and
    [proc_pid_follow_link] rely on the tables pairing them with the right
    entries. [inode_typed] states the pairing, and the theorems show that it is
    an invariant of everything base.c does. *)
From S2P Require Import Prelude Format Structs Kernel Access Names Tables Threads Info ExeFile Links Mounts MemFiles Controls Inodes Dirs Flush Procs Tasks.

(** ** The tables *)

(** Methods that the tables take from other files. *)
Inductive elsewhere := seq_read | seq_lseek | single_release | generic_read_dir | nonseekable_open.

(** An entry of a table: a function of base.c, a function of another file, or
    the NULL of a member that is not initialised. *)
Inductive method (F : Type) := Here (f : F) | Elsewhere (name : elsewhere) | Null.
Arguments Here {F} f.
Arguments Elsewhere {F} name.
Arguments Null {F}.

Record inode_table := InodeTable {
  op_lookup : method (inode_id -> dentry_id -> prog Z);
  op_readlink : method (dentry_id -> Z -> Z -> prog Z);
  op_follow_link : method (dentry_id -> path -> prog (Z * option path));
  op_permission : method (inode_id -> Z -> prog Z);
  op_getattr : method (dentry_id -> prog kstat);
  op_setattr : method (inode_id -> Z -> prog Z);
}.

Record file_table := FileTable {
  op_open : method (inode_id -> file_id -> prog Z);
  op_release : method (inode_id -> file_id -> prog Z);
  op_read : method (file_id -> Z -> Z -> Z -> prog (Z * Z));
  op_write : method (file_id -> Z -> Z -> Z -> prog Z);
  op_llseek : method (file_id -> Z -> Z -> prog Z);
  op_poll : method (file_id -> prog Z);
  op_readdir : method (file_id -> prog Z);
}.

Record dentry_table := DentryTable {
  op_revalidate : dentry_id -> prog bool;
  op_delete : dentry_id -> prog bool;
}.

Section Ops.
Context `{Arch} `{Config}.
(** [limit] is PID_MAX_LIMIT; [fuel] bounds the loops of the directories that
    are not made from a table. *)
Context (limit sizeof_proc_mounts : Z) (fuel : nat).

(** [proc_self_follow_link] leaves the path to [vfs_follow_link]. *)
Definition self_follow (dentry : dentry_id) (nd_path : path) : prog (Z * option path) :=
  r ← proc_self_follow_link dentry; mret (r, None).

(** [lstats_write], from the file: [file->f_dentry->d_inode] first. *)
Definition lstats_file_write (file : file_id) (buf count pos : Z) : prog Z :=
  inode ← file_inode file; lstats_write inode count.

(** Every table, under its name. *)
Definition tab_proc_def_inode_operations : inode_table :=
  InodeTable Null Null Null Null Null (Here proc_setattr).
Definition tab_proc_pid_link_inode_operations : inode_table :=
  InodeTable Null (Here proc_pid_readlink) (Here proc_pid_follow_link) Null Null (Here proc_setattr).
Definition tab_proc_fd_inode_operations : inode_table :=
  InodeTable (Here proc_lookupfd) Null Null (Here proc_fd_permission) Null (Here proc_setattr).
Definition tab_proc_fdinfo_inode_operations : inode_table :=
  InodeTable (Here proc_lookupfdinfo) Null Null Null Null (Here proc_setattr).
Definition tab_proc_attr_dir_inode_operations : inode_table :=
  InodeTable (Here proc_attr_dir_lookup) Null Null Null (Here pid_getattr) (Here proc_setattr).
Definition tab_proc_self_inode_operations : inode_table :=
  InodeTable Null (Here proc_self_readlink) (Here self_follow) Null Null Null.
Definition tab_proc_tgid_base_inode_operations : inode_table :=
  InodeTable (Here proc_tgid_base_lookup) Null Null Null (Here pid_getattr) (Here proc_setattr).
Definition tab_proc_tid_base_inode_operations : inode_table :=
  InodeTable (Here proc_tid_base_lookup) Null Null Null (Here pid_getattr) (Here proc_setattr).
Definition tab_proc_task_inode_operations : inode_table :=
  InodeTable (Here proc_task_lookup) Null Null Null (Here proc_task_getattr) (Here proc_setattr).

(** [None] for the tables of other files. *)
Definition inode_ops (t : inode_operations) : option inode_table :=
  match t with
  | proc_def_inode_operations => Some tab_proc_def_inode_operations
  | proc_pid_link_inode_operations => Some tab_proc_pid_link_inode_operations
  | proc_fd_inode_operations => Some tab_proc_fd_inode_operations
  | proc_fdinfo_inode_operations => Some tab_proc_fdinfo_inode_operations
  | proc_attr_dir_inode_operations => Some tab_proc_attr_dir_inode_operations
  | proc_self_inode_operations => Some tab_proc_self_inode_operations
  | proc_tgid_base_inode_operations => Some tab_proc_tgid_base_inode_operations
  | proc_tid_base_inode_operations => Some tab_proc_tid_base_inode_operations
  | proc_task_inode_operations => Some tab_proc_task_inode_operations
  | proc_net_inode_operations => None
  end.

Definition read_only (read : file_id -> Z -> Z -> Z -> prog (Z * Z)) : file_table :=
  FileTable Null Null (Here read) Null Null Null Null.
Definition read_write (read : file_id -> Z -> Z -> Z -> prog (Z * Z)) (write : file_id -> Z -> Z -> Z -> prog Z) : file_table :=
  FileTable Null Null (Here read) (Here write) Null Null Null.
Definition directory (readdir : file_id -> prog Z) : file_table :=
  FileTable Null Null (Elsewhere generic_read_dir) Null Null Null (Here readdir).
Definition seq_file open release write poll : file_table :=
  FileTable (Here open) release (Elsewhere seq_read) write (Elsewhere seq_lseek) poll Null.

Definition tab_proc_lstats_operations : file_table :=
  seq_file lstats_open (Elsewhere single_release) (Here lstats_file_write) Null.
Definition tab_proc_mounts_operations : file_table :=
  seq_file (mounts_open sizeof_proc_mounts) (Here mounts_release) Null (Here mounts_poll).
Definition tab_proc_mountinfo_operations : file_table :=
  seq_file (mountinfo_open sizeof_proc_mounts) (Here mounts_release) Null (Here mounts_poll).
Definition tab_proc_mountstats_operations : file_table :=
  seq_file (mountstats_open sizeof_proc_mounts) (Here mounts_release) Null Null.
Definition tab_proc_info_file_operations : file_table :=
  read_only proc_info_read.
Definition tab_proc_single_file_operations : file_table :=
  seq_file proc_single_open (Elsewhere single_release) Null Null.
Definition tab_proc_mem_operations : file_table :=
  FileTable (Here mem_open) Null (Here mem_read) Null (Here mem_lseek) Null Null.
Definition tab_proc_environ_operations : file_table :=
  read_only environ_read.
Definition tab_proc_oom_adjust_operations : file_table :=
  read_write oom_adjust_read (fun file buf count _ => oom_adjust_write file buf count).
Definition tab_proc_loginuid_operations : file_table :=
  read_write proc_loginuid_read proc_loginuid_write.
Definition tab_proc_sessionid_operations : file_table :=
  read_only proc_sessionid_read.
Definition tab_proc_fault_inject_operations : file_table :=
  read_write proc_fault_inject_read (fun file buf count _ => proc_fault_inject_write file buf count).
Definition tab_proc_pid_sched_operations : file_table :=
  seq_file sched_open (Elsewhere single_release) (Here (fun file _ count _ => sched_write file count)) Null.
Definition tab_proc_fdinfo_file_operations : file_table :=
  FileTable (Elsewhere nonseekable_open) Null (Here proc_fdinfo_read) Null Null Null Null.
Definition tab_proc_fd_operations : file_table :=
  directory (proc_readfd fuel).
Definition tab_proc_fdinfo_operations : file_table :=
  directory (proc_readfdinfo fuel).
Definition tab_proc_pid_attr_operations : file_table :=
  read_write proc_pid_attr_read proc_pid_attr_write.
Definition tab_proc_attr_dir_operations : file_table :=
  directory proc_attr_dir_readdir.
Definition tab_proc_coredump_filter_operations : file_table :=
  read_write proc_coredump_filter_read (fun file buf count _ => proc_coredump_filter_write file buf count).
Definition tab_proc_tgid_base_operations : file_table :=
  directory proc_tgid_base_readdir.
Definition tab_proc_tid_base_operations : file_table :=
  directory proc_tid_base_readdir.
Definition tab_proc_task_operations : file_table :=
  directory (proc_task_readdir fuel).

Definition file_ops (t : file_operations) : option file_table :=
  match t with
  | proc_lstats_operations => Some tab_proc_lstats_operations
  | proc_mounts_operations => Some tab_proc_mounts_operations
  | proc_mountinfo_operations => Some tab_proc_mountinfo_operations
  | proc_mountstats_operations => Some tab_proc_mountstats_operations
  | proc_info_file_operations => Some tab_proc_info_file_operations
  | proc_single_file_operations => Some tab_proc_single_file_operations
  | proc_mem_operations => Some tab_proc_mem_operations
  | proc_environ_operations => Some tab_proc_environ_operations
  | proc_oom_adjust_operations => Some tab_proc_oom_adjust_operations
  | proc_loginuid_operations => Some tab_proc_loginuid_operations
  | proc_sessionid_operations => Some tab_proc_sessionid_operations
  | proc_fault_inject_operations => Some tab_proc_fault_inject_operations
  | proc_pid_sched_operations => Some tab_proc_pid_sched_operations
  | proc_fdinfo_file_operations => Some tab_proc_fdinfo_file_operations
  | proc_fd_operations => Some tab_proc_fd_operations
  | proc_fdinfo_operations => Some tab_proc_fdinfo_operations
  | proc_pid_attr_operations => Some tab_proc_pid_attr_operations
  | proc_attr_dir_operations => Some tab_proc_attr_dir_operations
  | proc_coredump_filter_operations => Some tab_proc_coredump_filter_operations
  | proc_tgid_base_operations => Some tab_proc_tgid_base_operations
  | proc_tid_base_operations => Some tab_proc_tid_base_operations
  | proc_task_operations => Some tab_proc_task_operations
  | proc_net_operations
  | proc_maps_operations
  | proc_numa_maps_operations
  | proc_clear_refs_operations
  | proc_smaps_operations
  | proc_pagemap_operations
  | proc_cpuset_operations
  | proc_cgroup_operations => None
  end.

Definition tab_pid_dentry_operations : dentry_table := DentryTable pid_revalidate pid_delete_dentry.
Definition tab_tid_fd_dentry_operations : dentry_table := DentryTable tid_fd_revalidate pid_delete_dentry.
Definition tab_proc_base_dentry_operations : dentry_table := DentryTable proc_base_revalidate pid_delete_dentry.

Definition dentry_ops (t : dentry_operations) : dentry_table :=
  match t with
  | pid_dentry_operations => tab_pid_dentry_operations
  | tid_fd_dentry_operations => tab_tid_fd_dentry_operations
  | proc_base_dentry_operations => tab_proc_base_dentry_operations
  end.

(** ** The calls of the rest of the kernel *)

Definition ignoring {A : Type} (p : prog A) : prog unit := p;; mret tt.

Definition inode_of (m : kmem) (file : file_id) : option inode_id :=
  d_inode (k_dentry m !!! f_dentry (k_file m !!! file)).

Definition has_iop {F : Type} (m : kmem) (inode : inode_id) (member : inode_table -> method F) (f : F) : Prop :=
  exists t tab, i_op (k_inode m !!! inode) = Some t /\ inode_ops t = Some tab /\ member tab = Here f.

Definition has_fop {F : Type} (m : kmem) (inode : inode_id) (member : file_table -> method F) (f : F) : Prop :=
  exists t tab, i_fop (k_inode m !!! inode) = Some t /\ file_ops t = Some tab /\ member tab = Here f.

(** What can be called in a store [m]: the functions of the tables of the
    inode or dentry they are called for, the callbacks given to
    [single_open], and the exported functions. First those that are over when
    they return... *)
Inductive access (m : kmem) : prog unit -> Prop :=
  | A_lookup dir dentry f : has_iop m dir op_lookup f -> access m (ignoring (f dir dentry))
  | A_readlink dentry inode f buf n : d_inode (k_dentry m !!! dentry) = Some inode ->
      has_iop m inode op_readlink f -> access m (ignoring (f dentry buf n))
  | A_permission inode f mask : has_iop m inode op_permission f -> access m (ignoring (f inode mask))
  | A_getattr dentry inode f : d_inode (k_dentry m !!! dentry) = Some inode ->
      has_iop m inode op_getattr f -> access m (ignoring (f dentry))
  | A_setattr inode f valid : has_iop m inode op_setattr f -> access m (ignoring (f inode valid))
  | A_read file inode f buf n pos : inode_of m file = Some inode -> has_fop m inode op_read f ->
      access m (ignoring (f file buf n pos))
  | A_write file inode f buf n pos : inode_of m file = Some inode -> has_fop m inode op_write f ->
      access m (ignoring (f file buf n pos))
  | A_llseek file inode f off orig : inode_of m file = Some inode -> has_fop m inode op_llseek f ->
      access m (ignoring (f file off orig))
  | A_poll file inode f : inode_of m file = Some inode -> has_fop m inode op_poll f -> access m (ignoring (f file))
  | A_readdir file inode f : inode_of m file = Some inode -> has_fop m inode op_readdir f ->
      access m (ignoring (f file))
  | A_revalidate dentry t : d_op (k_dentry m !!! dentry) = Some t ->
      access m (ignoring (op_revalidate (dentry_ops t) dentry))
  | A_delete dentry t : d_op (k_dentry m !!! dentry) = Some t ->
      access m (ignoring (op_delete (dentry_ops t) dentry))
  | A_single_show seq inode : k_seq_private m !!! seq = Some inode ->
      i_fop (k_inode m !!! inode) = Some proc_single_file_operations -> access m (ignoring (proc_single_show seq))
  | A_lstats_show seq : access m (ignoring (lstats_show_proc seq))
  | A_sched_show seq : access m (ignoring (sched_show seq))
  | A_root_lookup dir dentry : access m (ignoring (proc_pid_lookup dir dentry))
  | A_root_readdir file : access m (ignoring (proc_pid_readdir limit fuel file))
  | A_flush task : access m (ignoring (proc_flush_task task)).

(** ... then those that leave something with their caller or take it back: an
    open file, a followed link. *)
Inductive entry (m : kmem) : prog unit -> Prop :=
  | E_access p : access m p -> entry m p
  | E_follow_link dentry inode f p : d_inode (k_dentry m !!! dentry) = Some inode ->
      has_iop m inode op_follow_link f -> entry m (ignoring (f dentry p))
  | E_open inode file f : has_fop m inode op_open f -> entry m (ignoring (f inode file))
  | E_release inode file f : has_fop m inode op_release f -> entry m (ignoring (f inode file)).
End Ops.

(** ** Typed inodes *)

(** The union of an inode that the generic functions serve holds the member
    they read. *)
Definition inode_typed (i : inode) : Prop :=
  (i_fop i = Some proc_info_file_operations -> exists f, ei_op i = proc_read f) /\
  (i_fop i = Some proc_single_file_operations -> exists f, ei_op i = proc_show f) /\
  (i_op i = Some proc_pid_link_inode_operations -> exists f, ei_op i = proc_get_link f).

Definition store_typed (m : kmem) : Prop := forall j, inode_typed (k_inode m !!! j).

(** An inode that none of the generic functions serves yet. *)
Definition blank (i : inode) : Prop :=
  i_fop i <> Some proc_info_file_operations /\ i_fop i <> Some proc_single_file_operations /\
  i_op i <> Some proc_pid_link_inode_operations.

(** The fields that decide which functions serve an inode. *)
Definition marks (i : inode) := (i_op i, i_fop i, ei_op i).

Definition same_marks (m m' : kmem) : Prop := forall j, marks (k_inode m' !!! j) = marks (k_inode m !!! j).

(** The rest of the kernel leaves these fields alone, and [new_inode] answers
    an inode with no table of base.c. *)
Definition marks_kept : contract := fun o =>
  match o return list obs -> kmem -> ans o -> kmem -> Prop with
  | NewInode _ => fun _ m x m' =>
      match x with
      | Some ino => blank (k_inode m' !!! ino) /\
          forall j, j <> ino -> marks (k_inode m' !!! j) = marks (k_inode m !!! j)
      | None => same_marks m m'
      end
  | _ => fun _ m _ m' => same_marks m m'
  end.

Lemma marks_typed i i' : marks i' = marks i -> inode_typed i -> inode_typed i'.
Proof. unfold inode_typed. intros [= -> -> ->]. done. Qed.

Lemma marks_blank i i' : marks i' = marks i -> blank i -> blank i'.
Proof. unfold blank. intros [= -> -> _]. done. Qed.

Lemma same_marks_typed m m' : same_marks m m' -> store_typed m -> store_typed m'.
Proof. intros Hm Ht j. by apply (marks_typed (k_inode m !!! j)). Qed.

Lemma same_marks_trans m1 m2 m3 : same_marks m1 m2 -> same_marks m2 m3 -> same_marks m1 m3.
Proof. intros H1 H2 j. by rewrite (H2 j). Qed.

Lemma blank_typed i : blank i -> inode_typed i.
Proof. intros (H1 & H2 & H3). by split_and!. Qed.

(** Programs that neither write those fields nor read the union. *)
Definition quiet {A : Type} (p : prog A) : Prop := forall w,
  wsafe marks_kept p (fun _ w' => same_marks (mem w) (mem w')) w.

Definition typing {A : Type} (p : prog A) : Prop := forall w,
  store_typed (mem w) -> wsafe marks_kept p (fun _ w' => store_typed (mem w')) w.

Lemma quiet_ret {A : Type} (a : A) : quiet (mret a).
Proof. intros w j. done. Qed.

Lemma quiet_halt {A : Type} y : y <> WrongMember -> quiet (@Halt A y).
Proof. intros Hy w. exact Hy. Qed.

Lemma quiet_wild {A : Type} : quiet (@Halt A WildAccess).
Proof. by apply quiet_halt. Qed.

Lemma quiet_fuel {A : Type} : quiet (@Halt A OutOfFuel).
Proof. by apply quiet_halt. Qed.

Lemma quiet_bind {A B : Type} (p : prog A) (f : A -> prog B) :
  quiet p -> (forall a, quiet (f a)) -> quiet (p ≫= f).
Proof.
  intros Hp Hf w. apply wsafe_bind. eapply wsafe_mono; [apply Hp|]. intros a w1 H1.
  eapply wsafe_mono; [apply Hf|]. intros b w2 H2. by apply (same_marks_trans _ (mem w1)).
Qed.

Lemma quiet_call o : match o with NewInode _ => False | _ => True end -> quiet (call o).
Proof. intros Ho w x m H. cbn. by destruct o. Qed.

Lemma quiet_gets {A : Type} (f : kmem -> A) : quiet (gets f).
Proof. intros w j. done. Qed.

Lemma quiet_modify f : (forall m, k_inode (f m) = k_inode m) -> quiet (modify f).
Proof. intros Hf w j. cbn. by rewrite Hf. Qed.

Lemma marks_upd_inode i f m j : j <> i \/ (forall x, marks (f x) = marks x) ->
  marks (k_inode (upd_inode i f m) !!! j) = marks (k_inode m !!! j).
Proof.
  rewrite k_inode_upd_inode. destruct (decide (j = i)) as [->|Hne].
  - rewrite lookup_total_insert_eq. intros [?|Hf]; [done|apply Hf].
  - by rewrite lookup_total_insert_ne.
Qed.

Lemma quiet_upd_inode i f : (forall x, marks (f x) = marks x) -> quiet (modify (upd_inode i f)).
Proof. intros Hf w j. apply marks_upd_inode. by right. Qed.

Lemma typing_quiet {A : Type} (p : prog A) : quiet p -> typing p.
Proof. intros Hp w Hw. eapply wsafe_mono; [apply Hp|]. intros a w' Hm. by apply (same_marks_typed (mem w)). Qed.

Lemma typing_bind {A B : Type} (p : prog A) (f : A -> prog B) :
  typing p -> (forall a, typing (f a)) -> typing (p ≫= f).
Proof.
  intros Hp Hf w Hw. apply wsafe_bind. eapply wsafe_mono; [by apply Hp|]. intros a w1 H1. by apply Hf.
Qed.

Create HintDb quiet discriminated.
#[export] Hint Constants Opaque : quiet.
#[export] Hint Resolve quiet_ret quiet_wild quiet_fuel quiet_gets : quiet.

(** Proves [quiet] of a program from its syntax. *)
Ltac quiet := repeat first
  [ match goal with |- forall _, _ => intros ? end
  | match goal with
    | |- quiet (_ ≫= _) => apply quiet_bind
    | |- quiet (call _) => apply quiet_call; exact I
    | |- quiet (modify (upd_inode _ _)) => apply quiet_upd_inode; intros []; reflexivity
    | |- quiet (modify _) => apply quiet_modify; intros []; reflexivity
    | |- quiet (match ?x with _ => _ end) => destruct x
    | |- quiet (match ?x with _ => _ end _) => destruct x
    end
  | solve [auto with quiet nocore] ].
Ltac quietly := kunfold; quiet.

(** ** Programs that leave the fields alone *)

Lemma dentry_inode_quiet d : quiet (dentry_inode d).
Proof. unfold dentry_inode. quietly. Qed.
Lemma file_inode_quiet f : quiet (file_inode f).
Proof. unfold file_inode. apply quiet_bind; [quietly|apply dentry_inode_quiet]. Qed.
#[export] Hint Resolve dentry_inode_quiet file_inode_quiet : quiet.

Lemma get_fs_path_quiet t r : quiet (get_fs_path t r).
Proof. unfold get_fs_path. quietly. Qed.
Lemma check_mem_permission_quiet t : quiet (check_mem_permission t).
Proof. unfold check_mem_permission. quietly. Qed.
Lemma proc_fd_access_allowed_quiet i : quiet (proc_fd_access_allowed i).
Proof. unfold proc_fd_access_allowed. quietly. Qed.
Lemma task_dumpable_quiet t : quiet (task_dumpable t).
Proof. unfold task_dumpable. quietly. Qed.
Lemma proc_setattr_quiet i v : quiet (proc_setattr i v).
Proof. unfold proc_setattr. quietly. Qed.
Lemma get_nr_threads_quiet t : quiet (get_nr_threads t).
Proof. unfold get_nr_threads. quietly. Qed.
#[export] Hint Resolve get_fs_path_quiet check_mem_permission_quiet proc_fd_access_allowed_quiet
  task_dumpable_quiet proc_setattr_quiet get_nr_threads_quiet : quiet.

Lemma own_by_task_quiet t i : quiet (own_by_task t i).
Proof. unfold own_by_task. quietly. Qed.
Lemma strip_ids_quiet i : quiet (strip_ids i).
Proof. unfold strip_ids. quietly. Qed.
#[export] Hint Resolve own_by_task_quiet strip_ids_quiet : quiet.

Lemma pid_revalidate_quiet d : quiet (pid_revalidate d).
Proof. unfold pid_revalidate. quietly. Qed.
Lemma tid_fd_revalidate_quiet d : quiet (tid_fd_revalidate d).
Proof. unfold tid_fd_revalidate. quietly. Qed.
Lemma proc_base_revalidate_quiet d : quiet (proc_base_revalidate d).
Proof. unfold proc_base_revalidate. quietly. Qed.
Lemma pid_delete_dentry_quiet d : quiet (pid_delete_dentry d).
Proof. unfold pid_delete_dentry. quietly. Qed.
Lemma pid_getattr_quiet d : quiet (pid_getattr d).
Proof. unfold pid_getattr. quietly. Qed.
Lemma proc_task_getattr_quiet d : quiet (proc_task_getattr d).
Proof. unfold proc_task_getattr. quietly. Qed.
Lemma proc_fd_permission_quiet i mask : quiet (proc_fd_permission i mask).
Proof. unfold proc_fd_permission. quietly. Qed.
Lemma set_and_add_quiet d ops i : quiet (set_and_add d ops i).
Proof. unfold set_and_add. quietly. Qed.
#[export] Hint Resolve pid_revalidate_quiet tid_fd_revalidate_quiet proc_base_revalidate_quiet
  pid_delete_dentry_quiet pid_getattr_quiet proc_task_getattr_quiet proc_fd_permission_quiet set_and_add_quiet : quiet.

Section Quiet.
Context `{Arch} `{Config}.

Lemma print_stack_quiet m l : quiet (print_stack m l).
Proof. induction l as [|x l IH]; cbn [print_stack]; quietly. Qed.
Lemma print_backtrace_quiet m n : forall l, quiet (print_backtrace m n l).
Proof. induction n as [|n IH]; intros l; destruct l; cbn [print_backtrace]; quietly. Qed.
Lemma print_latency_quiet m r : quiet (print_latency m r).
Proof. unfold print_latency. quietly; apply print_backtrace_quiet. Qed.
Lemma print_latencies_quiet m t n : forall i, quiet (print_latencies m t i n).
Proof. induction n as [|n IH]; intros i; cbn [print_latencies]; quietly; apply print_latency_quiet. Qed.
#[local] Hint Resolve print_stack_quiet print_backtrace_quiet print_latency_quiet print_latencies_quiet : quiet.
Lemma lstats_show_proc_quiet m : quiet (lstats_show_proc m).
Proof. unfold lstats_show_proc. quietly. Qed.
Lemma add_threads_quiet fuel t : forall u a, quiet (add_threads fuel t u a).
Proof. induction fuel as [|n IH]; intros u a; cbn [add_threads]; quietly. Qed.
#[local] Hint Resolve add_threads_quiet : quiet.
Lemma do_io_accounting_quiet t whole : quiet (do_io_accounting t whole).
Proof. unfold do_io_accounting. quietly. Qed.
Lemma call_proc_read_quiet f t : quiet (call_proc_read f t).
Proof.
  destruct f; cbn [call_proc_read]; try apply do_io_accounting_quiet.
  - unfold proc_pid_auxv. quietly.
  - unfold proc_pid_limits. quietly.
  - unfold proc_pid_syscall. quietly.
  - unfold proc_pid_cmdline. quietly.
  - unfold proc_pid_wchan. quietly.
  - unfold proc_pid_schedstat. quietly.
  - unfold proc_oom_score. quietly.
Qed.
Lemma call_proc_show_quiet f m ns p t : quiet (call_proc_show f m ns p t).
Proof.
  destruct f; cbn [call_proc_show]; unfold proc_pid_personality, proc_pid_stack; quietly.
Qed.
Lemma lstats_open_quiet i f : quiet (lstats_open i f).
Proof. unfold lstats_open. quietly. Qed.
Lemma lstats_file_write_quiet f b n pos : quiet (lstats_file_write f b n pos).
Proof. unfold lstats_file_write, lstats_write. quietly. Qed.
Lemma sched_show_quiet m : quiet (sched_show m).
Proof. unfold sched_show. quietly. Qed.
End Quiet.
#[export] Hint Resolve lstats_show_proc_quiet call_proc_read_quiet call_proc_show_quiet lstats_open_quiet
  lstats_file_write_quiet sched_show_quiet : quiet.

Lemma proc_fd_info_quiet i p n : quiet (proc_fd_info i p n).
Proof. unfold proc_fd_info. quietly. Qed.
#[export] Hint Resolve proc_fd_info_quiet : quiet.

Lemma link_functions_quiet i : quiet (proc_cwd_link i) /\ quiet (proc_root_link i) /\ quiet (proc_exe_link i) /\ quiet (proc_fd_link i).
Proof. split_and!; unfold proc_cwd_link, proc_root_link, proc_exe_link, get_mm_exe_file, proc_fd_link; quietly. Qed.
Lemma do_proc_readlink_quiet p b n : quiet (do_proc_readlink p b n).
Proof. unfold do_proc_readlink. quietly. Qed.
Lemma proc_fdinfo_read_quiet `{Arch} f b n pos : quiet (proc_fdinfo_read f b n pos).
Proof. unfold proc_fdinfo_read. quietly. Qed.
Lemma proc_self_readlink_quiet d b n : quiet (proc_self_readlink d b n).
Proof. unfold proc_self_readlink. quietly. Qed.
Lemma self_follow_quiet d p : quiet (self_follow d p).
Proof. unfold self_follow, proc_self_follow_link. quietly. Qed.
#[export] Hint Resolve do_proc_readlink_quiet proc_fdinfo_read_quiet proc_self_readlink_quiet self_follow_quiet : quiet.

Section QuietFiles.
Context `{Arch} `{Config}.

Lemma mounts_task_ns_quiet t : quiet (mounts_task_ns t).
Proof. unfold mounts_task_ns. quietly. Qed.
#[local] Hint Resolve mounts_task_ns_quiet : quiet.
Lemma mounts_open_common_quiet n i f op : quiet (mounts_open_common n i f op).
Proof. unfold mounts_open_common, mounts_err_free, mounts_err_put_path, mounts_err_put_ns. quietly. Qed.
Lemma file_mounts_quiet f : quiet (file_mounts f).
Proof. unfold file_mounts. quietly. Qed.
#[local] Hint Resolve file_mounts_quiet : quiet.
Lemma mounts_release_quiet i f : quiet (mounts_release i f).
Proof. unfold mounts_release. quietly. Qed.
Lemma mounts_poll_quiet f : quiet (mounts_poll f).
Proof. unfold mounts_poll. quietly. Qed.

Lemma single_open_private_quiet i f s : quiet (single_open_private i f s).
Proof. unfold single_open_private. quietly. Qed.
Lemma copy_page_to_user_quiet b p n : quiet (copy_page_to_user b p n).
Proof. unfold copy_page_to_user. quietly. Qed.
Lemma file_task_quiet f : quiet (file_task f).
Proof. unfold file_task. quietly. Qed.
#[local] Hint Resolve single_open_private_quiet copy_page_to_user_quiet file_task_quiet : quiet.
Lemma mem_open_quiet i f : quiet (mem_open i f).
Proof. unfold mem_open. quietly. Qed.
Lemma mem_read_loop_quiet fuel t : forall b s c r, quiet (mem_read_loop fuel t b s c r).
Proof. induction fuel as [|n IH]; intros b s c r; cbn [mem_read_loop]; quietly. Qed.
Lemma environ_read_loop_quiet fuel t m : forall b s c r, quiet (environ_read_loop fuel t m b s c r).
Proof. induction fuel as [|n IH]; intros b s c r; cbn [environ_read_loop]; quietly. Qed.
#[local] Hint Resolve mem_read_loop_quiet environ_read_loop_quiet : quiet.
Lemma mem_read_quiet f b n pos : quiet (mem_read f b n pos).
Proof. unfold mem_read. quietly. Qed.
Lemma mem_lseek_quiet f off orig : quiet (mem_lseek f off orig).
Proof. unfold mem_lseek. quietly. Qed.
Lemma environ_read_quiet f b n pos : quiet (environ_read f b n pos).
Proof. unfold environ_read. quietly. Qed.

Lemma read_num_buffer_quiet b n : quiet (read_num_buffer b n).
Proof. unfold read_num_buffer. quietly. Qed.
Lemma file_name_quiet f : quiet (file_name f).
Proof. unfold file_name. quietly. Qed.
#[local] Hint Resolve read_num_buffer_quiet file_name_quiet : quiet.
Lemma oom_adjust_read_quiet f b n pos : quiet (oom_adjust_read f b n pos).
Proof. unfold oom_adjust_read. quietly. Qed.
Lemma oom_adjust_write_quiet f b n : quiet (oom_adjust_write f b n).
Proof. unfold oom_adjust_write. quietly. Qed.
Lemma audit_read_quiet get f b n pos : (forall t, quiet (get t)) -> quiet (audit_read get f b n pos).
Proof. intros Hget. unfold audit_read. quietly. Qed.
Lemma proc_loginuid_read_quiet f b n pos : quiet (proc_loginuid_read f b n pos).
Proof. apply audit_read_quiet. quietly. Qed.
Lemma proc_sessionid_read_quiet f b n pos : quiet (proc_sessionid_read f b n pos).
Proof. apply audit_read_quiet. quietly. Qed.
Lemma proc_loginuid_write_quiet f b n pos : quiet (proc_loginuid_write f b n pos).
Proof. unfold proc_loginuid_write. quietly. Qed.
Lemma proc_fault_inject_read_quiet f b n pos : quiet (proc_fault_inject_read f b n pos).
Proof. unfold proc_fault_inject_read. quietly. Qed.
Lemma proc_fault_inject_write_quiet f b n : quiet (proc_fault_inject_write f b n).
Proof. unfold proc_fault_inject_write. quietly. Qed.
Lemma sched_write_quiet f n : quiet (sched_write f n).
Proof. unfold sched_write. quietly. Qed.
Lemma proc_pid_attr_read_quiet f b n pos : quiet (proc_pid_attr_read f b n pos).
Proof. unfold proc_pid_attr_read. quietly. Qed.
Lemma proc_pid_attr_write_quiet f b n pos : quiet (proc_pid_attr_write f b n pos).
Proof. unfold proc_pid_attr_write. quietly. Qed.
Lemma set_filter_bits_quiet n mm : forall v i mask, quiet (set_filter_bits n mm v i mask).
Proof. induction n as [|n IH]; intros v i mask; cbn [set_filter_bits]; quietly. Qed.
#[local] Hint Resolve set_filter_bits_quiet : quiet.
Lemma proc_coredump_filter_read_quiet f b n pos : quiet (proc_coredump_filter_read f b n pos).
Proof. unfold proc_coredump_filter_read. quietly. Qed.
Lemma proc_coredump_filter_write_quiet f b n : quiet (proc_coredump_filter_write f b n).
Proof. unfold proc_coredump_filter_write. quietly. Qed.

Lemma flush_mnt_quiet mnt p g : quiet (proc_flush_task_mnt mnt p g).
Proof. unfold proc_flush_task_mnt. quietly. Qed.
#[local] Hint Resolve flush_mnt_quiet : quiet.
Lemma flush_loop_quiet ns : forall g, quiet (flush_loop ns g).
Proof. induction ns as [|[n x] ns IH]; intros g; cbn [flush_loop]; quietly. Qed.
#[local] Hint Resolve flush_loop_quiet : quiet.
Lemma proc_flush_task_quiet t : quiet (proc_flush_task t).
Proof. unfold proc_flush_task. quietly. Qed.
End QuietFiles.
#[export] Hint Resolve mounts_open_common_quiet mounts_release_quiet mounts_poll_quiet single_open_private_quiet
  mem_open_quiet mem_read_quiet mem_lseek_quiet environ_read_quiet
  oom_adjust_read_quiet oom_adjust_write_quiet proc_loginuid_read_quiet proc_sessionid_read_quiet
  proc_loginuid_write_quiet proc_fault_inject_read_quiet proc_fault_inject_write_quiet sched_write_quiet
  proc_pid_attr_read_quiet proc_pid_attr_write_quiet proc_coredump_filter_read_quiet
  proc_coredump_filter_write_quiet proc_flush_task_quiet : quiet.

(** ** Programs that make inodes keep them typed *)

Lemma wsafe_quiet {A B : Type} (p : prog A) (f : A -> prog B) Q w : quiet p ->
  (forall a w', same_marks (mem w) (mem w') -> wsafe marks_kept (f a) Q w') -> wsafe marks_kept (p ≫= f) Q w.
Proof. intros Hp Hf. apply wsafe_bind. eapply wsafe_mono; [apply Hp|]. auto. Qed.

Lemma wsafe_gets {A B : Type} (g : kmem -> A) (f : A -> prog B) R Q w :
  wsafe R (f (g (mem w))) Q w -> wsafe R (gets g ≫= f) Q w.
Proof. done. Qed.

(** All inodes are typed, and [ino] is still blank. *)
Definition building (ino : inode_id) (m : kmem) : Prop := store_typed m /\ blank (k_inode m !!! ino).

Lemma building_quiet ino m m' : same_marks m m' -> building ino m -> building ino m'.
Proof. intros Hm [Ht Hb]. split; [by apply (same_marks_typed m)|by apply (marks_blank (k_inode m !!! ino))]. Qed.

(** Writing the fields of one inode. *)
Lemma typed_upd ino f m : (forall j, j <> ino -> inode_typed (k_inode m !!! j)) ->
  inode_typed (f (k_inode m !!! ino)) -> store_typed (upd_inode ino f m).
Proof.
  intros Hm Hi j. rewrite k_inode_upd_inode. destruct (decide (j = ino)) as [->|Hne].
  - by rewrite lookup_total_insert_eq.
  - rewrite lookup_total_insert_ne by done. by apply Hm.
Qed.

Lemma building_upd ino f m : building ino m -> blank (f (k_inode m !!! ino)) -> building ino (upd_inode ino f m).
Proof.
  intros [Ht Hb] Hf. split; [apply typed_upd; [done|by apply blank_typed]|].
  by rewrite k_inode_upd_inode, lookup_total_insert_eq.
Qed.

(** [k] runs after quiet writes to the inode under construction. *)
Lemma wsafe_building {A : Type} ino (f : inode -> inode) (k : prog A) Q w : building ino (mem w) ->
  (forall i, blank i -> blank (f i)) ->
  (forall w', building ino (mem w') -> wsafe marks_kept k Q w') ->
  wsafe marks_kept (modify (upd_inode ino f);; k) Q w.
Proof. intros Hb Hf Hk. cbn. apply Hk. cbn. apply building_upd; [done|]. apply Hf, Hb. Qed.

Ltac wcbn := cbn [wsafe pbind mbind mret prog_mret prog_mbind call gets modify mem set_mem].

Ltac blank := let i := fresh in intros i; destruct i; unfold blank; cbn; intuition congruence.

Lemma proc_pid_make_inode_wsafe {A : Type} sb task (f : option inode_id -> prog A) Q w : store_typed (mem w) ->
  (forall w', store_typed (mem w') -> wsafe marks_kept (f None) Q w') ->
  (forall ino w', building ino (mem w') -> wsafe marks_kept (f (Some ino)) Q w') ->
  wsafe marks_kept (proc_pid_make_inode sb task ≫= f) Q w.
Proof.
  intros Hw Hnone Hsome. apply wsafe_bind. unfold proc_pid_make_inode. intros [ino|] m Hm; cbn in Hm.
  2: { cbn. apply Hnone. cbn. by apply (same_marks_typed (mem w)). }
  destruct Hm as [Hb Ho]. assert (H1 : building ino m).
  { split; [|done]. intros j. destruct (decide (j = ino)) as [->|Hne]; [by apply blank_typed|].
    apply (marks_typed (k_inode (mem w) !!! j)); auto. }
  wcbn. apply wsafe_quiet; [quietly|]. intros now w1 Hm1. pose proof (building_quiet _ _ _ Hm1 H1) as H2.
  apply wsafe_building; [done|blank|]. intros w2 H3. apply wsafe_building; [done|blank|]. intros w3 H4.
  apply wsafe_quiet; [quietly|]. intros pid w4 Hm4. pose proof (building_quiet _ _ _ Hm4 H4) as H5.
  apply wsafe_building; [done|blank|]. intros w5 H6.
  destruct pid as [pid|].
  - do 3 (apply wsafe_quiet; [quietly|]; intros ? ? ?). apply Hsome.
    eapply building_quiet; [|exact H6]. eauto using same_marks_trans.
  - apply wsafe_quiet; [quietly|]. intros [] w6 Hm6. apply Hnone.
    apply (same_marks_typed (mem w5)); [done|apply H6].
Qed.

Lemma wsafe_typing {A : Type} (p : prog A) w : store_typed (mem w) -> typing p ->
  wsafe marks_kept p (fun _ w' => store_typed (mem w')) w.
Proof. auto. Qed.

Ltac typed_end := apply wsafe_typing; [|apply typing_quiet; quietly].

Lemma proc_fdinfo_instantiate_typing fd dir dentry task : typing (proc_fdinfo_instantiate fd dir dentry task).
Proof.
  intros w Hw. unfold proc_fdinfo_instantiate, inode_sb. apply wsafe_gets.
  apply proc_pid_make_inode_wsafe; [done|intros w1 H1; by typed_end|]. intros ino w1 H1.
  apply wsafe_building; [done|blank|]. intros w2 H2. apply wsafe_building; [done|blank|]. intros w3 H3.
  apply wsafe_building; [done|blank|]. intros w4 H4. typed_end. apply H4.
Qed.

Lemma proc_fd_instantiate_typing fd dir dentry task : typing (proc_fd_instantiate fd dir dentry task).
Proof.
  intros w Hw. unfold proc_fd_instantiate, inode_sb. apply wsafe_gets.
  apply proc_pid_make_inode_wsafe; [done|intros w1 H1; by typed_end|]. intros ino w1 H1.
  apply wsafe_building; [done|blank|]. intros w2 H2. apply wsafe_quiet; [quietly|]. intros [files|] w3 Hm3.
  2: { typed_end. apply (same_marks_typed (mem w2)); [done|apply H2]. }
  pose proof (building_quiet _ _ _ Hm3 H2) as H3. apply wsafe_building; [done|blank|]. intros w4 H4.
  apply wsafe_quiet; [quietly|]. intros [] w5 Hm5. apply wsafe_quiet; [quietly|]. intros [file|] w6 Hm6.
  2: { typed_end. apply (same_marks_typed (mem w4)); [by apply (same_marks_trans _ (mem w5))|apply H4]. }
  apply wsafe_gets. do 3 (apply wsafe_quiet; [quietly|]; intros ? ? ?).
  apply wsafe_quiet; [quietly|]; intros [] w9 Hm9.
  assert (Hb : building ino (mem w9)) by (eapply building_quiet; [|exact H4]; eauto 10 using same_marks_trans).
  wcbn. typed_end. destruct Hb as [Ht Hbl].
  wcbn. apply typed_upd.
  - intros j Hne. rewrite !k_inode_upd_inode, !lookup_total_insert_ne by done. apply Ht.
  - rewrite !k_inode_upd_inode, !lookup_total_insert_eq. destruct Hbl as (Hb1 & Hb2 & _).
    destruct (k_inode (mem w9) !!! ino). cbn in *. unfold inode_typed. cbn. split_and!; try done. by eexists.
Qed.

(** An entry's operations and union, put into a blank inode. *)
Lemma entry_ok_typed p i : entry_ok p = true -> blank i ->
  inode_typed (set_ei_op (pe_op p)
    (match pe_fop p with Some fop => set_i_fop (Some fop) | None => id end
      (match pe_iop p with Some iop => set_i_op (Some iop) | None => id end i))).
Proof.
  intros Hok (Hb1 & Hb2 & Hb3). unfold entry_ok in Hok. rewrite !andb_true_iff in Hok. destruct Hok as [[_ Hop] _].
  destruct i. cbn in *. unfold inode_typed.
  destruct (pe_op p), (pe_fop p) as [fop|], (pe_iop p) as [iop|]; cbn in *; rewrite ?andb_true_iff, ?bool_decide_eq_true in Hop;
    split_and!; intros ?; simplify_eq; try (by eexists); intuition congruence.
Qed.

Lemma apply_entry_wsafe {A : Type} p ino (k : prog A) Q w : entry_ok p = true -> building ino (mem w) ->
  (forall w', store_typed (mem w') -> wsafe marks_kept k Q w') ->
  wsafe marks_kept (apply_entry p ino;; k) Q w.
Proof.
  intros Hok [Ht Hb] Hk. pose proof (entry_ok_typed p _ Hok Hb) as Hi. unfold apply_entry.
  destruct (pe_iop p) as [iop|], (pe_fop p) as [fop|]; wcbn; apply Hk; wcbn; (apply typed_upd;
    [intros j Hne; rewrite ?k_inode_upd_inode, ?lookup_total_insert_ne by done; apply Ht
    |rewrite ?k_inode_upd_inode, ?lookup_total_insert_eq; exact Hi]).
Qed.

Lemma proc_pident_instantiate_typing p dir dentry task : entry_ok p = true ->
  typing (proc_pident_instantiate p dir dentry task).
Proof.
  intros Hok w Hw. unfold proc_pident_instantiate, inode_sb. apply wsafe_gets.
  apply proc_pid_make_inode_wsafe; [done|intros w1 H1; by typed_end|]. intros ino w1 H1.
  apply wsafe_building; [done|blank|]. intros w2 H2.
  assert (Hn : forall w', building ino (mem w') -> wsafe marks_kept
    (apply_entry p ino;; set_and_add dentry pid_dentry_operations ino;; ok ← pid_revalidate dentry;
     mret (if (ok : bool) then 0 else - ENOENT)) (fun _ w' => store_typed (mem w')) w').
  { intros w3 H3. apply apply_entry_wsafe; [done|done|]. intros w4 H4. by typed_end. }
  destruct (S_ISDIR (pe_mode p)); [|by apply Hn]. apply wsafe_building; [done|blank|done].
Qed.

Lemma task_dir_instantiate_typing iop fop stuff dir dentry task :
  iop <> proc_pid_link_inode_operations -> fop <> proc_info_file_operations -> fop <> proc_single_file_operations ->
  typing (task_dir_instantiate iop fop stuff dir dentry task).
Proof.
  intros Hi Hf1 Hf2 w Hw. unfold task_dir_instantiate, inode_sb. apply wsafe_gets.
  apply proc_pid_make_inode_wsafe; [done|intros w1 H1; by typed_end|]. intros ino w1 H1.
  do 5 (apply wsafe_building; [eassumption|blank|]; intros ? ?).
  typed_end. match goal with H : building _ (mem ?w) |- store_typed (mem ?w) => apply H end.
Qed.

Lemma proc_base_instantiate_typing p dir dentry task : entry_ok p = true ->
  typing (proc_base_instantiate p dir dentry task).
Proof.
  intros Hok w Hw. unfold proc_base_instantiate, inode_sb. apply wsafe_gets. intros [ino|] m Hm; cbn in Hm.
  2: { cbn. by apply (same_marks_typed (mem w)). }
  destruct Hm as [Hb Ho]. assert (H1 : building ino m).
  { split; [|done]. intros j. destruct (decide (j = ino)) as [->|Hne]; [by apply blank_typed|].
    apply (marks_typed (k_inode (mem w) !!! j)); auto. }
  wcbn. apply wsafe_quiet; [quietly|]. intros now w1 Hm1. pose proof (building_quiet _ _ _ Hm1 H1) as H2.
  apply wsafe_building; [done|blank|]. intros w2 H3.
  apply wsafe_quiet; [quietly|]. intros pid w4 Hm4. pose proof (building_quiet _ _ _ Hm4 H3) as H5.
  apply wsafe_building; [done|blank|]. intros w5 H6. destruct pid as [pid|].
  2: { typed_end. apply H6. }
  apply wsafe_building; [done|blank|]. intros w6 H7.
  assert (Hn : forall w', building ino (mem w') -> wsafe marks_kept
    (apply_entry p ino;; set_and_add dentry proc_base_dentry_operations ino;; mret 0)
    (fun _ w' => store_typed (mem w')) w').
  { intros w8 H8. apply apply_entry_wsafe; [done|done|]. intros w9 H9. by typed_end. }
  assert (Hl : forall w', building ino (mem w') -> wsafe marks_kept
    ((if S_ISLNK (pe_mode p) then modify (upd_inode ino (set_i_size 64)) else mret tt);;
     apply_entry p ino;; set_and_add dentry proc_base_dentry_operations ino;; mret 0)
    (fun _ w' => store_typed (mem w')) w').
  { intros w8 H8. destruct (S_ISLNK (pe_mode p)); [|by apply Hn]. apply wsafe_building; [done|blank|done]. }
  destruct (S_ISDIR (pe_mode p)); [|by apply Hl]. apply wsafe_building; [done|blank|done].
Qed.

Create HintDb typing discriminated.
#[export] Hint Constants Opaque : typing.
(** Proves [typing] of a program from its syntax. *)
Ltac typing := repeat first
  [ match goal with |- forall _, _ => intros ? end
  | match goal with
    | |- typing (call _) => apply typing_quiet, quiet_call; exact I
    | |- typing (_ ≫= _) => apply typing_bind
    | |- typing (match ?x with _ => _ end) => destruct x eqn:?
    end
  | solve [auto with typing nocore]
  | apply typing_quiet; solve [quiet] ].

Definition typing_fn (f : instantiate_t) : Prop := forall dir dentry task, typing (f dir dentry task).

Lemma fill_cache_emit_quiet filp dir name n child : quiet (fill_cache_emit filp dir name n child).
Proof. unfold fill_cache_emit. quietly. Qed.
#[export] Hint Resolve fill_cache_emit_quiet : quiet.

Lemma proc_fill_cache_typing filp name n f task : typing_fn f -> typing (proc_fill_cache filp name n f task).
Proof.
  intros Hf. unfold typing_fn in Hf. unfold proc_fill_cache, fill_cache_child. kunfold. typing.
Qed.

Lemma f_pos_inc_quiet filp : quiet (f_pos_inc filp).
Proof. unfold f_pos_inc. quietly. Qed.
Lemma file_pos_quiet filp : quiet (file_pos filp).
Proof. unfold file_pos. quietly. Qed.
#[export] Hint Resolve f_pos_inc_quiet file_pos_quiet : quiet.
Lemma emit_dot_quiet filp name pos ino : quiet (emit_dot filp name pos ino).
Proof. unfold emit_dot. quietly. Qed.
#[export] Hint Resolve emit_dot_quiet : quiet.
Lemma pident_dots_quiet filp d i n : quiet (pident_dots filp d i n).
Proof. unfold pident_dots. quietly. Qed.
Lemma readfd_dots_quiet filp d i n : quiet (readfd_dots filp d i n).
Proof. unfold readfd_dots. quietly. Qed.
Lemma task_dots_quiet `{Arch} filp d i : quiet (task_dots filp d i).
Proof. unfold task_dots. quietly. Qed.
#[export] Hint Resolve pident_dots_quiet readfd_dots_quiet task_dots_quiet : quiet.

Definition entries_ok (ents : list pid_entry) : Prop := Forall (fun e => entry_ok e = true) ents.

Lemma entries_ok_zdrop n ents : entries_ok ents -> entries_ok (zdrop n ents).
Proof. apply Forall_drop. Qed.

Lemma searchable_entries_ok ents : searchable ents -> entries_ok ents.
Proof. by intros [[H _] _]. Qed.

Lemma find_entry_ok name ents p : searchable ents -> find_entry name ents = Some p -> entry_ok p = true.
Proof.
  intros [Hok _] Hp. pose proof (find_entry_spec name ents Hok) as Hf. rewrite Hp in Hf.
  destruct Hok as [Hok _]. rewrite Forall_forall in Hok. apply Hok, Hf.
Qed.

Lemma pident_loop_typing filp task ps : entries_ok ps -> typing (pident_loop filp task ps).
Proof.
  induction 1 as [|p ps Hp Hps IH]; cbn [pident_loop]; unfold proc_pident_fill_cache; [apply typing_quiet, quiet_ret|].
  apply typing_bind; [|typing]. apply proc_fill_cache_typing. intros dir dentry t. by apply proc_pident_instantiate_typing.
Qed.

Lemma base_loop_typing filp task ps : entries_ok ps -> typing (base_loop filp task ps).
Proof.
  induction 1 as [|p ps Hp Hps IH]; cbn [base_loop]; unfold proc_base_fill_cache; [apply typing_quiet, quiet_ret|].
  apply typing_bind; [|typing]. apply proc_fill_cache_typing. intros dir dentry t. by apply proc_base_instantiate_typing.
Qed.

Lemma proc_pident_readdir_typing filp ents : entries_ok ents -> typing (proc_pident_readdir filp ents).
Proof. intros He. unfold proc_pident_readdir. kunfold. typing. by apply pident_loop_typing, entries_ok_zdrop. Qed.

Lemma proc_pident_lookup_typing dir dentry ents : searchable ents -> typing (proc_pident_lookup dir dentry ents).
Proof.
  intros He. unfold proc_pident_lookup. kunfold. typing. apply proc_pident_instantiate_typing. by eapply find_entry_ok.
Qed.

Lemma readfd_loop_typing f filp files p : (forall fd, typing_fn (f fd)) -> forall fuel fd,
  typing (readfd_loop fuel filp files p fd f).
Proof.
  intros Hf. induction fuel as [|n IH]; intros fd; cbn [readfd_loop]; kunfold.
  - typing.
  - destruct (snprintf _ _) as [name len]. typing. apply proc_fill_cache_typing. auto.
Qed.

Lemma proc_readfd_common_typing f fuel filp : (forall fd, typing_fn (f fd)) -> typing (proc_readfd_common fuel filp f).
Proof.
  intros Hf. pose proof (fun files p => readfd_loop_typing f filp files p Hf fuel) as Hl.
  unfold proc_readfd_common, readfd_files. kunfold. typing.
Qed.

Lemma proc_lookupfd_common_typing f dir dentry : (forall fd, typing_fn (f fd)) -> typing (proc_lookupfd_common dir dentry f).
Proof. intros Hf. unfold proc_lookupfd_common. kunfold. typing. apply Hf. Qed.

Section Directories.
Context `{Arch} `{Config}.

Lemma proc_pid_instantiate_typing : typing_fn proc_pid_instantiate.
Proof. intros dir dentry task. unfold proc_pid_instantiate. apply task_dir_instantiate_typing; discriminate. Qed.
Lemma proc_task_instantiate_typing : typing_fn proc_task_instantiate.
Proof. intros dir dentry task. unfold proc_task_instantiate. apply task_dir_instantiate_typing; discriminate. Qed.

Lemma proc_base_lookup_typing dir dentry : typing (proc_base_lookup dir dentry).
Proof.
  unfold proc_base_lookup. kunfold. typing. apply proc_base_instantiate_typing.
  eapply find_entry_ok; [apply tables_searchable|eassumption].
Qed.

Lemma proc_pid_lookup_typing dir dentry : typing (proc_pid_lookup dir dentry).
Proof.
  pose proof proc_base_lookup_typing as Hb. pose proof proc_pid_instantiate_typing as Hi.
  unfold typing_fn in Hi. unfold proc_pid_lookup. kunfold. typing.
Qed.

Lemma proc_task_lookup_typing dir dentry : typing (proc_task_lookup dir dentry).
Proof. pose proof proc_task_instantiate_typing as Hi. unfold typing_fn in Hi. unfold proc_task_lookup. kunfold. typing. Qed.

Lemma next_tgid_retry_quiet ns fuel : forall n, quiet (next_tgid_retry fuel ns n).
Proof. induction fuel as [|fuel IH]; intros n; cbn [next_tgid_retry]; quietly. Qed.
#[local] Hint Resolve next_tgid_retry_quiet : quiet.
Lemma next_tgid_quiet ns fuel it : quiet (next_tgid fuel ns it).
Proof. unfold next_tgid. quietly. Qed.
Lemma in_proc_pid_readdir_quiet : quiet in_proc_pid_readdir.
Proof. unfold in_proc_pid_readdir, dummy_in_proc_pid_readdir. quietly. Qed.
Lemma set_file_pos_quiet filp n : quiet (set_file_pos filp n).
Proof. unfold set_file_pos. quietly. Qed.
#[local] Hint Resolve next_tgid_quiet in_proc_pid_readdir_quiet set_file_pos_quiet : quiet.

Lemma tgid_loop_typing filp ns fuel : forall it, typing (tgid_loop fuel filp ns it).
Proof.
  induction fuel as [|fuel IH]; intros it; cbn [tgid_loop]; unfold proc_pid_fill_cache; kunfold; typing.
  apply proc_fill_cache_typing, proc_pid_instantiate_typing.
Qed.

Lemma proc_pid_readdir_typing limit fuel filp : typing (proc_pid_readdir limit fuel filp).
Proof.
  pose proof (fun task n => base_loop_typing filp task (zdrop n proc_base_stuff)
    (entries_ok_zdrop n _ (searchable_entries_ok _ (proj2 (proj2 (proj2 tables_searchable)))))) as Hb.
  pose proof (fun ns => tgid_loop_typing filp ns fuel) as Hl.
  unfold proc_pid_readdir. kunfold. typing.
Qed.

Lemma walk_threads_quiet l n : forall t, quiet (walk_threads n l t).
Proof. induction n as [|n IH]; intros t; cbn [walk_threads]; quietly. Qed.
#[local] Hint Resolve walk_threads_quiet : quiet.
Lemma first_tid_quiet l t n ns : quiet (first_tid l t n ns).
Proof. unfold first_tid. quietly. Qed.
Lemma next_tid_quiet t : quiet (next_tid t).
Proof. unfold next_tid. quietly. Qed.
#[local] Hint Resolve first_tid_quiet next_tid_quiet : quiet.

Lemma tid_loop_typing filp ns fuel : forall t, typing (tid_loop fuel filp ns t).
Proof.
  induction fuel as [|fuel IH]; intros t; cbn [tid_loop]; unfold proc_task_fill_cache; kunfold; typing.
  all: apply proc_fill_cache_typing, proc_task_instantiate_typing.
Qed.

Lemma proc_task_readdir_typing fuel filp : typing (proc_task_readdir fuel filp).
Proof.
  pose proof (fun ns => tid_loop_typing filp ns fuel) as Hl. unfold proc_task_readdir. kunfold. typing.
Qed.
End Directories.

(** ** The readers of the union *)

Lemma call_get_link_wsafe inode f w (Q : Z * option path -> world -> Prop) :
  ei_op (k_inode (mem w) !!! inode) = proc_get_link f ->
  (forall a w', same_marks (mem w) (mem w') -> Q a w') -> wsafe marks_kept (call_get_link inode) Q w.
Proof.
  intros Hf HQ. pose proof (link_functions_quiet inode) as (H1 & H2 & H3 & H4).
  unfold call_get_link. apply wsafe_gets. rewrite Hf. destruct f; (eapply wsafe_mono; [eauto|]); exact HQ.
Qed.

(** An inode whose links the generic functions resolve. *)
Definition serves_links (inode : inode_id) (m : kmem) : Prop :=
  store_typed m /\ exists f, ei_op (k_inode m !!! inode) = proc_get_link f.

Lemma serves_links_marks inode m m' : same_marks m m' -> serves_links inode m -> serves_links inode m'.
Proof.
  intros Hm [Ht [f Hf]]. split; [by apply (same_marks_typed m)|]. exists f. rewrite <- Hf.
  by pose proof (Hm inode) as [= _ _ ->].
Qed.

Lemma dentry_inode_wsafe {A : Type} dentry inode (f : inode_id -> prog A) Q w :
  d_inode (k_dentry (mem w) !!! dentry) = Some inode ->
  wsafe marks_kept (f inode) Q w -> wsafe marks_kept (dentry_inode dentry ≫= f) Q w.
Proof. intros Hd Hf. unfold dentry_inode. cbn. rewrite Hd. exact Hf. Qed.

Lemma link_wsafe {A : Type} inode (f : Z * option path -> prog A) w : serves_links inode (mem w) ->
  (forall a, quiet (f a)) -> wsafe marks_kept (call_get_link inode ≫= f) (fun _ w' => store_typed (mem w')) w.
Proof.
  intros [Ht [g Hg]] Hf. apply wsafe_bind. apply (call_get_link_wsafe _ g); [done|]. intros a w' Hm.
  apply wsafe_typing; [|apply typing_quiet, Hf]. by apply (same_marks_typed (mem w)).
Qed.

Lemma proc_pid_readlink_wsafe dentry inode buf n w : d_inode (k_dentry (mem w) !!! dentry) = Some inode ->
  serves_links inode (mem w) ->
  wsafe marks_kept (proc_pid_readlink dentry buf n) (fun _ w' => store_typed (mem w')) w.
Proof.
  intros Hd Hs. unfold proc_pid_readlink. apply (dentry_inode_wsafe _ inode); [done|].
  apply wsafe_quiet; [quietly|]. intros allowed w1 Hm. pose proof (serves_links_marks _ _ _ Hm Hs) as H1.
  destruct allowed; cbn [negb]; [|apply H1]. apply link_wsafe; [done|]. quietly.
Qed.

Lemma proc_pid_follow_link_wsafe dentry inode p w : d_inode (k_dentry (mem w) !!! dentry) = Some inode ->
  serves_links inode (mem w) ->
  wsafe marks_kept (proc_pid_follow_link dentry p) (fun _ w' => store_typed (mem w')) w.
Proof.
  intros Hd Hs. unfold proc_pid_follow_link. apply (dentry_inode_wsafe _ inode); [done|].
  apply wsafe_quiet; [quietly|]. intros [] w1 Hm1. pose proof (serves_links_marks _ _ _ Hm1 Hs) as H1.
  apply wsafe_quiet; [quietly|]. intros allowed w2 Hm2. pose proof (serves_links_marks _ _ _ Hm2 H1) as H2.
  destruct allowed; cbn [negb]; [|apply H2].
  destruct H2 as [Ht [g Hg]]. apply (call_get_link_wsafe _ g); [done|]. intros a w3 Hm3.
  by apply (same_marks_typed (mem w2)).
Qed.

Lemma file_inode_wsafe {A : Type} file inode (f : inode_id -> prog A) Q w : inode_of (mem w) file = Some inode ->
  wsafe marks_kept (f inode) Q w -> wsafe marks_kept (file_inode file ≫= f) Q w.
Proof. unfold inode_of, file_inode, dentry_inode. intros Hd Hf. cbn. rewrite Hd. exact Hf. Qed.

(** Two quiet programs in a row, from a typed store. *)
Lemma wsafe_then_typed {A B : Type} (p : prog A) (f : A -> prog B) w : store_typed (mem w) ->
  wsafe marks_kept p (fun _ w' => same_marks (mem w) (mem w')) w -> (forall a, quiet (f a)) ->
  wsafe marks_kept (p ≫= f) (fun _ w' => store_typed (mem w')) w.
Proof.
  intros Ht Hp Hf. apply wsafe_bind. eapply wsafe_mono; [exact Hp|]. intros a w' Hm.
  apply wsafe_typing; [by apply (same_marks_typed (mem w))|apply typing_quiet, Hf].
Qed.

Lemma proc_info_read_wsafe `{Arch} file inode g buf n pos w : inode_of (mem w) file = Some inode ->
  store_typed (mem w) -> ei_op (k_inode (mem w) !!! inode) = proc_read g ->
  wsafe marks_kept (proc_info_read file buf n pos) (fun _ w' => store_typed (mem w')) w.
Proof.
  intros Hd Ht Hg. unfold proc_info_read. apply (file_inode_wsafe _ inode); [done|].
  apply wsafe_quiet; [quietly|]. intros [task|] w1 Hm1; [|by apply (same_marks_typed (mem w))].
  apply wsafe_quiet; [quietly|]. intros page w2 Hm2.
  assert (Hm : same_marks (mem w) (mem w2)) by (by apply (same_marks_trans _ (mem w1))).
  apply wsafe_then_typed; [by apply (same_marks_typed (mem w))| |quietly].
  destruct page as [page|]; [|apply quiet_ret]. apply wsafe_gets. pose proof (Hm inode) as [= _ _ ->]. rewrite Hg.
  match goal with |- wsafe _ ?p _ _ => cut (quiet p); [auto|quietly] end.
Qed.

Lemma proc_single_show_wsafe `{Arch} seq (inode : inode_id) g w : k_seq_private (mem w) !!! seq = Some inode ->
  store_typed (mem w) -> ei_op (k_inode (mem w) !!! inode) = proc_show g ->
  wsafe marks_kept (proc_single_show seq) (fun _ w' => store_typed (mem w')) w.
Proof.
  intros Hd Ht Hg. unfold proc_single_show. apply wsafe_gets. rewrite Hd. apply wsafe_gets.
  apply wsafe_quiet; [quietly|]. intros pid w1 Hm1.
  apply wsafe_quiet; [quietly|]. intros task w2 Hm2.
  assert (Hm : same_marks (mem w) (mem w2)) by (by apply (same_marks_trans _ (mem w1))).
  destruct task as [task|]; [|by apply (same_marks_typed (mem w))].
  apply wsafe_gets. pose proof (Hm inode) as [= _ _ ->]. rewrite Hg.
  apply wsafe_then_typed; [by apply (same_marks_typed (mem w))|apply call_proc_show_quiet|quietly].
Qed.

(** ** Every entry point *)

Section Entries.
Context `{Arch} `{Config} (limit sizeof_proc_mounts : Z) (fuel : nat).

Definition keeps_typing (w : world) {A : Type} (p : prog A) : Prop :=
  wsafe marks_kept p (fun _ w' => store_typed (mem w')) w.

Lemma ignoring_typing {A : Type} w (p : prog A) : keeps_typing w p -> keeps_typing w (ignoring p).
Proof. intros Hp. apply wsafe_bind. eapply wsafe_mono; [exact Hp|]. done. Qed.

Lemma lookups_typing m dir f : has_iop m dir op_lookup f -> forall dir dentry, typing (f dir dentry).
Proof.
  intros (t & tab & _ & Ht & Hf) i d. pose proof tables_searchable as (H1 & H2 & H3 & _).
  destruct t; simplify_eq/=.
  - exact (proc_lookupfd_common_typing proc_fd_instantiate i d proc_fd_instantiate_typing).
  - exact (proc_lookupfd_common_typing proc_fdinfo_instantiate i d proc_fdinfo_instantiate_typing).
  - exact (proc_pident_lookup_typing i d attr_dir_stuff H3).
  - exact (proc_pident_lookup_typing i d tgid_base_stuff H1).
  - exact (proc_pident_lookup_typing i d tid_base_stuff H2).
  - exact (proc_task_lookup_typing i d).
Qed.

Lemma readdirs_typing m inode f : has_fop sizeof_proc_mounts fuel m inode op_readdir f -> forall file, typing (f file).
Proof.
  intros (t & tab & _ & Ht & Hf) file. pose proof tables_searchable as (H1 & H2 & H3 & _).
  destruct t; simplify_eq/=.
  - exact (proc_readfd_common_typing proc_fd_instantiate fuel file proc_fd_instantiate_typing).
  - exact (proc_readfd_common_typing proc_fdinfo_instantiate fuel file proc_fdinfo_instantiate_typing).
  - exact (proc_pident_readdir_typing file attr_dir_stuff (searchable_entries_ok _ H3)).
  - exact (proc_pident_readdir_typing file tgid_base_stuff (searchable_entries_ok _ H1)).
  - exact (proc_pident_readdir_typing file tid_base_stuff (searchable_entries_ok _ H2)).
  - exact (proc_task_readdir_typing fuel file).
Qed.

Lemma access_typing w p : store_typed (mem w) -> access limit sizeof_proc_mounts fuel (mem w) p -> keeps_typing w p.
Proof.
  intros Hw Ha. pose proof Hw as Hinode. unfold store_typed, inode_typed in Hinode.
  destruct Ha as [dir dentry f Hf|dentry inode f buf n Hd Hf|inode f mask Hf|dentry inode f Hd Hf
    |inode f valid Hf|file inode f buf n pos Hd Hf|file inode f buf n pos Hd Hf
    |file inode f off orig Hd Hf|file inode f Hd Hf|file inode f Hd Hf|dentry t Hd|dentry t Hd
    |seq inode Hd Hi|seq|seq|dir dentry|file|task]; apply ignoring_typing.
  - apply (wsafe_typing _ w); [done|]. by eapply lookups_typing.
  - destruct Hf as (t & tab & Hi & Ht & Hf). destruct t; simplify_eq/=; [|typed_end; done].
    apply (proc_pid_readlink_wsafe _ inode); [done|]. split; [done|]. by apply Hinode.
  - destruct Hf as (t & tab & _ & Ht & Hf). destruct t; simplify_eq/=; typed_end; done.
  - destruct Hf as (t & tab & _ & Ht & Hf). destruct t; simplify_eq/=; typed_end; done.
  - destruct Hf as (t & tab & _ & Ht & Hf). destruct t; simplify_eq/=; typed_end; done.
  - destruct Hf as (t & tab & Hi & Ht & Hf). destruct t; simplify_eq/=; try (typed_end; done).
    destruct (proj1 (Hinode inode) Hi) as [g Hg]. by apply (proc_info_read_wsafe _ inode g).
  - destruct Hf as (t & tab & _ & Ht & Hf). destruct t; simplify_eq/=; typed_end; done.
  - destruct Hf as (t & tab & _ & Ht & Hf). destruct t; simplify_eq/=; typed_end; done.
  - destruct Hf as (t & tab & _ & Ht & Hf). destruct t; simplify_eq/=; typed_end; done.
  - apply (wsafe_typing _ w); [done|]. by eapply readdirs_typing.
  - destruct t; simpl; typed_end; done.
  - destruct t; simpl; typed_end; done.
  - destruct (proj1 (proj2 (Hinode inode)) Hi) as [g Hg]. by apply (proc_single_show_wsafe _ inode g).
  - typed_end; done.
  - typed_end; done.
  - apply (wsafe_typing _ w); [done|]. apply proc_pid_lookup_typing.
  - apply (wsafe_typing _ w); [done|]. apply proc_pid_readdir_typing.
  - typed_end; done.
Qed.

(** Whatever is called in a typed store leaves a typed store, and reads no
    union through the wrong member. *)
Lemma entry_typing w p : store_typed (mem w) -> entry limit sizeof_proc_mounts fuel (mem w) p -> keeps_typing w p.
Proof.
  intros Hw He. pose proof Hw as Hinode. unfold store_typed, inode_typed in Hinode.
  destruct He as [p Ha|dentry inode f p Hd Hf|inode file f Hf|inode file f Hf]; [by apply access_typing|..]; apply ignoring_typing.
  - destruct Hf as (t & tab & Hi & Ht & Hf). destruct t; simplify_eq/=; [|typed_end; done].
    apply (proc_pid_follow_link_wsafe _ inode); [done|]. split; [done|]. by apply Hinode.
  - destruct Hf as (t & tab & _ & Ht & Hf). destruct t; simplify_eq/=;
      unfold mounts_open, mountinfo_open, mountstats_open, proc_single_open, sched_open; typed_end; done.
  - destruct Hf as (t & tab & _ & Ht & Hf). destruct t; simplify_eq/=; typed_end; done.
Qed.

(** A system that serves one call after another, while the rest of the
    kernel runs in between; a call that faults is the last one. *)
Inductive serves (E : env) : world -> world -> Prop :=
  | S_entry w p w' : entry limit sizeof_proc_mounts fuel (mem w) p -> run E p w = (Done tt, w') -> serves E w w'
  | S_other w m : same_marks (mem w) m -> serves E w (set_mem m w).

Lemma serves_typed E w w' : keeps E marks_kept -> serves E w w' -> store_typed (mem w) -> store_typed (mem w').
Proof.
  intros HE [w0 p w1 Hp Hrun|w0 m Hm] Ht.
  - pose proof (wsafe_run E _ _ _ _ HE (entry_typing _ _ Ht Hp)) as Hr. by rewrite Hrun in Hr.
  - by apply (same_marks_typed (mem w0)).
Qed.

Lemma serves_rtc_typed E w w' : keeps E marks_kept -> rtc (serves E) w w' -> store_typed (mem w) -> store_typed (mem w').
Proof. intros HE. induction 1 as [|w1 w2 w3 H12 _ IH]; [done|]. eauto using serves_typed. Qed.

(** C9: No call through [union proc_op] ever reads a member that was not
    stored. Starting from inodes that agree with their tables, whatever
    sequence of calls through the tables, callbacks and exported functions the
    kernel makes - lookups and readings of directories that build new inodes
    included -, every inode keeps agreeing with its tables, and the next call,
    whichever it is, does not use the wrong member. *)
Theorem union_member_always_right E w w' p : keeps E marks_kept -> store_typed (mem w) -> rtc (serves E) w w' ->
  entry limit sizeof_proc_mounts fuel (mem w') p ->
  store_typed (mem w') /\ (run E p w').1 <> Faulted WrongMember.
Proof.
  intros HE Hw Hr Hp. pose proof (serves_rtc_typed E w w' HE Hr Hw) as Ht. split; [done|].
  pose proof (wsafe_run E _ _ _ _ HE (entry_typing _ _ Ht Hp)) as H1.
  destruct (run E p w') as [[a|y] w2]; [done|]. by intros [= ->].
Qed.
End Entries.

(** ** Witness

    Dentry 8 is the link [exe] of process 1, whose directory is inode 6: it
    is looked up, which makes inode 9, and then read. *)
Definition ops_env : env := fun o _ m =>
  match o return ans o * kmem with
  | NewInode _ => (Some 9%nat, upd_inode 9 (fun _ => inhabitant) m)
  | o => (ino_kernel o, dcache_step o m)
  end.

Lemma ops_env_marks : keeps ops_env marks_kept.
Proof.
  intros o tr m. destruct o; try (intros j; by destruct m).
  cbn [ops_env marks_kept fst snd]. split.
  - rewrite k_inode_upd_inode, lookup_total_insert_eq. done.
  - intros j Hne. by rewrite k_inode_upd_inode, lookup_total_insert_ne.
Qed.

Definition ops_mem : kmem :=
  Kmem 1 ∅ ∅ ∅ ∅ ∅ {[ 6%nat := set_i_op (Some proc_tgid_base_inode_operations) inhabitant ]}
    {[ 8%nat := Dentry (str "exe") None None 0 ]} ∅ ∅ ∅ ∅ ∅ ∅ ∅ HookDummy.

Definition ops_lookup : prog unit := ignoring (@proc_tgid_base_lookup config_all 6%nat 8%nat).
Definition ops_world : world := snd (run ops_env ops_lookup (world0 ops_mem)).

Lemma ops_mem_typed : store_typed ops_mem.
Proof.
  intros j. unfold ops_mem. cbn [k_inode]. destruct (decide (j = 6%nat)) as [->|Hne].
  - by rewrite lookup_total_singleton.
  - by rewrite lookup_total_singleton_ne.
Qed.

Lemma union_member_always_right_witness :
  ei_op (k_inode (mem ops_world) !!! 9%nat) = proc_get_link F_proc_exe_link /\
  store_typed (mem ops_world) /\
  (run ops_env (ignoring (proc_pid_readlink 8%nat 0 100)) ops_world).1 <> Faulted WrongMember.
Proof.
  split; [vm_compute; reflexivity|].
  refine (@union_member_always_right arch32 config_all 100 16 10 ops_env (world0 ops_mem) ops_world _
    ops_env_marks ops_mem_typed _ _).
  - apply rtc_once. refine (@S_entry arch32 config_all 100 16 10 ops_env (world0 ops_mem) ops_lookup ops_world _ _).
    + apply E_access. refine (@A_lookup arch32 config_all 100 16 10 ops_mem 6%nat 8%nat _ _).
      eexists _, _. split; [vm_compute; reflexivity|]. split; reflexivity.
    + vm_compute. reflexivity.
  - apply E_access. refine (@A_readlink arch32 config_all 100 16 10 (mem ops_world) 8%nat 9%nat _ 0 100 _ _); [vm_compute; reflexivity|].
    eexists _, _. split; [vm_compute; reflexivity|]. split; reflexivity.
Defined.
