(* ===== verification/Leaks.v ===== *)
(** * Nothing is left behind (fs/proc/base.c)

    Every function of the operation tables, of the callbacks and of the
    exported interface that is over when it returns, gives back every
    reference, lock, page and buffer it took, on each of its paths, and calls
    the rest of the kernel with the locks that are asked for - with one
    exception, which the theorem names. The judgement [settles] is proved along
    the syntax of each program and composed over any sequence of calls. *)
From S2P Require Import Prelude Format Structs Kernel Access Names Tables Threads Info ExeFile Links Mounts MemFiles Controls Inodes Dirs Flush Procs Tasks Ops.

(** The exception: [pid_task] called without a lock. *)
Definition excused (x : misuse) : Prop := match x with Unguarded (PidTask _) => True | _ => False end.

Definition settled (w w' : world) : Prop := held w' = held w /\ exists l, bad w' = l ++ bad w /\ Forall excused l.

Definition settles {A : Type} (p : prog A) : Prop := forall w, wlp dir_stable p (fun _ w' => settled w w') w.

Lemma settled_balanced w w' : balanced w w' -> settled w w'.
Proof. intros [Hh Hb]. split; [done|]. by exists []. Qed.

Lemma settled_trans w1 w2 w3 : settled w1 w2 -> settled w2 w3 -> settled w1 w3.
Proof.
  intros (H1 & l1 & B1 & F1) (H2 & l2 & B2 & F2). split; [congruence|]. exists (l2 ++ l1).
  split; [rewrite B2, B1; by rewrite app_assoc|]. by apply Forall_app.
Qed.

Lemma settles_ret {A : Type} (a : A) : settles (mret a).
Proof. intros w. by apply settled_balanced. Qed.

Lemma settles_bind {A B : Type} (p : prog A) (f : A -> prog B) : settles p -> (forall a, settles (f a)) -> settles (p ≫= f).
Proof.
  intros Hp Hf w. apply wlp_bind. eapply wlp_mono; [apply Hp|]. intros a w1 H1.
  eapply wlp_mono; [apply Hf|]. intros b w2 H2. by apply (settled_trans _ w1).
Qed.

(** A program whose weakest preconditions are known. *)
Lemma settles_wp {A : Type} R (p : prog A) : (forall o tr m x m', dir_stable o tr m x m' -> R o tr m x m') ->
  (forall w, wp R p (fun _ w' => balanced w w') w) -> settles p.
Proof.
  intros HR Hp w. apply (wlp_contract R); [done|]. eapply wlp_mono; [apply wp_liberal, Hp|].
  intros a w'. apply settled_balanced.
Qed.

(** Inside a function: a part that settles, from a world that is spelled out. *)
Lemma settles_step {A B : Type} (p : prog A) (f : A -> prog B) (Q : B -> world -> Prop) m h b l : settles p ->
  (forall a m' l' k, Forall excused k -> wlp dir_stable (f a) Q (World m' h (k ++ b) l')) ->
  wlp dir_stable (pbind p f) Q (World m h b l).
Proof.
  intros Hp Hf. apply wlp_bind. eapply wlp_mono; [apply Hp|]. intros a [m' h' b' l'] (Hh & k & Hb & Hk).
  cbn [held bad] in *. subst h' b'. by apply Hf.
Qed.

Lemma settles_last {A : Type} (p : prog A) (Q : A -> world -> Prop) m h b l : settles p ->
  (forall a m' l' k, Forall excused k -> Q a (World m' h (k ++ b) l')) -> wlp dir_stable p Q (World m h b l).
Proof.
  intros Hp HQ. eapply wlp_mono; [apply Hp|]. intros a [m' h' b' l'] (Hh & k & Hb & Hk).
  cbn [held bad] in *. subst h' b'. by apply HQ.
Qed.

(** ** Along the syntax *)

Ltac lcbn :=
  cbn [wlp pbind mbind mret prog_mret prog_mbind call gets modify after acquires releases
       misuses guarded opt_res app fold_right flat_map held bad log mem set_mem release holds
       orb andb negb existsb fst snd].

Create HintDb settles.
#[export] Hint Resolve settles_ret : settles.

(** A function, from its syntax: every branch, and at the end the reckoning.
    A part that is known to settle is stepped over. *)
Ltac over p :=
  lazymatch p with
  | pbind _ _ => apply wlp_bind
  | mbind _ _ => apply wlp_bind
  | _ => first [apply (settles_step p); [solve [auto with settles nocore]|intros ? ? ? ? ?] | ksplit p]
  end.

Ltac sstep :=
  lcbn; repeat kdec;
  lazymatch goal with
  | |- True => exact I
  | |- forall _, _ => intros ?
  | |- wlp _ (pbind ?p _) _ _ => over p
  | |- wlp _ (mbind _ ?p) _ _ => over p
  | |- wlp _ ?p _ _ => first [apply settles_last; [solve [auto with settles nocore]|intros ? ? ? ? ?] | ksplit p]
  end.

Ltac reckon :=
  lcbn; repeat match goal with |- context [match ?o with Some _ => _ | None => _ end] => is_var o; destruct o; lcbn end;
  repeat (kdec; lcbn); repeat match goal with |- context [if ?c then [] else _] => destruct c end; lcbn;
  first [ by apply settled_balanced
        | split; [reflexivity|]; eexists; split; [rewrite ?app_comm_cons, ?app_assoc; reflexivity|];
          rewrite ?Forall_app, ?Forall_cons; by auto ].

Ltac settle := intros [m0 h0 b0 l0]; kunfold; repeat sstep; lcbn; repeat (kdec; lcbn); try exact I; reckon.

Lemma dentry_inode_settles d : settles (dentry_inode d).
Proof. unfold dentry_inode. settle. Qed.
Lemma file_inode_settles f : settles (file_inode f).
Proof. unfold file_inode, dentry_inode. settle. Qed.
Lemma task_dumpable_settles t : settles (task_dumpable t).
Proof. unfold task_dumpable. settle. Qed.
Lemma check_mem_permission_settles t : settles (check_mem_permission t).
Proof. unfold check_mem_permission. settle. Qed.
Lemma get_nr_threads_settles t : settles (get_nr_threads t).
Proof. unfold get_nr_threads. settle. Qed.
Lemma own_by_task_settles t i : settles (own_by_task t i).
Proof. unfold own_by_task. settle. Qed.
Lemma strip_ids_settles i : settles (strip_ids i).
Proof. unfold strip_ids. settle. Qed.
#[export] Hint Resolve dentry_inode_settles file_inode_settles task_dumpable_settles check_mem_permission_settles
  get_nr_threads_settles own_by_task_settles strip_ids_settles : settles.

(** *** Permissions, attributes, links *)

Lemma proc_fd_permission_settles i mask : settles (proc_fd_permission i mask).
Proof. unfold proc_fd_permission. settle. Qed.
Lemma pid_getattr_settles d : settles (pid_getattr d).
Proof. unfold pid_getattr. settle. Qed.
Lemma proc_task_getattr_settles d : settles (proc_task_getattr d).
Proof. unfold proc_task_getattr. settle. Qed.
Lemma proc_setattr_settles i v : settles (proc_setattr i v).
Proof. unfold proc_setattr. settle. Qed.
Lemma pid_revalidate_settles d : settles (pid_revalidate d).
Proof. unfold pid_revalidate. settle. Qed.
Lemma tid_fd_revalidate_settles d : settles (tid_fd_revalidate d).
Proof. unfold tid_fd_revalidate. settle. Qed.
Lemma proc_base_revalidate_settles d : settles (proc_base_revalidate d).
Proof. unfold proc_base_revalidate. settle. Qed.
Lemma pid_delete_dentry_settles d : settles (pid_delete_dentry d).
Proof. unfold pid_delete_dentry. settle. Qed.
Lemma do_proc_readlink_settles p b n : settles (do_proc_readlink p b n).
Proof. unfold do_proc_readlink. settle. Qed.
Lemma proc_self_readlink_settles d b n : settles (proc_self_readlink d b n).
Proof. unfold proc_self_readlink. settle. Qed.
Lemma mounts_poll_settles f : settles (mounts_poll f).
Proof. unfold mounts_poll, file_mounts. settle. Qed.

Section Handlers.
Context `{Arch} `{Config}.

(** *** Files read and written *)

Lemma read_num_buffer_settles b n : settles (read_num_buffer b n).
Proof. unfold read_num_buffer. settle. Qed.
Lemma file_name_settles f : settles (file_name f).
Proof. unfold file_name. settle. Qed.
#[local] Hint Resolve read_num_buffer_settles file_name_settles : settles.

Ltac file_settles := unfold file_task; settle.

Lemma oom_adjust_read_settles f b n pos : settles (oom_adjust_read f b n pos).
Proof. unfold oom_adjust_read. file_settles. Qed.
Lemma oom_adjust_write_settles f b n : settles (oom_adjust_write f b n).
Proof. unfold oom_adjust_write. file_settles. Qed.
Lemma audit_read_settles get f b n pos : (forall t, settles (get t)) -> settles (audit_read get f b n pos).
Proof. intros Hg. unfold audit_read. file_settles. Qed.
Lemma proc_loginuid_read_settles f b n pos : settles (proc_loginuid_read f b n pos).
Proof. apply audit_read_settles. intros t. settle. Qed.
Lemma proc_sessionid_read_settles f b n pos : settles (proc_sessionid_read f b n pos).
Proof. apply audit_read_settles. intros t. settle. Qed.
Lemma proc_loginuid_write_settles f b n pos : settles (proc_loginuid_write f b n pos).
Proof. unfold proc_loginuid_write. file_settles. Qed.
Lemma proc_fault_inject_read_settles f b n pos : settles (proc_fault_inject_read f b n pos).
Proof. unfold proc_fault_inject_read. file_settles. Qed.
Lemma proc_fault_inject_write_settles f b n : settles (proc_fault_inject_write f b n).
Proof. unfold proc_fault_inject_write. file_settles. Qed.
Lemma sched_show_settles m : settles (sched_show m).
Proof. unfold sched_show. settle. Qed.
Lemma sched_write_settles f n : settles (sched_write f n).
Proof. unfold sched_write. file_settles. Qed.
Lemma proc_pid_attr_read_settles f b n pos : settles (proc_pid_attr_read f b n pos).
Proof.
  unfold proc_pid_attr_read, file_task. settle.
Qed.
Lemma proc_pid_attr_write_settles f b n pos : settles (proc_pid_attr_write f b n pos).
Proof. unfold proc_pid_attr_write. file_settles. Qed.
Lemma set_filter_bits_settles n mm : forall v i mask, settles (set_filter_bits n mm v i mask).
Proof. induction n as [|n IH]; intros v i mask; cbn [set_filter_bits]; [apply settles_ret|]. settle. Qed.
#[local] Hint Resolve set_filter_bits_settles : settles.
Lemma proc_coredump_filter_read_settles f b n pos : settles (proc_coredump_filter_read f b n pos).
Proof. unfold proc_coredump_filter_read. file_settles. Qed.
Lemma proc_coredump_filter_write_settles f b n : settles (proc_coredump_filter_write f b n).
Proof. unfold proc_coredump_filter_write. file_settles. Qed.

(** *** Memory *)

Lemma copy_page_to_user_settles b p n : settles (copy_page_to_user b p n).
Proof. unfold copy_page_to_user. settle. Qed.
#[local] Hint Resolve copy_page_to_user_settles : settles.
Lemma mem_read_loop_settles fuel t : forall b s c r, settles (mem_read_loop fuel t b s c r).
Proof. induction fuel as [|fuel IH]; intros b s c r; cbn [mem_read_loop]; settle. Qed.
Lemma environ_read_loop_settles fuel t m : forall b s c r, settles (environ_read_loop fuel t m b s c r).
Proof. induction fuel as [|fuel IH]; intros b s c r; cbn [environ_read_loop]; settle. Qed.
#[local] Hint Resolve mem_read_loop_settles environ_read_loop_settles : settles.
Lemma mem_read_settles f b n pos : settles (mem_read f b n pos).
Proof. unfold mem_read. file_settles. Qed.
Lemma mem_lseek_settles f off orig : settles (mem_lseek f off orig).
Proof. unfold mem_lseek. settle. Qed.
Lemma environ_read_settles f b n pos : settles (environ_read f b n pos).
Proof. unfold environ_read. file_settles. Qed.

(** *** Texts *)

(** The walk over the threads, for a caller that holds a lock. *)
Lemma add_threads_wlp fuel t : forall u a m h b l (Q : io_accounting -> world -> Prop), guarded (NextThread u) h = true ->
  (forall r m' l', Q r (World m' h b l')) -> wlp dir_stable (add_threads fuel t u a) Q (World m h b l).
Proof.
  induction fuel as [|fuel IH]; intros u a m h b l Q Hg HQ; cbn [add_threads]; [exact I|]. kunfold. lcbn. intros v m1 _.
  cbn [guarded] in Hg. rewrite Hg. lcbn. repeat sstep; lcbn; [apply HQ|by apply IH].
Qed.

Lemma do_io_accounting_settles t whole : settles (do_io_accounting t whole).
Proof.
  unfold do_io_accounting. intros [m0 h0 b0 l0]. destruct whole; kunfold; repeat sstep; try reckon.
  apply wlp_bind, add_threads_wlp; [cbn; by rewrite !orb_true_r|]. intros r m' l'. repeat sstep. reckon.
Qed.
Lemma call_proc_read_settles f t : settles (call_proc_read f t).
Proof.
  destruct f; try (apply (settles_wp anything); [done|]; intros w; by apply call_proc_read_wp); cbn [call_proc_read].
  - unfold proc_pid_auxv. settle.
  - apply do_io_accounting_settles.
Qed.
Lemma call_proc_show_settles f m ns p t : settles (call_proc_show f m ns p t).
Proof. apply (settles_wp anything); [done|]. intros w. by apply call_proc_show_wp. Qed.
#[local] Hint Resolve call_proc_read_settles call_proc_show_settles : settles.
Lemma proc_info_read_settles f b n pos : settles (proc_info_read f b n pos).
Proof. unfold proc_info_read. file_settles. Qed.
Lemma proc_single_show_settles m : settles (proc_single_show m).
Proof. unfold proc_single_show. settle. Qed.
Lemma print_latencies_settles m t n : forall i, settles (print_latencies m t i n).
Proof. intros i. apply (settles_wp anything); [done|]. intros w. by apply print_latencies_wp. Qed.
#[local] Hint Resolve print_latencies_settles : settles.
Lemma lstats_show_proc_settles m : settles (lstats_show_proc m).
Proof. unfold lstats_show_proc. settle. Qed.
Lemma lstats_file_write_settles f b n pos : settles (lstats_file_write f b n pos).
Proof. unfold lstats_file_write, lstats_write. settle. Qed.

(** *** Links *)

Lemma proc_fdinfo_read_settles f b n pos : settles (proc_fdinfo_read f b n pos).
Proof. unfold proc_fdinfo_read, proc_fd_info. settle. Qed.

(** *** Flushing *)
Lemma flush_mnt_settles mnt p g : settles (proc_flush_task_mnt mnt p g).
Proof. unfold proc_flush_task_mnt. settle. Qed.
#[local] Hint Resolve flush_mnt_settles : settles.
Lemma flush_loop_settles ns : forall g, settles (flush_loop ns g).
Proof. induction ns as [|[n ns] l IH]; intros g; cbn [flush_loop]; settle. Qed.
#[local] Hint Resolve flush_loop_settles : settles.
Lemma proc_flush_task_settles t : settles (proc_flush_task t).
Proof. unfold proc_flush_task. settle. Qed.
#[local] Hint Resolve do_proc_readlink_settles : settles.

Lemma call_get_link_wlp i m h b l (Q : Z * option path -> world -> Prop) :
  (forall r p m' l', (forall x, p = Some x -> r = 0) -> Q (r, p) (World m' (opt_res RPath p ++ h) b l')) ->
  wlp dir_stable (call_get_link i) Q (World m h b l).
Proof.
  intros HQ. destruct (ei_op (k_inode m !!! i)) as [|f|f|f] eqn:E.
  2: { apply wp_liberal, call_get_link_wp; [by exists f|]. intros [r p] [m' h' b' l'] [[Hh Hb] Hr]. cbn in *. subst h' b'.
    apply HQ. by intros x ->. }
  all: unfold call_get_link; lcbn; rewrite E; exact I.
Qed.

Lemma proc_pid_readlink_settles d b n : settles (proc_pid_readlink d b n).
Proof.
  unfold proc_pid_readlink, proc_fd_access_allowed. intros [m0 h0 b0 l0]. kunfold. repeat sstep; try reckon.
  apply wlp_bind, call_get_link_wlp. intros r [p|] mf lf Hr; lcbn; [|repeat sstep; reckon].
  rewrite (Hr p eq_refl), Z.eqb_refl. repeat sstep. reckon.
Qed.

(** ** Lookups *)

Ltac looks lem := apply (settles_wp dcache); [exact dir_stable_dcache|]; intros w; by apply lem.

Lemma proc_pident_lookup_settles dir d ents : settles (proc_pident_lookup dir d ents).
Proof. looks proc_pident_lookup_wp. Qed.
Lemma proc_lookupfd_common_settles dir d f : (forall fd, Instantiates (f fd)) -> settles (proc_lookupfd_common dir d f).
Proof. intros Hf. looks proc_lookupfd_common_wp. Qed.
Lemma proc_pid_lookup_settles dir d : settles (proc_pid_lookup dir d).
Proof. looks proc_pid_lookup_wp. Qed.
Lemma proc_task_lookup_settles dir d : settles (proc_task_lookup dir d).
Proof. looks proc_task_lookup_wp. Qed.

(** ** Listings *)

Lemma fill_cache_child_wlp dir name f task w (Q : option dentry_id -> world -> Prop) : Instantiates f -> Attaches f ->
  (forall child w', keeps_only (opt_res RDentry child) w w' -> (forall d, child = Some d -> attached (mem w') d) -> Q child w') ->
  wlp dir_stable (fill_cache_child dir name f task) Q w.
Proof.
  intros Hi Ha HQ. destruct (d_inode (k_dentry (mem w) !!! dir)) as [di|] eqn:E.
  { apply wp_liberal, fill_cache_child_wp; [done|done|by exists di|]. intros child w' Hk _. by apply HQ. }
  destruct w as [m h b l]. unfold fill_cache_child, dentry_inode. kunfold. lcbn. cbn [mem] in E.
  intros x m1 (_ & H1 & Hat). destruct x as [d|]; lcbn.
  { apply HQ; [done|]. intros x [= <-]. unfold attached. cbn. rewrite H1. by apply Hat. }
  intros x m2 [_ H2]. cbn [dcache_step] in H2. destruct x as [new|]; lcbn; [|by apply HQ].
  rewrite H2, H1, E. exact I.
Qed.

(** One entry, for a caller who knows nothing of the directory. *)
Lemma proc_fill_cache_settles filp name n f task : Instantiates f -> Attaches f -> settles (proc_fill_cache filp name n f task).
Proof.
  intros Hi Ha w. unfold proc_fill_cache. lcbn. apply wlp_bind, fill_cache_child_wlp; [done|done|].
  intros child [m' h' b' l'] [Hh Hb] Hat. destruct w as [m h b l]. cbn [held bad mem] in *. subst h' b'.
  unfold fill_cache_emit. kunfold. destruct child as [d|]; lcbn; [|repeat sstep; reckon].
  destruct (Hat d eq_refl) as [i ->]. lcbn. repeat sstep; reckon.
Qed.
#[local] Hint Extern 1 (settles (proc_fill_cache _ _ _ _ _)) => apply proc_fill_cache_settles; typeclasses eauto : settles.

Lemma f_pos_inc_settles filp : settles (f_pos_inc filp).
Proof. unfold f_pos_inc. settle. Qed.
Lemma emit_dot_settles filp name pos ino : settles (emit_dot filp name pos ino).
Proof. unfold emit_dot, f_pos_inc. settle. Qed.
#[local] Hint Resolve f_pos_inc_settles emit_dot_settles : settles.
Lemma pident_dots_settles filp d i n : settles (pident_dots filp d i n).
Proof. unfold pident_dots. settle. Qed.
Lemma pident_loop_settles filp task ps : settles (pident_loop filp task ps).
Proof. induction ps as [|p ps IH]; cbn [pident_loop]; unfold proc_pident_fill_cache; settle. Qed.
#[local] Hint Resolve pident_dots_settles pident_loop_settles : settles.
Lemma proc_pident_readdir_settles filp ents : settles (proc_pident_readdir filp ents).
Proof. unfold proc_pident_readdir, file_pos. settle. Qed.

(** A part that is entered with something in hand and left with something
    else: a lock that is dropped in between, a reference that is exchanged. *)
Definition turns {A : Type} (rs : list res) (ks : A -> list res) (p : prog A) : Prop := forall m h b l,
  wlp dir_stable p (fun a w' => settled (World m (ks a ++ h) b l) w') (World m (rs ++ h) b l).

Lemma turns_then {A : Type} rs ks (p : prog A) (Q : A -> world -> Prop) m h b l : turns rs ks p ->
  (forall a m' l' k, Forall excused k -> Q a (World m' (ks a ++ h) (k ++ b) l')) -> wlp dir_stable p Q (World m (rs ++ h) b l).
Proof.
  intros Hp HQ. eapply wlp_mono; [apply Hp|]. intros a [m' h' b' l'] (Hh & k & Hb & Hk).
  cbn [held bad] in *. subst h' b'. by apply HQ.
Qed.

Lemma turns_step {A B : Type} rs ks (p : prog A) (f : A -> prog B) (Q : B -> world -> Prop) m h b l : turns rs ks p ->
  (forall a m' l' k, Forall excused k -> wlp dir_stable (f a) Q (World m' (ks a ++ h) (k ++ b) l')) ->
  wlp dir_stable (pbind p f) Q (World m (rs ++ h) b l).
Proof. intros Hp Hf. apply wlp_bind. by apply (turns_then rs ks). Qed.

Lemma turns_last {A : Type} rs ks (p : prog A) m0 m h b l k l0 : turns rs ks p -> Forall excused k ->
  wlp dir_stable p (fun a w' => settled (World m0 (ks a ++ h) b l0) w') (World m (rs ++ h) (k ++ b) l).
Proof.
  intros Hp Hk. eapply wlp_mono; [apply Hp|]. intros a w'. apply settled_trans. split; [done|]. by exists k.
Qed.

Ltac excuses := rewrite ?Forall_app, ?Forall_cons; by auto.

(** The recursive call at the end of a loop. *)
Ltac again rs IH :=
  rewrite ?app_assoc;
  first [ apply (turns_last rs _ _ _ _ _ _ _ _ _ IH); excuses
        | apply (turns_last rs _ _ _ _ _ _ _ [] _ IH); by constructor ].

Lemma readfd_loop_turns fuel filp files p f : (forall fd, Instantiates (f fd)) -> (forall fd, Attaches (f fd)) ->
  forall fd, turns [RLock Rcu] (fun _ => [RLock Rcu]) (readfd_loop fuel filp files p fd f).
Proof.
  intros Hi Ha. induction fuel as [|fuel IH]; intros fd m h b l; cbn [readfd_loop]; kunfold; repeat sstep; try reckon;
    again [RLock Rcu] (IH (u32 (fd + 1))).
Qed.

Lemma readfd_dots_settles filp d i n : settles (readfd_dots filp d i n).
Proof. unfold readfd_dots. settle. Qed.
#[local] Hint Resolve readfd_dots_settles : settles.
Lemma readfd_files_settles fuel filp p f : (forall fd, Instantiates (f fd)) -> (forall fd, Attaches (f fd)) ->
  settles (readfd_files fuel filp p f).
Proof.
  intros Hi Ha. unfold readfd_files, file_pos. intros [m0 h0 b0 l0]. kunfold. lcbn. intros [files|] m1 _; lcbn; [|reckon].
  intros [] m2 _. lcbn. apply (turns_step [RLock Rcu] (fun _ => [RLock Rcu])); [by apply readfd_loop_turns|].
  intros [] m3 l3 k Hk. repeat sstep. reckon.
Qed.
Lemma proc_readfd_common_settles fuel filp f : (forall fd, Instantiates (f fd)) -> (forall fd, Attaches (f fd)) ->
  settles (proc_readfd_common fuel filp f).
Proof.
  intros Hi Ha. pose proof (readfd_files_settles fuel filp) as Hf. unfold proc_readfd_common, file_pos. settle.
Qed.

(** *** Processes *)

Lemma base_loop_settles filp reaper ps : settles (base_loop filp reaper ps).
Proof. induction ps as [|p ps IH]; cbn [base_loop]; unfold proc_base_fill_cache; settle. Qed.
Lemma in_proc_pid_readdir_settles : settles in_proc_pid_readdir.
Proof. unfold in_proc_pid_readdir, dummy_in_proc_pid_readdir. settle. Qed.
#[local] Hint Resolve base_loop_settles in_proc_pid_readdir_settles : settles.

(** The task of the iterator is held between the steps. *)
Definition in_hand (it : tgid_iter) : list res := opt_res RTask (it_task it).

Lemma next_tgid_retry_turns fuel ns : forall n,
  turns [RLock Rcu] (fun it => in_hand it ++ [RLock Rcu]) (next_tgid_retry fuel ns n).
Proof.
  induction fuel as [|fuel IH]; intros n m h b l; cbn [next_tgid_retry]; kunfold; repeat sstep; try reckon;
    match goal with |- wlp _ (next_tgid_retry _ _ ?n) _ _ => again [RLock Rcu] (IH n) end.
Qed.

Lemma next_tgid_turns fuel ns it : turns (in_hand it) in_hand (next_tgid fuel ns it).
Proof.
  assert (Hput : turns (in_hand it) (fun _ : unit => [])
    (match it_task it with Some task => call (PutTaskStruct task) | None => mret tt end)).
  { intros m h b l. unfold in_hand. destruct (it_task it); repeat sstep; reckon. }
  intros m h b l. unfold next_tgid. kunfold. apply (turns_step (in_hand it) (fun _ => [])); [done|].
  intros [] m1 l1 k Hk. lcbn. intros [] m2 _. lcbn.
  apply (turns_step [RLock Rcu] (fun it => in_hand it ++ [RLock Rcu])); [apply next_tgid_retry_turns|].
  intros it' m3 l3 k' Hk'. unfold in_hand. destruct (it_task it') eqn:E; repeat sstep; rewrite ?E; reckon.
Qed.

Lemma proc_pid_fill_cache_settles filp n t : settles (proc_pid_fill_cache filp n t).
Proof. unfold proc_pid_fill_cache. destruct (numeric_name n). apply proc_fill_cache_settles; [exact proc_pid_instantiates|exact proc_pid_attaches]. Qed.
Lemma set_file_pos_settles filp p : settles (set_file_pos filp p).
Proof. unfold set_file_pos. settle. Qed.
#[local] Hint Resolve proc_pid_fill_cache_settles set_file_pos_settles : settles.

Lemma tgid_loop_turns fuel filp ns : forall it, turns (in_hand it) (fun _ => []) (tgid_loop fuel filp ns it).
Proof.
  induction fuel as [|fuel IH]; intros [n [t|]] m h b l; cbn [tgid_loop it_task]; kunfold; try exact I; try reckon.
  unfold in_hand. cbn [it_task it_tgid].
  apply (settles_step (set_file_pos _ _)); [auto with settles nocore|]. intros [] m1 l1 k1 Hk1.
  apply (settles_step in_proc_pid_readdir); [auto with settles nocore|]. intros [] m2 l2 k2 Hk2.
  apply (settles_step (proc_pid_fill_cache _ _ _)); [auto with settles nocore|]. intros r m3 l3 k3 Hk3.
  destruct (r <? 0); [repeat sstep; reckon|].
  rewrite ?app_assoc. apply (turns_step (in_hand (TgidIter (u32 (n + 1)) (Some t))) in_hand); [apply next_tgid_turns|].
  intros it m4 l4 k4 Hk4. again (in_hand it) (IH it).
Qed.

Lemma proc_pid_readdir_settles limit fuel filp : settles (proc_pid_readdir limit fuel filp).
Proof.
  unfold proc_pid_readdir, file_pos. intros [m h b l]. kunfold. repeat sstep; try reckon.
  rewrite ?app_assoc. apply (turns_step [] in_hand); [apply (next_tgid_turns _ _ (TgidIter _ None))|].
  intros it m4 l4 k4 Hk4. rewrite ?app_assoc. apply (turns_step (in_hand it) (fun _ => [])); [apply tgid_loop_turns|].
  intros c m5 l5 k5 Hk5. repeat sstep; reckon.
Qed.

(** *** Threads *)

Lemma walk_threads_turns n leader : forall pos, turns [RLock Rcu] (fun _ => [RLock Rcu]) (walk_threads n leader pos).
Proof.
  induction n as [|n IH]; intros pos m h b l; cbn [walk_threads]; kunfold; repeat sstep; try reckon.
  match goal with |- wlp _ (walk_threads _ _ ?u) _ _ => again [RLock Rcu] (IH u) end.
Qed.

(** The walk, or nothing for an index beyond the group. *)
Lemma first_walk_turns (c : bool) leader nr :
  turns [RLock Rcu] (fun _ => [RLock Rcu]) (if c then mret None else walk_threads (Z.to_nat nr) leader leader).
Proof. destruct c; [|apply walk_threads_turns]. intros m h b l. reckon. Qed.

Lemma first_tid_turns leader tid nr ns : turns [] (opt_res RTask) (first_tid leader tid nr ns).
Proof.
  intros m h b l. unfold first_tid. kunfold. lcbn. intros [] m1 _. lcbn.
  apply (turns_step [RLock Rcu] (fun _ => [RLock Rcu])).
  { intros m2 h2 b2 l2. repeat sstep; reckon. }
  intros found m2 l2 k2 Hk2. apply (turns_step [RLock Rcu] (fun _ => [RLock Rcu])).
  { destruct found as [t|]; [intros m3 h3 b3 l3; reckon|]. intros m3 h3 b3 l3.
    apply (settles_step (if nr =? 0 then mret false else _)).
    { destruct (nr =? 0); auto with settles nocore. settle. }
    intros c m4 l4 k4 Hk4. again [RLock Rcu] (first_walk_turns c leader nr). }
  intros [t|] m4 l4 k4 Hk4; repeat sstep; reckon.
Qed.

Lemma next_tid_turns t : turns [RTask t] (opt_res RTask) (next_tid t).
Proof. intros m h b l. unfold next_tid. kunfold. repeat sstep; reckon. Qed.

Lemma proc_task_fill_cache_settles filp t n : settles (proc_task_fill_cache filp t n).
Proof. unfold proc_task_fill_cache. destruct (numeric_name n). apply proc_fill_cache_settles; [exact proc_task_instantiates|exact proc_task_attaches]. Qed.

Lemma tid_loop_turns fuel filp ns : forall t, turns (opt_res RTask t) (fun _ => []) (tid_loop fuel filp ns t).
Proof.
  induction fuel as [|fuel IH]; intros [t|] m h b l; cbn [tid_loop]; kunfold; try exact I; try reckon.
  lcbn. intros n m1 _. lcbn. apply (settles_step (proc_task_fill_cache _ _ _)); [apply proc_task_fill_cache_settles|].
  intros r m2 l2 k2 Hk2. destruct (r <? 0); [repeat sstep; reckon|].
  apply (turns_step [RTask t] (opt_res RTask)); [apply next_tid_turns|]. intros u m3 l3 k3 Hk3.
  unfold f_pos_inc. lcbn. again (opt_res RTask u) (IH u).
Qed.

Lemma task_dots_settles filp d i : settles (task_dots filp d i).
Proof. unfold task_dots, file_pos. settle. Qed.
#[local] Hint Resolve task_dots_settles : settles.

Lemma proc_task_readdir_settles fuel filp : settles (proc_task_readdir fuel filp).
Proof.
  unfold proc_task_readdir, file_pos. intros [m h b l]. kunfold. lcbn.
  apply (settles_step (dentry_inode _)); [auto with settles nocore|]. intros i m1 l1 k1 Hk1.
  lcbn. intros [t|] m2 _; lcbn; [|reckon]. intros [] m3 _. lcbn. intros [] m4 _; lcbn; [|repeat sstep; reckon].
  generalize (t_group_leader (k_task m4 !!! t)). intros leader. intros [] m5 _. lcbn. intros [] m6 _. lcbn.
  intros [] m7 _. rewrite ?orb_true_r. repeat (kdec; lcbn).
  all: apply (settles_step (task_dots _ _ _)); [auto with settles nocore|]; intros go m8 l8 k8 Hk8.
  all: destruct go; lcbn; [|repeat sstep; reckon].
  all: apply wlp_bind, (turns_step [] (opt_res RTask)); [apply first_tid_turns|]; intros u m9 l9 k9 Hk9.
  all: rewrite ?app_assoc; apply (turns_then (opt_res RTask u) (fun _ => [])); [apply tid_loop_turns|].
  all: intros [] m10 l10 k10 Hk10; repeat sstep; reckon.
Qed.

End Handlers.

(** ** Every access *)

(** One lemma for each function of the tables. *)
Create HintDb handlers discriminated.

Section Accesses.
Context `{Arch} `{Config} (limit sizeof_proc_mounts : Z).

Lemma ignoring_settles {A : Type} (p : prog A) : settles p -> settles (ignoring p).
Proof. intros Hp. apply settles_bind; [done|]. intros a. apply settles_ret. Qed.

#[local] Hint Resolve proc_setattr_settles proc_pid_readlink_settles proc_self_readlink_settles proc_fd_permission_settles
  pid_getattr_settles proc_task_getattr_settles pid_revalidate_settles tid_fd_revalidate_settles
  proc_base_revalidate_settles pid_delete_dentry_settles mounts_poll_settles oom_adjust_read_settles
  oom_adjust_write_settles proc_loginuid_read_settles proc_sessionid_read_settles proc_loginuid_write_settles
  proc_fault_inject_read_settles proc_fault_inject_write_settles sched_write_settles proc_pid_attr_read_settles
  proc_pid_attr_write_settles proc_coredump_filter_read_settles proc_coredump_filter_write_settles
  mem_read_settles mem_lseek_settles environ_read_settles proc_info_read_settles lstats_file_write_settles
  proc_fdinfo_read_settles proc_task_lookup_settles proc_pident_lookup_settles proc_pident_readdir_settles
  proc_task_readdir_settles proc_single_show_settles lstats_show_proc_settles sched_show_settles
  proc_pid_lookup_settles proc_pid_readdir_settles proc_flush_task_settles : handlers.
#[local] Hint Constants Opaque : handlers.
(** Found in a table, or called by its name. *)
Lemma access_settles fuel m p : access limit sizeof_proc_mounts fuel m p -> settles p.
Proof.
  destruct 1 as [dir dentry f Hf|dentry inode f buf n Hd Hf|inode f mask Hf|dentry inode f Hd Hf
    |inode f valid Hf|file inode f buf n pos Hd Hf|file inode f buf n pos Hd Hf
    |file inode f off orig Hd Hf|file inode f Hd Hf|file inode f Hd Hf|dentry t Hd|dentry t Hd
    |seq inode Hd Hi|seq|seq|dir dentry|file|task]; apply ignoring_settles;
    try (destruct Hf as (t & tab & _ & Ht & Hf)); try destruct t; simplify_eq/=.
  all: try (solve [auto with handlers nocore]).
  - exact (proc_lookupfd_common_settles _ _ _ proc_fd_instantiates).
  - exact (proc_lookupfd_common_settles _ _ _ proc_fdinfo_instantiates).
  - unfold proc_attr_dir_lookup. apply proc_pident_lookup_settles.
  - unfold proc_tgid_base_lookup. apply proc_pident_lookup_settles.
  - unfold proc_tid_base_lookup. apply proc_pident_lookup_settles.
  - exact (proc_readfd_common_settles _ _ _ proc_fd_instantiates proc_fd_attaches).
  - exact (proc_readfd_common_settles _ _ _ proc_fdinfo_instantiates proc_fdinfo_attaches).
  - unfold proc_attr_dir_readdir. apply proc_pident_readdir_settles.
  - unfold proc_tgid_base_readdir. apply proc_pident_readdir_settles.
  - unfold proc_tid_base_readdir. apply proc_pident_readdir_settles.
Qed.

(** A system that makes one access after another, while the rest of the
    kernel does to the store what it likes in between; an access that faults is
    the last one. Any bound of its loops will do. *)
Inductive accesses (E : env) : world -> world -> Prop :=
  | Acc_call fuel w p w' : access limit sizeof_proc_mounts fuel (mem w) p -> run E p w = (Done tt, w') -> accesses E w w'
  | Acc_other w m : accesses E w (set_mem m w).

Lemma accesses_settled E w w' : keeps E dir_stable -> accesses E w w' -> settled w w'.
Proof.
  intros HE [fuel w0 p w1 Hp Hrun|w0 m]; [|by apply settled_balanced].
  pose proof (wlp_run E dir_stable p _ w0 HE (access_settles _ _ _ Hp w0)) as Hr. by rewrite Hrun in Hr.
Qed.

(** C10: Nothing is left behind. In a kernel without negative dentries of /proc,
    whatever sequence of accesses is made - lookups, readings and writings of
    files, links and directories, permission checks, attributes, revalidations,
    the texts of sequence files, the flush of an exiting task -, whatever each
    call of the rest of the kernel answers and wherever an access fails:
    afterwards exactly the references, locks, pages and buffers are held that
    were held before, none was given back that was not held, and every call was
    made under the locks it asks for, with one exception, [pid_task] without a
    lock. *)
Theorem nothing_is_left_behind E w w' : keeps E dir_stable -> rtc (accesses E) w w' ->
  held w' = held w /\ exists l, bad w' = l ++ bad w /\ forall x, x ∈ l -> exists p, x = Unguarded (PidTask p).
Proof.
  intros HE Hr. assert (settled w w') as (Hh & l & Hb & Hl).
  { induction Hr as [w1|w1 w2 w3 H12 _ IH]; [by apply settled_balanced|].
    apply (settled_trans _ w2); [by apply (accesses_settled E)|done]. }
  split; [done|]. exists l. split; [done|]. intros x Hx. rewrite Forall_forall in Hl. specialize (Hl x Hx).
  destruct x as [r|[]]; try done. by eexists.
Qed.
End Accesses.

(** ** Witness: the link [exe] of [ops_mem] is looked up and read. *)
Definition leaks_world : world := snd (run ops_env (ignoring (proc_pid_readlink 8%nat 0 100)) ops_world).

Lemma ops_env_stable : keeps ops_env dir_stable.
Proof.
  intros o tr m. destruct o; try (by destruct m); cbn.
  split; [done|]. split; [done|]. exists (f_private (k_file m !!! f)). by destruct (k_file m !!! f).
Qed.

Lemma nothing_is_left_behind_witness :
  exists w', held w' = [] /\ exists l, bad w' = l ++ [] /\ forall x, x ∈ l -> exists p, x = Unguarded (PidTask p).
Proof.
  exists leaks_world.
  refine (@nothing_is_left_behind arch32 config_all 100 16 ops_env (world0 ops_mem) leaks_world ops_env_stable _).
  eapply rtc_l; [|apply rtc_once].
  - refine (@Acc_call arch32 config_all 100 16 ops_env 10 (world0 ops_mem) ops_lookup ops_world _ _); [|vm_compute; reflexivity].
    refine (@A_lookup arch32 config_all 100 16 10 ops_mem 6%nat 8%nat _ _).
    eexists _, _. split; [vm_compute; reflexivity|]. split; reflexivity.
  - refine (@Acc_call arch32 config_all 100 16 ops_env 10 ops_world (ignoring (proc_pid_readlink 8%nat 0 100)) leaks_world _ _); [|vm_compute; reflexivity].
    refine (@A_readlink arch32 config_all 100 16 10 (mem ops_world) 8%nat 9%nat _ 0 100 _ _); [vm_compute; reflexivity|].
    eexists _, _. split; [vm_compute; reflexivity|]. split; reflexivity.
Defined.
