(* ===== verification/Returns.v ===== *)
(** * Every access returns (fs/proc/base.c)

    [Leaks] shows what holds of an access when it is over. Here: it is over.
    Called the way the VFS calls it - for a file or a dentry that has its inode,
    with a buffer that has a length - an access runs no loop for ever, follows
    no NULL pointer, copies nothing from beyond a page, and does not use the
    wrong member of [union proc_op]: it returns. The judgement [returns] is
    proved along the syntax of each program. The three walks whose length is
    the business of other processes - over the processes of /proc, the threads
    of a task directory and those of a thread group's [io] - are not here:
    [Procs], [Tasks] and [Info] prove their ends, each under the assumptions it
    needs. *)
From S2P Require Import Prelude Format Structs Kernel Access Names Tables Threads Info ExeFile Links Mounts MemFiles Controls Inodes Dirs Flush Procs Tasks Ops Leaks.

(** ** Total, but for the union *)

(** [p] ends in [Q], or else it reads the union through the wrong member, which
    is the matter of [Ops]. *)
Fixpoint tame {A} (R : contract) (p : prog A) (Q : A -> world -> Prop) (w : world) : Prop :=
  match p with
  | Ret a => Q a w
  | Call o k => forall x m, R o (log w) (mem w) x m -> tame R (k x) Q (after o x m w)
  | Get k => tame R (k (mem w)) Q w
  | Put m k => tame R k Q (set_mem m w)
  | Halt y => y = WrongMember
  end.

Lemma tame_bind {A B} R (p : prog A) (f : A -> prog B) Q w :
  tame R p (fun a w' => tame R (f a) Q w') w -> tame R (pbind p f) Q w.
Proof.
  revert w. induction p as [a|o k IH|k IH|m k IH|y]; intros w; cbn; [done| |apply IH|apply IH|done].
  intros H x m Hx. by apply IH, H.
Qed.

Lemma tame_mono {A} R (p : prog A) (Q Q' : A -> world -> Prop) w :
  tame R p Q w -> (forall a w', Q a w' -> Q' a w') -> tame R p Q' w.
Proof.
  intros H HQ. revert w H. induction p as [a|o k IH|k IH|m k IH|y]; intros w; cbn; eauto.
Qed.

Lemma tame_wlp {A} R (p : prog A) (Q Q' : A -> world -> Prop) w :
  tame R p Q w -> wlp R p Q' w -> tame R p (fun a w' => Q a w' /\ Q' a w') w.
Proof. revert w. induction p as [a|o k IH|k IH|m k IH|y]; intros w; cbn; eauto. Qed.

(** One step. *)
Lemma tame_call {A} R o (k : ans o -> prog A) Q w :
  (forall x m, R o (log w) (mem w) x m -> tame R (k x) Q (after o x m w)) -> tame R (call o ≫= k) Q w.
Proof. done. Qed.

Lemma tame_gets {A B} R (f : kmem -> A) (k : A -> prog B) Q w : tame R (k (f (mem w))) Q w -> tame R (gets f ≫= k) Q w.
Proof. done. Qed.

(** ... which never happens in a program that is [wsafe]. *)
Lemma wsafe_tame {A} (R R' : contract) (p : prog A) (Q Q' : A -> world -> Prop) w :
  (forall o tr m x m', R' o tr m x m' -> R o tr m x m') ->
  wsafe R p Q w -> tame R' p Q' w -> wp R' p (fun a w' => Q a w' /\ Q' a w') w.
Proof.
  intros HR. revert w. induction p as [a|o k IH|k IH|m k IH|y]; intros w; cbn; [done|eauto|apply IH|apply IH|done].
Qed.

(** ** The kernel around an access *)

(** What never gets worse while an access runs: dentries keep their inodes,
    open files their dentry and their private data, sequences their inode, an
    address space the end of its auxiliary vector, a struct pid its number of
    levels, and the cursor of a mount file its namespace and root. *)
Definition ended (m : kmem) (mm : mm_id) : Prop := is_Some (auxv_words (saved_auxv (k_mm m !!! mm)) 0).

Record later (m m' : kmem) : Prop := Later {
  later_attached : forall d, attached m d -> attached m' d;
  later_dentry : forall f, f_dentry (k_file m' !!! f) = f_dentry (k_file m !!! f);
  later_private : forall f, f_private (k_file m' !!! f) = f_private (k_file m !!! f);
  later_seq : k_seq_private m' = k_seq_private m;
  later_ended : forall mm, ended m mm -> ended m' mm;
  later_levels : forall p, length (pid_numbers (k_pid m' !!! p)) = length (pid_numbers (k_pid m !!! p));
  later_cursor : forall p, pm_ns (k_mounts m' !!! p) = pm_ns (k_mounts m !!! p) /\ pm_root (k_mounts m' !!! p) = pm_root (k_mounts m !!! p);
}.

Lemma later_refl m : later m m.
Proof. done. Qed.

Lemma later_trans m1 m2 m3 : later m1 m2 -> later m2 m3 -> later m1 m3.
Proof.
  intros [A1 D1 P1 S1 E1 L1 C1] [A2 D2 P2 S2 E2 L2 C2]. split; [auto|congruence..|auto|congruence|].
  intros p. destruct (C1 p), (C2 p). split; congruence.
Qed.

(** A fact that lasts. *)
Class Lasts (P : kmem -> Prop) := lasts : forall m m', later m m' -> P m -> P m'.

Definition opened (file : file_id) (m : kmem) : Prop := attached m (f_dentry (k_file m !!! file)).

#[export] Instance lasts_true : Lasts (fun _ => True).
Proof. done. Qed.
#[export] Instance lasts_and P T : Lasts P -> Lasts T -> Lasts (fun m => P m /\ T m).
Proof. intros HP HT m m' Hl []. split; by apply (lasts m). Qed.
#[export] Instance lasts_later m : Lasts (later m).
Proof. intros m1 m2 H12 H1. by apply (later_trans _ m1). Qed.
#[export] Instance lasts_attached d : Lasts (fun m => attached m d).
Proof. intros m m' Hl. apply (later_attached _ _ Hl). Qed.
#[export] Instance lasts_opened file : Lasts (opened file).
Proof. intros m m' Hl H. unfold opened. rewrite (later_dentry _ _ Hl). by apply (later_attached _ _ Hl). Qed.
#[export] Instance lasts_private file p : Lasts (fun m => f_private (k_file m !!! file) = p).
Proof. intros m m' Hl. by rewrite (later_private _ _ Hl). Qed.
#[export] Instance lasts_seq q i : Lasts (fun m => k_seq_private m !!! q = i).
Proof. intros m m' Hl. by rewrite (later_seq _ _ Hl). Qed.
#[export] Instance lasts_ended mm : Lasts (fun m => ended m mm).
Proof. intros m m' Hl. apply (later_ended _ _ Hl). Qed.
#[export] Instance lasts_levels p n : Lasts (fun m => length (pid_numbers (k_pid m !!! p)) = n).
Proof. intros m m' Hl. by rewrite (later_levels _ _ Hl). Qed.

Section Kernel.
(** How deep the pid namespace of a task is, and how many descriptors a process
    may have. *)
Context (level : task_id -> nat) (max_open : Z).

(** There is a pid with a number in every namespace down to the task's. *)
Definition deep (m : kmem) (t : task_id) : Prop := exists q, length (pid_numbers (k_pid m !!! q)) = S (level t).

(** What the answers promise: an address space has an auxiliary vector with its
    end; the pids of a task and of its leader are such pids; file tables are
    bounded. *)
Definition promised (o : op) : ans o -> kmem -> Prop :=
  match o with
  | GetTaskMm _ => fun x m => forall mm, x = Some mm -> ended m mm
  | TaskPid t | TaskTgid t => fun p m => deep m t -> length (pid_numbers (k_pid m !!! p)) = S (level t)
  | MaxFds _ => fun n _ => n <= max_open
  | _ => fun _ _ => True
  end.

Definition orderly : contract := fun o tr m x m' =>
  dir_stable o tr m x m' /\ marks_kept o tr m x m' /\ vm_contract o tr m x m' /\
  k_seq_private m' = k_seq_private m /\ k_mounts m' = k_mounts m /\ (forall mm, ended m mm -> ended m' mm) /\
  (forall p, length (pid_numbers (k_pid m' !!! p)) = length (pid_numbers (k_pid m !!! p))) /\
  promised o x m'.

Lemma orderly_stable o tr m x m' : orderly o tr m x m' -> dir_stable o tr m x m'.
Proof. by intros []. Qed.
Lemma orderly_marks o tr m x m' : orderly o tr m x m' -> marks_kept o tr m x m'.
Proof. by intros (_ & H & _). Qed.

Lemma orderly_later o tr m x m' : match o with SingleOpen _ _ _ => False | _ => True end -> orderly o tr m x m' -> later m m'.
Proof.
  intros Ho (Hd & _ & _ & Hs & Hc & He & Hl & _).
  assert (Hf : k_file m' = k_file m) by (destruct o; by try apply Hd). split; [|by rewrite Hf..|done|done|done|by rewrite Hc].
  assert (Hk : k_dentry m' = k_dentry (dcache_step o m)) by (destruct o; by try apply Hd).
  intros d. unfold attached. rewrite Hk. destruct o; try done. cbn [dcache_step]. rewrite k_dentry_upd_dentry.
  destruct (decide (d = d0)) as [->|Hne]; [|by rewrite lookup_total_insert_ne].
  rewrite lookup_total_insert_eq. intros _. by destruct (k_dentry m !!! d0).
Qed.

(** ** The judgement *)

(** In every store with [P], the program returns, and what lasts has lasted. *)
Definition returns (P : kmem -> Prop) {A : Type} (p : prog A) : Prop := forall w, P (mem w) ->
  tame orderly p (fun _ w' => later (mem w) (mem w')) w.

#[export] Instance lasts_deep t : Lasts (fun m => deep m t).
Proof. intros m m' Hl [q Hq]. exists q. by rewrite (later_levels _ _ Hl). Qed.

Section Rules.
Context (P : kmem -> Prop).

Lemma returns_ret {A : Type} (a : A) : returns P (mret a).
Proof. intros w _. apply later_refl. Qed.

Lemma returns_known {A B : Type} (a : A) (k : A -> prog B) : returns P (k a) -> returns P (mret a ≫= k).
Proof. done. Qed.

Lemma returns_wrong {A : Type} : returns P (@Halt A WrongMember).
Proof. done. Qed.

Lemma returns_bind {A B : Type} `{!Lasts P} (p : prog A) (f : A -> prog B) :
  returns P p -> (forall a, returns P (f a)) -> returns P (p ≫= f).
Proof.
  intros Hp Hf w Hw. apply tame_bind. eapply tame_mono; [by apply Hp|]. intros a w1 H1.
  eapply tame_mono; [apply Hf; by apply (lasts (mem w))|]. intros b w2. by apply later_trans.
Qed.

(** Inside an execution that began in [m]. *)
Lemma returns_from {A : Type} (p : prog A) m w : returns P p -> P (mem w) -> later m (mem w) ->
  tame orderly p (fun _ w' => later m (mem w')) w.
Proof. intros Hp Hw Hl. eapply tame_mono; [by apply Hp|]. intros a w'. by apply later_trans. Qed.

(** A program that is stuck unless [P] holds needs it only there. *)
Lemma returns_weaken {A : Type} (T : kmem -> Prop) (p : prog A) : (forall m, P m -> T m) -> returns T p -> returns P p.
Proof. intros HT Hp w Hw. by apply Hp, HT. Qed.

Lemma returns_call o : match o with SingleOpen _ _ _ => False | _ => True end -> returns P (call o).
Proof. intros Ho w _ x m H. by apply (orderly_later o (log w) _ x). Qed.

(** A call, with what its answer promises. *)
Lemma returns_answer {B : Type} `{!Lasts P} o (k : ans o -> prog B) : match o with SingleOpen _ _ _ => False | _ => True end ->
  (forall tr m x m1, P m -> orderly o tr m x m1 -> returns (fun m' => P m' /\ later m1 m') (k x)) -> returns P (call o ≫= k).
Proof.
  intros Ho Hk w Hw x m H. pose proof (orderly_later o _ _ x _ Ho H) as Hl. eapply tame_mono.
  - apply (Hk (log w) (mem w) x m); [done|done|]. split; [by apply (lasts (mem w))|apply later_refl].
  - intros b w'. by apply later_trans.
Qed.

Lemma returns_gets {A : Type} (f : kmem -> A) : returns P (gets f).
Proof. intros w _. apply later_refl. Qed.

(** A read, with the store it was made in. *)
Lemma returns_read {A B : Type} (f : kmem -> A) (k : A -> prog B) :
  (forall m, P m -> returns (later m) (k (f m))) -> returns P (gets f ≫= k).
Proof. intros Hk w Hw. cbn. apply (Hk (mem w)); [done|apply later_refl]. Qed.

Lemma returns_modify f : (forall m, later m (f m)) -> returns P (modify f).
Proof. intros Hf w _. cbn. apply Hf. Qed.

Lemma returns_upd_inode i f : returns P (modify (upd_inode i f)).
Proof. apply returns_modify. by intros []. Qed.
Lemma returns_upd_task t f : returns P (modify (upd_task t f)).
Proof. apply returns_modify. by intros []. Qed.
Lemma returns_flags x f : returns P (modify (upd_mm x (fun s => set_mm_flags (f s) s))).
Proof.
  apply returns_modify. intros m. split; try (by destruct m). intros mm. unfold ended. rewrite k_mm_upd_mm.
  destruct (decide (mm = x)) as [->|Hne]; [|by rewrite lookup_total_insert_ne].
  rewrite lookup_total_insert_eq. by destruct (k_mm m !!! x).
Qed.
Lemma returns_upd_mounts p f : (forall x, pm_ns (f x) = pm_ns x /\ pm_root (f x) = pm_root x) -> returns P (modify (upd_mounts p f)).
Proof.
  intros Hf. apply returns_modify. intros m. split; try (by destruct m). intros q. rewrite k_mounts_upd_mounts.
  destruct (decide (q = p)) as [->|Hne]; [rewrite lookup_total_insert_eq; apply Hf|by rewrite lookup_total_insert_ne].
Qed.

Lemma returns_upd_file x f : (forall y, f_dentry (f y) = f_dentry y /\ f_private (f y) = f_private y) ->
  returns P (modify (upd_file x f)).
Proof.
  intros Hf. apply returns_modify. intros m. split; try (by destruct m); intros g; rewrite k_file_upd_file;
    (destruct (decide (g = x)) as [->|Hne]; [rewrite lookup_total_insert_eq; apply Hf|by rewrite lookup_total_insert_ne]).
Qed.

Lemma returns_d_op d ops : returns P (modify (upd_dentry d (set_d_op ops))).
Proof.
  apply returns_modify. intros m. split; try (by destruct m). intros x. unfold attached. rewrite k_dentry_upd_dentry.
  destruct (decide (x = d)) as [->|Hne]; [rewrite lookup_total_insert_eq; by destruct (k_dentry m !!! d)|by rewrite lookup_total_insert_ne].
Qed.

Lemma dentry_inode_returns d : (forall m, P m -> attached m d) -> returns P (dentry_inode d).
Proof. intros Hd w Hw. unfold dentry_inode. cbn. destruct (Hd _ Hw) as [i ->]. apply later_refl. Qed.

(** [d_add] gives the dentry its inode. *)
Lemma returns_added {A : Type} `{!Lasts P} d ops i (k : unit -> prog A) :
  returns (fun m => P m /\ attached m d) (k tt) -> returns P (set_and_add d ops i ≫= k).
Proof.
  intros Hk w Hw. pose proof (returns_d_op d (Some ops) w Hw) as H1. cbn in H1.
  unfold set_and_add. cbn -[dcache_step]. intros [] m Hm.
  pose proof (orderly_later (DAdd d i) (log w) _ tt m I Hm) as H2. pose proof (later_trans _ _ _ H1 H2) as H12.
  eapply tame_mono; [apply Hk|intros b w'; by apply later_trans]. split; [by apply (lasts (mem w))|].
  destruct Hm as [[_ Hm] _]. unfold attached. cbn [mem]. rewrite Hm. cbn [dcache_step].
  rewrite k_dentry_upd_dentry, lookup_total_insert_eq. by destruct (_ !!! d).
Qed.
End Rules.
End Kernel.

Create HintDb returns.
#[export] Hint Resolve returns_ret returns_wrong returns_gets returns_upd_inode returns_upd_task returns_flags
  returns_d_op : returns.
#[export] Hint Extern 1 (returns _ _ _ (call _)) => (apply returns_call; exact I) : returns.
#[export] Hint Extern 1 (returns _ _ _ (modify (upd_mounts _ _))) => (apply returns_upd_mounts; intros []; split; reflexivity) : returns.
#[export] Hint Extern 1 (returns _ _ _ (modify (upd_file _ _))) => (apply returns_upd_file; intros []; split; reflexivity) : returns.
#[export] Hint Extern 1 (returns _ _ _ (dentry_inode _)) => (apply dentry_inode_returns; intros ? ?; tauto) : returns.

#[export] Hint Extern 0 (Lasts _) => (typeclasses eauto) : returns.

(** Proves [returns] of a program from its syntax. *)
Ltac returning := kunfold; repeat first
  [ match goal with |- forall _, _ => intros ? end
  | solve [auto with returns nocore]
  | match goal with
    | |- returns _ _ _ (set_and_add _ _ _ ≫= _) => apply returns_added; [typeclasses eauto|]
    | |- returns _ _ _ (_ ≫= _) => apply returns_bind; [typeclasses eauto|..]
    | |- returns _ _ _ (match ?x with _ => _ end) => destruct x
    | |- returns _ _ _ (match ?x with _ => _ end _) => destruct x
    end ].

Section Handlers.
Context `{Arch} `{Config} (level : task_id -> nat) (max_open : Z).
#[local] Abbreviation returns := (returns level max_open).

(** ** Parts *)

Lemma get_fs_path_returns P t r : Lasts P -> returns P (get_fs_path t r).
Proof. intros HP. unfold get_fs_path. returning. Qed.
Lemma check_mem_permission_returns P t : Lasts P -> returns P (check_mem_permission t).
Proof. intros HP. unfold check_mem_permission. returning. Qed.
Lemma proc_fd_access_allowed_returns P i : Lasts P -> returns P (proc_fd_access_allowed i).
Proof. intros HP. unfold proc_fd_access_allowed. returning. Qed.
Lemma task_dumpable_returns P t : Lasts P -> returns P (task_dumpable t).
Proof. intros HP. unfold task_dumpable. returning. Qed.
Lemma get_nr_threads_returns P t : Lasts P -> returns P (get_nr_threads t).
Proof. intros HP. unfold get_nr_threads. returning. Qed.
Lemma own_by_task_returns P t i : Lasts P -> returns P (own_by_task t i).
Proof. intros HP. unfold own_by_task. returning. Qed.
Lemma strip_ids_returns P i : Lasts P -> returns P (strip_ids i).
Proof. intros HP. unfold strip_ids. returning. Qed.
#[local] Hint Resolve get_fs_path_returns check_mem_permission_returns proc_fd_access_allowed_returns
  task_dumpable_returns get_nr_threads_returns own_by_task_returns strip_ids_returns : returns.

Lemma file_inode_returns P file : (forall m, P m -> opened file m) -> returns P (file_inode file).
Proof.
  intros Hf. unfold file_inode. apply returns_read. intros m Hm. apply dentry_inode_returns. intros m' Hl.
  by apply (later_attached _ _ Hl), Hf.
Qed.
#[local] Hint Extern 1 (returns _ (file_inode _)) => (apply file_inode_returns; intros ? ?; tauto) : returns.
Lemma file_task_returns P file : Lasts P -> (forall m, P m -> opened file m) -> returns P (file_task file).
Proof. intros HP Hf. unfold file_task. apply returns_bind; [done|by apply file_inode_returns|]. returning. Qed.
#[local] Hint Extern 1 (returns _ (file_task _)) => (apply file_task_returns; [typeclasses eauto|intros ? ?; tauto]) : returns.

(** ** Permissions, attributes, revalidation *)

Lemma proc_setattr_returns P i v : Lasts P -> returns P (proc_setattr i v).
Proof. intros HP. unfold proc_setattr. returning. Qed.
Lemma proc_fd_permission_returns P i mask : Lasts P -> returns P (proc_fd_permission i mask).
Proof. intros HP. unfold proc_fd_permission. returning. Qed.
Lemma pid_getattr_returns d : returns (fun m => attached m d) (pid_getattr d).
Proof. unfold pid_getattr. returning. Qed.
Lemma proc_task_getattr_returns d : returns (fun m => attached m d) (proc_task_getattr d).
Proof. unfold proc_task_getattr. returning. Qed.
Lemma pid_revalidate_returns P d : Lasts P -> (forall m, P m -> attached m d) -> returns P (pid_revalidate d).
Proof. intros HP Hd. unfold pid_revalidate. returning. by apply dentry_inode_returns. Qed.
Lemma tid_fd_revalidate_returns P d : Lasts P -> (forall m, P m -> attached m d) -> returns P (tid_fd_revalidate d).
Proof. intros HP Hd. unfold tid_fd_revalidate. returning. by apply dentry_inode_returns. Qed.
Lemma proc_base_revalidate_returns P d : Lasts P -> (forall m, P m -> attached m d) -> returns P (proc_base_revalidate d).
Proof. intros HP Hd. unfold proc_base_revalidate. returning. by apply dentry_inode_returns. Qed.
Lemma pid_delete_dentry_returns d : returns (fun m => attached m d) (pid_delete_dentry d).
Proof. unfold pid_delete_dentry. returning. Qed.
#[local] Hint Extern 1 (returns _ (pid_revalidate _)) => (apply pid_revalidate_returns; [typeclasses eauto|intros ? ?; tauto]) : returns.
#[local] Hint Extern 1 (returns _ (tid_fd_revalidate _)) => (apply tid_fd_revalidate_returns; [typeclasses eauto|intros ? ?; tauto]) : returns.

(** ** Files read and written *)

(** Every function of an open file starts from its inode. *)
Ltac file_returns := unfold read_num_buffer, file_name; returning.

Lemma oom_adjust_read_returns f b n pos : returns (opened f) (oom_adjust_read f b n pos).
Proof. unfold oom_adjust_read. file_returns. Qed.
Lemma oom_adjust_write_returns f b n : returns (opened f) (oom_adjust_write f b n).
Proof. unfold oom_adjust_write. file_returns. Qed.
Lemma proc_loginuid_read_returns f b n pos : returns (opened f) (proc_loginuid_read f b n pos).
Proof. unfold proc_loginuid_read, audit_read. file_returns. Qed.
Lemma proc_sessionid_read_returns f b n pos : returns (opened f) (proc_sessionid_read f b n pos).
Proof. unfold proc_sessionid_read, audit_read. file_returns. Qed.
Lemma proc_loginuid_write_returns f b n pos : returns (opened f) (proc_loginuid_write f b n pos).
Proof. unfold proc_loginuid_write. file_returns. Qed.
Lemma proc_fault_inject_read_returns f b n pos : returns (opened f) (proc_fault_inject_read f b n pos).
Proof. unfold proc_fault_inject_read. file_returns. Qed.
Lemma proc_fault_inject_write_returns f b n : returns (opened f) (proc_fault_inject_write f b n).
Proof. unfold proc_fault_inject_write. file_returns. Qed.
Lemma sched_write_returns f n : returns (opened f) (sched_write f n).
Proof. unfold sched_write. file_returns. Qed.
Lemma proc_pid_attr_read_returns f b n pos : returns (opened f) (proc_pid_attr_read f b n pos).
Proof. unfold proc_pid_attr_read. file_returns. Qed.
Lemma proc_pid_attr_write_returns f b n pos : returns (opened f) (proc_pid_attr_write f b n pos).
Proof. unfold proc_pid_attr_write. file_returns. Qed.
Lemma set_filter_bits_returns P n mm : Lasts P -> forall v i mask, returns P (set_filter_bits n mm v i mask).
Proof. intros HP. induction n as [|n IH]; intros v i mask; cbn [set_filter_bits]; returning. Qed.
#[local] Hint Resolve set_filter_bits_returns : returns.
Lemma proc_coredump_filter_read_returns f b n pos : returns (opened f) (proc_coredump_filter_read f b n pos).
Proof. unfold proc_coredump_filter_read. file_returns. Qed.
Lemma proc_coredump_filter_write_returns f b n : returns (opened f) (proc_coredump_filter_write f b n).
Proof. unfold proc_coredump_filter_write. file_returns. Qed.
Lemma mem_lseek_returns P f off orig : Lasts P -> returns P (mem_lseek f off orig).
Proof. intros HP. unfold mem_lseek. returning. Qed.
Lemma lstats_file_write_returns f b n pos : returns (opened f) (lstats_file_write f b n pos).
Proof. unfold lstats_file_write, lstats_write. file_returns. Qed.
Lemma mounts_poll_returns f p : returns (fun m => f_private (k_file m !!! f) = PrivMounts p) (mounts_poll f).
Proof.
  unfold mounts_poll, file_mounts. apply returns_bind; [typeclasses eauto| |intros q; returning].
  apply returns_read. intros m ->. returning.
Qed.

(** ** Sequence files *)

(** [m->private] was set when the file was opened. *)
Lemma seq_inode_returns {B : Type} P q (k : option inode_id -> prog B) :
  (forall m, P m -> exists i, k_seq_private m !!! q = Some i) -> (forall i, returns P (k (Some i))) ->
  returns P (gets (fun m => k_seq_private m !!! q) ≫= k).
Proof. intros Hq Hk w Hw. cbn. destruct (Hq _ Hw) as [i ->]. by apply Hk. Qed.

Lemma print_stack_returns P m l : Lasts P -> returns P (print_stack m l).
Proof. intros HP. induction l as [|x l IH]; cbn [print_stack]; returning. Qed.
Lemma print_backtrace_returns P m n : Lasts P -> forall l, returns P (print_backtrace m n l).
Proof. intros HP. induction n as [|n IH]; intros l; cbn [print_backtrace]; returning. Qed.
#[local] Hint Resolve print_stack_returns print_backtrace_returns : returns.
Lemma print_latencies_returns P m t n : Lasts P -> forall i, returns P (print_latencies m t i n).
Proof. intros HP. induction n as [|n IH]; intros i; cbn [print_latencies]; unfold print_latency; returning. Qed.
#[local] Hint Resolve print_latencies_returns : returns.
Lemma lstats_show_proc_returns q i : returns (fun m => k_seq_private m !!! q = Some i) (lstats_show_proc q).
Proof. unfold lstats_show_proc. apply seq_inode_returns; [eauto|]. returning. Qed.
Lemma sched_show_returns q i : returns (fun m => k_seq_private m !!! q = Some i) (sched_show q).
Proof. unfold sched_show. apply seq_inode_returns; [eauto|]. returning. Qed.
Lemma call_proc_show_returns P f m ns p t : Lasts P -> returns P (call_proc_show f m ns p t).
Proof. intros HP. destruct f; cbn [call_proc_show]; unfold proc_pid_personality, proc_pid_stack; returning. Qed.
#[local] Hint Resolve call_proc_show_returns : returns.
Lemma proc_single_show_returns q i : returns (fun m => k_seq_private m !!! q = Some i) (proc_single_show q).
Proof. unfold proc_single_show. apply seq_inode_returns; [eauto|]. returning. Qed.

(** ** Memory *)

Lemma copy_page_to_user_returns P b page n : Lasts P -> 0 <= n <= PAGE_SIZE -> returns P (copy_page_to_user b page n).
Proof.
  intros HP Hn. unfold copy_page_to_user. destruct (Z.ltb_spec n 0); [lia|]. destruct (Z.ltb_spec PAGE_SIZE n); [lia|]. cbn [orb]. returning.
Qed.

(** A piece of the other process, which is never longer than what was asked for. *)
Lemma piece_returns {B : Type} P t a n (k : Z * bytes -> prog B) : Lasts P -> 0 <= n ->
  (forall Q r page, Lasts Q -> 0 <= r <= n -> returns Q (k (r, page))) -> returns P (call (AccessProcessVm t a n) ≫= k).
Proof.
  intros HP Hn Hk. apply returns_answer; [done|done|]. intros tr m [r page] m1 _ (_ & _ & Hvm & _). cbn in Hvm.
  apply Hk; [typeclasses eauto|lia].
Qed.

(** What is left to read gets less. *)
Lemma ulong_less c r : 0 < r <= c -> 0 <= ulong (c - r) < c.
Proof. intros Hr. pose proof (ulong_range (c - r)). pose proof (Z.mod_le (c - r) (2 ^ BITS_PER_LONG)). unfold ulong in *. lia. Qed.

(** The length of the next piece. *)
Lemma page_piece c : 0 < c -> 0 < s32 (if PAGE_SIZE <? c then PAGE_SIZE else c) <= c /\
  s32 (if PAGE_SIZE <? c then PAGE_SIZE else c) <= PAGE_SIZE.
Proof. intros Hc. unfold PAGE_SIZE. destruct (Z.ltb_spec 4096 c); rewrite s32_small; lia. Qed.

Lemma mem_read_loop_returns t fuel : forall P b s c r, Lasts P -> (Z.to_nat c < fuel)%nat ->
  returns P (mem_read_loop fuel t b s c r).
Proof.
  induction fuel as [|fuel IH]; intros P b s c r HP Hc; [lia|]. cbn [mem_read_loop]. kunfold.
  destruct (Z.ltb_spec 0 c) as [Hpos|]; [|returning]. pose proof (page_piece c Hpos).
  apply piece_returns; [done|lia|]. intros Q rv page HQ Hrv. destruct (Z.eqb_spec rv 0); [apply returns_known; returning|].
  apply returns_bind; [done|returning|]. intros [|]; [returning|].
  apply returns_bind; [done|apply copy_page_to_user_returns; [done|lia]|]. intros left. destruct (negb _); [returning|].
  pose proof (ulong_less c rv). apply IH; [done|lia].
Qed.

Lemma environ_read_loop_returns t mm fuel : forall P b s c r, Lasts P -> (Z.to_nat c < fuel)%nat ->
  returns P (environ_read_loop fuel t mm b s c r).
Proof.
  induction fuel as [|fuel IH]; intros P b s c r HP Hc; [lia|]. cbn [environ_read_loop]. kunfold.
  destruct (Z.ltb_spec 0 c) as [Hpos|]; [|returning]. pose proof (page_piece c Hpos).
  apply returns_bind; [done|returning|]. intros x. set (n := s32 (ulong _)). set (max := s32 _) in *.
  destruct (Z.leb_spec n 0); [returning|].
  assert (0 <= (if max <? n then max else n) <= max) as Hn by (destruct (Z.ltb_spec max n); lia).
  apply piece_returns; [done|lia|]. intros Q rv page HQ Hrv. destruct (Z.leb_spec rv 0); [returning|].
  apply returns_bind; [done|apply copy_page_to_user_returns; [done|lia]|]. intros left. destruct (negb _); [returning|].
  pose proof (ulong_less c rv). apply IH; [done|lia].
Qed.

#[local] Hint Extern 1 (returns _ (mem_read_loop _ _ _ _ _ _)) => (apply mem_read_loop_returns; [typeclasses eauto|lia]) : returns.
#[local] Hint Extern 1 (returns _ (environ_read_loop _ _ _ _ _ _ _)) => (apply environ_read_loop_returns; [typeclasses eauto|lia]) : returns.
Lemma mem_read_returns f b n pos : returns (opened f) (mem_read f b n pos).
Proof. unfold mem_read. file_returns. Qed.
Lemma environ_read_returns f b n pos : returns (opened f) (environ_read f b n pos).
Proof. unfold environ_read. file_returns. Qed.

(** ** Texts of a task *)

Lemma proc_pid_auxv_returns P t : Lasts P -> returns P (proc_pid_auxv t).
Proof.
  intros HP. unfold proc_pid_auxv. apply returns_answer; [done|done|]. intros tr m [mm|] m1 _ Ho; [|returning].
  destruct Ho as (_ & _ & _ & _ & _ & _ & _ & Hx). apply returns_read. intros m2 [_ Hl].
  destruct (later_ended _ _ Hl mm (Hx mm eq_refl)) as [n ->]. returning.
Qed.
#[local] Hint Resolve proc_pid_auxv_returns : returns.

Lemma call_proc_read_returns P f t : Lasts P -> f <> F_proc_tgid_io_accounting -> returns P (call_proc_read f t).
Proof.
  intros HP Hf. destruct f; try done; cbn [call_proc_read];
    unfold proc_pid_limits, proc_pid_syscall, proc_pid_cmdline, proc_pid_wchan, proc_pid_schedstat, proc_oom_score,
      proc_tid_io_accounting, do_io_accounting; returning.
Qed.

(** [io] of a whole thread group is not one of them. *)
Definition not_group_io (i : inode) : Prop := ei_op i <> proc_read F_proc_tgid_io_accounting.

Lemma not_group_io_kept o tr m x m' i : match o with NewInode _ => False | _ => True end -> orderly level max_open o tr m x m' ->
  not_group_io (k_inode m !!! i) -> not_group_io (k_inode m' !!! i).
Proof.
  intros Ho Hm%orderly_marks. unfold not_group_io. assert (same_marks m m') as Hs by (by destruct o).
  specialize (Hs i). unfold marks in Hs. by injection Hs as _ _ ->.
Qed.

Lemma proc_info_read_returns f i b n pos :
  returns (fun m => inode_of m f = Some i /\ not_group_io (k_inode m !!! i)) (proc_info_read f b n pos).
Proof.
  intros w [Hi Hio]. unfold proc_info_read, file_inode, dentry_inode. apply tame_bind, tame_gets, tame_gets.
  unfold inode_of in Hi. rewrite Hi. kunfold. apply tame_call. intros task m1 H1.
  pose proof (orderly_later _ _ (GetProcTask i) _ _ task _ I H1) as L1.
  pose proof (not_group_io_kept (GetProcTask i) _ _ task _ _ I H1 Hio) as Hio1. destruct task as [t|]; [|done].
  apply tame_call. intros page m2 H2. pose proof (later_trans _ _ _ L1 (orderly_later _ _ GetFreePage _ _ page _ I H2)) as L2.
  pose proof (not_group_io_kept GetFreePage _ _ page _ _ I H2 Hio1) as Hio2. apply tame_bind.
  apply (tame_mono _ _ (fun _ w' => later (mem w) (mem w'))).
  - destruct page as [p|]; [|done]. apply tame_gets. cbn [mem after] in *. destruct (ei_op (k_inode m2 !!! i)) as [|g|g|g] eqn:E; try done.
    apply (returns_from level max_open (fun _ => True)); [|done|done].
    apply returns_bind; [typeclasses eauto| |returning]. apply call_proc_read_returns; [typeclasses eauto|]. intros ->. by apply Hio2.
  - intros r w' Hl. apply (returns_from level max_open (fun _ => True)); [returning|done|done].
Qed.

(** ** Links *)

Lemma do_proc_readlink_returns P p b n : Lasts P -> 0 <= n -> returns P (do_proc_readlink p b n).
Proof.
  intros HP Hn. unfold do_proc_readlink. kunfold. apply returns_bind; [done|returning|]. intros [tmp|]; [|returning].
  apply returns_bind; [done|returning|]. intros [e|name]; [returning|]. pose proof (len_nonneg name).
  assert (((if n <? len name then n else len name) <? 0) = false) as -> by (apply Z.ltb_ge; destruct (n <? len name); lia).
  returning.
Qed.

Lemma proc_self_readlink_returns d b n : returns (fun _ => True) (proc_self_readlink d b n).
Proof.
  unfold proc_self_readlink. kunfold. do 3 (apply returns_bind; [typeclasses eauto|returning|intros ?]).
  rewrite decimal_fits. returning.
Qed.

Lemma proc_fd_info_returns P i p n : Lasts P -> returns P (proc_fd_info i p n).
Proof. intros HP. unfold proc_fd_info. returning. Qed.
#[local] Hint Resolve do_proc_readlink_returns proc_fd_info_returns : returns.
Lemma call_get_link_returns P i : Lasts P -> returns P (call_get_link i).
Proof.
  intros HP. unfold call_get_link, proc_cwd_link, proc_root_link, proc_exe_link, proc_fd_link, get_mm_exe_file. returning.
Qed.

(** A link function that answers 0 has set the path. *)
Lemma call_get_link_answers R i w : wlp R (call_get_link i) (fun r _ => r.1 = 0 -> is_Some r.2) w.
Proof.
  destruct (ei_op (k_inode (mem w) !!! i)) as [|f|f|f] eqn:E.
  2: { apply wp_liberal, call_get_link_wp; [by exists f|]. intros [r [p|]] w' [_ Hr]; cbn in *; [by eauto|by subst]. }
  all: unfold call_get_link; cbn; rewrite E; exact I.
Qed.

Lemma proc_pid_readlink_returns d b n : 0 <= n -> returns (fun m => attached m d) (proc_pid_readlink d b n).
Proof.
  intros Hn. unfold proc_pid_readlink. apply returns_bind; [typeclasses eauto|returning|]. intros i.
  apply returns_bind; [typeclasses eauto|returning|]. intros [|]; [|returning]. intros w _. apply tame_bind.
  eapply tame_mono; [apply tame_wlp; [apply (call_get_link_returns (fun _ => True)); [typeclasses eauto|done]|apply call_get_link_answers]|].
  intros [e p] w1 [Hl Hp]. cbn [fst snd] in Hp. destruct (Z.eqb_spec e 0) as [->|]; [|done].
  destruct (Hp eq_refl) as [q ->]. apply (returns_from level max_open (fun _ => True)); [|done|done]. returning.
Qed.

Lemma proc_fdinfo_read_returns f b n pos : returns (opened f) (proc_fdinfo_read f b n pos).
Proof.
  intros w [i Hi]. unfold proc_fdinfo_read. apply tame_gets. rewrite Hi. apply tame_bind. eapply tame_mono.
  - apply (tame_wlp _ _ (fun _ w' => later (mem w) (mem w')) (fun r _ => r.1.1 = 0 -> is_Some r.2)).
    + apply (proc_fd_info_returns (fun _ => True)); [typeclasses eauto|done].
    + apply wp_liberal, proc_fd_info_wp. intros r p x w' _ [(_ & _ & Hx)|(-> & _)]; cbn; [by intros _; apply Hx|done].
  - intros [[e p] x] w1 [Hl Hx]. cbn [fst snd] in Hx. destruct (Z.eqb_spec e 0) as [->|]; [|done].
    destruct (Hx eq_refl) as [t ->]. apply (returns_from level max_open (fun _ => True)); [|done|done]. returning.
Qed.

(** ** Flushing *)

Lemma flush_mnt_returns P mnt p g : Lasts P -> returns P (proc_flush_task_mnt mnt p g).
Proof. intros HP. unfold proc_flush_task_mnt. returning. Qed.
#[local] Hint Resolve flush_mnt_returns : returns.

Lemma flush_loop_returns P ns : Lasts P -> forall g, (forall ts, g = Some ts -> (length ns <= length ts)%nat) ->
  returns P (flush_loop ns g).
Proof.
  intros HP. induction ns as [|[n s] ns IH]; intros g Hg; cbn [flush_loop]; [returning|].
  apply returns_bind; [done|returning|]. intros mnt. destruct g as [[|[tg s'] ts]|].
  - specialize (Hg [] eq_refl). cbn in Hg. lia.
  - apply returns_bind; [done|returning|]. intros []. apply IH. intros ts' [= <-]. specialize (Hg _ eq_refl). cbn in Hg. lia.
  - apply returns_bind; [done|returning|]. intros []. by apply IH.
Qed.

(** The second half, with the pids of the task and of its leader. *)
Lemma flush_numbers_returns t p g :
  returns (fun m => length (pid_numbers (k_pid m !!! p)) = S (level t) /\
      match g with Some q => length (pid_numbers (k_pid m !!! q)) = S (level t) | None => True end)
    (numbers ← gets (fun m => pid_numbers (k_pid m !!! p));
     tnumbers ← gets (fun m => (fun q => pid_numbers (k_pid m !!! q)) <$> (g : option pid_id));
     flush_loop numbers tnumbers;;
     match last numbers with
     | Some (nr, ns) => if nr =? 1 then call (PidNsReleaseProc ns) else mret tt
     | None => Halt WildAccess
     end).
Proof.
  intros w [Hn Hg]. apply tame_gets, tame_gets. apply (returns_from level max_open (fun _ => True)); [|done|done].
  destruct (last (pid_numbers (k_pid (mem w) !!! p))) as [[nr ns]|] eqn:E; [|by apply last_None in E; rewrite E in Hn].
  apply returns_bind; [typeclasses eauto| |returning]. apply flush_loop_returns; [typeclasses eauto|].
  intros ts Hts. destruct g as [q|]; [|done]. cbn in Hts. injection Hts as <-. by rewrite Hn, Hg.
Qed.

Lemma proc_flush_task_returns t : returns (fun m => deep level m t) (proc_flush_task t).
Proof.
  intros w Hd. unfold proc_flush_task. kunfold. apply tame_call. intros p m1 H1.
  pose proof (orderly_later _ _ (TaskPid t) _ _ p _ I H1) as L1. destruct H1 as (_ & _ & _ & _ & _ & _ & _ & Hp).
  specialize (Hp (lasts_deep level t _ _ L1 Hd)).
  apply tame_call. intros leader m2 H2. pose proof (orderly_later _ _ (ThreadGroupLeader t) _ _ leader _ I H2) as L2.
  cbn [mem after promised] in *. rewrite <- (later_levels _ _ L2) in Hp. apply tame_bind. destruct leader.
  - apply tame_call. intros q m3 H3. pose proof (orderly_later _ _ (TaskTgid t) _ _ q _ I H3) as L3.
    destruct H3 as (_ & _ & _ & _ & _ & _ & _ & Hq).
    specialize (Hq (lasts_deep level t _ _ (later_trans _ _ _ L1 (later_trans _ _ _ L2 L3)) Hd)). cbn [mem after promised] in *. rewrite <- (later_levels _ _ L3) in Hp.
    apply (returns_from level max_open _ _ _ _ (flush_numbers_returns t p (Some q))); [done|]. eauto using later_trans.
  - apply (returns_from level max_open _ _ _ _ (flush_numbers_returns t p None)); [done|]. eauto using later_trans.
Qed.

(** ** Directories *)

Lemma proc_pid_make_inode_returns P sb t : Lasts P -> returns P (proc_pid_make_inode sb t).
Proof. intros HP. unfold proc_pid_make_inode. returning. Qed.
Lemma apply_entry_returns P p i : Lasts P -> returns P (apply_entry p i).
Proof. intros HP. unfold apply_entry. returning. Qed.
#[local] Hint Resolve proc_pid_make_inode_returns apply_entry_returns : returns.

(** The functions that [lookup] and [readdir] make inodes with. *)
Definition instantiation (f : instantiate_t) : Prop := forall P dir dentry task, Lasts P -> returns P (f dir dentry task).

Ltac instantiation f := intros P dir dentry task HP; unfold f, inode_sb; returning.

Lemma proc_fd_instantiation fd : instantiation (proc_fd_instantiate fd).
Proof. instantiation proc_fd_instantiate. Qed.
Lemma proc_fdinfo_instantiation fd : instantiation (proc_fdinfo_instantiate fd).
Proof. instantiation proc_fdinfo_instantiate. Qed.
Lemma proc_pident_instantiation p : instantiation (proc_pident_instantiate p).
Proof. instantiation proc_pident_instantiate. Qed.
Lemma task_dir_instantiation iop fop stuff : instantiation (task_dir_instantiate iop fop stuff).
Proof. instantiation task_dir_instantiate. Qed.
Lemma proc_base_instantiation p : instantiation (proc_base_instantiate p).
Proof. instantiation proc_base_instantiate. Qed.

Lemma proc_pident_lookup_returns P dir d ents : Lasts P -> returns P (proc_pident_lookup dir d ents).
Proof. intros HP. unfold proc_pident_lookup. returning. by apply proc_pident_instantiation. Qed.
Lemma proc_lookupfd_common_returns P dir d f : Lasts P -> (forall fd, instantiation (f fd)) -> returns P (proc_lookupfd_common dir d f).
Proof. intros HP Hf. unfold proc_lookupfd_common. returning. by apply Hf. Qed.
Lemma proc_base_lookup_returns P dir d : Lasts P -> returns P (proc_base_lookup dir d).
Proof. intros HP. unfold proc_base_lookup. returning. by apply proc_base_instantiation. Qed.
#[local] Hint Resolve proc_base_lookup_returns : returns.
Lemma proc_pid_lookup_returns dir d : returns (fun _ => True) (proc_pid_lookup dir d).
Proof. unfold proc_pid_lookup, proc_pid_instantiate. returning. apply task_dir_instantiation. typeclasses eauto. Qed.
Lemma proc_task_lookup_returns dir d : returns (fun _ => True) (proc_task_lookup dir d).
Proof. unfold proc_task_lookup, proc_task_instantiate. returning. apply task_dir_instantiation. typeclasses eauto. Qed.

(** ** Listings *)

Lemma fill_cache_emit_returns P filp dir name n child : Lasts P -> returns P (fill_cache_emit filp dir name n child).
Proof. intros HP. unfold fill_cache_emit. returning. Qed.
#[local] Hint Resolve fill_cache_emit_returns : returns.

Lemma proc_fill_cache_returns filp name n f task : instantiation f -> returns (opened filp) (proc_fill_cache filp name n f task).
Proof.
  intros Hf. unfold proc_fill_cache. apply returns_read. intros m Hm.
  apply (returns_weaken _ _ _ (fun m' => attached m' (f_dentry (k_file m !!! filp)))).
  { intros m' Hl. by apply (later_attached _ _ Hl). }
  unfold fill_cache_child. returning.
Qed.

Lemma f_pos_inc_returns P filp : returns P (f_pos_inc filp).
Proof. unfold f_pos_inc. returning. Qed.
#[local] Hint Resolve f_pos_inc_returns : returns.
Lemma emit_dot_returns P filp name pos ino : Lasts P -> returns P (emit_dot filp name pos ino).
Proof. intros HP. unfold emit_dot. returning. Qed.
#[local] Hint Resolve emit_dot_returns : returns.
Lemma pident_dots_returns P filp d i n : Lasts P -> returns P (pident_dots filp d i n).
Proof. intros HP. unfold pident_dots. returning. Qed.
Lemma readfd_dots_returns P filp d i n : Lasts P -> returns P (readfd_dots filp d i n).
Proof. intros HP. unfold readfd_dots. returning. Qed.
#[local] Hint Resolve pident_dots_returns readfd_dots_returns : returns.
Lemma pident_loop_returns filp task ps : returns (opened filp) (pident_loop filp task ps).
Proof.
  induction ps as [|p ps IH]; cbn [pident_loop]; [returning|]. unfold proc_pident_fill_cache.
  apply returns_bind; [typeclasses eauto|apply proc_fill_cache_returns, proc_pident_instantiation|]. returning.
Qed.
#[local] Hint Resolve pident_loop_returns : returns.

(** The inode of the directory that is read. *)
Lemma directory_returns {B : Type} filp (k : dentry_id -> inode_id -> prog B) :
  (forall d i, returns (opened filp) (k d i)) ->
  returns (opened filp) (d ← gets (fun m => f_dentry (k_file m !!! filp)); i ← dentry_inode d; k d i).
Proof.
  intros Hk. apply returns_read. intros m Hm. set (d := f_dentry _) in *.
  apply (returns_weaken _ _ _ (fun m' => opened filp m' /\ attached m' d)).
  { intros m' Hl. split; [by apply (lasts m)|by apply (later_attached _ _ Hl)]. }
  apply returns_bind; [typeclasses eauto|returning|]. intros i. apply (returns_weaken _ _ _ (opened filp)); [tauto|]. apply Hk.
Qed.

Lemma proc_pident_readdir_returns filp ents : returns (opened filp) (proc_pident_readdir filp ents).
Proof. apply directory_returns. intros d i. unfold file_pos. returning. Qed.

(** The table of open files is never longer than [max_open]. *)
Lemma readfd_loop_returns filp files p f : (forall fd, instantiation (f fd)) -> forall fuel fd, 0 <= fd ->
  max_open < 2 ^ 32 -> max_open - fd <= Z.of_nat fuel -> returns (opened filp) (readfd_loop fuel filp files p fd f).
Proof.
  intros Hf. induction fuel as [|fuel IH]; intros fd H1 Hmax Hfuel; cbn [readfd_loop]; kunfold;
    (apply returns_answer; [typeclasses eauto|done|]); intros tr m max m1 _ (_ & _ & _ & _ & _ & _ & _ & Hm); cbn in Hm;
    (destruct (Z.ltb_spec fd max); [|returning]); [lia|].
  apply (returns_weaken _ _ _ (opened filp)); [tauto|]. assert (u32 (fd + 1) = fd + 1) as Hu by (apply u32_small; lia).
  returning; try (apply proc_fill_cache_returns, Hf); rewrite Hu; apply IH; lia.
Qed.

Lemma proc_readfd_common_returns fuel filp f : (forall fd, instantiation (f fd)) -> max_open < 2 ^ 32 ->
  (Z.to_nat max_open <= fuel)%nat -> returns (opened filp) (proc_readfd_common fuel filp f).
Proof.
  intros Hf Hmax Hfuel. apply directory_returns. intros d i. unfold readfd_files, file_pos. returning.
  apply readfd_loop_returns; [done| |done|]; pose proof (u32_range (a1 - 2)); lia.
Qed.
End Handlers.

(** ** Every access *)

Section Accesses.
Context `{Arch} `{Config} (limit sizeof_proc_mounts : Z) (level : task_id -> nat) (max_open : Z) (fuel : nat).
#[local] Abbreviation returns := (returns level max_open).
#[local] Abbreviation orderly := (orderly level max_open).
#[local] Abbreviation has_fop := (has_fop sizeof_proc_mounts fuel).

(** The accesses of [Ops], called the way the VFS calls them: a link is read
    into a buffer, a file is polled that [mounts_open] has opened, a dentry is
    revalidated and deleted that has its inode, a sequence is shown that was
    opened. The three walks over other tasks are left out. *)
Inductive served (m : kmem) : prog unit -> Prop :=
  | V_lookup dir dentry f : has_iop m dir op_lookup f -> served m (ignoring (f dir dentry))
  | V_readlink dentry inode f buf n : d_inode (k_dentry m !!! dentry) = Some inode ->
      has_iop m inode op_readlink f -> 0 <= n -> served m (ignoring (f dentry buf n))
  | V_permission inode f mask : has_iop m inode op_permission f -> served m (ignoring (f inode mask))
  | V_getattr dentry inode f : d_inode (k_dentry m !!! dentry) = Some inode ->
      has_iop m inode op_getattr f -> served m (ignoring (f dentry))
  | V_setattr inode f valid : has_iop m inode op_setattr f -> served m (ignoring (f inode valid))
  | V_read file inode f buf n pos : inode_of m file = Some inode -> has_fop m inode op_read f ->
      not_group_io (k_inode m !!! inode) -> served m (ignoring (f file buf n pos))
  | V_write file inode f buf n pos : inode_of m file = Some inode -> has_fop m inode op_write f ->
      served m (ignoring (f file buf n pos))
  | V_llseek file inode f off orig : inode_of m file = Some inode -> has_fop m inode op_llseek f ->
      served m (ignoring (f file off orig))
  | V_poll file inode f p : inode_of m file = Some inode -> has_fop m inode op_poll f ->
      f_private (k_file m !!! file) = PrivMounts p -> served m (ignoring (f file))
  | V_readdir file inode f : inode_of m file = Some inode -> has_fop m inode op_readdir f ->
      i_fop (k_inode m !!! inode) <> Some proc_task_operations -> served m (ignoring (f file))
  | V_revalidate dentry t : d_op (k_dentry m !!! dentry) = Some t -> attached m dentry ->
      served m (ignoring (op_revalidate (dentry_ops t) dentry))
  | V_delete dentry t : d_op (k_dentry m !!! dentry) = Some t -> attached m dentry ->
      served m (ignoring (op_delete (dentry_ops t) dentry))
  | V_single_show seq inode : k_seq_private m !!! seq = Some inode ->
      i_fop (k_inode m !!! inode) = Some proc_single_file_operations -> served m (ignoring (proc_single_show seq))
  | V_lstats_show seq inode : k_seq_private m !!! seq = Some inode -> served m (ignoring (lstats_show_proc seq))
  | V_sched_show seq inode : k_seq_private m !!! seq = Some inode -> served m (ignoring (sched_show seq))
  | V_root_lookup dir dentry : served m (ignoring (proc_pid_lookup dir dentry))
  | V_flush task : deep level m task -> served m (ignoring (proc_flush_task task)).

Lemma served_access m p : served m p -> access limit sizeof_proc_mounts fuel m p.
Proof.
  destruct 1; [eapply A_lookup|eapply A_readlink|eapply A_permission|eapply A_getattr|eapply A_setattr|eapply A_read
    |eapply A_write|eapply A_llseek|eapply A_poll|eapply A_readdir|apply A_revalidate|apply A_delete|eapply A_single_show
    |apply A_lstats_show|apply A_sched_show|apply A_root_lookup|apply A_flush]; eassumption.
Qed.

Lemma ignoring_returns {A : Type} P m (p : prog A) : returns P p -> P m -> returns (fun m' => m' = m) (ignoring p).
Proof. intros Hp Hm w <-. apply tame_bind. eapply tame_mono; [by apply Hp|]. intros a w' Hl. exact Hl. Qed.

Hypothesis max_open_fits : max_open < 2 ^ 32.
Hypothesis max_open_fuel : (Z.to_nat max_open <= fuel)%nat.

Create HintDb returners discriminated.
#[local] Hint Resolve proc_setattr_returns proc_pid_readlink_returns proc_self_readlink_returns proc_fd_permission_returns
  pid_getattr_returns proc_task_getattr_returns pid_delete_dentry_returns mounts_poll_returns oom_adjust_read_returns
  oom_adjust_write_returns proc_loginuid_read_returns proc_sessionid_read_returns proc_loginuid_write_returns
  proc_fault_inject_read_returns proc_fault_inject_write_returns sched_write_returns proc_pid_attr_read_returns
  proc_pid_attr_write_returns proc_coredump_filter_read_returns proc_coredump_filter_write_returns
  mem_read_returns mem_lseek_returns environ_read_returns lstats_file_write_returns
  proc_fdinfo_read_returns proc_task_lookup_returns proc_pident_lookup_returns proc_pident_readdir_returns
  proc_single_show_returns lstats_show_proc_returns sched_show_returns proc_pid_lookup_returns proc_flush_task_returns : returners.
#[local] Hint Extern 0 (Lasts _) => (typeclasses eauto) : returners.
#[local] Hint Constants Opaque : returners.

Lemma served_returns m p : served m p -> returns (fun m' => m' = m) p.
Proof.
  destruct 1 as [dir dentry f Hf|dentry inode f buf n Hd Hf Hn|inode f mask Hf|dentry inode f Hd Hf
    |inode f valid Hf|file inode f buf n pos Hd Hf Hio|file inode f buf n pos Hd Hf
    |file inode f off orig Hd Hf|file inode f p Hd Hf Hp|file inode f Hd Hf Ht|dentry t Hd Ha|dentry t Hd Ha
    |seq inode Hd Hi|seq inode Hd|seq inode Hd|dir dentry|task Hdeep];
    try (destruct Hf as (t & tab & Hi & Htab & Hf)); try destruct t; simplify_eq/=;
    try (assert (attached m dentry) by by eexists); try (assert (opened file m) by by eexists).
  all: try (solve [eapply (ignoring_returns (fun _ => True)); [auto with returners nocore|done]
    | eapply ignoring_returns; [solve [eauto with returners nocore]|done]]).
  all: match goal with
    | H : k_seq_private _ !!! _ = _ |- _ => apply (ignoring_returns (fun m => k_seq_private m !!! seq = Some inode)); [|exact H]
    | H : f_private _ = _ |- _ =>
        apply (ignoring_returns (fun m => f_private (k_file m !!! file) = PrivMounts p)); [apply mounts_poll_returns|exact H]
    | H : not_group_io _ |- returns _ (ignoring (proc_info_read _ _ _ _)) =>
        eapply ignoring_returns; [apply proc_info_read_returns|by split]
    | H : attached _ _ |- _ => apply (ignoring_returns (fun m => attached m dentry)); [|exact H]
    | H : opened _ _ |- _ => apply (ignoring_returns (opened file)); [|exact H]
    | _ => apply (ignoring_returns (fun _ => True)); [|done]
    end.
  all: unfold proc_lookupfd, proc_lookupfdinfo, proc_readfd, proc_readfdinfo, proc_attr_dir_lookup, proc_tgid_base_lookup,
    proc_tid_base_lookup, proc_attr_dir_readdir, proc_tgid_base_readdir, proc_tid_base_readdir.
  all: match goal with
    | |- returns _ (proc_lookupfd_common _ _ _) => apply proc_lookupfd_common_returns; [exact lasts_true|]
    | |- returns _ (proc_readfd_common _ _ _) => apply proc_readfd_common_returns; [|done..]
    | |- returns _ (proc_pident_lookup _ _ _) => apply proc_pident_lookup_returns; exact lasts_true
    | |- returns _ (proc_pident_readdir _ _) => apply proc_pident_readdir_returns
    | |- returns _ (pid_revalidate _) => apply pid_revalidate_returns; [typeclasses eauto|done]
    | |- returns _ (tid_fd_revalidate _) => apply tid_fd_revalidate_returns; [typeclasses eauto|done]
    | |- returns _ (proc_base_revalidate _) => apply proc_base_revalidate_returns; [typeclasses eauto|done]
    | |- returns _ (proc_single_show _) => apply proc_single_show_returns
    | |- returns _ (lstats_show_proc _) => apply lstats_show_proc_returns
    | |- returns _ (sched_show _) => apply sched_show_returns
    end.
  all: first [apply proc_fd_instantiation|apply proc_fdinfo_instantiation].
Qed.

(** C11: Every access returns. In an orderly kernel and a store whose inodes
    agree with their tables, whatever the rest of the kernel answers: a lookup,
    a reading or a writing of a file, link or directory, a permission check, a
    request for attributes, a revalidation, the text of a sequence file, the
    flush of an exiting task runs to its end - no endless loop, no NULL pointer,
    no copy from beyond a page, no wrong member of the union - with everything
    it took given back, and the inodes agree with their tables again. The three
    walks over other tasks are the matter of [Procs], [Tasks] and [Info]. *)
Theorem every_access_returns E w p : keeps E orderly -> store_typed (mem w) -> served (mem w) p ->
  ends E p w (fun _ w' => settled w w' /\ store_typed (mem w') /\ later (mem w) (mem w')).
Proof.
  intros HE Ht Hp. pose proof (served_access _ _ Hp) as Ha. apply (wp_ends _ _ _ _ _ HE). eapply wp_mono.
  - apply wp_wlp.
    + eapply wsafe_tame; [exact (orderly_marks level max_open)|exact (access_typing _ _ _ w p Ht Ha)|by apply (served_returns (mem w))].
    + apply (wlp_contract dir_stable); [exact (orderly_stable level max_open)|by apply (access_settles _ _ _ _ _ Ha)].
  - intros [] w' [[Ht' Hl] Hs]. done.
Qed.
End Accesses.

(** ** Witness: the link [exe] of [ops_mem], found and read in a kernel whose
    tasks live in the first pid namespace. *)

(** A pid with one number, if there is one. *)
Definition shallow_pid (m : kmem) : pid_id :=
  default 0%nat (fst <$> head (filter (fun x => length (pid_numbers x.2) = 1%nat) (map_to_list (k_pid m)))).

Lemma shallow_pid_found m : (exists q, length (pid_numbers (k_pid m !!! q)) = 1%nat) ->
  length (pid_numbers (k_pid m !!! shallow_pid m)) = 1%nat.
Proof.
  intros [q Hq]. unfold shallow_pid. destruct (filter _ _) as [|[p x] l] eqn:E.
  - exfalso. rewrite lookup_total_alt in Hq. destruct (k_pid m !! q) as [x|] eqn:Hl; [|done].
    apply elem_of_map_to_list in Hl. cbn in Hq.
    assert ((q, x) ∈ filter (fun x => length (pid_numbers x.2) = 1%nat) (map_to_list (k_pid m))) as Hin by (by apply list_elem_of_filter).
    rewrite E in Hin. by apply not_elem_of_nil in Hin.
  - assert ((p, x) ∈ filter (fun x => length (pid_numbers x.2) = 1%nat) (map_to_list (k_pid m))) as Hin by (rewrite E; left).
    apply list_elem_of_filter in Hin as [Hx Hin]. apply elem_of_map_to_list in Hin. cbn.
    by rewrite (lookup_total_correct _ _ _ Hin).
Qed.

Definition shallow_env : env := fun o tr m =>
  match o return ans o * kmem with
  | TaskPid _ | TaskTgid _ => (shallow_pid m, m)
  | o => ops_env o tr m
  end.

Lemma shallow_env_orderly : keeps shallow_env (orderly (fun _ => 0%nat) 0).
Proof.
  intros o tr m. assert (Hd : dir_stable o tr m (shallow_env o tr m).1 (shallow_env o tr m).2).
  { destruct o; try exact (ops_env_stable _ tr m); done. }
  assert (Hm : marks_kept o tr m (shallow_env o tr m).1 (shallow_env o tr m).2).
  { destruct o; try exact (ops_env_marks _ tr m); done. }
  split; [done|]. split; [done|]. clear Hd Hm.
  destruct o; cbn; try (by destruct m); split_and!; try (by destruct m); try done.
  all: try (intros _; lia).
  all: by apply shallow_pid_found.
Qed.

Lemma every_access_returns_witness :
  ends shallow_env (ignoring (proc_pid_readlink 8%nat 0 100)) ops_world
    (fun _ w' => settled ops_world w' /\ store_typed (mem w') /\ later (mem ops_world) (mem w')).
Proof.
  refine (@every_access_returns arch32 config_all 100 16 (fun _ => 0%nat) 0 10 _ _ shallow_env ops_world _ shallow_env_orderly _ _).
  - lia.
  - cbn. lia.
  - refine (@serves_rtc_typed arch32 config_all 100 16 10 ops_env (world0 ops_mem) ops_world ops_env_marks _ ops_mem_typed).
    apply rtc_once. refine (@S_entry arch32 config_all 100 16 10 ops_env (world0 ops_mem) ops_lookup ops_world _ _).
    + apply E_access. refine (@A_lookup arch32 config_all 100 16 10 ops_mem 6%nat 8%nat _ _).
      eexists _, _. split; [vm_compute; reflexivity|]. split; reflexivity.
    + vm_compute. reflexivity.
  - refine (@V_readlink arch32 config_all 16 (fun _ => 0%nat) 10 (mem ops_world) 8%nat 9%nat _ 0 100 _ _ _); [vm_compute; reflexivity| |lia].
    eexists _, _. split; [vm_compute; reflexivity|]. split; reflexivity.
Defined.
