(* ===== verification/Handles.v ===== *)
(** * What open files own (fs/proc/base.c)

    [Leaks] follows the calls that are over when they return. Some are not: an
    open file keeps its cursor, its namespace and its root, or its sequence,
    until it is released, and a walk through a link keeps the path it has come
    to. Here the system opens, uses and releases files and follows links in any
    order, and the references held are, at every moment, exactly those that the
    open files and the paths own. *)
From S2P Require Import Prelude Format Structs Kernel Access Names Tables Threads Info ExeFile Links Mounts MemFiles Controls Inodes Dirs Flush Procs Tasks Ops Leaks Returns.

Section Handles.
Context `{Arch} `{Config} (limit sizeof_proc_mounts : Z) (level : task_id -> nat) (max_open : Z) (fuel : nat).
#[local] Abbreviation orderly := (orderly level max_open).
#[local] Abbreviation returns := (returns level max_open).
#[local] Abbreviation has_fop := (has_fop sizeof_proc_mounts fuel).

(** ** The walks over other tasks

    What they leave as it was, should they end. *)
Definition abides {A : Type} (p : prog A) : Prop := forall w, wlp orderly p (fun _ w' => later (mem w) (mem w')) w.

Lemma tame_liberal {A : Type} R (p : prog A) (Q : A -> world -> Prop) w : tame R p Q w -> wlp R p Q w.
Proof. revert w. induction p as [a|o k IH|k IH|m k IH|y]; intros w; cbn; eauto. Qed.

Lemma returns_abides {A : Type} (p : prog A) : returns (fun _ => True) p -> abides p.
Proof. intros Hp w. by apply tame_liberal, Hp. Qed.

Lemma abides_halt {A : Type} y : abides (@Halt A y).
Proof. done. Qed.

Lemma abides_bind {A B : Type} (p : prog A) (f : A -> prog B) : abides p -> (forall a, abides (f a)) -> abides (p ≫= f).
Proof.
  intros Hp Hf w. apply wlp_bind. eapply wlp_mono; [apply Hp|]. intros a w1 H1.
  eapply wlp_mono; [apply Hf|]. intros b w2. by apply later_trans.
Qed.

Create HintDb abides.
#[local] Hint Resolve abides_halt : abides.
#[local] Hint Extern 2 (abides _) => (apply returns_abides; solve [auto with returns nocore]) : abides.

(** Proves [abides] of a program from its syntax. *)
Ltac abiding := kunfold; repeat first
  [ match goal with |- forall _, _ => intros ? end
  | solve [auto with abides nocore]
  | match goal with
    | |- abides (_ ≫= _) => apply abides_bind
    | |- abides (match ?x with _ => _ end) => destruct x
    | |- abides (match ?x with _ => _ end _) => destruct x
    end ].

Lemma dentry_inode_abides d : abides (dentry_inode d).
Proof. unfold dentry_inode. abiding. Qed.
#[local] Hint Resolve dentry_inode_abides : abides.

Lemma proc_fill_cache_abides filp name n f task : instantiation level max_open f -> abides (proc_fill_cache filp name n f task).
Proof.
  intros Hf. unfold proc_fill_cache, fill_cache_child, fill_cache_emit. abiding; apply returns_abides, Hf; exact lasts_true.
Qed.

Lemma emit_dot_abides filp name pos ino : abides (emit_dot filp name pos ino).
Proof. unfold emit_dot, f_pos_inc. abiding. Qed.
#[local] Hint Resolve emit_dot_abides : abides.

Lemma base_loop_abides filp task ps : abides (base_loop filp task ps).
Proof.
  induction ps as [|p ps IH]; cbn [base_loop]; unfold proc_base_fill_cache, f_pos_inc; [abiding|].
  apply abides_bind; [apply proc_fill_cache_abides, proc_base_instantiation|]. abiding.
Qed.
Lemma next_tgid_retry_abides ns n : forall t, abides (next_tgid_retry n ns t).
Proof. induction n as [|n IH]; intros t; cbn [next_tgid_retry]; abiding. Qed.
#[local] Hint Resolve base_loop_abides next_tgid_retry_abides : abides.
Lemma next_tgid_abides n ns it : abides (next_tgid n ns it).
Proof. unfold next_tgid. abiding. Qed.
#[local] Hint Resolve next_tgid_abides : abides.
Lemma tgid_loop_abides filp ns n : forall it, abides (tgid_loop n filp ns it).
Proof.
  induction n as [|n IH]; intros it; cbn [tgid_loop]; [abiding|]. destruct (it_task it) as [t|]; [|abiding].
  unfold set_file_pos, in_proc_pid_readdir, dummy_in_proc_pid_readdir, proc_pid_fill_cache, proc_pid_instantiate.
  destruct (numeric_name (it_tgid it)). abiding. apply proc_fill_cache_abides, task_dir_instantiation.
Qed.
#[local] Hint Resolve tgid_loop_abides : abides.
Lemma proc_pid_readdir_abides n filp : abides (proc_pid_readdir limit n filp).
Proof. unfold proc_pid_readdir, file_pos, set_file_pos. abiding. Qed.

Lemma walk_threads_abides leader n : forall t, abides (walk_threads n leader t).
Proof. induction n as [|n IH]; intros t; cbn [walk_threads]; abiding. Qed.
#[local] Hint Resolve walk_threads_abides : abides.
Lemma tid_loop_abides filp ns n : forall t, abides (tid_loop n filp ns t).
Proof.
  induction n as [|n IH]; intros [t|]; cbn [tid_loop]; unfold next_tid, f_pos_inc, proc_task_fill_cache, proc_task_instantiate; abiding.
  apply proc_fill_cache_abides, task_dir_instantiation.
Qed.
#[local] Hint Resolve tid_loop_abides : abides.
Lemma proc_task_readdir_abides n filp : abides (proc_task_readdir n filp).
Proof. unfold proc_task_readdir, task_dots, file_pos, first_tid, get_nr_threads. abiding. Qed.

Lemma add_threads_abides task n : forall t a, abides (add_threads n task t a).
Proof. induction n as [|n IH]; intros t a; cbn [add_threads]; abiding. Qed.
#[local] Hint Resolve add_threads_abides : abides.
Lemma call_proc_read_abides f t : abides (call_proc_read f t).
Proof.
  destruct (decide (f = F_proc_tgid_io_accounting)) as [->|Hne].
  - cbn [call_proc_read]. unfold proc_tgid_io_accounting, do_io_accounting. abiding.
  - apply returns_abides, call_proc_read_returns; [exact lasts_true|done].
Qed.
#[local] Hint Resolve call_proc_read_abides : abides.
Lemma proc_info_read_abides f b n pos : abides (proc_info_read f b n pos).
Proof. unfold proc_info_read, file_inode. abiding. Qed.

Inductive walk : prog unit -> Prop :=
  | W_root file : walk (ignoring (proc_pid_readdir limit fuel file))
  | W_task file : walk (ignoring (proc_task_readdir fuel file))
  | W_io file buf n pos : walk (ignoring (proc_info_read file buf n pos))
  | W_self dentry p : walk (ignoring (self_follow dentry p)).

Lemma ignoring_abides {A : Type} (p : prog A) : abides p -> abides (ignoring p).
Proof. intros Hp. apply abides_bind; [done|]. abiding. Qed.

Lemma walk_abides p : walk p -> abides p.
Proof.
  destruct 1; apply ignoring_abides; [apply proc_pid_readdir_abides|apply proc_task_readdir_abides|apply proc_info_read_abides|].
  unfold self_follow, proc_self_follow_link. abiding.
Qed.
Lemma walk_settles p : walk p -> settles p.
Proof.
  destruct 1; apply ignoring_settles; [apply proc_pid_readdir_settles|apply proc_task_readdir_settles|apply proc_info_read_settles|].
  unfold self_follow, proc_self_follow_link. settle.
Qed.

(** ** Opening a file *)

(** What an open file owns, by the table it was opened with. *)
Definition owned (m : kmem) (o : file_id * file_operations) : list res :=
  match o.2 with
  | proc_mounts_operations | proc_mountinfo_operations | proc_mountstats_operations =>
      match f_private (k_file m !!! o.1) with
      | PrivMounts p => [RMem p; RPath (pm_root (k_mounts m !!! p)); RMntNs (pm_ns (k_mounts m !!! p))]
      | _ => []
      end
  | proc_lstats_operations | proc_single_file_operations | proc_pid_sched_operations => [RSeq o.1]
  | _ => []
  end.

Definition mounts_table (t : file_operations) : Prop :=
  t = proc_mounts_operations \/ t = proc_mountinfo_operations \/ t = proc_mountstats_operations.

Lemma owned_kept m m' f t : f_private (k_file m' !!! f) = f_private (k_file m !!! f) ->
  (mounts_table t -> forall p, f_private (k_file m !!! f) = PrivMounts p ->
     pm_ns (k_mounts m' !!! p) = pm_ns (k_mounts m !!! p) /\ pm_root (k_mounts m' !!! p) = pm_root (k_mounts m !!! p)) ->
  owned m' (f, t) = owned m (f, t).
Proof.
  intros Hf Hc. unfold owned. cbn [fst snd]. rewrite Hf. unfold mounts_table in Hc.
  destruct t; try done; (destruct (f_private (k_file m !!! f)) as [| |p|]; [done|done| |done]);
    (destruct (Hc ltac:(tauto) p eq_refl) as [-> ->]; done).
Qed.

Lemma owned_later m m' o : later m m' -> owned m' o = owned m o.
Proof. intros Hl. destruct o as [f t]. apply owned_kept; [apply (later_private _ _ Hl)|]. intros _ p _. apply (later_cursor _ _ Hl). Qed.

(** An open changes the file it is given, and writes one cursor, its own. *)
Definition cursor_kept (m m' : kmem) (p : ptr) : Prop :=
  pm_ns (k_mounts m' !!! p) = pm_ns (k_mounts m !!! p) /\ pm_root (k_mounts m' !!! p) = pm_root (k_mounts m !!! p).

Definition beside (file : file_id) (r : Z) (m m' : kmem) : Prop :=
  (forall g, g <> file -> f_private (k_file m' !!! g) = f_private (k_file m !!! g)) /\
  (forall p, (r = 0 -> f_private (k_file m' !!! file) <> PrivMounts p) -> cursor_kept m m' p).

(** ... and before that it writes none. *)
Definition but_file (file : file_id) (m m' : kmem) : Prop :=
  (forall g, g <> file -> f_private (k_file m' !!! g) = f_private (k_file m !!! g)) /\ forall p, cursor_kept m m' p.

Lemma but_file_later file m1 m2 m3 : but_file file m1 m2 -> later m2 m3 -> but_file file m1 m3.
Proof.
  intros [Hf Hc] Hl. split.
  - intros g Hg. rewrite <- (Hf g Hg). apply (later_private _ _ Hl).
  - intros p. destruct (Hc p), (later_cursor _ _ Hl p). split; congruence.
Qed.

Lemma later_but_file file m m' : later m m' -> but_file file m m'.
Proof. apply but_file_later. done. Qed.

Lemma but_file_beside file r m m' : but_file file m m' -> beside file r m m'.
Proof. intros [Hf Hc]. by split. Qed.

(** A part that abides, on the way and at the end. *)
Lemma abides_then {A B : Type} file m (p : prog A) (f : A -> prog B) Q w : abides p -> but_file file m (mem w) ->
  (forall a w', but_file file m (mem w') -> wlp orderly (f a) Q w') -> wlp orderly (p ≫= f) Q w.
Proof.
  intros Hp Hm Hf. apply wlp_bind. eapply wlp_mono; [apply Hp|]. intros a w' Hl. apply Hf. by apply (but_file_later _ _ (mem w)).
Qed.

Lemma abides_last file m (p : prog Z) w : abides p -> but_file file m (mem w) ->
  wlp orderly p (fun r w' => beside file r m (mem w')) w.
Proof.
  intros Hp Hm. eapply wlp_mono; [apply Hp|]. intros a w' Hl. by apply but_file_beside, (but_file_later _ _ (mem w)).
Qed.

Lemma set_f_private_others file v m g : g <> file ->
  f_private (k_file (upd_file file (set_f_private v) m) !!! g) = f_private (k_file m !!! g).
Proof. intros Hg. by rewrite k_file_upd_file, lookup_total_insert_ne. Qed.

Lemma set_f_private_own file v m : f_private (k_file (upd_file file (set_f_private v) m) !!! file) = v.
Proof. rewrite k_file_upd_file, lookup_total_insert_eq. by destruct (k_file m !!! file). Qed.

Lemma mounts_open_beside inode file op w :
  wlp orderly (mounts_open_common sizeof_proc_mounts inode file op) (fun r w' => beside file r (mem w) (mem w')) w.
Proof.
  assert (Herr : forall ns r root p, abides (mounts_err_put_ns ns r) /\ abides (mounts_err_put_path ns root r) /\ abides (mounts_err_free ns root p r)).
  { intros. unfold mounts_err_free, mounts_err_put_path, mounts_err_put_ns. split_and!; abiding. }
  unfold mounts_open_common. kunfold. set (m := mem w). assert (but_file file m (mem w)) as Hm0 by done.
  apply (abides_then file m); [abiding|done|]. intros task w1 Hm1.
  apply (abides_then file m); [unfold mounts_task_ns, get_fs_path; abiding|done|]. intros [[r ns] root] w2 Hm2.
  destruct ns as [ns|]; [|apply abides_last; [abiding|done]].
  destruct (negb (r =? 0)); [apply abides_last; [apply (Herr ns r inhabitant 0%nat)|done]|].
  destruct root as [root|]; [|exact I]. apply (abides_then file m); [abiding|done|]. intros [p|] w3 Hp3; [|apply abides_last; [apply (Herr ns _ root 0%nat)|done]].
  cbn -[upd_file upd_mounts orderly mounts_err_free]. intros r4 m4 H4. pose proof (orderly_later _ _ (SeqOpen file op) _ _ r4 _ I H4) as L4.
  set (m3 := upd_file file _ _) in *. assert (but_file file m m3) as Hm3.
  { destruct Hp3 as [Hf Hc]. split; [|intros q; destruct (Hc q); subst m3; unfold cursor_kept; by destruct (mem w3)].
    intros g Hg. rewrite <- (Hf g Hg). by apply set_f_private_others. }
  pose proof (but_file_later _ _ _ _ Hm3 L4) as Hm4.
  destruct (Z.eqb_spec r4 0) as [->|Hne]; cbn [negb]; [|apply abides_last; [apply Herr|done]].
  cbn -[upd_mounts]. split.
  - intros g Hg. rewrite <- (proj1 Hm4 g Hg). by destruct m4.
  - intros q Hq. specialize (Hq eq_refl). assert (q <> p) as Hne.
    { intros ->. apply Hq. transitivity (f_private (k_file m4 !!! file)); [by destruct m4|].
      rewrite (later_private _ _ L4). apply set_f_private_own. }
    unfold cursor_kept. rewrite k_mounts_upd_mounts, lookup_total_insert_ne by done. apply (proj2 Hm4).
Qed.

Lemma mem_open_beside inode file w : wlp orderly (mem_open inode file) (fun r w' => beside file r (mem w) (mem w')) w.
Proof.
  unfold mem_open. cbn -[upd_file]. apply but_file_beside. split; [by intros g Hg; apply set_f_private_others|].
  intros p. unfold cursor_kept. by destruct (mem w).
Qed.

(** [single_open] writes the file's private data. *)
Lemma single_open_but_file f show data w x m : orderly (SingleOpen f show data) (log w) (mem w) x m -> but_file f (mem w) m.
Proof.
  intros ((_ & Hf & _) & _ & _ & _ & Hc & _). split; [intros g Hg; by rewrite Hf|]. intros p. unfold cursor_kept. by rewrite Hc.
Qed.

Lemma lstats_open_beside inode file w : wlp orderly (lstats_open inode file) (fun r w' => beside file r (mem w) (mem w')) w.
Proof. unfold lstats_open. kunfold. cbn -[orderly]. intros x m Hx. by apply but_file_beside, (single_open_but_file _ _ _ _ _ _ Hx). Qed.

Lemma single_open_private_beside inode file show w :
  wlp orderly (single_open_private inode file show) (fun r w' => beside file r (mem w) (mem w')) w.
Proof.
  unfold single_open_private. kunfold. apply wlp_bind. cbn -[orderly upd_seq]. intros x m Hx.
  pose proof (single_open_but_file _ _ _ _ _ _ Hx) as Hm. destruct (x =? 0); [|by apply but_file_beside].
  cbn -[upd_seq]. destruct (f_private _) as [| | |q]; try exact I. cbn -[upd_seq]. apply but_file_beside.
  destruct Hm as [Hf Hc]. split; [intros g Hg; rewrite <- (Hf g Hg); by destruct m|].
  intros p. destruct (Hc p). unfold cursor_kept. by destruct m.
Qed.

(** What an open that ends has taken: all that the file owns, or nothing. *)
Definition took (file : file_id) (t : file_operations) (w : world) (r : Z) (w' : world) : Prop :=
  bad w' = bad w /\ if r =? 0 then held w' = owned (mem w') (file, t) ++ held w else held w' = held w.

Lemma orderly_mounts o tr m x m' : orderly o tr m x m' -> mounts_stable o tr m x m'.
Proof. intros (Hd & _ & _ & _ & Hc & _). destruct o; try done; (split; [apply Hd|done]). Qed.

Lemma mounts_open_took t inode file op w : mounts_table t ->
  wlp orderly (mounts_open_common sizeof_proc_mounts inode file op) (fun r w' => took file t w r w' /\
    (r = 0 -> exists p, f_private (k_file (mem w') !!! file) = PrivMounts p)) w.
Proof.
  intros Ht. apply (wlp_contract mounts_stable); [exact orderly_mounts|]. eapply wlp_mono; [apply wp_liberal, mounts_open_wp|].
  intros r w' [[-> Ho]|[Hr [Hh Hb]]].
  - destruct Ho as (p & ns & root & event & [Hh Hb] & Hf & Hm). split; [|intros _; by exists p]. split; [done|]. cbn [Z.eqb].
    rewrite Hh. unfold owned. cbn [fst snd]. rewrite Hf, Hm. by destruct Ht as [->|[->| ->]].
  - destruct (Z.eqb_spec r 0); [done|]. split; [|done]. split; [done|]. destruct (Z.eqb_spec r 0); done.
Qed.

Lemma single_open_private_took t inode file show w : t = proc_single_file_operations \/ t = proc_pid_sched_operations ->
  wlp orderly (single_open_private inode file show) (fun r w' => took file t w r w') w.
Proof.
  intros Ht. destruct w as [m h b l]. unfold single_open_private, took. kunfold. lcbn. intros x m1 _.
  destruct (x =? 0) eqn:E; lcbn; rewrite ?E; [|done]. destruct (f_private _); try exact I. lcbn. rewrite E.
  by destruct Ht as [->| ->].
Qed.

Lemma lstats_open_took inode file w : wlp orderly (lstats_open inode file) (fun r w' => took file proc_lstats_operations w r w') w.
Proof. destruct w as [m h b l]. unfold lstats_open, took. kunfold. lcbn. intros x m1 _. by destruct (x =? 0). Qed.

(** The open functions of the tables. *)
Lemma open_cases t tab g : file_ops sizeof_proc_mounts fuel t = Some tab -> op_open tab = Here g ->
  (mounts_table t /\ exists op, forall i f, g i f = mounts_open_common sizeof_proc_mounts i f op) \/
  (t = proc_lstats_operations /\ g = lstats_open) \/
  ((t = proc_single_file_operations \/ t = proc_pid_sched_operations) /\ exists show, forall i f, g i f = single_open_private i f show) \/
  (t = proc_mem_operations /\ g = mem_open).
Proof.
  unfold mounts_table. destruct t; intros Ht; try discriminate Ht; injection Ht as <-; intros Hg; try discriminate Hg; injection Hg as <-; eauto 8.
Qed.

Lemma open_effect t tab g inode file w : file_ops sizeof_proc_mounts fuel t = Some tab -> op_open tab = Here g ->
  wlp orderly (g inode file) (fun r w' => (took file t w r w' /\
    (mounts_table t -> r = 0 -> exists p, f_private (k_file (mem w') !!! file) = PrivMounts p)) /\
    beside file r (mem w) (mem w')) w.
Proof.
  intros Ht Hg.
  assert (Hno : forall r w', took file t w r w' -> ~ mounts_table t -> took file t w r w' /\
    (mounts_table t -> r = 0 -> exists p, f_private (k_file (mem w') !!! file) = PrivMounts p)) by tauto.
  destruct (open_cases t tab g Ht Hg) as [[Hm [op ->]]|[[-> ->]|[[Hs [show ->]]|[-> ->]]]];
    apply (wlp_both _ _ (fun r w' => took file _ w r w' /\ (mounts_table _ -> r = 0 -> exists p, f_private (k_file (mem w') !!! file) = PrivMounts p))
      (fun r w' => beside file r (mem w) (mem w'))).
  - eapply wlp_mono; [by apply mounts_open_took|]. intros r w' [Hr Hp]. by split.
  - apply mounts_open_beside.
  - eapply wlp_mono; [apply lstats_open_took|]. intros r w' Hr. apply (Hno r w' Hr). by intros [|[|]].
  - apply lstats_open_beside.
  - eapply wlp_mono; [by apply single_open_private_took|]. intros r w' Hr. apply (Hno r w' Hr).
    destruct Hs as [->| ->]; by intros [|[|]].
  - apply single_open_private_beside.
  - destruct w as [m h b l]. apply (Hno 0); [|by intros [|[|]]]. unfold took. done.
  - apply mem_open_beside.
Qed.

(** ** Releasing a file, following a link *)

Lemma mounts_release_wp inode file p rest w : f_private (k_file (mem w) !!! file) = PrivMounts p ->
  held w ≡ₚ [RMem p; RPath (pm_root (k_mounts (mem w) !!! p)); RMntNs (pm_ns (k_mounts (mem w) !!! p))] ++ rest ->
  wp orderly (mounts_release inode file) (fun _ w' => held w' ≡ₚ rest /\ bad w' = bad w /\ later (mem w) (mem w')) w.
Proof.
  intros Hf Hh. destruct w as [m h b l]. cbn [mem held] in *. unfold mounts_release, file_mounts. kunfold. kcbn. rewrite Hf. kcbn.
  set (root := pm_root _) in *. set (ns := pm_ns _) in *.
  destruct (release_rest (RPath root) h (RMem p :: RMntNs ns :: rest)) as [E1 P1]; [by rewrite Hh, Permutation_swap|].
  destruct (release_rest (RMntNs ns) (release (RPath root) h) (RMem p :: rest)) as [E2 P2]; [by rewrite P1, Permutation_swap|].
  destruct (release_rest (RMem p) (release (RMntNs ns) (release (RPath root) h)) rest) as [E3 P3]; [done|].
  intros [] m1 H1. pose proof (orderly_later _ _ (PathPut root) _ _ tt _ I H1) as L1. rewrite E1. kcbn.
  rewrite (proj1 (later_cursor _ _ L1 p)). fold ns.
  intros [] m2 H2. pose proof (orderly_later _ _ (PutMntNs ns) _ _ tt _ I H2) as L2. rewrite E2. kcbn.
  intros x m3 H3. pose proof (orderly_later _ _ (SeqRelease inode file (PrivMounts p)) _ _ x _ I H3) as L3. rewrite E3.
  split; [exact P3|]. split; [done|]. by eapply later_trans; [|eapply later_trans].
Qed.

Lemma proc_pid_follow_link_wlp dentry p rest w : held w ≡ₚ RPath p :: rest ->
  wlp orderly (proc_pid_follow_link dentry p) (fun r w' => (held w' ≡ₚ opt_res RPath r.2 ++ rest /\
    exists k, bad w' = k ++ bad w /\ Forall excused k) /\ later (mem w) (mem w')) w.
Proof.
  intros Hh. destruct (release_rest _ _ _ Hh) as [E1 P1]. apply wlp_both.
  - apply (wlp_contract dir_stable); [exact (orderly_stable level max_open)|]. destruct w as [m h b l]. cbn [held bad] in *.
    unfold proc_pid_follow_link. apply (settles_step (dentry_inode _)); [apply dentry_inode_settles|]. intros i m1 l1 k1 Hk1.
    kunfold. lcbn. rewrite E1. lcbn. intros [] m2 _.
    apply (settles_step (proc_fd_access_allowed _)); [unfold proc_fd_access_allowed; settle|]. intros [|] m3 l3 k3 Hk3; lcbn.
    + apply call_get_link_wlp. intros r q m4 l4 _. cbn [snd held bad]. split; [by rewrite P1|].
      exists (k3 ++ k1). split; [by rewrite app_assoc|]. by apply Forall_app.
    + split; [exact P1|]. exists (k3 ++ k1). split; [by rewrite app_assoc|]. by apply Forall_app.
  - clear. revert w. change (abides (proc_pid_follow_link dentry p)). unfold proc_pid_follow_link, proc_fd_access_allowed. abiding.
    apply returns_abides, call_get_link_returns. exact lasts_true.
Qed.
(** ** Open files and walks

    The store and the resources, the open files with the table each was opened
    with, and the paths that walks have come to. *)
Record desk := Desk {
  now : world;
  files : list (file_id * file_operations);
  ways : list path;
}.

(** What has an owner. *)
Definition owed (m : kmem) (os : list (file_id * file_operations)) (ps : list path) : list res :=
  flat_map (owned m) os ++ (RPath <$> ps).

(** The open files: each is open once, and a mount file has a cursor of its own. *)
Record filed (m : kmem) (os : list (file_id * file_operations)) : Prop := Filed {
  filed_once : NoDup os.*1;
  filed_cursor : forall f t, (f, t) ∈ os -> mounts_table t -> exists p, f_private (k_file m !!! f) = PrivMounts p;
  filed_own : forall f t f' t' p, (f, t) ∈ os -> (f', t') ∈ os -> mounts_table t -> mounts_table t' ->
    f_private (k_file m !!! f) = PrivMounts p -> f_private (k_file m !!! f') = PrivMounts p -> f = f';
}.

Record accounted (s : desk) : Prop := Accounted {
  acc_held : held (now s) ≡ₚ owed (mem (now s)) (files s) (ways s);
  acc_bad : Forall excused (bad (now s));
  acc_files : filed (mem (now s)) (files s);
}.

(** What the VFS does with a reference by itself. *)
Definition taken (r : res) (w : world) : world := World (mem w) (r :: held w) (bad w) (log w).
Definition given (r : res) (w : world) : world :=
  World (mem w) (release r (held w)) ((if holds (held w) r then [] else [Unheld r]) ++ bad w) (log w).

Section Env.
Context (E : env).

(** An access to a file, link or directory; a file opened - [kmalloc] answers no
    memory that is held - and released, by the function of its table, by
    [single_release] or by none; a link followed by a walk; the VFS taking and
    leaving paths; the rest of the kernel. *)
Inductive goes : desk -> desk -> Prop :=
  | G_access w os ps p w' : served sizeof_proc_mounts level fuel (mem w) p \/ walk p -> run E p w = (Done tt, w') ->
      goes (Desk w os ps) (Desk w' os ps)
  | G_open w os ps inode file t tab g r w' : file ∉ os.*1 -> i_fop (k_inode (mem w) !!! inode) = Some t ->
      file_ops sizeof_proc_mounts fuel t = Some tab -> op_open tab = Here g -> run E (g inode file) w = (Done r, w') ->
      (r = 0 -> forall p, f_private (k_file (mem w') !!! file) = PrivMounts p -> RMem p ∉ held w) ->
      goes (Desk w os ps) (Desk w' (if r =? 0 then (file, t) :: os else os) ps)
  | G_open_plain w os ps inode file t tab : file ∉ os.*1 -> i_fop (k_inode (mem w) !!! inode) = Some t ->
      file_ops sizeof_proc_mounts fuel t = Some tab -> (forall g, op_open tab <> Here g) ->
      goes (Desk w os ps) (Desk w ((file, t) :: os) ps)
  | G_release w os ps inode file t tab g r w' rest : os ≡ₚ (file, t) :: rest ->
      file_ops sizeof_proc_mounts fuel t = Some tab -> op_release tab = Here g -> run E (g inode file) w = (Done r, w') ->
      goes (Desk w os ps) (Desk w' rest ps)
  | G_single_release w os ps file t tab rest : os ≡ₚ (file, t) :: rest ->
      file_ops sizeof_proc_mounts fuel t = Some tab -> op_release tab = Elsewhere single_release ->
      goes (Desk w os ps) (Desk (given (RSeq file) w) rest ps)
  | G_close w os ps file t tab rest : os ≡ₚ (file, t) :: rest ->
      file_ops sizeof_proc_mounts fuel t = Some tab -> op_release tab = Null ->
      goes (Desk w os ps) (Desk w rest ps)
  | G_follow w os ps dentry inode p rest r q w' : ps ≡ₚ p :: rest -> d_inode (k_dentry (mem w) !!! dentry) = Some inode ->
      has_iop (mem w) inode op_follow_link proc_pid_follow_link -> run E (proc_pid_follow_link dentry p) w = (Done (r, q), w') ->
      goes (Desk w os ps) (Desk w' os (option_list q ++ rest))
  | G_path_get w os ps p : goes (Desk w os ps) (Desk (taken (RPath p) w) os (p :: ps))
  | G_path_put w os ps p rest : ps ≡ₚ p :: rest -> goes (Desk w os ps) (Desk (given (RPath p) w) os rest)
  | G_kernel w os ps m : later (mem w) m -> goes (Desk w os ps) (Desk (set_mem m w) os ps).

(** *** What a step keeps *)

Lemma owed_kept m m' os ps : (forall o, o ∈ os -> owned m' o = owned m o) -> owed m' os ps = owed m os ps.
Proof.
  intros Ho. unfold owed. f_equal. induction os as [|o os IH]; [done|]. cbn. rewrite (Ho o) by left. f_equal.
  apply IH. intros o' Hin. apply Ho. by right.
Qed.

Lemma owed_closed m os o rest ps : os ≡ₚ o :: rest -> owed m os ps ≡ₚ owned m o ++ owed m rest ps.
Proof. intros Ho. unfold owed. rewrite Ho. cbn. by rewrite app_assoc. Qed.

Lemma owed_left m os ps p rest : ps ≡ₚ p :: rest -> owed m os ps ≡ₚ RPath p :: owed m os rest.
Proof. intros Hp. unfold owed. rewrite Hp. cbn. by rewrite Permutation_middle. Qed.

Lemma filed_kept m m' os : (forall f t, (f, t) ∈ os -> f_private (k_file m' !!! f) = f_private (k_file m !!! f)) ->
  filed m os -> filed m' os.
Proof.
  intros Hf [H1 H2 H3]. split; [done| |].
  - intros f t Hin. rewrite (Hf _ _ Hin). eauto.
  - intros f t f' t' p Hin Hin'. rewrite (Hf _ _ Hin), (Hf _ _ Hin'). eauto.
Qed.

Lemma filed_closed m os o rest : os ≡ₚ o :: rest -> filed m os -> filed m rest.
Proof.
  intros Ho [H1 H2 H3].
  assert (forall x, x ∈ rest -> x ∈ os) as Hin by (intros x Hx; rewrite Ho; by right).
  split; [|intros f t Hf; apply (H2 f t); auto|intros f t f' t' p Hf Hf'; apply (H3 f t f' t' p); auto].
  rewrite Ho in H1. by apply NoDup_cons in H1 as [_ H1].
Qed.

Lemma accounted_later w w' os ps : accounted (Desk w os ps) -> later (mem w) (mem w') -> held w' ≡ₚ held w ->
  Forall excused (bad w') -> accounted (Desk w' os ps).
Proof.
  intros [Hh _ Hf] Hl Hw Hb. cbn [now files ways] in *. split; cbn [now files ways]; [|done|].
  - rewrite Hw, Hh. rewrite (owed_kept (mem w) (mem w')); [done|]. intros o _. by apply owned_later.
  - apply (filed_kept (mem w)); [|done]. intros f t _. apply (later_private _ _ Hl).
Qed.

(** A file is closed whose own references have been given back. *)
Lemma accounted_closed w w' os ps o rest : accounted (Desk w os ps) -> os ≡ₚ o :: rest -> later (mem w) (mem w') ->
  held w' ≡ₚ owed (mem w) rest ps -> Forall excused (bad w') -> accounted (Desk w' rest ps).
Proof.
  intros [Hh _ Hf] Ho Hl Hw Hb. cbn [now files ways] in *. apply (accounted_later (World (mem w) (held w') (bad w') []));
    cbn [mem held bad]; [|done..]. split; cbn [now files ways held bad mem]; [done..|]. by apply (filed_closed _ os o).
Qed.

Lemma given_excused r w : holds (held w) r = true -> bad (given r w) = bad w.
Proof. intros Hr. unfold given. cbn [bad]. by rewrite Hr. Qed.

(** What a file owns is in the hands of the system. *)
Lemma accounted_owned w os ps o rest : accounted (Desk w os ps) -> os ≡ₚ o :: rest ->
  held w ≡ₚ owned (mem w) o ++ owed (mem w) rest ps.
Proof. intros [Hh _ _] Ho. cbn in Hh. rewrite Hh. by apply owed_closed. Qed.

(** *** Releasing *)

Lemma release_cases t tab g : file_ops sizeof_proc_mounts fuel t = Some tab -> op_release tab = Here g ->
  mounts_table t /\ g = mounts_release.
Proof.
  unfold mounts_table. destruct t; intros Ht; try discriminate Ht; injection Ht as <-; intros Hg; try discriminate Hg; injection Hg as <-; eauto.
Qed.

Lemma single_cases t tab m file : file_ops sizeof_proc_mounts fuel t = Some tab -> op_release tab = Elsewhere single_release ->
  owned m (file, t) = [RSeq file].
Proof.
  destruct t; intros Ht; try discriminate Ht; injection Ht as <-; intros Hg; (discriminate Hg || reflexivity).
Qed.

Lemma plain_cases t tab m file : file_ops sizeof_proc_mounts fuel t = Some tab -> op_release tab = Null -> owned m (file, t) = [].
Proof.
  destruct t; intros Ht; try discriminate Ht; injection Ht as <-; intros Hg; (discriminate Hg || reflexivity).
Qed.

Lemma no_open_cases t tab m file : file_ops sizeof_proc_mounts fuel t = Some tab -> (forall g, op_open tab <> Here g) ->
  owned m (file, t) = [] /\ ~ mounts_table t.
Proof.
  destruct t; intros Ht; try discriminate Ht; injection Ht as <-; intros Hg; try (by destruct (Hg _ eq_refl));
    (split; [reflexivity|by intros [|[|]]]).
Qed.

Lemma release_accounted w os ps inode file t rest : accounted (Desk w os ps) -> os ≡ₚ (file, t) :: rest -> mounts_table t ->
  wp orderly (mounts_release inode file) (fun _ w' => accounted (Desk w' rest ps)) w.
Proof.
  intros Ha Ho Ht. pose proof (accounted_owned _ _ _ _ _ Ha Ho) as Hh.
  destruct (filed_cursor _ _ (acc_files _ Ha) file t) as [p Hp]; [cbn; rewrite Ho; left|done|]. cbn in Hp.
  assert (owned (mem w) (file, t) = [RMem p; RPath (pm_root (k_mounts (mem w) !!! p)); RMntNs (pm_ns (k_mounts (mem w) !!! p))]) as Hown.
  { unfold owned. cbn [fst snd]. rewrite Hp. by destruct Ht as [->|[->| ->]]. }
  rewrite Hown in Hh. eapply wp_mono; [by apply (mounts_release_wp inode file p)|]. intros r w' (H1 & H2 & H3).
  apply (accounted_closed w w' os ps (file, t)); [done..|]. rewrite H2. apply (acc_bad _ Ha).
Qed.

(** *** Opening *)

(** The cursor of an open mount file is memory that is held. *)
Lemma cursor_held w os ps f t p : accounted (Desk w os ps) -> (f, t) ∈ os -> mounts_table t ->
  f_private (k_file (mem w) !!! f) = PrivMounts p -> RMem p ∈ held w.
Proof.
  intros [Hh _ _] Hin Ht Hp. cbn in Hh. rewrite Hh. apply elem_of_app. left. apply list_elem_of_In, in_flat_map.
  exists (f, t). split; [by apply list_elem_of_In|]. unfold owned. cbn [fst snd]. rewrite Hp. destruct Ht as [->|[->| ->]]; by left.
Qed.

Lemma open_accounted w os ps file t r w' : accounted (Desk w os ps) -> file ∉ os.*1 -> took file t w r w' ->
  (mounts_table t -> r = 0 -> exists p, f_private (k_file (mem w') !!! file) = PrivMounts p) ->
  beside file r (mem w) (mem w') ->
  (r = 0 -> forall p, f_private (k_file (mem w') !!! file) = PrivMounts p -> RMem p ∉ held w) ->
  accounted (Desk w' (if r =? 0 then (file, t) :: os else os) ps).
Proof.
  intros Ha Hnew [Hb Hh] Hp [Hother Hcur] Hfresh.
  assert (Hne : forall f t', (f, t') ∈ os -> f <> file).
  { intros f t' Hin ->. apply Hnew. apply list_elem_of_fmap. by exists (file, t'). }
  assert (Hpriv : forall f t', (f, t') ∈ os -> f_private (k_file (mem w') !!! f) = f_private (k_file (mem w) !!! f)) by eauto.
  assert (Hold : filed (mem w') os) by (by apply (filed_kept (mem w)), (acc_files _ Ha)).
  assert (Howed : owed (mem w') os ps = owed (mem w) os ps).
  { apply owed_kept. intros [f t'] Hin. apply owned_kept; [eauto|]. intros Ht p Hf. apply Hcur. intros Hr Hfile.
    apply (Hfresh Hr p Hfile). by apply (cursor_held w os ps f t'). }
  pose proof (acc_held _ Ha) as Hw. cbn [now files ways] in Hw. rewrite <- Howed in Hw. destruct (Z.eqb_spec r 0) as [Hr|Hr].
  - split; cbn [now files ways]; [|rewrite Hb; apply (acc_bad _ Ha)|].
    + rewrite Hh, Hw. unfold owed. cbn. by rewrite app_assoc.
    + destruct Hold as [H1 H2 H3]. split.
      * cbn. by apply NoDup_cons.
      * intros f t' [[= -> ->]|Hin]%elem_of_cons Ht; eauto.
      * assert (Hsep : forall f t' p, (f, t') ∈ os -> mounts_table t' -> f_private (k_file (mem w') !!! f) = PrivMounts p ->
          f_private (k_file (mem w') !!! file) = PrivMounts p -> False).
        { intros f t' p Hin Ht Hf Hfile. apply (Hfresh Hr p Hfile), (cursor_held w os ps f t'); [done..|]. by rewrite <- (Hpriv f t'). }
        intros f t1 f' t2 p [[= -> ->]|Hin]%elem_of_cons [[= -> ->]|Hin']%elem_of_cons Ht1 Ht2 Hf Hf'; [done| | |eauto].
        -- destruct (Hsep f' t2 p); done.
        -- destruct (Hsep f t1 p); done.
  - split; cbn [now files ways]; [by rewrite Hh|rewrite Hb; apply (acc_bad _ Ha)|done].
Qed.

(** *** Every step *)

Hypothesis HE : keeps E orderly.
Hypothesis max_open_fits : max_open < 2 ^ 32.
Hypothesis max_open_fuel : (Z.to_nat max_open <= fuel)%nat.

(** A program over by itself. *)
Lemma settled_accounted w os ps p w' : settles p -> wlp orderly p (fun _ w' => later (mem w) (mem w')) w ->
  run E p w = (Done tt, w') -> accounted (Desk w os ps) -> accounted (Desk w' os ps).
Proof.
  intros Hs Hab Hrun Ha. pose proof (wlp_both orderly p _ _ w (wlp_contract _ _ p _ w (orderly_stable level max_open) (Hs w)) Hab) as Hw.
  pose proof (wlp_run E orderly p _ w HE Hw) as Hr. rewrite Hrun in Hr. destruct Hr as [[Hh (l & Hb & Hl)] Hlater].
  apply (accounted_later w); [done..|by rewrite Hh|]. rewrite Hb. apply Forall_app. split; [done|apply (acc_bad _ Ha)].
Qed.

Lemma access_accounted w os ps p w' : served sizeof_proc_mounts level fuel (mem w) p \/ walk p ->
  run E p w = (Done tt, w') -> accounted (Desk w os ps) -> accounted (Desk w' os ps).
Proof.
  intros [Hp|Hp]; apply settled_accounted.
  - eapply access_settles, (served_access limit), Hp.
  - apply tame_liberal. by apply (served_returns sizeof_proc_mounts level max_open fuel max_open_fits max_open_fuel (mem w)).
  - by apply walk_settles.
  - by apply walk_abides.
Qed.

Lemma follow_accounted w os ps dentry p rest r q w' : ps ≡ₚ p :: rest ->
  run E (proc_pid_follow_link dentry p) w = (Done (r, q), w') -> accounted (Desk w os ps) -> accounted (Desk w' os (option_list q ++ rest)).
Proof.
  intros Ho Hrun Ha. pose proof (acc_held _ Ha) as Hh. cbn [now files ways] in Hh. rewrite (owed_left _ _ _ _ _ Ho) in Hh.
  pose proof (wlp_run E orderly _ _ w HE (proc_pid_follow_link_wlp dentry p _ w Hh)) as Hr. rewrite Hrun in Hr.
  destruct Hr as [[Hh' (k & Hb & Hk)] Hl]. cbn [snd] in Hh'.
  apply (accounted_later (World (mem w) (held w') (bad w') [])); cbn [mem held bad]; [|done..|].
  - split; cbn [now files ways mem held bad]; [rewrite Hh'; unfold owed|rewrite Hb; apply Forall_app; split; [done|apply (acc_bad _ Ha)]|apply (acc_files _ Ha)].
    destruct q; cbn; [by rewrite Permutation_middle|done].
  - rewrite Hb. apply Forall_app. split; [done|apply (acc_bad _ Ha)].
Qed.

Lemma goes_accounted s s' : goes s s' -> accounted s -> accounted s'.
Proof.
  destruct 1 as [w os ps p w' Hp Hrun|w os ps inode file t tab g r w' Hnew Hi Ht Hg Hrun Hfresh
    |w os ps inode file t tab Hnew Hi Ht Hg|w os ps inode file t tab g r w' rest Ho Ht Hg Hrun
    |w os ps file t tab rest Ho Ht Hg|w os ps file t tab rest Ho Ht Hg
    |w os ps dentry inode p rest r q w' Ho Hd Hi Hrun|w os ps p|w os ps p rest Ho|w os ps m Hl]; intros Ha.
  - by apply (access_accounted w os ps p w').
  - pose proof (wlp_run E orderly _ _ w HE (open_effect t tab g inode file w Ht Hg)) as Hr. rewrite Hrun in Hr.
    destruct Hr as [[Htook Hp] Hbeside]. by apply (open_accounted w).
  - destruct (no_open_cases t tab (mem w) file Ht Hg) as [Hown Hno]. destruct Ha as [Hh Hb [H1 H2 H3]]. split; [|done|].
    + unfold owed. cbn [now files ways flat_map]. by rewrite Hown.
    + cbn [now files] in *. split; [by apply NoDup_cons|..].
      * intros f t' [[= -> ->]|Hin]%elem_of_cons Ht'; [done|eauto].
      * intros f t1 f' t2 p [[= -> ->]|Hin]%elem_of_cons [[= -> ->]|Hin']%elem_of_cons Ht1 Ht2; [done..|eauto].
  - destruct (release_cases t tab g Ht Hg) as [Hm ->].
    pose proof (wlp_run E orderly _ _ w HE (wp_liberal _ _ _ _ (release_accounted w os ps inode file t rest Ha Ho Hm))) as Hr.
    by rewrite Hrun in Hr.
  - pose proof (accounted_owned _ _ _ _ _ Ha Ho) as Hh. rewrite (single_cases t tab _ file Ht Hg) in Hh.
    destruct (release_rest _ _ _ Hh) as [H1 H2]. apply (accounted_closed w _ os ps (file, t)); [done..| |].
    + exact H2.
    + rewrite (given_excused _ _ H1). apply (acc_bad _ Ha).
  - pose proof (accounted_owned _ _ _ _ _ Ha Ho) as Hh. rewrite (plain_cases t tab _ file Ht Hg) in Hh.
    apply (accounted_closed w _ os ps (file, t)); [done..|]. apply (acc_bad _ Ha).
  - by apply (follow_accounted w os ps dentry p rest r).
  - destruct Ha as [Hh Hb Hf]. split; [|done..]. cbn [now files ways] in *. unfold owed. cbn. rewrite Hh. unfold owed. by rewrite Permutation_middle.
  - pose proof (acc_held _ Ha) as Hh. cbn [now files ways] in Hh. rewrite (owed_left _ _ _ _ _ Ho) in Hh.
    destruct (release_rest _ _ _ Hh) as [H1 H2]. destruct Ha as [_ Hb Hf]. split; [exact H2| |exact Hf].
    cbn [now]. by rewrite (given_excused _ _ H1).
  - apply (accounted_later w); [done..|]. apply (acc_bad _ Ha).
Qed.

Lemma rtc_accounted s s' : rtc goes s s' -> accounted s -> accounted s'.
Proof. induction 1; eauto using goes_accounted. Qed.

(** C12: What is held has an owner. The files of /proc are opened, read,
    written, polled and released, its links are followed, in any order and any
    interleaving, with the rest of the kernel in between. Then, at every moment,
    the references held are exactly those of the open files - a mount file its
    cursor, its namespace and its root, a sequence file its sequence - and of the
    paths that walks have come to, no two mount files share a cursor, and no
    rule of the interface has been broken but for the lock that [pid_task]
    wants. When the last file is closed and no walk is under way, nothing is
    held. And every mount file can be released: [mounts_release] returns, and
    leaves the others what they own. *)
Theorem open_files_own_what_is_held s s' : accounted s -> rtc goes s s' ->
  accounted s' /\ (files s' = [] -> ways s' = [] -> held (now s') = []) /\
  forall inode file t rest, files s' ≡ₚ (file, t) :: rest -> mounts_table t ->
    ends E (mounts_release inode file) (now s') (fun _ w' => accounted (Desk w' rest (ways s'))).
Proof.
  intros Ha Hs. pose proof (rtc_accounted _ _ Hs Ha) as Ha'. split; [done|]. split.
  - intros Hf Hp. pose proof (acc_held _ Ha') as Hh. rewrite Hf, Hp in Hh. by apply Permutation_nil_r in Hh.
  - intros inode file t rest Ho Ht. apply (wp_ends _ _ _ _ _ HE). destruct s' as [w os ps]. by apply (release_accounted w os ps inode file t).
Qed.
End Env.
End Handles.

(** ** Witness

    Two mount files of process 1 are opened, the first is polled, a walk sets
    out, and the first is released. *)
Definition desk_env : env := fun o tr m =>
  match o return ans o * kmem with
  | GetProcTask _ => (Some 1%nat, m)
  | TaskNsproxy _ => (Some 2%nat, m)
  | Kmalloc _ => (Some (10 + length tr)%nat, m)
  | o => shallow_env o tr m
  end.

Lemma desk_env_orderly : keeps desk_env (orderly (fun _ => 0%nat) 0).
Proof. intros o tr m. destruct o; try exact (shallow_env_orderly _ tr m); by destruct m. Qed.

Definition desk_mem : kmem :=
  Kmem 0 {[ 1%nat := Task 1 [] 0 (Some 8%nat) None 0 0 0 0 0 false 0 inhabitant 0 0 0 [] 0 [] ]} ∅ ∅
    {[ 8%nat := Fs (Path 7 7) inhabitant ]}
    {[ 3%nat := File 0 0 0 (Path 0 12) 0 PrivNone; 4%nat := File 0 0 0 (Path 0 13) 0 PrivNone ]}
    {[ 20%nat := set_i_fop (Some proc_mounts_operations) inhabitant; 21%nat := set_i_fop (Some proc_mountinfo_operations) inhabitant ]}
    {[ 12%nat := Dentry (str "mounts") (Some 20%nat) None 0; 13%nat := Dentry (str "mountinfo") (Some 21%nat) None 0 ]} ∅ ∅ ∅
    {[ 2%nat := Some 6%nat ]} {[ 6%nat := 5 ]} ∅ ∅ HookDummy.

Definition desk_w1 : world := snd (run desk_env (mounts_open 56 20%nat 3%nat) (world0 desk_mem)).
Definition desk_w2 : world := snd (run desk_env (mountinfo_open 56 21%nat 4%nat) desk_w1).
Definition desk_w3 : world := snd (run desk_env (ignoring (mounts_poll 3%nat)) desk_w2).
Definition desk_w5 : world := snd (run desk_env (mounts_release 20%nat 3%nat) (taken (RPath (Path 1 2)) desk_w3)).
Definition desk_end : desk := Desk desk_w5 [(4%nat, proc_mountinfo_operations)] [Path 1 2].

Lemma desk_goes : rtc (@goes arch32 config_all 100 56 (fun _ => 0%nat) 10 desk_env) (Desk (world0 desk_mem) [] []) desk_end.
Proof.
  eapply rtc_l; [|eapply rtc_l; [|eapply rtc_l; [|eapply rtc_l; [|eapply rtc_once]]]].
  - eapply (@G_open arch32 config_all 100 56 (fun _ => 0%nat) 10 desk_env (world0 desk_mem) [] [] 20%nat 3%nat proc_mounts_operations _ _ 0 desk_w1);
      [by intros ?%elem_of_nil|reflexivity..|vm_compute; reflexivity|by intros _ p _ ?%elem_of_nil].
  - eapply (@G_open arch32 config_all 100 56 (fun _ => 0%nat) 10 desk_env desk_w1 _ [] 21%nat 4%nat proc_mountinfo_operations _ _ 0 desk_w2);
      [|vm_compute; reflexivity|reflexivity..|vm_compute; reflexivity|].
    + apply (bool_decide_unpack _). vm_compute. exact I.
    + intros _ p. vm_compute. intros [= <-] Hin. do 3 (apply elem_of_cons in Hin as [Hin|Hin]; [discriminate|]). by apply elem_of_nil in Hin.
  - apply (@G_access arch32 config_all 100 56 (fun _ => 0%nat) 10 desk_env desk_w2 _ [] (ignoring (mounts_poll 3%nat)) desk_w3).
    + left. apply (@V_poll arch32 config_all 56 (fun _ => 0%nat) 10 (mem desk_w2) 3%nat 20%nat mounts_poll 21%nat); [vm_compute; reflexivity| |vm_compute; reflexivity].
      eexists _, _. split; [vm_compute; reflexivity|]. split; reflexivity.
    + vm_compute. reflexivity.
  - apply G_path_get.
  - eapply (@G_release arch32 config_all 100 56 (fun _ => 0%nat) 10 desk_env _ _ _ 20%nat 3%nat proc_mounts_operations _ _ 0 desk_w5);
      [apply Permutation_swap|reflexivity..|vm_compute; reflexivity].
Qed.

Lemma open_files_own_what_is_held_witness :
  held (now desk_end) = [RPath (Path 1 2); RMem 34; RPath (Path 7 7); RMntNs 6] /\ accounted desk_end /\
  ends desk_env (mounts_release 21%nat 4%nat) (now desk_end) (fun _ w' => accounted (Desk w' [] [Path 1 2])).
Proof.
  assert (Hstart : accounted (Desk (world0 desk_mem) [] [])).
  { split; [done|done|]. split; [apply NoDup_nil_2|by intros f t ?%elem_of_nil|by intros f t f' t' p ?%elem_of_nil]. }
  split; [vm_compute; reflexivity|].
  destruct (@open_files_own_what_is_held arch32 config_all 100 56 (fun _ => 0%nat) 0 10 desk_env desk_env_orderly
    ltac:(lia) ltac:(cbn; lia) _ _ Hstart desk_goes) as (H1 & _ & H3).
  split; [exact H1|]. apply (H3 21%nat 4%nat proc_mountinfo_operations []); [done|]. right. by left.
Defined.
